(* ===== verification/_CoqProject ===== *)
-Q . S2P
Prelude.v
Bytes.v
Inet.v
Candidate.v
Framing.v
Stun.v
Turn.v
PathMtu.v
MdnsCodec.v
Mdns.v
DnsExt.v
SessionState.v
Delivery.v
CheckList.v
CheckLoop.v
CheckBuild.v
CheckBounds.v
Gather.v
Session.v
Exchange.v
Nomination.v
Lifecycle.v
Recovery.v
LinkConfig.v
SessionInv.v
SessionRun.v
CheckFrame.v
Relay.v
RelayCalls.v
RelayPath.v
MdnsHost.v
PeerKey.v
Link.v
LinkRegistry.v
LinkSignal.v
LinkLife.v
HostLink.v
Host.v
HostInv.v
HostRoute.v
HostPair.v
Plugin.v
Watcher.v
Portmap.v
