(* ===== verification/Prelude.v ===== *)
(** * A model of the ICE link plugin

    The plugin connects two hosts through NATs.  A _link_ (link_ice) owns one
    _session_ (session) for each connection.  A session gathers candidate addresses
    (its interfaces, STUN servers, a port-mapping router, TURN relays, mDNS names),
    exchanges them with the peer as signals, checks candidate pairs with STUN
    messages, agrees with the peer on one pair and carries data over it.  The plugin
    entry (plugin_entry) exposes the link to the kernel, to composers (plugins layered
    on the link) and to the bridge that transports the signals.

    ** Conventions

    Machine integers are [Z]; every conversion to a narrower type is written out
    ([u8] .. [u64]).  Byte buffers are [list Z].  In the decoders of [Bytes],
    [Candidate], [Stun], [MdnsCodec] and [DnsExt] the outer [None] is a read outside
    the buffer, of one byte or of a range of them ([read_bytes]), and the inner option
    or boolean is what the source returns.  Stateful
    classes are records; a method is a computation [eff S E A] over the record that
    returns a value and lists its effects (packets, callbacks, timers) in order.  A
    component's inputs (API calls, packets, timer expiries, answers of other
    components) are an inductive type with a handler ([turn_run], [mdns_run],
    [session_run], [relay_run], [named_run], [link_run], [host_run]), so that a theorem
    over a list of inputs covers every order in which they can arrive.

    ** Files

    - [Prelude]: integers, record update, the effect monad, the relations [keeps],
      [traces] and [safe] with their tactics, the hint database [ice].
    - [Bytes], [Inet]: big-endian reads and writes; [inet_pton]/[inet_ntop] as the
      class [InetOps] with the documented laws [InetLaws] and the instance [InetRef].
    - [Candidate]: candidate.hpp, the types, priorities and the signal codec.
    - [Framing]: the two-byte frames of turn.cpp.
    - [Stun]: stun.hpp/.cpp; HMAC-SHA1 is the class [Hmac].
    - [Turn]: turn.hpp/.cpp, class TurnClient; MD5 is a parameter.
    - [PathMtu]: path_mtu.hpp/.cpp.
    - [MdnsCodec], [Mdns]: mdns.hpp/.cpp, the wire format and class MdnsManager.
    - [DnsExt]: dns_ext_client.hpp/.cpp.
    - [SessionState], [Delivery], [CheckList], [Gather], [Session]: session.hpp/.cpp,
      the members, the data plane, the checks, gathering, and the rest of the handlers.
    - [CheckLoop], [CheckBuild], [CheckBounds], [Exchange], [Nomination], [Lifecycle],
      [Recovery]: theorems about sessions and about pairs of sessions.
    - [SessionInv], [SessionRun]: the invariant of a session, and that every handler
      keeps it.
    - [CheckFrame]: what checks leave alone.
    - [Relay]: a session with its primary, backup and replaced TURN clients, session.cpp
      with turn.cpp; [RelayCalls], [RelayPath]: theorems about them together.
    - [MdnsHost]: sessions with the mDNS manager they share, session.cpp with mdns.cpp.
    - [LinkConfig], [PeerKey], [Link]: link_ice.hpp/.cpp, the configuration, the keys in
      URIs, class IceLink.
    - [LinkRegistry], [LinkSignal], [LinkLife]: theorems about links.
    - [Host]: the link with the sessions it makes, [make_callbacks] and
      [make_composer_callbacks] of link_ice.cpp; [HostLink], [HostInv], [HostRoute]:
      theorems about the two together; [HostPair]: two hosts that meet.
    - [Plugin]: plugin_entry.cpp, the thunks, the tables and the life of the plugin.
    - [Watcher]: interface_watcher.hpp/.cpp.
    - [Portmap]: portmap_ext_client.hpp/.cpp.

    ** What the theorems show

    - Codecs.  What is encoded is decoded: signals, STUN messages, XOR addresses, DNS
      messages, peer keys, frames.  The decoders never read outside their input
      ([deserialize_signal_safe], [parse_stun_safe], [parse_dns_message_safe]), except
      [verify_integrity] ([verify_integrity_overread]).
    - TURN.  Framing is transparent to how the stream is cut, the two channel tables
      are inverse while the channel counter has not wrapped, an authentication
      challenge is answered.
    - Path MTU.  The search terminates with a size that passes, the top of the ladder or
      within eight bytes of the path's MTU.
    - mDNS and DNS.  Every resolution calls back exactly once; the SRV targets are those
      of the well-formed records, sorted.
    - Checks.  The check list holds exactly the compatible and the predicted pairs, by
      decreasing priority, with the right initial states; without answers the checks end
      and the session fails; the list and the number of checks under way are bounded.
    - Sessions.  In every run the candidates can be signalled, pairs join addresses of
      one family within their budget of transmissions, parked data and the counters of
      consent losses respect their limits, the path MTU stays in range and connections
      lead back to their endpoints ([session_invariant]).
    - Two sessions.  A nominating check connects both and sends the data parked for the
      connection ([parked_data_flushed]), a role conflict is resolved unless checks
      cross, consent expires, [close] is final.
    - A session and its TURN clients.  A session that is closed or restarted gives back
      every allocation its clients hold ([close_gives_back]); a challenge and a grant of
      the server make TURN gathering end with a relayed candidate
      ([relay_gathering_completes]); what one session sends on a relayed path the other
      delivers ([relayed_data_arrives]).
    - Sessions and their mDNS manager.  A candidate known by a name becomes candidates
      at the addresses of the peer that made the name ([mdns_candidate_resolves]); the
      manager and the sessions run as they do by themselves ([named_run_parts]).
    - Link and sessions.  In every run an id names a session made for it and for its
      peer, no two sessions report under one id, all sessions have configurations in
      range and satisfy their invariant ([host_invariant]); data goes between an id and
      its session only ([host_routing]).  [two_hosts_meet] runs two hosts from
      [connect] to data.
    - Link.  The registry's indexes agree in every reachable state
      ([registry_invariant]), the signal queues refine an abstract queue per peer, an
      offer and its answer carry each side's credentials and candidates to the other,
      frames given to one link reach the host of the other in order unless they begin
      with the magic cookie of STUN, shutdown is final but for reads of the configuration.
    - Plugin.  [register] publishes what the descriptor announces and [unregister]
      takes it back.
    - Flaws.  Some theorems state what the code does where it is not what it means:
      [build_check_list_self_deadlock], [recovery_never_nominates],
      [keepalive_unanswered], [role_conflict_crossing], [verify_integrity_overread],
      [reorder_overflow_stalls]; lemmas such as [shared_server_deaf],
      [stream_frame_in_datagram], [late_allocation_adopted], [cookie_frame_swallowed],
      [third_address_stale], [composer_table_deaf], [upper_case_peer],
      [disconnect_told_twice], [reload_forgets_topology], [capabilities_ignore_mtu] and
      [watcher_use_after_free] state others.  The build of the check list locks a mutex
      twice; locking is an effect in the model and does not block, so the theorems
      about checks describe the code with that lock taken once.

    ** Bounds and fuel

    Loops over buffers take fuel: [take_frames] the length of the buffer, each frame
    being at least two bytes; [decode_name_loop] more than the length of the record;
    [decode_labels] 300 steps, above the 16 jumps and 255 bytes a name may have.
    [take_frames_fuel], [decode_name_loop_safe] and [decode_labels_total] prove that
    this is enough.  [checks_terminate] bounds the ticks of the pacing timer by pairs,
    retransmissions and the longest back-off.  [turn_channels_inverse] takes fewer than
    49152 bindings, after which the channel counter wraps.  [registry_invariant],
    [host_invariant] and [host_routing] take fewer than [2 ^ 63 - 1] inputs, so that the
    counter of composer ids stays below their tag bit.

    ** Not modelled

    - Threads, locks and the io_context.  A handler is atomic; the code serialises
      sessions on strands, and the link holds a mutex.  The one mutex a handler takes
      twice is an effect.  Data races are out of scope.
    - In [Link], sessions are handles: calls on them are effects, and their callbacks
      are inputs; [Host] puts the two together.  In [Session], the TURN clients and the
      mDNS manager are called by effects and answer by inputs; [Relay] puts a session
      and its TURN clients together, and [MdnsHost] sessions and the manager.  A handler
      in [Relay] reads the clients through the session's pointers ([look]), and its calls
      on them take effect when it has ended.  A client that was replaced may be told
      anything its connection could still bring, until it is destroyed.
    - Sockets, netlink, interface enumeration, the random generator, HMAC, MD5, the SDK
      and the other plugins: inputs, or operations of a class with documented laws.
    - Exceptions; failed allocation but for that of the plugin; logging, but for the
      line an automatic restart is reported with, and dbg.hpp; the [*_for_test] entry
      points; [resolve_sync], a blocking wrapper. *)


From stdpp Require Export base list numbers option strings pretty sorting.
From Stdlib Require Export ZArith Lia ZifyNat.

#[global] Open Scope Z_scope.

(** * Development-wide automation *)

Create HintDb ice.

#[global] Instance nat_gt_dec : RelDecision gt.
Proof. intros x y. unfold gt. apply _. Defined.
#[global] Instance nat_ge_dec : RelDecision ge.
Proof. intros x y. unfold ge. apply _. Defined.

(** * Machine integers

    A [w]-bit unsigned integer is a [Z] in [0, 2^w); a C++ conversion to such a
    type is the reduction modulo [2^w]. *)

Definition u8 (z : Z) : Z := z mod 2 ^ 8.
Definition u16 (z : Z) : Z := z mod 2 ^ 16.
Definition u32 (z : Z) : Z := z mod 2 ^ 32.
Definition u64 (z : Z) : Z := z mod 2 ^ 64.

Definition is_u8 (z : Z) : Prop := 0 ≤ z < 2 ^ 8.
Definition is_u16 (z : Z) : Prop := 0 ≤ z < 2 ^ 16.
Definition is_u32 (z : Z) : Prop := 0 ≤ z < 2 ^ 32.
Definition is_u64 (z : Z) : Prop := 0 ≤ z < 2 ^ 64.

#[global] Instance is_u8_dec z : Decision (is_u8 z).
Proof. unfold is_u8. apply _. Defined.
#[global] Instance is_u16_dec z : Decision (is_u16 z).
Proof. unfold is_u16. apply _. Defined.
#[global] Instance is_u32_dec z : Decision (is_u32 z).
Proof. unfold is_u32. apply _. Defined.
#[global] Instance is_u64_dec z : Decision (is_u64 z).
Proof. unfold is_u64. apply _. Defined.

(** Unfold the integer vocabulary and compute the powers of two. *)
Ltac unfold_ints :=
  unfold is_u8, is_u16, is_u32, is_u64, u8, u16, u32, u64 in *;
  change (2 ^ 8) with 256 in *; change (2 ^ 16) with 65536 in *;
  change (2 ^ 32) with 4294967296 in *;
  change (2 ^ 64) with 18446744073709551616 in *.

(** Reduce the binds of the option monad, and nothing else. *)
Ltac sbind := cbn [mbind option_bind].

Lemma bind_some {A B} (f : A → option B) (x : A) : Some x ≫= f = f x.
Proof. reflexivity. Qed.

(** Open every successful bind among the hypotheses. *)
Ltac inv_bind :=
  repeat match goal with
  | H : mbind _ _ = Some _ |- _ => apply bind_Some in H; destruct H as (? & ? & H)
  end; simplify_eq.

(** Linear arithmetic with division and remainder by literals. *)
Ltac zify_lia := unfold_ints; Z.div_mod_to_equations; lia.

(** The same for goals over [nat]. *)
Ltac dm_lia := zify; Z.div_mod_to_equations; lia.

Lemma u8_range z : is_u8 (u8 z).
Proof. apply Z.mod_pos_bound. lia. Qed.
Lemma u16_range z : is_u16 (u16 z).
Proof. apply Z.mod_pos_bound. lia. Qed.
Lemma u32_range z : is_u32 (u32 z).
Proof. apply Z.mod_pos_bound. lia. Qed.
Lemma u64_range z : is_u64 (u64 z).
Proof. apply Z.mod_pos_bound. lia. Qed.
Lemma u8_id z : is_u8 z → u8 z = z.
Proof. apply Z.mod_small. Qed.
Lemma u16_id z : is_u16 z → u16 z = z.
Proof. apply Z.mod_small. Qed.
Lemma u32_id z : is_u32 z → u32 z = z.
Proof. apply Z.mod_small. Qed.
Lemma u64_id z : is_u64 z → u64 z = z.
Proof. apply Z.mod_small. Qed.
#[export] Hint Resolve u8_range u16_range u32_range u64_range : ice.

(** Placing a [k]-bit field below a shifted one is an addition. *)
Lemma lor_shiftl_add (a b k : Z) :
  0 ≤ k → 0 ≤ b < 2 ^ k → Z.lor (Z.shiftl a k) b = a * 2 ^ k + b.
Proof.
  intros Hk Hb. rewrite <- Z.shiftl_mul_pow2 by done.
  symmetry. apply Z.add_nocarry_lor.
  apply Z.bits_inj'. intros n Hn. rewrite Z.land_spec, Z.bits_0.
  destruct (decide (n < k)).
  - by rewrite Z.shiftl_spec_low by lia.
  - rewrite <- (Z.mod_small b (2 ^ k)) by lia.
    rewrite Z.mod_pow2_bits_high by lia. apply andb_false_r.
Qed.

Lemma lxor_range (a b k : Z) :
  0 ≤ k → 0 ≤ a < 2 ^ k → 0 ≤ b < 2 ^ k → 0 ≤ Z.lxor a b < 2 ^ k.
Proof.
  intros Hk Ha Hb. assert (Z.lxor a b = Z.lxor a b mod 2 ^ k) as ->;
    [|apply Z.mod_pos_bound; lia].
  apply Z.bits_inj'. intros n Hn. destruct (decide (n < k)).
  - by rewrite Z.mod_pow2_bits_low by lia.
  - rewrite Z.mod_pow2_bits_high, Z.lxor_spec by lia.
    rewrite <- (Z.mod_small a (2 ^ k)), <- (Z.mod_small b (2 ^ k)) by lia.
    by rewrite !Z.mod_pow2_bits_high by lia.
Qed.

Lemma lxor_cancel a b : Z.lxor (Z.lxor a b) b = a.
Proof. by rewrite Z.lxor_assoc, Z.lxor_nilpotent, Z.lxor_0_r. Qed.

(** * Record update

    [r <| f := v |>] is the record [r] with its field [f] replaced.  A record
    type takes part by an [Eta] instance that rebuilds it from its fields. *)

Class Eta (R : Type) := eta : R → R.
Class SetField {R T : Type} (f : R → T) := set_field : T → R → R.
Arguments set_field {R T} f {_} v r /.

Ltac build_set_field f :=
  match goal with
  | |- @SetField ?R ?T _ =>
      let v := fresh "v" in let r := fresh "r" in
      intros v r;
      let e := eval hnf in (@eta R _ r) in
      let p := eval pattern (f r) in e in
      match p with
      | ?g _ => let t := eval cbv beta in (g v) in exact t
      end
  end.

#[global] Hint Extern 1 (SetField ?f) => build_set_field f : typeclass_instances.

Declare Scope record_scope.
Delimit Scope record_scope with rec.
#[global] Open Scope record_scope.
Notation "r <| f := v |>" := (set_field f v r)
  (at level 1, left associativity, f at next level, v at level 200,
   format "r <| f  :=  v |>") : record_scope.

(** * Effects

    A handler of the sources reads and updates its object and performs outputs
    (sends, callbacks, timers).  [eff S E A] threads the object's state and
    accumulates the outputs in order. *)

Record eff (S E A : Type) := Eff { run : S → A * S * list E }.
Arguments Eff {S E A} _.
Arguments run {S E A} _ _.

#[global] Instance eff_ret {S E} : MRet (eff S E) := λ A a, Eff (λ s, (a, s, [])).
#[global] Instance eff_bind {S E} : MBind (eff S E) := λ A B f m, Eff (λ s,
  let '(a, s1, o1) := run m s in
  let '(b, s2, o2) := run (f a) s1 in
  (b, s2, o1 ++ o2)).

Definition get {S E} : eff S E S := Eff (λ s, (s, s, [])).
Definition modify {S E} (f : S → S) : eff S E unit := Eff (λ s, (tt, f s, [])).
Definition emit {S E} (e : E) : eff S E unit := Eff (λ s, (tt, s, [e])).
Definition skip {S E} : eff S E unit := mret tt.

(** Resulting state and outputs. *)
Definition exec {S E A} (m : eff S E A) (s : S) : S * list E :=
  let '(_, s', o) := run m s in (s', o).
Definition final {S E A} (m : eff S E A) (s : S) : S := (exec m s).1.
Definition outputs {S E A} (m : eff S E A) (s : S) : list E := (exec m s).2.

(** Two computations with the same results everywhere. *)
Definition eff_equiv {S E A} (m1 m2 : eff S E A) : Prop := ∀ s, run m1 s = run m2 s.

#[global] Instance eff_equiv_equivalence {S E A} : Equivalence (@eff_equiv S E A).
Proof. split; unfold eff_equiv; [done|congruence|congruence]. Qed.

Lemma eff_bind_assoc {S E A B C} (m : eff S E A) (f : A → eff S E B) (g : B → eff S E C) :
  eff_equiv ((m ≫= f) ≫= g) (m ≫= λ a, f a ≫= g).
Proof.
  intros s. unfold mbind, eff_bind; simpl.
  destruct (run m s) as [[a s1] o1]. destruct (run (f a) s1) as [[b s2] o2].
  destruct (run (g b) s2) as [[c s3] o3]. by rewrite app_assoc.
Qed.

#[global] Instance eff_bind_proper {S E A B} :
  Proper (pointwise_relation A eff_equiv ==> eff_equiv ==> eff_equiv)
    (@mbind (eff S E) _ A B).
Proof.
  intros f g Hf m n Hm s. unfold mbind, eff_bind; simpl. rewrite Hm.
  destruct (run n s) as [[a s1] o1]. by rewrite (Hf a).
Qed.

(** Perform [f] on the elements of a list, in order. *)
Fixpoint for_each {S E A} (f : A → eff S E unit) (l : list A) : eff S E unit :=
  match l with
  | [] => skip
  | a :: l => f a ;; for_each f l
  end.

Lemma for_each_app {S E A} (f : A → eff S E unit) l1 l2 :
  eff_equiv (for_each f (l1 ++ l2)) (for_each f l1 ;; for_each f l2).
Proof.
  induction l1 as [|a l1 IH]; cbn [for_each app].
  - intros s. unfold mbind, eff_bind; simpl. by destruct (run _ s) as [[[] ?] ?].
  - etrans; [|symmetry; apply eff_bind_assoc].
    apply eff_bind_proper; [|done]. intros []. exact IH.
Qed.

(** ** Running sequences *)

Lemma run_bind {S E A B} (m : eff S E A) (f : A → eff S E B) s :
  run (m ≫= f) s =
    let '(a, s1, o1) := run m s in let '(b, s2, o2) := run (f a) s1 in (b, s2, o1 ++ o2).
Proof. done. Qed.

Lemma run_get {S E B} (f : S → eff S E B) s : run (get ≫= f) s = run (f s) s.
Proof. rewrite run_bind. simpl. by destruct (run (f s) s) as [[? ?] ?]. Qed.

Lemma run_modify {S E B} (g : S → S) (f : unit → eff S E B) s :
  run (modify g ≫= f) s = run (f tt) (g s).
Proof. rewrite run_bind. simpl. by destruct (run (f tt) (g s)) as [[? ?] ?]. Qed.

Lemma run_ret {S E A B} (a : A) (f : A → eff S E B) s : run (mret a ≫= f) s = run (f a) s.
Proof. rewrite run_bind. simpl. by destruct (run (f a) s) as [[? ?] ?]. Qed.

Lemma final_get {S E B} (f : S → eff S E B) s : final (get ≫= f) s = final (f s) s.
Proof. unfold final, exec. by rewrite run_get. Qed.

Lemma final_modify {S E B} (g : S → S) (f : unit → eff S E B) s :
  final (modify g ≫= f) s = final (f tt) (g s).
Proof. unfold final, exec. by rewrite run_modify. Qed.

Lemma final_bind {S E A B} (m : eff S E A) (f : A → eff S E B) s :
  final (m ≫= f) s = final (f (run m s).1.1) (final m s).
Proof.
  unfold final, exec. rewrite run_bind. destruct (run m s) as [[a s1] o1]. simpl.
  by destruct (run (f a) s1) as [[b s2] o2].
Qed.

Lemma outputs_get {S E B} (f : S → eff S E B) s : outputs (get ≫= f) s = outputs (f s) s.
Proof. unfold outputs, exec. by rewrite run_get. Qed.

Lemma outputs_modify {S E B} (g : S → S) (f : unit → eff S E B) s :
  outputs (modify g ≫= f) s = outputs (f tt) (g s).
Proof. unfold outputs, exec. by rewrite run_modify. Qed.

Lemma outputs_bind {S E A B} (m : eff S E A) (f : A → eff S E B) s :
  outputs (m ≫= f) s = outputs m s ++ outputs (f (run m s).1.1) (final m s).
Proof.
  unfold outputs, final, exec. rewrite run_bind. destruct (run m s) as [[a s1] o1]. simpl.
  by destruct (run (f a) s1) as [[b s2] o2].
Qed.

Lemma exec_bind {S E A B} (m : eff S E A) (f : A → eff S E B) s :
  exec (m ≫= f) s =
    let '(a, s1, o1) := run m s in let '(s2, o2) := exec (f a) s1 in (s2, o1 ++ o2).
Proof.
  unfold exec. rewrite run_bind. destruct (run m s) as [[a s1] o1].
  by destruct (run (f a) s1) as [[b s2] o2].
Qed.

Lemma final_for_each_cons {S E A} (f : A → eff S E unit) a l s :
  final (for_each f (a :: l)) s = final (for_each f l) (final (f a) s).
Proof.
  unfold final, exec. cbn [for_each]. rewrite run_bind.
  destruct (run (f a) s) as [[[] s1] o1]. simpl.
  by destruct (run (for_each f l) s1) as [[b s2] o2].
Qed.

Lemma outputs_for_each_cons {S E A} (f : A → eff S E unit) a l s :
  outputs (for_each f (a :: l)) s = outputs (f a) s ++ outputs (for_each f l) (final (f a) s).
Proof.
  unfold outputs, final, exec. cbn [for_each]. rewrite run_bind.
  destruct (run (f a) s) as [[[] s1] o1]. simpl.
  by destruct (run (for_each f l) s1) as [[b s2] o2].
Qed.

Lemma outputs_for_each_app {S E A} (f : A → eff S E unit) l1 l2 s :
  outputs (for_each f (l1 ++ l2)) s
  = outputs (for_each f l1) s ++ outputs (for_each f l2) (final (for_each f l1) s).
Proof.
  pose proof (outputs_bind (for_each f l1) (λ _, for_each f l2) s) as <-.
  unfold outputs, exec. by rewrite (for_each_app f l1 l2 s).
Qed.
Lemma final_for_each_app {S E A} (f : A → eff S E unit) l1 l2 s :
  final (for_each f (l1 ++ l2)) s = final (for_each f l2) (final (for_each f l1) s).
Proof.
  pose proof (final_bind (for_each f l1) (λ _, for_each f l2) s) as <-.
  unfold final, exec. by rewrite (for_each_app f l1 l2 s).
Qed.

(** Emitting for a list. *)
Lemma outputs_emit_each {S E A} (f : A → E) xs (s : S) :
  outputs (for_each (λ x, emit (f x)) xs) s = f <$> xs ∧ final (for_each (λ x, emit (f x)) xs) s = s.
Proof.
  induction xs as [|x xs [IHo IHf]]; [done|].
  rewrite outputs_for_each_cons, final_for_each_cons. change (final (emit (f x)) s) with s.
  by rewrite IHo, IHf.
Qed.

(** ** Frames

    [keeps R m]: running [m] relates the state before to the state after by the
    preorder [R].  The property composes, so the automation of [keeps_auto]
    proves it for a handler from its primitive updates. *)

Definition keeps {S E A} (R : S → S → Prop) (m : eff S E A) : Prop :=
  ∀ s, R s (final m s).

Section keeps.
Context {S E : Type} (R : S → S → Prop) `{!PreOrder R}.

Lemma keeps_bind {A B} (m : eff S E A) (f : A → eff S E B) :
  keeps R m → (∀ a, keeps R (f a)) → keeps R (m ≫= f).
Proof.
  intros Hm Hf s. specialize (Hm s). unfold final, exec in *. rewrite run_bind.
  destruct (run m s) as [[a s1] o1]. specialize (Hf a s1). unfold final, exec in *.
  destruct (run (f a) s1) as [[b s2] o2]. simpl in *. by etrans.
Qed.
Lemma keeps_ret {A} (a : A) : keeps R (mret (M := eff S E) a).
Proof. intros s. reflexivity. Qed.
Lemma keeps_get : keeps R (@get S E).
Proof. intros s. reflexivity. Qed.
Lemma keeps_emit (e : E) : keeps R (emit e).
Proof. intros s. reflexivity. Qed.
Lemma keeps_skip : keeps R (@skip S E).
Proof. intros s. reflexivity. Qed.
Lemma keeps_modify (f : S → S) : (∀ s, R s (f s)) → keeps R (@modify S E f).
Proof. intros Hf s. apply Hf. Qed.
Lemma keeps_for_each {A} (f : A → eff S E unit) l :
  (∀ a, keeps R (f a)) → keeps R (for_each f l).
Proof.
  intros Hf. induction l as [|a l IH]; [apply keeps_skip|]. by apply keeps_bind.
Qed.
End keeps.

#[export] Hint Resolve keeps_ret keeps_get keeps_emit keeps_skip : ice.

(** Decompose a handler down to its updates, each closed by [tac]. *)
Ltac keeps_auto tac :=
  repeat match goal with
    | |- ∀ _, _ => intro
    | |- keeps _ (_ ≫= _) => apply keeps_bind; [exact _| |]
    | |- keeps _ (mret _) => apply keeps_ret; exact _
    | |- keeps _ get => apply keeps_get; exact _
    | |- keeps _ (emit _) => apply keeps_emit; exact _
    | |- keeps _ skip => apply keeps_skip; exact _
    | |- keeps _ (for_each _ _) => apply keeps_for_each; [exact _|]
    | |- keeps _ (modify _) => apply keeps_modify; solve [tac]
    | |- keeps _ (let _ := _ in _) => cbv zeta
    | |- _ => solve [auto with ice]
    | |- _ => case_match
    end.

(** [traces T m]: whatever the state, [T] relates it to the outputs of [m] and the
    state after.  [T] composes like a trace: [keeps] with the outputs in view. *)
Class TraceOrder {S E} (T : S → list E → S → Prop) : Prop := {
  trace_refl s : T s [] s;
  trace_trans s1 o1 s2 o2 s3 : T s1 o1 s2 → T s2 o2 s3 → T s1 (o1 ++ o2) s3;
}.

Definition traces {S E A} (T : S → list E → S → Prop) (m : eff S E A) : Prop :=
  ∀ s, T s (outputs m s) (final m s).

Section traces.
Context {S E : Type} (T : S → list E → S → Prop) `{!TraceOrder T}.

Lemma traces_bind {A B} (m : eff S E A) (f : A → eff S E B) :
  traces T m → (∀ a, traces T (f a)) → traces T (m ≫= f).
Proof.
  intros Hm Hf s. rewrite outputs_bind, final_bind.
  eapply trace_trans; [apply Hm | apply Hf].
Qed.
Lemma traces_ret {A} (a : A) : traces T (mret (M := eff S E) a).
Proof. intros s. apply trace_refl. Qed.
Lemma traces_get : traces T (@get S E).
Proof. intros s. apply trace_refl. Qed.
Lemma traces_skip : traces T (@skip S E).
Proof. intros s. apply trace_refl. Qed.
Lemma traces_emit (e : E) : (∀ s, T s [e] s) → traces T (@emit S E e).
Proof. intros He s. apply He. Qed.
Lemma traces_modify (f : S → S) : (∀ s, T s [] (f s)) → traces T (@modify S E f).
Proof. intros Hf s. apply Hf. Qed.
Lemma traces_for_each {A} (f : A → eff S E unit) l :
  (∀ a, traces T (f a)) → traces T (for_each f l).
Proof.
  intros Hf. induction l as [|a l IH]; [apply traces_skip|]. by apply traces_bind.
Qed.
End traces.

Ltac traces_auto tac :=
  repeat match goal with
    | |- ∀ _, _ => intro
    | |- traces _ (_ ≫= _) => apply traces_bind; [exact _| |]
    | |- traces _ (mret _) => apply traces_ret; exact _
    | |- traces _ get => apply traces_get; exact _
    | |- traces _ skip => apply traces_skip; exact _
    | |- traces _ (emit _) => apply traces_emit; solve [tac]
    | |- traces _ (for_each _ _) => apply traces_for_each; [exact _|]
    | |- traces _ (modify _) => apply traces_modify; solve [tac]
    | |- traces _ (let _ := _ in _) => cbv zeta
    | |- _ => solve [auto with ice]
    | |- _ => case_match
    end.

(** [safe I Q m]: from a state where [I] holds, [m] keeps it and outputs only what [Q]
    allows. *)
Definition safe {S E} (I : S → Prop) (Q : E → Prop) {A} (m : eff S E A) : Prop :=
  ∀ s, I s → I (final m s) ∧ Forall Q (outputs m s).

Section safe.
Context {S E : Type} (I : S → Prop) (Q : E → Prop).

Lemma safe_bind {A B} (m : eff S E A) (f : A → eff S E B) :
  safe I Q m → (∀ a, safe I Q (f a)) → safe I Q (m ≫= f).
Proof.
  intros Hm Hf s Hs. rewrite final_bind, outputs_bind, Forall_app.
  destruct (Hm s Hs) as [Hs1 Ho]. destruct (Hf (run m s).1.1 _ Hs1). done.
Qed.
(** What is read satisfies the invariant too. *)
Lemma safe_get {B} (f : S → eff S E B) :
  (∀ s, I s → safe I Q (f s)) → safe I Q (get ≫= f).
Proof. intros Hf s Hs. rewrite final_get, outputs_get. by apply Hf. Qed.
Lemma safe_skip : safe I Q skip.
Proof. intros s Hs. split; [done|constructor]. Qed.
Lemma safe_ret {A} (a : A) : safe I Q (mret a).
Proof. intros s Hs. split; [done|constructor]. Qed.
Lemma safe_emit e : Q e → safe I Q (emit e).
Proof. intros He s Hs. split; [done|]. by repeat constructor. Qed.
Lemma safe_modify (f : S → S) : (∀ s, I s → I (f s)) → safe I Q (modify f).
Proof. intros Hf s Hs. split; [by apply Hf|constructor]. Qed.
Lemma safe_for_each {A} (f : A → eff S E unit) l :
  (∀ a, safe I Q (f a)) → safe I Q (for_each f l).
Proof. intros Hf. induction l as [|a l IH]; [apply safe_skip|]. by apply safe_bind. Qed.
Lemma safe_each {A} (P : A → Prop) (f : A → eff S E unit) xs :
  Forall P xs → (∀ x, P x → safe I Q (f x)) → safe I Q (for_each f xs).
Proof.
  intros Hx Hf. induction Hx as [|x xs Hp _ IH]; [apply safe_skip|]. apply safe_bind; auto.
Qed.
End safe.

(** * Sorting

    [std::sort] with a comparison function: an increasing permutation; the order
    of equivalent elements, which the standard leaves open, is that of a merge
    sort. *)

Definition not_after {A} (lt : A → A → bool) (a b : A) : Prop := lt b a = false.
#[global] Instance not_after_dec {A} (lt : A → A → bool) : RelDecision (not_after lt).
Proof. intros a b. unfold not_after. apply _. Defined.

Definition std_sort {A} (lt : A → A → bool) : list A → list A := merge_sort (not_after lt).

Lemma std_sort_perm {A} (lt : A → A → bool) l : std_sort lt l ≡ₚ l.
Proof. apply merge_sort_Permutation. Qed.

Lemma StronglySorted_impl {A} (R R' : A → A → Prop) l :
  (∀ a b, R a b → R' a b) → StronglySorted R l → StronglySorted R' l.
Proof.
  intros HR. induction 1 as [|a l _ IH Ha]; constructor; [done|].
  eapply Forall_impl; [exact Ha|]. apply HR.
Qed.

(** [lt] is a strict weak order when it is asymmetric and its complement is
    transitive. *)
Lemma std_sort_sorted {A} (lt : A → A → bool) l :
  (∀ a b, lt a b = true → lt b a = false) →
  (∀ a b c, lt b a = false → lt c b = false → lt c a = false) →
  StronglySorted (not_after lt) (std_sort lt l).
Proof.
  intros Hasym Htrans. apply StronglySorted_merge_sort.
  - intros a b c. apply Htrans.
  - intros a b. unfold not_after. destruct (lt a b) eqn:Hab; [left|right]; auto.
Qed.

(** * Byte strings

    [std::vector<uint8_t>], [std::span<const uint8_t>] and [std::string] are all
    lists of byte values. *)

Abbreviation bytes := (list Z).
Definition bytes_ok (l : bytes) : Prop := Forall is_u8 l.

(** A literal of the source, as its bytes. *)
Definition str (s : string) : bytes :=
  (λ a, Z.of_N (Ascii.N_of_ascii a)) <$> String.list_ascii_of_string s.

(** [std::to_string] of a non-negative integer. *)
Definition to_string (z : Z) : bytes := str (pretty (Z.to_N z)).

(** The bytes of a [char *] argument before its terminating NUL. *)
Fixpoint c_str (l : bytes) : bytes :=
  match l with
  | [] => []
  | b :: l' => if decide (b = 0) then [] else b :: c_str l'
  end.

(** [strnlen]-bounded read of a fixed-size [char] array. *)
Definition c_strn (n : nat) (l : bytes) : bytes := take n (c_str l).

(** Bytes [[off, off + len)] of a buffer. *)
Definition slice (d : bytes) (off len : nat) : bytes := take len (drop off d).

(** [while (v.size() % 4 != 0) v.push_back(0)]. *)
Definition pad4 (l : bytes) : bytes :=
  l ++ replicate ((4 - length l mod 4) mod 4)%nat 0.

(** [while (offset % 4 != 0) ++offset]. *)
Definition align4 (off : nat) : nat := (off + (4 - off mod 4) mod 4)%nat.

#[global] Instance str_inj : Inj (=) (=) str.
Proof.
  unfold str. intros s1 s2 H.
  rewrite <- (String.string_of_list_ascii_of_string s1),
    <- (String.string_of_list_ascii_of_string s2).
  f_equal. apply list_fmap_eq_inj in H; [done|].
  intros a1 a2 Ha. apply N2Z.inj in Ha.
  rewrite <- (Ascii.ascii_N_embedding a1), <- (Ascii.ascii_N_embedding a2).
  by f_equal.
Qed.

Lemma to_string_inj a b : 0 ≤ a → 0 ≤ b → to_string a = to_string b → a = b.
Proof.
  intros Ha Hb H. apply (inj str), (inj pretty) in H. lia.
Qed.

(** Decimal text consists of digits. *)
Lemma to_string_digits z : Forall (λ b, 48 ≤ b ≤ 57) (to_string z).
Proof.
  assert (∀ d, Forall (λ b, 48 ≤ b ≤ 57) (str (String (pretty_N_char d) ""))) as Hc.
  { intros d. unfold pretty_N_char. by repeat case_match; constructor. }
  assert (∀ n s, Forall (λ b, 48 ≤ b ≤ 57) (str s) →
    Forall (λ b, 48 ≤ b ≤ 57) (str (pretty_N_go n s))) as Hgo.
  { intros n. induction (N.lt_wf_0 n) as [n _ IH]. intros s Hs.
    destruct (decide (n = 0%N)) as [->|Hn]; [by rewrite pretty_N_go_0|].
    rewrite pretty_N_go_step by lia. apply IH; [apply N.div_lt; lia|].
    specialize (Hc (n mod 10)%N). unfold str in *. simpl in *. inv Hc. by constructor. }
  unfold to_string. generalize (Z.to_N z). intros n. unfold pretty, pretty_N.
  case_decide; [repeat constructor; by compute|]. apply Hgo. constructor.
Qed.

(** A separator that does not occur behind it splits a text uniquely. *)
Lemma app_sep_inj (x : Z) (l1 l2 k1 k2 : bytes) :
  x ∉ l2 → x ∉ k2 → l1 ++ x :: l2 = k1 ++ x :: k2 → l1 = k1 ∧ l2 = k2.
Proof.
  intros H1 H2. revert k1. induction l1 as [|a l1 IH]; intros [|b k1] E; simplify_eq/=.
  - done.
  - exfalso. apply H1, elem_of_app. right. apply elem_of_cons. by left.
  - exfalso. apply H2, elem_of_app. right. apply elem_of_cons. by left.
  - match goal with E : _ ++ _ = _ |- _ => apply IH in E as [-> ->] end. done.
Qed.

(** [ip + ":" + std::to_string(port)]. *)
Definition endpoint_text (ip : bytes) (port : Z) : bytes := ip ++ str ":" ++ to_string port.

Lemma endpoint_text_inj ip port ip' port' :
  0 ≤ port → 0 ≤ port' → endpoint_text ip port = endpoint_text ip' port' →
  ip = ip' ∧ port = port'.
Proof.
  intros Hp Hp'. unfold endpoint_text. change (str ":") with [58]. simpl.
  assert (∀ z, 58 ∉ to_string z) as Hno.
  { intros z Hin. pose proof (to_string_digits z) as Hd. rewrite Forall_forall in Hd.
    apply Hd in Hin. lia. }
  intros E. apply app_sep_inj in E as [-> E]; [|done..]. by apply to_string_inj in E.
Qed.

Lemma str_ok s : bytes_ok (str s).
Proof.
  unfold bytes_ok, str. apply Forall_fmap, Forall_true. intros a; simpl.
  pose proof (Ascii.N_ascii_bounded a). unfold_ints. lia.
Qed.

Lemma to_string_ok z : bytes_ok (to_string z).
Proof. apply str_ok. Qed.
#[export] Hint Resolve str_ok to_string_ok : ice.

Lemma bytes_ok_app l1 l2 : bytes_ok l1 → bytes_ok l2 → bytes_ok (l1 ++ l2).
Proof. intros. by apply Forall_app_2. Qed.
Lemma bytes_ok_take n l : bytes_ok l → bytes_ok (take n l).
Proof. apply Forall_take. Qed.
Lemma bytes_ok_drop n l : bytes_ok l → bytes_ok (drop n l).
Proof. apply Forall_drop. Qed.
Lemma bytes_ok_slice d o n : bytes_ok d → bytes_ok (slice d o n).
Proof. intros. by apply bytes_ok_take, bytes_ok_drop. Qed.
Lemma bytes_ok_zeros n : bytes_ok (replicate n 0).
Proof. apply Forall_replicate. unfold_ints. lia. Qed.
Lemma bytes_ok_pad4 l : bytes_ok l → bytes_ok (pad4 l).
Proof. intros. apply bytes_ok_app; [done|apply bytes_ok_zeros]. Qed.
#[export] Hint Resolve bytes_ok_app bytes_ok_take bytes_ok_drop bytes_ok_slice
  bytes_ok_zeros bytes_ok_pad4 : ice.

(** ** Slices of concatenations *)

Lemma slice_app_skip l1 l2 n k :
  slice (l1 ++ l2) (length l1 + n) k = slice l2 n k.
Proof.
  unfold slice. by rewrite drop_app_ge, Nat.add_comm, Nat.add_sub by lia.
Qed.

Lemma slice_app_here l1 l2 : slice (l1 ++ l2) 0 (length l1) = l1.
Proof. unfold slice. by rewrite drop_0, take_app_length. Qed.

Lemma slice_app_at l1 l2 l3 o n :
  o = length l1 → n = length l2 → slice (l1 ++ l2 ++ l3) o n = l2.
Proof.
  intros -> ->. rewrite <- (Nat.add_0_r (length l1)), slice_app_skip.
  apply slice_app_here.
Qed.

Lemma length_slice d o n : (o + n ≤ length d)%nat → length (slice d o n) = n.
Proof. intros. unfold slice. rewrite length_take, length_drop. lia. Qed.

Lemma slice_all d : slice d 0 (length d) = d.
Proof. unfold slice. by rewrite drop_0, firstn_all. Qed.

(** ** Alignment *)

Lemma align4_ge o : (o ≤ align4 o)%nat.
Proof. unfold align4. lia. Qed.
Lemma align4_lt o : (align4 o < o + 4)%nat.
Proof. unfold align4. pose proof (Nat.mod_upper_bound (4 - o mod 4) 4). lia. Qed.
Lemma align4_mod o : (align4 o mod 4 = 0)%nat.
Proof. unfold align4. dm_lia. Qed.
Lemma length_pad4 l : length (pad4 l) = align4 (length l).
Proof. unfold pad4, align4. by rewrite length_app, length_replicate. Qed.
Lemma align4_id o : (o mod 4 = 0)%nat → align4 o = o.
Proof. unfold align4. intros ->. simpl. lia. Qed.
Lemma align4_add a b : (a mod 4 = 0)%nat → align4 (a + b) = (a + align4 b)%nat.
Proof.
  unfold align4. intros Ha. rewrite Nat.Div0.add_mod, Ha, Nat.add_0_l, Nat.Div0.mod_mod.
  lia.
Qed.
Lemma pad4_app l1 l2 : (length l1 mod 4 = 0)%nat → pad4 (l1 ++ l2) = l1 ++ pad4 l2.
Proof.
  unfold pad4. intros H. rewrite length_app, <- app_assoc. do 3 f_equal.
  by rewrite Nat.Div0.add_mod, H, Nat.add_0_l, Nat.Div0.mod_mod.
Qed.
