(* ===== verification/Bytes.v ===== *)
(** Big-endian integers in byte buffers (src/stun.cpp "Endian helpers",
    src/mdns.cpp and src/dns_ext_client.cpp readers), with bounded reads.

    A pointer read [p[i]] of the source is a lookup that may fail; [None] stands
    for an access outside the buffer, which is undefined behaviour in C++.  A
    decoder built from these reads is memory safe when it never yields [None]. *)

From S2P Require Import Prelude.

(** * Writers *)

Definition write16 (v : Z) : bytes := [u8 (Z.shiftr v 8); u8 v].

Definition write32 (v : Z) : bytes :=
  [u8 (Z.shiftr v 24); u8 (Z.shiftr v 16); u8 (Z.shiftr v 8); u8 v].

Definition write64 (v : Z) : bytes :=
  write32 (u32 (Z.shiftr v 32)) ++ write32 (u32 v).

(** * Readers *)

Definition read16 (d : bytes) (p : nat) : option Z :=
  b0 ← d !! p; b1 ← d !! (p + 1)%nat;
  Some (u16 (Z.lor (Z.shiftl b0 8) b1)).

Definition read32 (d : bytes) (p : nat) : option Z :=
  b0 ← d !! p; b1 ← d !! (p + 1)%nat; b2 ← d !! (p + 2)%nat; b3 ← d !! (p + 3)%nat;
  Some (Z.lor (Z.lor (Z.lor (u32 (Z.shiftl b0 24)) (Z.shiftl b1 16)) (Z.shiftl b2 8)) b3).

(** The two-word read of a 64-bit tie-breaker. *)
Definition read64 (d : bytes) (p : nat) : option Z :=
  hi ← read32 d p; lo ← read32 d (p + 4)%nat;
  Some (Z.lor (u64 (Z.shiftl hi 32)) lo).

(** [memcpy(dst, d + p, n)] and [std::string(d + p, n)]: a copy of [n] bytes, which
    like the reads above is [None] when a byte of it lies outside the buffer. *)
Definition read_bytes (d : bytes) (p n : nat) : option bytes :=
  if decide (p + n ≤ length d)%nat then Some (slice d p n) else None.

(** * Values *)

Lemma shiftr_div (v k : Z) : 0 ≤ k → Z.shiftr v k = v / 2 ^ k.
Proof. apply Z.shiftr_div_pow2. Qed.

Lemma be16_value b0 b1 :
  is_u8 b0 → is_u8 b1 → u16 (Z.lor (Z.shiftl b0 8) b1) = b0 * 256 + b1.
Proof.
  intros H0 H1. rewrite lor_shiftl_add by (unfold_ints; lia).
  apply u16_id. unfold_ints. lia.
Qed.

Lemma be32_value b0 b1 b2 b3 :
  is_u8 b0 → is_u8 b1 → is_u8 b2 → is_u8 b3 →
  Z.lor (Z.lor (Z.lor (u32 (Z.shiftl b0 24)) (Z.shiftl b1 16)) (Z.shiftl b2 8)) b3
  = b0 * 16777216 + b1 * 65536 + b2 * 256 + b3.
Proof.
  intros H0 H1 H2 H3. rewrite u32_id by (rewrite Z.shiftl_mul_pow2 by lia; unfold_ints; lia).
  replace (Z.shiftl b0 24) with (Z.shiftl (Z.shiftl (Z.shiftl b0 8) 8) 8)
    by by rewrite !Z.shiftl_shiftl by lia.
  replace (Z.shiftl b1 16) with (Z.shiftl (Z.shiftl b1 8) 8)
    by by rewrite !Z.shiftl_shiftl by lia.
  rewrite <- !Z.shiftl_lor.
  rewrite !lor_shiftl_add by (unfold_ints; lia). unfold_ints. lia.
Qed.

Lemma write16_value v : u8 (Z.shiftr v 8) * 256 + u8 v = u16 v.
Proof. rewrite shiftr_div by lia. zify_lia. Qed.

Lemma write32_value v :
  u8 (Z.shiftr v 24) * 16777216 + u8 (Z.shiftr v 16) * 65536
  + u8 (Z.shiftr v 8) * 256 + u8 v = u32 v.
Proof.
  rewrite !shiftr_div by lia. unfold_ints.
  change 4294967296 with (256 * (256 * (256 * 256))).
  rewrite !Z.rem_mul_r, !Z.div_div by lia.
  change (2 ^ 24) with (256 * 256 * 256). change (2 ^ 16) with (256 * 256). lia.
Qed.

(** * Round trips *)

Lemma length_write16 v : length (write16 v) = 2%nat.
Proof. done. Qed.
Lemma length_write32 v : length (write32 v) = 4%nat.
Proof. done. Qed.
Lemma length_write64 v : length (write64 v) = 8%nat.
Proof. done. Qed.

Lemma write16_ok v : bytes_ok (write16 v).
Proof. repeat constructor; apply u8_range. Qed.
Lemma write32_ok v : bytes_ok (write32 v).
Proof. repeat constructor; apply u8_range. Qed.
Lemma write64_ok v : bytes_ok (write64 v).
Proof. apply bytes_ok_app; apply write32_ok. Qed.
#[export] Hint Resolve write16_ok write32_ok write64_ok : ice.

Lemma read16_write16 v l : read16 (write16 v ++ l) 0 = Some (u16 v).
Proof.
  unfold read16; simpl. by rewrite be16_value, write16_value by apply u8_range.
Qed.

Lemma read32_write32 v l : read32 (write32 v ++ l) 0 = Some (u32 v).
Proof.
  unfold read32; simpl. by rewrite be32_value, write32_value by apply u8_range.
Qed.

(** Reads past a prefix see the suffix. *)
Lemma lookup_skip (l1 l2 : bytes) p q :
  q = (length l1 + p)%nat → (l1 ++ l2) !! q = l2 !! p.
Proof. intros ->. rewrite lookup_app_r by lia. f_equal. lia. Qed.

Lemma read16_skip l1 l2 p : read16 (l1 ++ l2) (length l1 + p) = read16 l2 p.
Proof.
  unfold read16. rewrite (lookup_skip l1 l2 p (length l1 + p)) by done.
  by rewrite (lookup_skip l1 l2 (p + 1) (length l1 + p + 1)) by lia.
Qed.

Lemma read32_skip l1 l2 p : read32 (l1 ++ l2) (length l1 + p) = read32 l2 p.
Proof.
  unfold read32. rewrite (lookup_skip l1 l2 p (length l1 + p)) by done.
  by rewrite (lookup_skip l1 l2 (p + 1) (length l1 + p + 1)),
    (lookup_skip l1 l2 (p + 2) (length l1 + p + 2)),
    (lookup_skip l1 l2 (p + 3) (length l1 + p + 3)) by lia.
Qed.

Lemma read16_at l1 v l2 p :
  p = length l1 → read16 (l1 ++ write16 v ++ l2) p = Some (u16 v).
Proof.
  intros ->. rewrite <- (Nat.add_0_r (length l1)), read16_skip. apply read16_write16.
Qed.

Lemma read32_at l1 v l2 p :
  p = length l1 → read32 (l1 ++ write32 v ++ l2) p = Some (u32 v).
Proof.
  intros ->. rewrite <- (Nat.add_0_r (length l1)), read32_skip. apply read32_write32.
Qed.

Lemma read64_write64 v l : is_u64 v → read64 (write64 v ++ l) 0 = Some v.
Proof.
  intros Hv. unfold read64, write64. rewrite <- app_assoc, read32_write32.
  rewrite (read32_at (write32 (u32 (Z.shiftr v 32))) (u32 v) l (0 + 4)) by done; simpl.
  f_equal. rewrite (u32_id (u32 _)), (u32_id (u32 v)), u32_id, u64_id, lor_shiftl_add,
    shiftr_div; try apply u32_range; try lia.
  - zify_lia.
  - rewrite Z.shiftl_mul_pow2, shiftr_div by lia. zify_lia.
  - rewrite shiftr_div by lia. zify_lia.
Qed.

(** ** In-bounds reads succeed *)

Lemma lookup_in (l : bytes) p : (p < length l)%nat → is_Some (l !! p).
Proof. apply lookup_lt_is_Some_2. Qed.

Lemma read16_in d p : (p + 2 ≤ length d)%nat → is_Some (read16 d p).
Proof.
  intros. unfold read16.
  destruct (lookup_in d p) as [? ->]; [lia|]; simpl.
  destruct (lookup_in d (p + 1)) as [? ->]; [lia|]; simpl. eauto.
Qed.

Lemma read32_in d p : (p + 4 ≤ length d)%nat → is_Some (read32 d p).
Proof.
  intros. unfold read32.
  destruct (lookup_in d p) as [? ->]; [lia|]; simpl.
  destruct (lookup_in d (p + 1)) as [? ->]; [lia|]; simpl.
  destruct (lookup_in d (p + 2)) as [? ->]; [lia|]; simpl.
  destruct (lookup_in d (p + 3)) as [? ->]; [lia|]; simpl. eauto.
Qed.

Lemma read64_in d p : (p + 8 ≤ length d)%nat → is_Some (read64 d p).
Proof.
  intros. unfold read64.
  destruct (read32_in d p) as [? ->]; [lia|]; simpl.
  destruct (read32_in d (p + 4)) as [? ->]; [lia|]; simpl. eauto.
Qed.

Lemma read_bytes_in d p n :
  (p + n ≤ length d)%nat → read_bytes d p n = Some (slice d p n).
Proof. intros Hn. unfold read_bytes. by rewrite decide_True. Qed.

Lemma read_bytes_Some d p n b :
  read_bytes d p n = Some b → b = slice d p n ∧ (p + n ≤ length d)%nat.
Proof. unfold read_bytes. case_decide; intros ?; by simplify_eq. Qed.

Lemma read_bytes_ok d p n b :
  bytes_ok d → read_bytes d p n = Some b → length b = n ∧ bytes_ok b.
Proof.
  intros Hd [-> Hn]%read_bytes_Some. split; [by apply length_slice | by apply bytes_ok_slice].
Qed.

(** The copy of the field [b] that follows the [p] bytes of [l1]. *)
Lemma read_bytes_at l1 b l2 p n :
  p = length l1 → n = length b → read_bytes (l1 ++ b ++ l2) p n = Some b.
Proof.
  intros -> ->. rewrite read_bytes_in by (rewrite !length_app; lia).
  unfold slice. by rewrite drop_app_length, take_app_length.
Qed.

Lemma read16_range d p v : read16 d p = Some v → is_u16 v.
Proof.
  unfold read16. intros H. destruct (d !! p); simplify_eq/=.
  destruct (d !! _); simplify_eq/=. apply u16_range.
Qed.

Lemma read32_range d p v : bytes_ok d → read32 d p = Some v → is_u32 v.
Proof.
  unfold read32. intros Hd H.
  destruct (d !! p) eqn:E0; simplify_eq/=. destruct (d !! (p + 1)%nat) eqn:E1; simplify_eq/=.
  destruct (d !! (p + 2)%nat) eqn:E2; simplify_eq/=.
  destruct (d !! (p + 3)%nat) eqn:E3; simplify_eq/=.
  unfold bytes_ok in Hd. rewrite Forall_lookup in Hd.
  rewrite be32_value by eauto.
  pose proof (Hd _ _ E0). pose proof (Hd _ _ E1). pose proof (Hd _ _ E2).
  pose proof (Hd _ _ E3). unfold_ints. lia.
Qed.
#[export] Hint Resolve read16_in read32_in read64_in : ice.

(** ** Writing back what was read *)

Lemma bytes_ok_lookup d p b : bytes_ok d → d !! p = Some b → is_u8 b.
Proof. unfold bytes_ok. rewrite Forall_lookup. eauto. Qed.

Lemma slice_cons d p b n :
  d !! p = Some b → slice d p (S n) = b :: slice d (p + 1) n.
Proof.
  intros Hb. unfold slice. rewrite (drop_S _ b) by done. by rewrite Nat.add_1_r.
Qed.

Lemma slice_0 d p : slice d p 0 = [].
Proof. done. Qed.

Lemma write16_bytes b0 b1 : is_u8 b0 → is_u8 b1 → write16 (b0 * 256 + b1) = [b0; b1].
Proof.
  intros. unfold write16. rewrite shiftr_div by lia. f_equal; [|f_equal]; zify_lia.
Qed.

Lemma write32_bytes b0 b1 b2 b3 :
  is_u8 b0 → is_u8 b1 → is_u8 b2 → is_u8 b3 →
  write32 (b0 * 16777216 + b1 * 65536 + b2 * 256 + b3) = [b0; b1; b2; b3].
Proof.
  intros. unfold write32. rewrite !shiftr_div by lia. unfold_ints.
  change (2 ^ 24) with 16777216. change (2 ^ 16) with 65536. change (2 ^ 8) with 256.
  repeat f_equal; Z.div_mod_to_equations; lia.
Qed.

Lemma write16_read16 d p v :
  bytes_ok d → read16 d p = Some v → write16 v = slice d p 2.
Proof.
  unfold read16. intros Hd H.
  destruct (d !! p) as [b0|] eqn:E0; simplify_eq/=.
  destruct (d !! (p + 1)%nat) as [b1|] eqn:E1; simplify_eq/=.
  pose proof (bytes_ok_lookup _ _ _ Hd E0). pose proof (bytes_ok_lookup _ _ _ Hd E1).
  rewrite be16_value, write16_bytes by done.
  by rewrite (slice_cons d p b0), (slice_cons d _ b1), slice_0.
Qed.

Lemma write32_read32 d p v :
  bytes_ok d → read32 d p = Some v → write32 v = slice d p 4.
Proof.
  unfold read32. intros Hd H.
  destruct (d !! p) as [b0|] eqn:E0; simplify_eq/=.
  destruct (d !! (p + 1)%nat) as [b1|] eqn:E1; simplify_eq/=.
  destruct (d !! (p + 2)%nat) as [b2|] eqn:E2; simplify_eq/=.
  destruct (d !! (p + 3)%nat) as [b3|] eqn:E3; simplify_eq/=.
  rewrite be32_value, write32_bytes by eauto using bytes_ok_lookup.
  rewrite (slice_cons d p b0), (slice_cons d (p + 1) b1) by done.
  replace (p + 1 + 1)%nat with (p + 2)%nat by lia. rewrite (slice_cons d (p + 2) b2) by done.
  replace (p + 2 + 1)%nat with (p + 3)%nat by lia. by rewrite (slice_cons d (p + 3) b3).
Qed.

(** Consecutive slices. *)
Lemma slice_split d p n m :
  slice d p (n + m) = slice d p n ++ slice d (p + n) m.
Proof.
  assert (∀ e : bytes, take (n + m) e = take n e ++ take m (drop n e)) as Htake.
  { induction n as [|n IH]; intros [|b e]; simpl; rewrite ?take_nil, ?IH; done. }
  unfold slice. by rewrite Htake, drop_drop.
Qed.

#[global] Arguments write16 : simpl never.
#[global] Arguments write32 : simpl never.
#[global] Arguments write64 : simpl never.
#[global] Arguments read16 : simpl never.
#[global] Arguments read32 : simpl never.
#[global] Arguments read64 : simpl never.

Lemma slice_drop (d : bytes) p n : slice d p n ++ drop (p + n) d = drop p d.
Proof. unfold slice. by rewrite <- drop_drop, take_drop. Qed.
