(* ===== verification/Inet.v ===== *)
(** Text form of IP addresses: the interface of [inet_pton]/[inet_ntop].

    These are operating-system functions the sources call
    (src/stun.cpp, src/session.cpp, src/mdns.cpp).  They enter the model as a type
    class of operations and a class with the POSIX-documented laws; [InetRef] is a
    concrete instance (dotted decimal, full-form hexadecimal groups), used to
    evaluate the model. *)

From S2P Require Import Prelude.

Class InetOps := {
  inet_ntop4 : bytes → bytes;
  inet_pton4 : bytes → option bytes;
  inet_ntop6 : bytes → bytes;
  inet_pton6 : bytes → option bytes;
}.

(** [inet_pton] reads back what [inet_ntop] prints, yields addresses of the
    family's size; the textual forms of the two families are disjoint, non-empty
    and free of NUL. *)
Class InetLaws `{InetOps} : Prop := {
  pton4_ntop4 a : length a = 4%nat → bytes_ok a → inet_pton4 (inet_ntop4 a) = Some a;
  pton6_ntop6 a : length a = 16%nat → bytes_ok a → inet_pton6 (inet_ntop6 a) = Some a;
  pton4_ntop6 a : length a = 16%nat → bytes_ok a → inet_pton4 (inet_ntop6 a) = None;
  pton4_size s a : inet_pton4 s = Some a → length a = 4%nat ∧ bytes_ok a;
  pton6_size s a : inet_pton6 s = Some a → length a = 16%nat ∧ bytes_ok a;
  ntop4_nonempty a : length a = 4%nat → bytes_ok a → inet_ntop4 a ≠ [];
  ntop6_nonempty a : length a = 16%nat → bytes_ok a → inet_ntop6 a ≠ [];
  ntop4_text a : length a = 4%nat → bytes_ok a → c_str (inet_ntop4 a) = inet_ntop4 a;
  ntop6_text a : length a = 16%nat → bytes_ok a → c_str (inet_ntop6 a) = inet_ntop6 a;
}.

(** * A reference instance *)

Module InetRef.

Definition DOT : Z := 46.
Definition COLON : Z := 58.

Fixpoint split (sep : Z) (l : bytes) : list bytes :=
  match l with
  | [] => [[]]
  | b :: l' =>
      if decide (b = sep) then [] :: split sep l'
      else match split sep l' with
           | p :: ps => (b :: p) :: ps
           | [] => [[b]]
           end
  end.

Fixpoint join (sep : Z) (ls : list bytes) : bytes :=
  match ls with
  | [] => []
  | [p] => p
  | p :: ps => p ++ sep :: join sep ps
  end.

Definition octets : list Z := seqZ 0 256.

(** Inverse of a rendering of octets, by search. *)
Definition unrender (f : Z → bytes) (s : bytes) : option Z :=
  snd <$> list_find (λ b, f b = s) octets.

Definition hexd (d : Z) : Z := if decide (d < 10) then 48 + d else 87 + d.
Definition hex2 (b : Z) : bytes := [hexd (b / 16); hexd (b mod 16)].

Fixpoint pairs (l : bytes) : list (Z * Z) :=
  match l with
  | a :: b :: l' => (a, b) :: pairs l'
  | _ => []
  end.

Definition unhex4 (g : bytes) : option bytes :=
  x ← unrender hex2 (take 2 g); y ← unrender hex2 (drop 2 g); Some [x; y].

#[local] Instance ops : InetOps := {|
  inet_ntop4 a := join DOT (to_string <$> a);
  inet_pton4 s :=
    ps ← mapM (unrender to_string) (split DOT s);
    if decide (length ps = 4%nat) then Some ps else None;
  inet_ntop6 a := join COLON ((λ p, hex2 (p.1) ++ hex2 (p.2)) <$> pairs a);
  inet_pton6 s :=
    gs ← mapM unhex4 (split COLON s);
    if decide (length (concat gs) = 16%nat) then Some (concat gs) else None;
|}.

Lemma split_join sep ls :
  ls ≠ [] → Forall (λ p, sep ∉ p) ls → split sep (join sep ls) = ls.
Proof.
  assert (∀ p, sep ∉ p → split sep p = [p]) as Hone.
  { induction p as [|b p IH]; [done|]. rewrite not_elem_of_cons. intros [? Hp].
    simpl. rewrite decide_False by congruence. by rewrite IH. }
  assert (∀ p r, sep ∉ p → split sep (p ++ sep :: r) = p :: split sep r) as Happ.
  { induction p as [|b p IH]; intros r.
    - simpl. by rewrite decide_True.
    - rewrite not_elem_of_cons. intros [? Hp]. simpl.
      rewrite decide_False by congruence. by rewrite IH. }
  induction ls as [|p [|q ls] IH]; intros Hne Hall; [done|..].
  - apply Hone. by inv Hall.
  - apply Forall_cons_1 in Hall as [Hp Hls].
    change (join sep (p :: q :: ls)) with (p ++ sep :: join sep (q :: ls)).
    rewrite Happ by done. by rewrite IH.
Qed.

(** A decidable property of octets holds when it holds on the table. *)
Lemma octet_cases (P : Z → Prop) `{∀ b, Decision (P b)} :
  forallb (λ b, bool_decide (P b)) octets = true → ∀ b, is_u8 b → P b.
Proof.
  intros Hall b Hb. rewrite forallb_forall in Hall.
  assert (In b octets) as Hin.
  { apply list_elem_of_In, elem_of_seqZ. unfold_ints. lia. }
  apply Hall in Hin. by apply bool_decide_eq_true in Hin.
Qed.

Lemma unrender_to_string b : is_u8 b → unrender to_string (to_string b) = Some b.
Proof.
  apply (octet_cases (λ b, unrender to_string (to_string b) = Some b)).
  vm_compute. reflexivity.
Qed.

Lemma unrender_hex2 b : is_u8 b → unrender hex2 (hex2 b) = Some b.
Proof.
  apply (octet_cases (λ b, unrender hex2 (hex2 b) = Some b)). vm_compute. reflexivity.
Qed.

Lemma unrender_u8 f s b : unrender f s = Some b → is_u8 b.
Proof.
  unfold unrender. intros H. apply fmap_Some in H as [[i x] [Hf ->]].
  apply list_find_Some in Hf as (Hl & _ & _).
  apply list_elem_of_lookup_2, elem_of_seqZ in Hl. unfold_ints. simpl in *. lia.
Qed.

Lemma to_string_no_dot b : is_u8 b → DOT ∉ to_string b.
Proof. apply (octet_cases (λ b, DOT ∉ to_string b)). vm_compute. reflexivity. Qed.

Lemma hex2_no_sep b : is_u8 b → (COLON ∉ hex2 b) ∧ (DOT ∉ hex2 b).
Proof.
  apply (octet_cases (λ b, (COLON ∉ hex2 b) ∧ (DOT ∉ hex2 b))). vm_compute. reflexivity.
Qed.

Lemma mapM_unrender f l :
  (∀ b, is_u8 b → unrender f (f b) = Some b) → bytes_ok l →
  mapM (unrender f) (f <$> l) = Some l.
Proof.
  intros Hf. induction 1 as [|b l Hb _ IH]; [done|].
  rewrite fmap_cons. unfold mapM at 1; fold (mapM (unrender f) (f <$> l)).
  by rewrite Hf, IH.
Qed.

Lemma join_not_elem x sep ls :
  x ≠ sep → Forall (λ p, x ∉ p) ls → x ∉ join sep ls.
Proof.
  intros Hx. induction 1 as [|p ls Hp Hls IH]; [apply not_elem_of_nil|].
  destruct ls as [|q ls]; [done|].
  change (x ∉ p ++ sep :: join sep (q :: ls)). rewrite not_elem_of_app, not_elem_of_cons.
  auto.
Qed.

Lemma c_str_no_nul l : 0 ∉ l → c_str l = l.
Proof.
  induction l as [|b l IH]; [done|]. rewrite not_elem_of_cons. intros [? ?]. simpl.
  rewrite decide_False by done. by rewrite IH.
Qed.

Lemma to_string_no_nul b : is_u8 b → 0 ∉ to_string b.
Proof. apply (octet_cases (λ b, 0 ∉ to_string b)). vm_compute. reflexivity. Qed.

Lemma hex2_no_nul b : is_u8 b → 0 ∉ hex2 b.
Proof. apply (octet_cases (λ b, 0 ∉ hex2 b)). vm_compute. reflexivity. Qed.

Definition group (p : Z * Z) : bytes := hex2 (p.1) ++ hex2 (p.2).

Lemma pairs_ok a : bytes_ok a → Forall (λ p, is_u8 (p.1) ∧ is_u8 (p.2)) (pairs a).
Proof.
  remember (length a) as n eqn:Hn. revert a Hn.
  induction (lt_wf n) as [n _ IH]. intros [|x [|y a]] Hn Ha; try constructor; simpl.
  - inv Ha. by match goal with H : Forall _ (_ :: _) |- _ => inv H end.
  - inv Ha. match goal with H : Forall _ (_ :: _) |- _ => inv H end.
    eapply IH; [|done|done]. simpl. lia.
Qed.

Lemma unhex4_group x y : is_u8 x → is_u8 y → unhex4 (group (x, y)) = Some [x; y].
Proof.
  intros Hx Hy. unfold unhex4.
  change (take 2 (group (x, y))) with (hex2 x).
  change (drop 2 (group (x, y))) with (hex2 y).
  by rewrite !unrender_hex2.
Qed.

Lemma mapM_unhex4 ps :
  Forall (λ p, is_u8 (p.1) ∧ is_u8 (p.2)) ps →
  mapM unhex4 (group <$> ps) = Some ((λ p, [p.1; p.2]) <$> ps).
Proof.
  induction 1 as [|[x y] ps [Hx Hy] _ IH]; [done|].
  rewrite fmap_cons. unfold mapM at 1; fold (mapM unhex4 (group <$> ps)).
  by rewrite unhex4_group, IH.
Qed.

Lemma group_no_sep ps :
  Forall (λ p, is_u8 (p.1) ∧ is_u8 (p.2)) ps →
  Forall (λ g, COLON ∉ g) (group <$> ps) ∧ DOT ∉ join COLON (group <$> ps).
Proof.
  induction 1 as [|[x y] ps [Hx Hy] Hps [IH1 IH2]]; [split; [constructor|apply not_elem_of_nil]|].
  destruct (hex2_no_sep x Hx) as [? ?], (hex2_no_sep y Hy) as [? ?]. simpl in *. split.
  - constructor; [by apply not_elem_of_app|done].
  - assert (DOT ∉ group (x, y)) by (by apply not_elem_of_app).
    destruct ps as [|p ps]; [done|].
    change (DOT ∉ group (x, y) ++ COLON :: join COLON (group <$> p :: ps)).
    apply not_elem_of_app; split; [done|]. apply not_elem_of_cons; split; [done|exact IH2].
Qed.

Lemma concat_pairs_16 a :
  length a = 16%nat → concat ((λ p, [p.1; p.2]) <$> pairs a) = a ∧ pairs a ≠ [].
Proof.
  intros Ha. do 16 (destruct a as [|? a]; [done|]). by destruct a.
Qed.

#[local] Instance laws : InetLaws.
Proof.
  split.
  - intros a Ha Hok. unfold inet_pton4, inet_ntop4, ops.
    rewrite split_join.
    + rewrite mapM_unrender by auto using unrender_to_string; simpl. by rewrite decide_True.
    + by destruct a.
    + apply Forall_fmap. eapply Forall_impl; [exact Hok|]. apply to_string_no_dot.
  - intros a Ha Hok. unfold inet_pton6, inet_ntop6, ops.
    change (λ p, hex2 (p.1) ++ hex2 (p.2)) with group.
    destruct (concat_pairs_16 a Ha) as [Hc Hne]. pose proof (pairs_ok a Hok) as Hp.
    rewrite split_join; [|by destruct (pairs a)|by apply group_no_sep].
    rewrite mapM_unhex4 by done; simpl. by rewrite Hc, decide_True.
  - intros a Ha Hok. unfold inet_pton4, inet_ntop6, ops.
    change (λ p, hex2 (p.1) ++ hex2 (p.2)) with group.
    destruct (group_no_sep _ (pairs_ok a Hok)) as [_ Hd].
    set (s := join COLON _) in *.
    pose proof (split_join DOT [s]) as Hs. simpl in Hs.
    rewrite Hs by (try done; by repeat constructor). simpl.
    by destruct (unrender to_string s).
  - intros s a. unfold inet_pton4, ops. intros H.
    apply bind_Some in H as (ps & Hm & H). case_decide; simplify_eq. split; [done|].
    apply mapM_Some in Hm. clear -Hm. unfold bytes_ok.
    induction Hm; constructor; eauto using unrender_u8.
  - intros s a. unfold inet_pton6, ops. intros H.
    apply bind_Some in H as (gs & Hm & H). case_decide; simplify_eq. split; [done|].
    apply mapM_Some in Hm. clear -Hm. unfold bytes_ok.
    induction Hm as [|p g ps gs Hu _ IH]; [constructor|]. simpl.
    apply Forall_app; split; [|done]. unfold unhex4 in Hu.
    apply bind_Some in Hu as (? & ? & Hu). apply bind_Some in Hu as (? & ? & Hu).
    simplify_eq. do 2 (apply Forall_cons_2; [by eapply unrender_u8|]). constructor.
  - intros a Ha Hok. do 4 (destruct a as [|? a]; [done|]). destruct a; [|done]. simpl.
    intros [_ H]%app_nil. done.
  - intros a Ha Hok. do 16 (destruct a as [|? a]; [done|]). by destruct a.
  - intros a Ha Hok. apply c_str_no_nul, join_not_elem; [done|].
    apply Forall_fmap. eapply Forall_impl; [exact Hok|]. apply to_string_no_nul.
  - intros a Ha Hok. apply c_str_no_nul, join_not_elem; [done|].
    apply Forall_fmap. eapply Forall_impl; [exact (pairs_ok a Hok)|]. intros [x y] [Hx Hy].
    apply not_elem_of_app. simpl in *. split; by apply hex2_no_nul.
Qed.

End InetRef.
