(* ===== verification/Candidate.v ===== *)
(** Candidates, priorities, foundations and the signalling codec
    (src/candidate.hpp, and the address helpers at the end of src/session.cpp).

    Every field the C++ stores in network byte order inside a packed struct is
    modelled by the bytes it occupies in memory, so no host byte order enters. *)

From S2P Require Import Prelude Bytes Inet.

(** * Enumerations

    The enums have the fixed underlying type [uint8_t], so a cast from a wire byte
    can produce a value without an enumerator: the [Other] constructors. *)

Inductive CandidateType :=
  Host | Srflx | Relay | Prflx | HostMdns | OtherType (v : Z).

Inductive AddressFamily := IPv4 | IPv6 | OtherFamily (v : Z).

Inductive TransportType := Udp | TcpActive | TcpPassive | TcpSimultaneousOpen.

#[global] Instance CandidateType_eq_dec : EqDecision CandidateType.
Proof. solve_decision. Defined.
#[global] Instance AddressFamily_eq_dec : EqDecision AddressFamily.
Proof. solve_decision. Defined.
#[global] Instance TransportType_eq_dec : EqDecision TransportType.
Proof. solve_decision. Defined.

Definition type_byte (t : CandidateType) : Z :=
  match t with
  | Host => 0 | Srflx => 1 | Relay => 2 | Prflx => 3 | HostMdns => 4 | OtherType v => v
  end.

Definition type_of_byte (b : Z) : CandidateType :=
  match b with
  | 0 => Host | 1 => Srflx | 2 => Relay | 3 => Prflx | 4 => HostMdns | v => OtherType v
  end.

Definition family_byte (f : AddressFamily) : Z :=
  match f with IPv4 => 1 | IPv6 => 2 | OtherFamily v => v end.

Definition family_of_byte (b : Z) : AddressFamily :=
  match b with 1 => IPv4 | 2 => IPv6 | v => OtherFamily v end.

Definition transport_byte (t : TransportType) : Z :=
  match t with Udp => 0 | TcpActive => 1 | TcpPassive => 2 | TcpSimultaneousOpen => 3 end.

(** The cast of the two masked bits. *)
Definition transport_of_bits (b : Z) : TransportType :=
  match b with 0 => Udp | 1 => TcpActive | 2 => TcpPassive | _ => TcpSimultaneousOpen end.

Definition transport_is_tcp (t : TransportType) : bool :=
  bool_decide (t = TcpActive) || bool_decide (t = TcpPassive)
  || bool_decide (t = TcpSimultaneousOpen).

(** * Candidates *)

Definition kMaxMdnsHostnameLen : nat := 64.

Record Candidate := mkCandidate {
  c_type : CandidateType;
  c_family : AddressFamily;
  c_port : Z;
  c_priority : Z;
  c_addr : bytes;
  c_hostname : bytes;
  c_transport : TransportType;
  c_foundation : bytes;
}.

#[global] Instance Candidate_eta : Eta Candidate := λ c,
  mkCandidate (c_type c) (c_family c) (c_port c) (c_priority c) (c_addr c)
    (c_hostname c) (c_transport c) (c_foundation c).

#[global] Instance Candidate_eq_dec : EqDecision Candidate.
Proof. solve_decision. Defined.

(** What the C++ types guarantee of a candidate. *)
Record candidate_wf (c : Candidate) : Prop := {
  wf_type : type_of_byte (type_byte (c_type c)) = c_type c ∧ is_u8 (type_byte (c_type c));
  wf_family :
    family_of_byte (family_byte (c_family c)) = c_family c ∧ is_u8 (family_byte (c_family c));
  wf_port : is_u16 (c_port c);
  wf_priority : is_u32 (c_priority c);
  wf_addr : length (c_addr c) = 16%nat ∧ bytes_ok (c_addr c);
  wf_hostname : bytes_ok (c_hostname c);
}.

#[global] Instance candidate_wf_dec c : Decision (candidate_wf c).
Proof.
  refine (cast_if (decide (
    (type_of_byte (type_byte (c_type c)) = c_type c ∧ is_u8 (type_byte (c_type c))) ∧
    (family_of_byte (family_byte (c_family c)) = c_family c ∧ is_u8 (family_byte (c_family c))) ∧
    is_u16 (c_port c) ∧ is_u32 (c_priority c) ∧
    (length (c_addr c) = 16%nat ∧ Forall is_u8 (c_addr c)) ∧
    Forall is_u8 (c_hostname c))));
    [abstract (split; unfold bytes_ok; tauto)|abstract (intros []; unfold bytes_ok in *; tauto)].
Defined.

Section address.
Context `{InetOps}.

Definition address_str (c : Candidate) : bytes :=
  if bool_decide (c_type c = HostMdns) && negb (bool_decide (c_hostname c = []))
  then c_hostname c
  else match c_family c with
       | IPv4 => inet_ntop4 (take 4 (c_addr c))
       | _ => inet_ntop6 (take 16 (c_addr c))
       end.

Definition set_address (addr_str : bytes) (c : Candidate) : Candidate :=
  match inet_pton4 (c_str addr_str) with
  | Some in4 => c <| c_family := IPv4 |> <| c_addr := in4 ++ drop 4 (c_addr c) |>
  | None =>
      match inet_pton6 (c_str addr_str) with
      | Some in6 => c <| c_family := IPv6 |> <| c_addr := in6 |>
      | None => c
      end
  end.
End address.

(** * Foundations: FNV-1a over 64 bits *)

Definition fnv_offset : Z := 0xcbf29ce484222325.
Definition fnv_prime : Z := 0x100000001b3.

Definition mix (h b : Z) : Z := u64 (Z.lxor h b * fnv_prime).

Definition compute_foundation (type : CandidateType) (base_address server_address : bytes)
    (transport : TransportType) : bytes :=
  let h := mix fnv_offset (type_byte type) in
  let h := mix h 0xFF in
  let h := foldl mix h base_address in
  let h := mix h 0xFF in
  let h := foldl mix h server_address in
  let h := mix h 0xFF in
  let h := mix h (transport_byte transport) in
  to_string h.

(** * Priorities *)

Definition type_pref (type : CandidateType) : Z :=
  match type with
  | Host => 126 | HostMdns => 126 | Prflx => 110 | Srflx => 100 | Relay => 0
  | OtherType _ => 0
  end.

Definition compute_priority (type : CandidateType) (local_pref component : Z) : Z :=
  Z.lor (Z.lor (u32 (Z.shiftl (type_pref type) 24)) (u32 (Z.shiftl local_pref 8)))
        (u32 (256 - component)).

Definition pair_priority (controlling_prio controlled_prio : Z) (is_controlling : bool) : Z :=
  let g := if is_controlling then controlling_prio else controlled_prio in
  let d := if is_controlling then controlled_prio else controlling_prio in
  u64 (u64 (u64 (Z.shiftl (Z.min g d) 32) + u64 (2 * Z.max g d))
       + (if decide (g > d) then 1 else 0)).

(** * Signal codec *)

Definition ICE_SIGNAL_OFFER : Z := 0.
Definition ICE_SIGNAL_ANSWER : Z := 1.
Definition ICE_SIGNAL_OFFER_EOC : Z := 2.
Definition ICE_SIGNAL_ANSWER_EOC : Z := 3.
Definition ICE_SIGNAL_FLAG_MASK : Z := 0xFFFF0000.
Definition ICE_SIGNAL_COUNT_MASK : Z := 0x0000FFFF.
Definition ICE_SIGNAL_FLAG_LITE : Z := Z.shiftl 1 16.
Definition ICE_SIGNAL_FLAG_SYMMETRIC : Z := Z.shiftl 1 17.
Definition kCandidateTypeMask : Z := 0x1F.
Definition kTransportShift : Z := 5.
Definition kTransportMask : Z := 0x03.
Definition MAX_ICE_CANDIDATES : Z := 256.

(** [sizeof(CandidateWire)] and [sizeof(IceSignalData)]. *)
Definition wire_size : nat := 24.
Definition header_size : nat := 44.

(** The 24 bytes of a [CandidateWire]: type, family, port, priority, address. *)
Definition to_wire (c : Candidate) : bytes :=
  let type_bits := Z.land (type_byte (c_type c)) kCandidateTypeMask in
  let tx_bits :=
    u8 (Z.shiftl (Z.land (transport_byte (c_transport c)) kTransportMask) kTransportShift) in
  [u8 (Z.lor type_bits tx_bits); family_byte (c_family c)]
  ++ write16 (c_port c) ++ write32 (c_priority c) ++ take 16 (c_addr c).

Definition from_wire (w : bytes) : option Candidate :=
  type ← w !! 0%nat; family ← w !! 1%nat;
  port ← read16 w 2; priority ← read32 w 4; addr ← read_bytes w 8 16;
  Some {|
    c_type := type_of_byte (Z.land type kCandidateTypeMask);
    c_family := family_of_byte family;
    c_port := port;
    c_priority := priority;
    c_addr := addr;
    c_hostname := [];
    c_transport :=
      transport_of_bits (Z.land (Z.shiftr type kTransportShift) kTransportMask);
    c_foundation := [] |}.

(** [IceSignalData]; its [candidate_count] in host order. *)
Record IceSignalData := mkIceSignalData {
  sig_ufrag : bytes;
  sig_pwd : bytes;
  sig_candidate_count : Z;
}.
#[global] Instance IceSignalData_eta : Eta IceSignalData := λ h,
  mkIceSignalData (sig_ufrag h) (sig_pwd h) (sig_candidate_count h).

(** Copy of a C string into a zeroed [char[n]]. *)
Definition fixed_field (n : nat) (s : bytes) : bytes :=
  let t := take n (c_str s) in t ++ replicate (n - length t) 0.

(** A candidate that owns an entry of the hostname trailer. *)
Definition in_trailer (c : Candidate) : bool :=
  bool_decide (c_type c = HostMdns) && negb (bool_decide (c_hostname c = [])).

Definition trailer_hostname (c : Candidate) : bytes := take kMaxMdnsHostnameLen (c_hostname c).

Definition trailer_entry (c : Candidate) : bytes :=
  if in_trailer c
  then write16 (u16 (Z.of_nat (length (trailer_hostname c)))) ++ trailer_hostname c
  else [].

Definition mdns_count (candidates : list Candidate) : nat :=
  length (filter in_trailer candidates).

Definition trailer (candidates : list Candidate) : bytes :=
  if decide (0 < mdns_count candidates)%nat
  then write32 (u32 (Z.of_nat (mdns_count candidates))) ++ mbind trailer_entry candidates
  else [].

(** The length [serialize_signal] allocates before it copies anything. *)
Definition serialized_size (candidates : list Candidate) : nat :=
  let trailer_bytes :=
    sum_list_with (λ c, if in_trailer c then 2 + min (length (c_hostname c)) kMaxMdnsHostnameLen
                        else 0)%nat candidates in
  let trailer_hdr := (if decide (0 < mdns_count candidates)%nat then 4 else 0)%nat in
  (header_size + length candidates * wire_size + trailer_hdr + trailer_bytes)%nat.

Definition signal_header (ufrag pwd : bytes) (candidates : list Candidate) (flags : Z) : bytes :=
  let packed :=
    Z.lor (Z.land flags ICE_SIGNAL_FLAG_MASK)
          (Z.land (u32 (Z.of_nat (length candidates))) ICE_SIGNAL_COUNT_MASK) in
  fixed_field 8 ufrag ++ fixed_field 32 pwd ++ write32 packed.

Definition serialize_signal (ufrag pwd : bytes) (candidates : list Candidate) (flags : Z)
    : bytes :=
  signal_header ufrag pwd candidates flags ++ mbind to_wire candidates ++ trailer candidates.

(** The reference parameters of [deserialize_signal]. *)
Record SignalOut := mkSignalOut {
  so_hdr : IceSignalData;
  so_candidates : list Candidate;
  so_flags : Z;
}.
#[global] Instance SignalOut_eta : Eta SignalOut := λ s,
  mkSignalOut (so_hdr s) (so_candidates s) (so_flags s).

(** The loop that decodes [n] fixed-size slots from offset [off]. *)
Fixpoint read_wires (data : bytes) (off n : nat) : option (list Candidate) :=
  match n with
  | O => Some []
  | S n' =>
      w ← read_bytes data off wire_size;
      c ← from_wire w;
      cs ← read_wires data (off + wire_size) n';
      Some (c :: cs)
  end.

Definition is_mdns (c : Candidate) : bool := bool_decide (c_type c = HostMdns).

Definition mdns_candidate_count (cs : list Candidate) : nat := length (filter is_mdns cs).

(** The hostname loop: verdict, candidates as left behind, final offset and the
    number of hostnames read. *)
Fixpoint read_hostnames (data : bytes) (cs : list Candidate) (off hn : nat)
    : option (bool * list Candidate * nat * nat) :=
  match cs with
  | [] => Some (true, [], off, hn)
  | c :: cs' =>
      if is_mdns c then
        if decide (off + 2 > length data)%nat then Some (false, cs, off, hn) else
        len ← read16 data off;
        let off := (off + 2)%nat in
        if decide (len = 0 ∨ len > Z.of_nat kMaxMdnsHostnameLen)
        then Some (false, cs, off, hn) else
        let len := Z.to_nat len in
        if decide (off + len > length data)%nat then Some (false, cs, off, hn) else
        hostname ← read_bytes data off len;
        let c := c <| c_hostname := hostname |> in
        '(ok, cs', off, hn) ← read_hostnames data cs' (off + len) (hn + 1);
        Some (ok, c :: cs', off, hn)
      else
        '(ok, cs', off, hn) ← read_hostnames data cs' off hn;
        Some (ok, c :: cs', off, hn)
  end.

(** The part of [deserialize_signal] after the fixed prefix. *)
Definition read_trailer (data : bytes) (fixed_size : nat) (cs : list Candidate)
    : option (bool * list Candidate) :=
  let n := mdns_candidate_count cs in
  if decide (length data = fixed_size) then Some (bool_decide (n = 0%nat), cs) else
  if decide (n = 0%nat) then Some (false, cs) else
  let off := fixed_size in
  if decide (off + 4 > length data)%nat then Some (false, cs) else
  trailer_count ← read32 data off;
  let off := (off + 4)%nat in
  if decide (trailer_count ≠ Z.of_nat n) then Some (false, cs) else
  '(ok, cs, off, hn_index) ← read_hostnames data cs off 0;
  Some (ok && bool_decide (off = length data)
           && bool_decide (Z.of_nat hn_index = trailer_count), cs).

Definition deserialize_signal (data : bytes) (out : SignalOut) : option (bool * SignalOut) :=
  if decide (length data < header_size)%nat then Some (false, out) else
  ufrag ← read_bytes data 0 8; pwd ← read_bytes data 8 32;
  packed ← read32 data 40;
  let flags := Z.land packed ICE_SIGNAL_FLAG_MASK in
  let count := Z.land packed ICE_SIGNAL_COUNT_MASK in
  let out :=
    out <| so_hdr := mkIceSignalData ufrag pwd count |>
        <| so_flags := flags |> in
  if decide (count > MAX_ICE_CANDIDATES) then Some (false, out) else
  let n := Z.to_nat count in
  let fixed_size := (header_size + n * wire_size)%nat in
  if decide (length data < fixed_size)%nat then Some (false, out) else
  cs ← read_wires data header_size n;
  '(ok, cs) ← read_trailer data fixed_size cs;
  Some (ok, out <| so_candidates := cs |>).

(** * Enumerations and wire slots *)

Lemma type_of_byte_byte b : type_byte (type_of_byte b) = b.
Proof. destruct b as [|b|]; try done. by do 3 (destruct b as [b|b|]; try done). Qed.

Lemma type_of_byte_idem b : type_of_byte (type_byte (type_of_byte b)) = type_of_byte b.
Proof. by rewrite type_of_byte_byte. Qed.

Lemma transport_of_byte t : transport_of_bits (transport_byte t) = t.
Proof. by destruct t. Qed.

(** The low five bits and the two transport bits of a packed type byte. *)
Definition pack_type (t x : Z) : Z :=
  u8 (Z.lor (Z.land t kCandidateTypeMask)
        (u8 (Z.shiftl (Z.land x kTransportMask) kTransportShift))).

Lemma pack_type_low t x :
  Z.land (pack_type t x) kCandidateTypeMask = t mod 32.
Proof.
  unfold pack_type, kCandidateTypeMask, kTransportMask, kTransportShift, u8.
  change 0x1F with (Z.ones 5). change 0x03 with (Z.ones 2).
  rewrite <- !Z.land_ones by lia. change 32 with (2 ^ 5). rewrite <- Z.land_ones by lia.
  apply Z.bits_inj'. intros n Hn.
  rewrite !Z.land_spec, !Z.lor_spec, !Z.land_spec.
  destruct (decide (n < 5)).
  - rewrite (Z.shiftl_spec_low _ _ n) by lia.
    rewrite !Z.ones_spec_low by lia. by rewrite !andb_true_r, orb_false_r.
  - rewrite (Z.ones_spec_high 5) by lia. by rewrite !andb_false_r.
Qed.

Lemma pack_type_high t x :
  Z.land (Z.shiftr (pack_type t x) kTransportShift) kTransportMask = x mod 4.
Proof.
  unfold pack_type, kCandidateTypeMask, kTransportMask, kTransportShift, u8.
  change 0x1F with (Z.ones 5). change 0x03 with (Z.ones 2).
  rewrite <- !Z.land_ones by lia. change 4 with (2 ^ 2). rewrite <- Z.land_ones by lia.
  apply Z.bits_inj'. intros n Hn.
  rewrite !Z.land_spec, Z.shiftr_spec, !Z.land_spec, !Z.lor_spec, !Z.land_spec by lia.
  destruct (decide (n < 2)).
  - rewrite (Z.ones_spec_high 5), (Z.ones_spec_low 8), (Z.ones_spec_low 2) by lia.
    rewrite Z.shiftl_spec_high by lia.
    rewrite Z.land_spec, Z.add_simpl_r, Z.ones_spec_low by lia.
    by rewrite andb_false_r, !andb_true_r.
  - rewrite (Z.ones_spec_high 2) by lia. by rewrite !andb_false_r.
Qed.

Lemma length_to_wire c : length (c_addr c) = 16%nat → length (to_wire c) = wire_size.
Proof. intros H. unfold to_wire. by rewrite !length_app, length_take, H. Qed.

(** What a candidate looks like after one slot of the wire. *)
Definition wire_view (c : Candidate) : Candidate :=
  c <| c_hostname := [] |> <| c_foundation := [] |>.

Lemma from_to_wire c :
  candidate_wf c → type_byte (c_type c) < 32 → from_wire (to_wire c) = Some (wire_view c).
Proof.
  intros [[Ht Ht8] [Hf Hf8] Hp Hq [Ha Hab] Hh] Hlt.
  unfold from_wire, to_wire. fold (pack_type (type_byte (c_type c)) (transport_byte (c_transport c))).
  set (p := pack_type _ _). simpl lookup. cbv beta iota.
  change ([p; family_byte (c_family c)] ++ write16 (c_port c) ++ write32 (c_priority c)
          ++ take 16 (c_addr c))
    with (([p; family_byte (c_family c)] ++ write16 (c_port c)) ++ write32 (c_priority c)
          ++ take 16 (c_addr c)).
  rewrite read32_at by done. rewrite <- app_assoc, read16_at by done.
  rewrite !app_assoc, <- (app_nil_r (take 16 (c_addr c))), read_bytes_at
    by (rewrite ?length_take; done || lia).
  simpl. subst p. rewrite pack_type_low, pack_type_high, u16_id, u32_id by done.
  rewrite Z.mod_small, Ht, Hf by (unfold_ints; lia).
  rewrite (Z.mod_small (transport_byte _) 4), transport_of_byte by (destruct (c_transport c); simpl; lia).
  by rewrite firstn_all2 by lia.
Qed.

(** * Signals: bounds *)

Lemma from_wire_total w : length w = wire_size → is_Some (from_wire w).
Proof.
  intros Hw. unfold wire_size in Hw. unfold from_wire.
  destruct (lookup_in w 0) as [? ->]; [lia|]; simpl.
  destruct (lookup_in w 1) as [? ->]; [lia|]; simpl.
  destruct (read16_in w 2) as [? ->]; [lia|]; simpl.
  destruct (read32_in w 4) as [? ->]; [lia|]; simpl.
  rewrite read_bytes_in by lia. simpl. eauto.
Qed.

Lemma read_wires_total data n off :
  (off + n * wire_size ≤ length data)%nat →
  ∃ cs, read_wires data off n = Some cs ∧ length cs = n.
Proof.
  revert off. induction n as [|n IH]; intros off Hle; simpl; [eauto|].
  rewrite Nat.mul_succ_l in Hle. rewrite read_bytes_in by lia. simpl.
  destruct (from_wire_total (slice data off wire_size)) as [c ->];
    [by rewrite length_slice by lia|]; simpl.
  destruct (IH (off + wire_size)%nat) as (cs & -> & Hcs); [lia|]. simpl.
  eexists; split; [done|]. simpl. lia.
Qed.

(** The hostname loop reads in bounds, and on success it has read exactly the
    bytes of the hostnames it stored. *)
Lemma read_hostnames_total data cs off hn :
  (off ≤ length data)%nat →
  ∃ ok cs' off' hn', read_hostnames data cs off hn = Some (ok, cs', off', hn')
    ∧ length cs' = length cs ∧ (off' ≤ length data)%nat.
Proof.
  revert off hn. induction cs as [|c cs IH]; intros off hn Hoff; simpl; [eauto 10|].
  destruct (is_mdns c).
  - case_decide; [eauto 10|]. destruct (read16_in data off) as [len ->]; [lia|]. simpl.
    case_decide; [do 4 eexists; split; [done|]; simpl; lia|].
    case_decide; [do 4 eexists; split; [done|]; simpl; lia|].
    rewrite read_bytes_in by lia. simpl.
    destruct (IH (off + 2 + Z.to_nat len)%nat (hn + 1)%nat) as (?&?&?&?& -> & ? & ?); [lia|].
    simpl. do 4 eexists; split; [done|]. simpl. lia.
  - destruct (IH off hn) as (?&?&?&?& -> & ? & ?); [lia|].
    simpl. do 4 eexists; split; [done|]. simpl. lia.
Qed.

Lemma read_trailer_total data fs cs :
  (fs ≤ length data)%nat →
  ∃ ok cs', read_trailer data fs cs = Some (ok, cs') ∧ length cs' = length cs.
Proof.
  intros Hfs. unfold read_trailer. repeat (case_decide; [by eauto|]).
  destruct (read32_in data fs) as [n ->]; [lia|]. simpl. case_decide; [by eauto|].
  destruct (read_hostnames_total data cs (fs + 4) 0) as (?&?&?&?& -> & ? & ?); [lia|].
  simpl. eauto.
Qed.

(** C28 ([deserialize_signal] is memory safe): on every byte string, whatever the
    caller's reference arguments hold, the decoder returns without reading outside
    the buffer, and a set it accepts has at most [MAX_ICE_CANDIDATES] members,
    as many as the header announces. *)
Theorem deserialize_signal_safe data out :
  ∃ ok out', deserialize_signal data out = Some (ok, out')
    ∧ (ok = true →
         Z.of_nat (length (so_candidates out')) = sig_candidate_count (so_hdr out')
         ∧ Z.of_nat (length (so_candidates out')) ≤ MAX_ICE_CANDIDATES).
Proof.
  unfold deserialize_signal. case_decide as H1; [by do 2 eexists|].
  unfold header_size in H1. rewrite !read_bytes_in by lia. sbind.
  destruct (read32_in data 40) as [packed ->]; [lia|]. sbind.
  case_decide as H2; [by do 2 eexists|]. case_decide as H3; [by do 2 eexists|].
  set (n := Z.land packed ICE_SIGNAL_COUNT_MASK) in *.
  assert (0 ≤ n) by (apply Z.land_nonneg; right; by compute).
  destruct (read_wires_total data (Z.to_nat n) header_size) as (cs & -> & Hcs); [lia|]. sbind.
  destruct (read_trailer_total data (header_size + Z.to_nat n * wire_size) cs)
    as (ok & cs' & -> & Hcs'); [lia|].
  do 2 eexists; split; [done|]. simpl. lia.
Qed.

(** * Signals: round trip *)

(** What the receiver of a signal holds for a candidate of the sender: hostnames
    are kept, up to the cap, for mDNS candidates only; foundations do not travel. *)
Definition signal_view (c : Candidate) : Candidate :=
  (wire_view c) <| c_hostname := if is_mdns c then trailer_hostname c else [] |>.

(** The candidates a signal can carry. *)
Definition sendable (c : Candidate) : Prop :=
  candidate_wf c ∧ type_byte (c_type c) < 32 ∧ (c_type c = HostMdns → c_hostname c ≠ []).

#[global] Instance sendable_dec c : Decision (sendable c).
Proof. unfold sendable. apply _. Defined.

Lemma in_trailer_mdns c : sendable c → in_trailer c = is_mdns c.
Proof.
  intros (_ & _ & H). unfold in_trailer, is_mdns.
  destruct (bool_decide_reflect (c_type c = HostMdns)); [|done]. simpl.
  by rewrite bool_decide_false by auto.
Qed.

Lemma trailer_entry_sendable c :
  sendable c →
  trailer_entry c =
    if is_mdns c
    then write16 (Z.of_nat (length (trailer_hostname c))) ++ trailer_hostname c else [].
Proof.
  intros Hc. unfold trailer_entry. rewrite in_trailer_mdns by done.
  destruct (is_mdns c); [|done]. rewrite u16_id; [done|].
  unfold trailer_hostname. rewrite length_take. unfold kMaxMdnsHostnameLen. unfold_ints. lia.
Qed.

Lemma mdns_count_cons c cs :
  sendable c → mdns_count (c :: cs) = ((if is_mdns c then 1 else 0) + mdns_count cs)%nat.
Proof.
  intros Hc. unfold mdns_count. rewrite filter_cons, in_trailer_mdns by done.
  by destruct (is_mdns c).
Qed.

Lemma mdns_candidate_count_cons c cs :
  mdns_candidate_count (c :: cs) =
    ((if is_mdns c then 1 else 0) + mdns_candidate_count cs)%nat.
Proof. unfold mdns_candidate_count. rewrite filter_cons. by destruct (is_mdns c). Qed.

Lemma filter_in_trailer cs :
  Forall sendable cs → mdns_count cs = mdns_candidate_count cs.
Proof.
  induction 1 as [|c cs Hc _ IH]; [done|].
  by rewrite mdns_count_cons, mdns_candidate_count_cons, IH.
Qed.

Lemma mdns_candidate_count_view cs :
  mdns_candidate_count (wire_view <$> cs) = mdns_candidate_count cs.
Proof.
  induction cs as [|c cs IH]; [done|].
  by rewrite fmap_cons, !mdns_candidate_count_cons, IH.
Qed.

Lemma length_wires cs :
  Forall sendable cs → length (mbind to_wire cs) = (length cs * wire_size)%nat.
Proof.
  induction 1 as [|c cs [Hc _] _ IH]; [done|].
  rewrite bind_cons, length_app, IH, length_to_wire by apply Hc. done.
Qed.

Lemma read_wires_spec cs pre post :
  Forall sendable cs →
  read_wires (pre ++ mbind to_wire cs ++ post) (length pre) (length cs)
  = Some (wire_view <$> cs).
Proof.
  intros Hcs. revert pre. induction Hcs as [|c cs (Hc & Ht & _) Hcs IH]; intros pre; [done|].
  assert (length (to_wire c) = wire_size) as Hl by apply length_to_wire, Hc.
  rewrite bind_cons. simpl length. unfold read_wires; fold read_wires.
  rewrite <- (app_assoc (to_wire c)), read_bytes_at by done. sbind.
  rewrite from_to_wire by done. sbind.
  rewrite <- Hl, <- length_app, app_assoc, IH. done.
Qed.

Lemma trailer_hostname_bounds c :
  sendable c → is_mdns c = true →
  (0 < length (trailer_hostname c) ≤ kMaxMdnsHostnameLen)%nat.
Proof.
  intros (_ & _ & Hne) Hm. apply bool_decide_eq_true in Hm. specialize (Hne Hm).
  unfold trailer_hostname, kMaxMdnsHostnameLen. rewrite length_take.
  destruct (c_hostname c); [done|]. simpl length. lia.
Qed.

Lemma read_hostnames_spec cs pre hn :
  Forall sendable cs →
  let data := pre ++ mbind trailer_entry cs in
  read_hostnames data (wire_view <$> cs) (length pre) hn
  = Some (true, signal_view <$> cs, length data, (hn + mdns_count cs)%nat).
Proof.
  intros Hcs. revert pre hn.
  induction Hcs as [|c cs Hc Hcs IH]; intros pre hn data; subst data.
  { by rewrite app_nil_r, Nat.add_0_r. }
  rewrite fmap_cons, bind_cons. cbn [read_hostnames].
  change (is_mdns (wire_view c)) with (is_mdns c).
  rewrite trailer_entry_sendable, mdns_count_cons, fmap_cons by done.
  unfold signal_view at 1. destruct (is_mdns c) eqn:Hm.
  - pose proof (trailer_hostname_bounds c Hc Hm) as Hlen. unfold kMaxMdnsHostnameLen in *.
    set (h := trailer_hostname c) in *.
    rewrite <- (app_assoc _ h), decide_False by (rewrite !length_app; simpl; lia).
    rewrite read16_at by done. sbind. rewrite !u16_id by (unfold_ints; lia).
    rewrite decide_False by lia. rewrite decide_False by (rewrite !length_app; simpl; lia).
    rewrite Nat2Z.id, (app_assoc pre).
    rewrite read_bytes_at by (rewrite ?length_app; done). sbind. rewrite (app_assoc _ h).
    replace (length pre + 2 + length h)%nat
      with (length ((pre ++ write16 (Z.of_nat (length h))) ++ h))
      by (rewrite !length_app; done).
    rewrite IH. sbind. by rewrite <- Nat.add_assoc.
  - simpl app. rewrite IH. done.
Qed.

Lemma length_fixed_field n s : length (fixed_field n s) = n.
Proof. unfold fixed_field. rewrite length_app, length_replicate, length_take. lia. Qed.

Lemma length_signal_header u p cs f : length (signal_header u p cs f) = header_size.
Proof. unfold signal_header. by rewrite !length_app, !length_fixed_field. Qed.

(** The packed count word splits back into flags and count. *)
Lemma packed_split flags n :
  is_u32 flags → 0 ≤ n < 65536 →
  let packed := Z.lor (Z.land flags ICE_SIGNAL_FLAG_MASK) (Z.land (u32 n) ICE_SIGNAL_COUNT_MASK) in
  is_u32 packed ∧ Z.land packed ICE_SIGNAL_FLAG_MASK = Z.land flags ICE_SIGNAL_FLAG_MASK
  ∧ Z.land packed ICE_SIGNAL_COUNT_MASK = n.
Proof.
  intros Hf Hn. unfold ICE_SIGNAL_FLAG_MASK, ICE_SIGNAL_COUNT_MASK.
  rewrite u32_id by (unfold_ints; lia). change 0x0000FFFF with (Z.ones 16).
  rewrite (Z.land_ones n), Z.mod_small by lia. cbv zeta.
  set (F := Z.land flags 0xFFFF0000).
  assert (F mod 2 ^ 16 = 0) as HF0.
  { subst F. rewrite <- Z.land_ones, <- Z.land_assoc by lia.
    change (Z.land 0xFFFF0000 (Z.ones 16)) with 0. by rewrite Z.land_0_r. }
  assert (0 ≤ F < 2 ^ 32) as HFr.
  { assert (F = F mod 2 ^ 32) as ->; [|apply Z.mod_pos_bound; lia].
    subst F. rewrite <- Z.land_ones, <- Z.land_assoc by lia. done. }
  assert (F = Z.shiftl (F / 2 ^ 16) 16) as HFs.
  { rewrite Z.shiftl_mul_pow2 by lia. unfold_ints. Z.div_mod_to_equations. lia. }
  assert (Z.lor F n = F + n) as HFn.
  { rewrite HFs at 1. rewrite lor_shiftl_add by lia.
    rewrite <- Z.shiftl_mul_pow2, <- HFs by lia. done. }
  split; [rewrite HFn; unfold_ints; Z.div_mod_to_equations; lia|]. split.
  - rewrite Z.land_lor_distr_l. unfold F at 1. rewrite <- Z.land_assoc.
    change (Z.land 0xFFFF0000 0xFFFF0000) with 0xFFFF0000. fold F.
    assert (Z.land n 0xFFFF0000 = 0) as ->; [|apply Z.lor_0_r].
    rewrite <- (Z.mod_small n (2 ^ 16)), <- Z.land_ones, <- Z.land_assoc by lia.
    change (Z.land (Z.ones 16) 0xFFFF0000) with 0. apply Z.land_0_r.
  - rewrite Z.land_ones, HFn by lia. rewrite Z.add_mod, HF0 by lia.
    rewrite Z.add_0_l, Z.mod_mod by lia. apply Z.mod_small. lia.
Qed.

Lemma trailer_nil cs : Forall sendable cs → mdns_count cs = 0%nat → trailer cs = [].
Proof. intros _ H. unfold trailer. by rewrite decide_False by lia. Qed.

Lemma read_trailer_spec cs pre :
  Forall sendable cs → (length cs ≤ 256)%nat →
  read_trailer (pre ++ trailer cs) (length pre) (wire_view <$> cs)
  = Some (true, signal_view <$> cs).
Proof.
  intros Hcs Hlen. unfold read_trailer.
  rewrite mdns_candidate_count_view, <- filter_in_trailer by done.
  assert (mdns_count cs ≤ length cs)%nat by apply length_filter. unfold trailer.
  destruct (decide (0 < mdns_count cs)%nat) as [Hpos|Hz].
  - rewrite !length_app, !length_write32, !decide_False by (rewrite ?length_app; lia).
    rewrite read32_at by done. sbind. rewrite !u32_id by (unfold_ints; lia).
    rewrite decide_False by auto. rewrite app_assoc.
    replace (length pre + 4)%nat
      with (length (pre ++ write32 (Z.of_nat (mdns_count cs)))) by by rewrite length_app.
    rewrite read_hostnames_spec by done. sbind.
    by rewrite !bool_decide_true by (rewrite ?length_app, ?length_write32; lia).
  - rewrite app_nil_r, decide_True by done. rewrite bool_decide_true by lia. do 2 f_equal.
    assert (mdns_candidate_count cs = 0%nat) as Hm
      by (rewrite <- filter_in_trailer by done; lia).
    clear -Hm. induction cs as [|c cs IH]; [done|].
    rewrite mdns_candidate_count_cons in Hm. rewrite !fmap_cons.
    unfold signal_view at 1. destruct (is_mdns c); [done|]. f_equal. by apply IH.
Qed.

(** The header fields as the decoder reads them. *)
Lemma read_signal_header ufrag pwd cs flags rest :
  let packed := Z.lor (Z.land flags ICE_SIGNAL_FLAG_MASK)
                  (Z.land (u32 (Z.of_nat (length cs))) ICE_SIGNAL_COUNT_MASK) in
  let data := signal_header ufrag pwd cs flags ++ rest in
  read32 data 40 = Some (u32 packed) ∧ read_bytes data 0 8 = Some (fixed_field 8 ufrag)
  ∧ read_bytes data 8 32 = Some (fixed_field 32 pwd).
Proof.
  intros packed data. subst data. unfold signal_header. fold packed.
  rewrite <- !app_assoc. repeat split.
  - rewrite app_assoc. apply read32_at. by rewrite length_app, !length_fixed_field.
  - apply (read_bytes_at []); [done|]. by rewrite length_fixed_field.
  - apply read_bytes_at; by rewrite length_fixed_field.
Qed.

(** What [deserialize_signal] makes of a serialized signal. *)
Lemma signal_decodes ufrag pwd cs flags out :
  Forall sendable cs → (length cs ≤ 256)%nat → is_u32 flags →
  deserialize_signal (serialize_signal ufrag pwd cs flags) out
  = Some (true, {| so_hdr := mkIceSignalData (fixed_field 8 ufrag) (fixed_field 32 pwd)
                               (Z.of_nat (length cs));
                   so_candidates := signal_view <$> cs;
                   so_flags := Z.land flags ICE_SIGNAL_FLAG_MASK |}).
Proof.
  intros Hcs Hlen Hf. unfold serialize_signal, deserialize_signal.
  destruct (packed_split flags (Z.of_nat (length cs))) as (Hp & Hpf & Hpn); [done|lia|].
  pose proof (length_signal_header ufrag pwd cs flags) as Hh.
  pose proof (length_wires cs Hcs) as Hw.
  destruct (read_signal_header ufrag pwd cs flags (mbind to_wire cs ++ trailer cs))
    as (-> & -> & ->).
  rewrite decide_False by (rewrite length_app; lia). sbind.
  rewrite u32_id, Hpf, Hpn by done.
  rewrite decide_False by (unfold MAX_ICE_CANDIDATES; lia).
  rewrite Nat2Z.id, decide_False by (rewrite !length_app; lia).
  rewrite <- Hh, read_wires_spec by done. sbind.
  rewrite <- Hw, <- length_app, app_assoc, read_trailer_spec by done. done.
Qed.

(** C21 (signal round trip): for every well-formed candidate set of at most 256
    members whose mDNS candidates carry a hostname, decoding what
    [serialize_signal] produced succeeds and yields the zero-padded credentials,
    the flag bits and the candidates in order, hostnames cut at 64 bytes and
    foundations dropped. *)
Theorem signal_roundtrip ufrag pwd cs flags out :
  Forall sendable cs → (length cs ≤ 256)%nat → is_u32 flags →
  deserialize_signal (serialize_signal ufrag pwd cs flags) out
  = Some (true, {| so_hdr := mkIceSignalData (fixed_field 8 ufrag) (fixed_field 32 pwd)
                               (Z.of_nat (length cs));
                   so_candidates := signal_view <$> cs;
                   so_flags := Z.land flags ICE_SIGNAL_FLAG_MASK |}).
Proof. apply signal_decodes. Qed.

Definition example_host : Candidate := {|
  c_type := Host; c_family := IPv4; c_port := 5000;
  c_priority := compute_priority Host 65535 1;
  c_addr := [10; 0; 0; 1] ++ replicate 12 0;
  c_hostname := []; c_transport := TcpPassive; c_foundation := str "7" |}.

Definition example_mdns : Candidate :=
  example_host <| c_type := HostMdns |> <| c_hostname := str "abc.local" |>
               <| c_transport := Udp |>.

Lemma signal_roundtrip_witness :
  Forall sendable [example_host; example_mdns] ∧
  deserialize_signal
    (serialize_signal (str "frag") (str "secret") [example_host; example_mdns] (2 ^ 16))
    (mkSignalOut (mkIceSignalData [] [] 0) [] 0)
  = Some (true, {| so_hdr := mkIceSignalData (fixed_field 8 (str "frag"))
                               (fixed_field 32 (str "secret")) 2;
                   so_candidates := signal_view <$> [example_host; example_mdns];
                   so_flags := 2 ^ 16 |}).
Proof.
  assert (Forall sendable [example_host; example_mdns]) as Hs.
  { apply (bool_decide_eq_true_1 (Forall sendable [example_host; example_mdns])).
    vm_compute. reflexivity. }
  split; [exact Hs|].
  apply (signal_roundtrip (str "frag") (str "secret") [example_host; example_mdns] (2 ^ 16));
    [exact Hs|simpl; lia|unfold_ints; lia].
Defined.

(** An mDNS candidate without a hostname yields a signal its receiver refuses. *)
Lemma empty_hostname_rejected ufrag pwd c flags out :
  candidate_wf c → is_u32 flags → c_type c = HostMdns → c_hostname c = [] →
  fst <$> deserialize_signal (serialize_signal ufrag pwd [c] flags) out = Some false.
Proof.
  intros Hc Hf Ht Hh. unfold serialize_signal, deserialize_signal.
  destruct (packed_split flags 1) as (Hp & Hpf & Hpn); [done|lia|].
  pose proof (length_signal_header ufrag pwd [c] flags) as Hhd.
  assert (trailer [c] = []) as ->.
  { unfold trailer, mdns_count. rewrite filter_cons. unfold in_trailer. by rewrite Hh, andb_false_r. }
  assert (length (to_wire c) = wire_size) as Hw by apply length_to_wire, Hc.
  destruct (read_signal_header ufrag pwd [c] flags (mbind to_wire [c] ++ []))
    as (-> & -> & ->).
  rewrite decide_False by (rewrite length_app; lia). sbind.
  change (Z.of_nat (length [c])) with 1. rewrite u32_id, Hpn by done.
  rewrite decide_False by (unfold MAX_ICE_CANDIDATES; lia).
  rewrite bind_cons, !app_nil_r, decide_False by (rewrite length_app; lia).
  change (Z.to_nat 1) with 1%nat. cbn [read_wires].
  rewrite <- (app_nil_r (to_wire c)), read_bytes_at by done. sbind.
  rewrite from_to_wire by (done || by rewrite Ht). sbind.
  unfold read_trailer. rewrite app_nil_r, decide_True by (rewrite length_app; lia).
  sbind. simpl. rewrite mdns_candidate_count_cons.
  change (is_mdns (wire_view c)) with (is_mdns c).
  assert (is_mdns c = true) as -> by by apply bool_decide_eq_true. done.
Qed.

(** * Signals: the accepted language *)

Lemma from_wire_hostname w c : from_wire w = Some c → c_hostname c = [].
Proof.
  unfold from_wire. intros. by inv_bind.
Qed.

Lemma read_wires_hostname data off n cs :
  read_wires data off n = Some cs → Forall (λ c, c_hostname c = []) cs.
Proof.
  revert off cs. induction n as [|n IH]; intros off cs; simpl; [by intros; simplify_eq|].
  intros. inv_bind. constructor; eauto using from_wire_hostname.
Qed.

(** On success the hostname loop has consumed exactly the trailer entries of the
    candidates it leaves behind. *)
Lemma read_hostnames_exact data cs off hn cs' off' hn' :
  bytes_ok data → Forall (λ c, c_hostname c = []) cs →
  read_hostnames data cs off hn = Some (true, cs', off', hn') →
  slice data off (off' - off) = mbind trailer_entry cs'
  ∧ (off ≤ off')%nat ∧ mdns_count cs' = mdns_candidate_count cs.
Proof.
  intros Hd Hcs. revert off hn cs' off' hn'.
  induction Hcs as [|c cs Hc Hcs IH]; intros off hn cs' off' hn'; cbn [read_hostnames].
  { intros; simplify_eq. by rewrite Nat.sub_diag. }
  rewrite mdns_candidate_count_cons. destruct (is_mdns c) eqn:Hm.
  - case_decide as H1; [done|]. destruct (read16 data off) as [len|] eqn:Hr; [|done]. sbind.
    case_decide as H2; [done|]. case_decide as H3; [done|]. intros H.
    rewrite read_bytes_in in H by lia. cbn [mbind option_bind] in H.
    apply bind_Some in H as ([[[ok cs1] off1] hn1] & Hrec & H). simplify_eq.
    apply IH in Hrec as (Hs & Hle & Hn).
    pose proof (read16_range _ _ _ Hr) as Hlen. unfold kMaxMdnsHostnameLen in H2.
    set (h := slice data (off + 2) (Z.to_nat len)).
    assert (length h = Z.to_nat len) as Hh by (apply length_slice; unfold_ints; lia).
    assert (in_trailer (c <| c_hostname := h |>) = true) as Hin.
    { unfold in_trailer. simpl. unfold is_mdns in Hm. rewrite Hm. simpl.
      rewrite bool_decide_false; [done|]. intros E. rewrite E in Hh. simpl in Hh.
      unfold_ints. lia. }
    rewrite bind_cons. unfold trailer_entry at 1, trailer_hostname. rewrite Hin.
    change (c_hostname _) with h. rewrite firstn_all2 by (unfold kMaxMdnsHostnameLen; unfold_ints; lia).
    rewrite Hh, Z2Nat.id, u16_id by (unfold_ints; lia).
    rewrite (write16_read16 _ _ _ Hd Hr), <- Hs. split; [|split; [lia|]].
    + replace (off' - off)%nat with (2 + (Z.to_nat len + (off' - (off + 2 + Z.to_nat len))))%nat by lia.
      rewrite !slice_split. subst h. by rewrite app_assoc.
    + unfold mdns_count in *. rewrite filter_cons, Hin. simpl. by rewrite <- Hn.
  - intros H. apply bind_Some in H as ([[[ok cs1] off1] hn1] & Hrec & H). simplify_eq.
    apply IH in Hrec as (Hs & Hle & Hn).
    assert (in_trailer c = false) as Hin by (unfold in_trailer; by rewrite Hc, andb_false_r).
    rewrite bind_cons. unfold trailer_entry at 1. rewrite Hin. split; [done|split; [done|]].
    unfold mdns_count in *. by rewrite filter_cons, Hin.
Qed.

Lemma drop_slice (d : bytes) n : drop n d = slice d n (length d - n).
Proof. unfold slice. by rewrite firstn_all2 by (rewrite length_drop; lia). Qed.

Lemma mdns_count_no_hostname cs :
  Forall (λ c, c_hostname c = []) cs → mdns_count cs = 0%nat.
Proof.
  unfold mdns_count. induction 1 as [|c cs Hc _ IH]; [done|].
  assert (in_trailer c = false) as Hin by (unfold in_trailer; by rewrite Hc, andb_false_r).
  by rewrite filter_cons, Hin.
Qed.

Lemma read_trailer_exact data fs cs cs' :
  bytes_ok data → (fs ≤ length data)%nat → Forall (λ c, c_hostname c = []) cs →
  read_trailer data fs cs = Some (true, cs') → drop fs data = trailer cs'.
Proof.
  intros Hd Hfs Hcs. unfold read_trailer. case_decide as H1.
  { intros H. injection H as Hz <-. apply bool_decide_eq_true in Hz.
    rewrite drop_ge by lia. unfold trailer. rewrite decide_False; [done|].
    rewrite mdns_count_no_hostname by done. lia. }
  case_decide as H2; [done|]. case_decide as H3; [done|].
  destruct (read32 data fs) as [n|] eqn:Hr; [|done]. sbind. case_decide as H4; [done|].
  intros H. apply bind_Some in H as ([[[ok cs1] off] hn] & Hrec & H). injection H as Hok <-.
  apply andb_true_iff in Hok as [Hok _]. apply andb_true_iff in Hok as [-> Hoff].
  apply bool_decide_eq_true in Hoff as ->.
  apply read_hostnames_exact in Hrec as (Hs & Hle & Hn); [|done|done].
  unfold trailer. rewrite decide_True, Hn by lia.
  assert (is_u32 (Z.of_nat (mdns_candidate_count cs))) by (rewrite <- H4; by eapply read32_range).
  rewrite u32_id, <- H4, (write32_read32 _ _ _ Hd Hr), <- Hs by done.
  rewrite drop_slice. replace (length data - fs)%nat with (4 + (length data - (fs + 4)))%nat by lia.
  apply slice_split.
Qed.

(** Nothing but the announced content is accepted: a signal that decodes
    ends, after its 44-byte header and its [candidate_count] slots, with exactly
    the hostname trailer of the decoded candidates; trailing or missing bytes and
    hostnames without an mDNS candidate are refused. *)
Theorem signal_accepts_exact data out out' :
  bytes_ok data → deserialize_signal data out = Some (true, out') →
  drop (header_size + length (so_candidates out') * wire_size) data
  = trailer (so_candidates out')
  ∧ (header_size + length (so_candidates out') * wire_size ≤ length data)%nat.
Proof.
  intros Hd. unfold deserialize_signal. case_decide as H1; [done|].
  rewrite !read_bytes_in by (unfold header_size in H1; lia). sbind.
  destruct (read32 data 40) as [packed|]; [|done]. sbind.
  case_decide as H2; [done|]. case_decide as H3; [done|]. intros H.
  apply bind_Some in H as (cs & Hw & H). apply bind_Some in H as ([ok cs'] & Ht & H).
  injection H as -> <-. simpl so_candidates.
  destruct (read_wires_total data (Z.to_nat (Z.land packed ICE_SIGNAL_COUNT_MASK)) header_size)
    as (cs1 & Hw1 & Hl); [lia|]. rewrite Hw in Hw1. simplify_eq.
  assert (length cs' = length cs1) as Hl'.
  { destruct (read_trailer_total data (header_size + length cs1 * wire_size) cs1)
      as (? & ? & Ht' & ?); [rewrite Hl; lia|]. rewrite Hl in Ht' at 1. by simplify_eq. }
  rewrite Hl', Hl. split; [|lia].
  apply (read_trailer_exact data _ cs1); [done|lia|by eapply read_wires_hostname|done].
Qed.

Lemma signal_accepts_exact_witness :
  let data := serialize_signal (str "u") (str "p") [example_mdns] 0 in
  bytes_ok data ∧ ∃ out', drop 68 data = trailer (so_candidates out').
Proof.
  intros data. assert (bytes_ok data) as Hd
    by (apply (bool_decide_eq_true_1 (Forall is_u8 data)); vm_compute; reflexivity).
  split; [exact Hd|].
  set (r := deserialize_signal data (mkSignalOut (mkIceSignalData [] [] 0) [] 0)).
  destruct r as [[[|] out']|] eqn:E; [|vm_compute in E; discriminate E..].
  exists out'. destruct (signal_accepts_exact data _ out' Hd E) as [H _].
  vm_compute in E. injection E as <-. exact H.
Defined.

(** * What is decoded is well formed *)

Lemma family_of_byte_byte b : family_byte (family_of_byte b) = b.
Proof. destruct b as [|b|]; try done. by do 2 (destruct b as [b|b|]; try done). Qed.

Lemma from_wire_wf w c : bytes_ok w → (24 ≤ length w)%nat → from_wire w = Some c → candidate_wf c.
Proof.
  intros Hw Hl Hc. unfold from_wire in Hc.
  apply bind_Some in Hc as (t & Ht & Hc). apply bind_Some in Hc as (f & Hf & Hc).
  apply bind_Some in Hc as (port & Hp & Hc). apply bind_Some in Hc as (prio & Hr & Hc).
  apply bind_Some in Hc as (addr & Ha & Hc). simplify_eq.
  apply (Forall_lookup_1 _ _ _ _ Hw) in Ht, Hf.
  assert (is_u8 (Z.land t kCandidateTypeMask)) as Hm.
  { unfold kCandidateTypeMask. change 31 with (Z.ones 5). rewrite Z.land_ones by lia.
    pose proof (Z.mod_pos_bound t (2 ^ 5)). unfold_ints. lia. }
  split; cbn; rewrite ?type_of_byte_byte, ?family_of_byte_byte; try done.
  - by eapply read16_range.
  - by eapply read32_range.
  - by eapply read_bytes_ok.
  - constructor.
Qed.

Lemma read_wires_wf data off n cs :
  bytes_ok data → read_wires data off n = Some cs → Forall candidate_wf cs.
Proof.
  intros Hd. revert off cs. induction n as [|n IH]; intros off cs; simpl; [by intros; simplify_eq|].
  intros H. apply bind_Some in H as (w & [Hl Hw]%read_bytes_ok & H); [|done].
  inv_bind. constructor; [|eauto].
  eapply from_wire_wf; [done | | eassumption]. rewrite Hl. unfold wire_size. lia.
Qed.

Lemma read_hostnames_wf data cs off hn ok cs' off' hn' :
  bytes_ok data → Forall candidate_wf cs →
  read_hostnames data cs off hn = Some (ok, cs', off', hn') → Forall candidate_wf cs'.
Proof.
  intros Hd Hcs. revert off hn ok cs' off' hn'.
  induction Hcs as [|c cs Hc Hcs IH]; intros off hn ok cs' off' hn'; cbn [read_hostnames].
  { intros; by simplify_eq. }
  assert (Forall candidate_wf (c :: cs)) as Hall by by constructor.
  destruct (is_mdns c).
  - case_decide; [by intros; simplify_eq|]. destruct (read16 data off) as [len|]; [|done]. sbind.
    case_decide; [by intros; simplify_eq|]. case_decide; [by intros; simplify_eq|]. intros Hx.
    apply bind_Some in Hx as (h & [_ Hh]%read_bytes_ok & Hx); [|done].
    apply bind_Some in Hx as ([[[ok1 cs1] off1] hn1] & Hrec & Hx). simplify_eq.
    constructor; [|by eapply IH]. destruct Hc. by split; cbn.
  - intros Hx. apply bind_Some in Hx as ([[[ok1 cs1] off1] hn1] & Hrec & Hx). simplify_eq.
    constructor; [done | by eapply IH].
Qed.

(** The candidates of a decoded signal are what their C++ types promise. *)
Lemma deserialize_signal_wf data out out' :
  bytes_ok data → deserialize_signal data out = Some (true, out') → Forall candidate_wf (so_candidates out').
Proof.
  intros Hd. unfold deserialize_signal. case_decide as Hl; [done|].
  rewrite !read_bytes_in by (unfold header_size in Hl; lia). sbind.
  destruct (read32 data 40) as [packed|]; [|done]. sbind.
  case_decide; [done|]. case_decide; [done|]. intros Hx.
  apply bind_Some in Hx as (cs & Hw & Hx). apply bind_Some in Hx as ([ok cs'] & Ht & Hx).
  injection Hx as -> <-. simpl so_candidates. apply read_wires_wf in Hw; [|done].
  unfold read_trailer in Ht. case_decide; [by simplify_eq|]. case_decide; [done|].
  case_decide; [done|]. apply bind_Some in Ht as (n & _ & Ht). case_decide; [done|].
  apply bind_Some in Ht as ([[[ok1 cs1] off] hn] & Hrec & Ht). injection Ht as _ <-.
  by eapply read_hostnames_wf.
Qed.

(** [serialize_signal] fills its buffer exactly: the length allocated from
    the first pass over the candidates is the length of what the copies write. *)
Theorem serialize_signal_size ufrag pwd cs flags :
  Forall candidate_wf cs →
  length (serialize_signal ufrag pwd cs flags) = serialized_size cs.
Proof.
  intros Hcs. unfold serialize_signal, serialized_size.
  rewrite !length_app, length_signal_header.
  assert (length (mbind to_wire cs) = length cs * wire_size)%nat as ->.
  { induction Hcs as [|c cs Hc _ IH]; [done|].
    rewrite bind_cons, length_app, IH, length_to_wire by apply Hc. done. }
  assert (∀ l, length (mbind trailer_entry l) = sum_list_with (λ c,
    if in_trailer c then 2 + min (length (c_hostname c)) kMaxMdnsHostnameLen else 0)%nat l) as Ht.
  { induction l as [|c l IH]; [done|]. rewrite bind_cons, length_app, IH. simpl.
    unfold trailer_entry, trailer_hostname. destruct (in_trailer c); [|done].
    rewrite length_app, length_write16, length_take. lia. }
  unfold trailer. case_decide as Hm.
  - rewrite length_app, Ht, length_write32. lia.
  - rewrite <- Ht. replace (mbind trailer_entry cs) with (@nil Z); [simpl; lia|].
    unfold mdns_count in Hm. clear -Hm.
    induction cs as [|c cs IH]; [done|]. rewrite filter_cons in Hm. rewrite bind_cons.
    unfold trailer_entry at 1. destruct (in_trailer c); [simpl in Hm; lia|]. by apply IH.
Qed.

Lemma serialize_signal_size_witness :
  length (serialize_signal (str "u") (str "p") [example_host; example_mdns] 0) = 107%nat.
Proof.
  rewrite (serialize_signal_size (str "u") (str "p") [example_host; example_mdns] 0);
    [reflexivity|].
  apply (bool_decide_eq_true_1 (Forall candidate_wf [example_host; example_mdns])).
  vm_compute. reflexivity.
Defined.

(** * Priorities *)

Lemma type_pref_range t : 0 ≤ type_pref t ≤ 126.
Proof. destruct t; simpl; lia. Qed.

Lemma compute_priority_value t lp comp :
  is_u16 lp → 1 ≤ comp < 256 →
  compute_priority t lp comp = type_pref t * 16777216 + lp * 256 + (256 - comp).
Proof.
  intros Hlp Hc. pose proof (type_pref_range t). unfold compute_priority.
  rewrite !u32_id; rewrite ?Z.shiftl_mul_pow2 by lia; try (unfold_ints; lia).
  rewrite <- !Z.shiftl_mul_pow2 by lia.
  replace (Z.shiftl (type_pref t) 24) with (Z.shiftl (Z.shiftl (type_pref t) 16) 8)
    by by rewrite Z.shiftl_shiftl by lia.
  rewrite <- Z.shiftl_lor, !lor_shiftl_add by (unfold_ints; lia). unfold_ints. lia.
Qed.

(** Candidate priorities follow RFC 8445 5.1.2: for a component id of at
    least 1, the priority lies in [1, 2^31), and two priorities compare as type
    preference, then local preference, then (reversed) component do; a candidate
    of a better type always wins. *)
Theorem compute_priority_order t1 lp1 c1 t2 lp2 c2 :
  is_u16 lp1 → is_u16 lp2 → 1 ≤ c1 < 256 → 1 ≤ c2 < 256 →
  1 ≤ compute_priority t1 lp1 c1 < 2 ^ 31
  ∧ (compute_priority t1 lp1 c1 < compute_priority t2 lp2 c2 ↔
     type_pref t1 < type_pref t2
     ∨ type_pref t1 = type_pref t2 ∧ (lp1 < lp2 ∨ lp1 = lp2 ∧ c2 < c1)).
Proof.
  intros. rewrite !compute_priority_value by done.
  pose proof (type_pref_range t1). pose proof (type_pref_range t2).
  change (2 ^ 31) with 2147483648. unfold_ints. lia.
Qed.

Lemma compute_priority_order_witness :
  compute_priority Relay 65535 1 < compute_priority Srflx 0 1
  ∧ compute_priority Host 65535 2 < compute_priority Host 65535 1.
Proof.
  split.
  - apply (compute_priority_order Relay 65535 1 Srflx 0 1); unfold_ints; simpl; lia.
  - apply (compute_priority_order Host 65535 2 Host 65535 1); unfold_ints; simpl; lia.
Defined.

(** With component id 0 the low field overflows into the local preference: the
    priority of an even local preference is the one of its odd successor. *)
Lemma compute_priority_component_zero :
  compute_priority Host 65534 0 = compute_priority Host 65535 0.
Proof. reflexivity. Qed.

Lemma pair_priority_value g d :
  0 ≤ g < 2 ^ 31 → 0 ≤ d < 2 ^ 31 →
  pair_priority g d true
  = 4294967296 * Z.min g d + 2 * Z.max g d + (if decide (g > d) then 1 else 0).
Proof.
  intros Hg Hd. unfold pair_priority. rewrite Z.shiftl_mul_pow2 by lia.
  change (2 ^ 31) with 2147483648 in *. change (2 ^ 32) with 4294967296.
  rewrite (u64_id (Z.min g d * _)), (u64_id (2 * _)), u64_id, u64_id;
    unfold_ints; try case_decide; lia.
Qed.

Lemma pair_priority_swap l r c : pair_priority l r c = pair_priority r l (negb c).
Proof. by destruct c. Qed.

(** C34 (pair priorities are a shared total order): for candidate priorities
    below 2^31, the controlling agent's priority of a pair and the controlled
    agent's priority of a pair, each computed from its own (local, remote) view,
    are equal exactly when the two pairs have the same candidate priorities in the
    same roles: the agents agree on every pair, and pairs that differ never tie. *)
Theorem pair_priority_agree_inj g d g' d' :
  0 ≤ g < 2 ^ 31 → 0 ≤ d < 2 ^ 31 → 0 ≤ g' < 2 ^ 31 → 0 ≤ d' < 2 ^ 31 →
  pair_priority g d true = pair_priority d' g' false ↔ g = g' ∧ d = d'.
Proof.
  intros. rewrite (pair_priority_swap d' g' false). simpl negb. rewrite !pair_priority_value by done.
  change (2 ^ 31) with 2147483648 in *.
  do 2 case_decide; lia.
Qed.

Lemma pair_priority_agree_inj_witness :
  pair_priority 100 200 true = pair_priority 200 100 false
  ∧ pair_priority 100 200 true ≠ pair_priority 100 200 false.
Proof.
  split.
  - apply (pair_priority_agree_inj 100 200 100 200); lia.
  - intros H. apply (pair_priority_agree_inj 100 200 200 100) in H; lia.
Defined.

(** * Foundations *)

Definition fnv_prime_inv : Z := 0xce965057aff6957b.

Lemma mix_lxor h b : u64 (mix h b * fnv_prime_inv) = u64 (Z.lxor h b).
Proof.
  unfold mix, u64. rewrite Z.mul_mod_idemp_l, <- Z.mul_assoc by lia.
  rewrite <- Z.mul_mod_idemp_r by lia.
  replace (fnv_prime * fnv_prime_inv mod 2 ^ 64) with 1 by (by vm_compute).
  by rewrite Z.mul_1_r.
Qed.

(** [mix] is injective in each argument: no information is lost by a step. *)
Lemma mix_inj h b h' b' :
  is_u64 h → is_u8 b → is_u64 h' → is_u8 b' → mix h b = mix h' b' →
  Z.lxor h b = Z.lxor h' b'.
Proof.
  intros Hh Hb Hh' Hb' H.
  assert (∀ x y, is_u64 x → is_u8 y → is_u64 (Z.lxor x y)) as Hr.
  { intros x y Hx Hy. apply lxor_range; [lia|done|]. unfold_ints. lia. }
  rewrite <- (u64_id (Z.lxor h b)), <- (u64_id (Z.lxor h' b')) by auto.
  by rewrite <- !mix_lxor, H.
Qed.

Lemma mix_range h b : is_u64 (mix h b).
Proof. apply u64_range. Qed.

Lemma mix_inj_state h h' b : is_u64 h → is_u64 h' → is_u8 b → mix h b = mix h' b → h = h'.
Proof.
  intros Hh Hh' Hb H. apply mix_inj in H; [|done..].
  rewrite <- (lxor_cancel h b), <- (lxor_cancel h' b). by rewrite H.
Qed.

Lemma mix_inj_byte h b b' : is_u64 h → is_u8 b → is_u8 b' → mix h b = mix h b' → b = b'.
Proof.
  intros Hh Hb Hb' H. apply mix_inj in H; [|done..].
  rewrite <- (lxor_cancel b h), <- (lxor_cancel b' h), !(Z.lxor_comm _ h). by rewrite H.
Qed.

Lemma fold_mix_range h l : is_u64 h → is_u64 (foldl mix h l).
Proof. revert h. induction l; simpl; intros; auto using mix_range. Qed.

Lemma fold_mix_inj l h h' :
  bytes_ok l → is_u64 h → is_u64 h' → foldl mix h l = foldl mix h' l → h = h'.
Proof.
  intros Hl. revert h h'. induction Hl as [|b l Hb _ IH]; intros h h' Hh Hh'; simpl; [done|].
  intros H. apply IH in H; [|apply mix_range..]. by apply mix_inj_state in H.
Qed.

(** The bytes [compute_foundation] hashes. *)
Definition foundation_input (type : CandidateType) (base server : bytes) (tr : TransportType)
    : bytes :=
  [type_byte type; 0xFF] ++ base ++ [0xFF] ++ server ++ [0xFF; transport_byte tr].

Lemma compute_foundation_input t b s tr :
  compute_foundation t b s tr = to_string (foldl mix fnv_offset (foundation_input t b s tr)).
Proof. unfold compute_foundation, foundation_input. by rewrite !foldl_app. Qed.

(** Foundations separate candidates that differ in one byte: if two
    candidates' (type, base address, server address, transport) inputs to the
    hash differ in exactly one byte, e.g. only in the type, only in the transport
    or in one digit of an address, their foundations differ; in particular the
    64-bit hash cannot merge a UDP and a TCP candidate, or a host and a reflexive
    one, of the same addresses. *)
Theorem foundation_one_byte t1 b1 s1 tr1 t2 b2 s2 tr2 pre x y post :
  foundation_input t1 b1 s1 tr1 = pre ++ x :: post →
  foundation_input t2 b2 s2 tr2 = pre ++ y :: post →
  is_u8 x → is_u8 y → bytes_ok post → x ≠ y →
  compute_foundation t1 b1 s1 tr1 ≠ compute_foundation t2 b2 s2 tr2.
Proof.
  intros H1 H2 Hx Hy Hpost Hne. rewrite !compute_foundation_input, H1, H2.
  rewrite !foldl_app. set (h := foldl mix fnv_offset pre).
  assert (is_u64 h) as Hh by (apply fold_mix_range; by compute).
  assert (∀ z, is_u64 (foldl mix h (z :: post))) as Hr by (intros; by apply fold_mix_range).
  intros E. apply to_string_inj in E; [|apply Hr..]. simpl in E.
  apply fold_mix_inj in E; [|done|apply mix_range..]. by apply mix_inj_byte in E.
Qed.

Lemma foundation_one_byte_witness :
  compute_foundation Host (str "10.0.0.1") [] Udp
  ≠ compute_foundation Host (str "10.0.0.1") [] TcpActive.
Proof.
  apply (foundation_one_byte Host (str "10.0.0.1") [] Udp Host (str "10.0.0.1") [] TcpActive
           ([0; 255] ++ str "10.0.0.1" ++ [255; 255]) 0 1 []);
    [reflexivity|reflexivity|unfold_ints; lia|unfold_ints; lia|constructor|lia].
Defined.

(** * Addresses *)

Section address_laws.
Context `{InetLaws}.

(** Address text round trip: reading back the printed address of a
    candidate that is not an unresolved mDNS name gives the receiving candidate
    the same family and the same significant address bytes. *)
Theorem set_address_str c c' :
  candidate_wf c → candidate_wf c' →
  c_family c = IPv4 ∨ c_family c = IPv6 → in_trailer c = false →
  let r := set_address (address_str c) c' in
  c_family r = c_family c
  ∧ (if bool_decide (c_family c = IPv4)
     then take 4 (c_addr r) = take 4 (c_addr c) else c_addr r = c_addr c)
  ∧ length (c_addr r) = 16%nat.
Proof.
  intros Hc Hc' Hf Hm. unfold address_str. fold (in_trailer c). rewrite Hm.
  destruct (wf_addr c Hc) as [Hl Hok]. destruct (wf_addr c' Hc') as [Hl' Hok'].
  unfold set_address. destruct Hf as [-> | ->]; simpl.
  - assert (length (take 4 (c_addr c)) = 4%nat) by (rewrite length_take; lia).
    rewrite ntop4_text, pton4_ntop4 by auto with ice. simpl.
    split; [done|]. split.
    + rewrite take_app_le by lia. by rewrite take_take.
    + rewrite length_app, length_drop. lia.
  - rewrite firstn_all2 by lia.
    rewrite ntop6_text, pton4_ntop6, pton6_ntop6 by done. simpl. done.
Qed.
End address_laws.

Lemma set_address_str_witness :
  candidate_wf example_host ∧
  c_family (@set_address InetRef.ops (@address_str InetRef.ops example_host)
              (example_mdns <| c_addr := replicate 16 1 |>)) = IPv4.
Proof.
  assert (candidate_wf example_host) as Hw.
  { apply (bool_decide_eq_true_1 (candidate_wf example_host)). vm_compute. reflexivity. }
  split; [exact Hw|].
  apply (@set_address_str InetRef.ops InetRef.laws example_host
    (example_mdns <| c_addr := replicate 16 1 |>)); [exact Hw| |by left|reflexivity].
  apply (bool_decide_eq_true_1 (candidate_wf _)). vm_compute. reflexivity.
Defined.
