(* ===== verification/Framing.v ===== *)
(** STUN-over-TCP framing (src/turn.cpp [encode_stream_frame],
    [try_take_stream_frame]): the 2-byte length prefix shared by the TURN control
    connection, the RFC 6062 data connections and the RFC 6544 TCP carriers, and
    the reassembly loop its users run over it. *)

From S2P Require Import Prelude Bytes.

(** Appends to [out]; the verdict is [false], and [out] unchanged, for a payload
    that does not fit the length field. *)
Definition encode_stream_frame (payload out : bytes) : bool * bytes :=
  if decide (Z.of_nat (length payload) > 0xFFFF) then (false, out) else
  (true, out ++ [u8 (Z.shiftr (Z.of_nat (length payload)) 8);
                 u8 (Z.land (Z.of_nat (length payload)) 0xFF)] ++ payload).

(** [Some (frame, buffer)] when a whole frame could be taken from the front. *)
Definition try_take_stream_frame (buffer : bytes) : option (bytes * bytes) :=
  match buffer with
  | b0 :: b1 :: rest =>
      let msg_len := Z.to_nat (Z.lor (Z.shiftl b0 8) b1) in
      if decide (length buffer < 2 + msg_len)%nat then None
      else Some (take msg_len rest, drop msg_len rest)
  | _ => None
  end.

(** [while (try_take_stream_frame(buffer, frame)) ...]: all the frames a buffer
    holds and the tail that stays in it. *)
Fixpoint take_frames (fuel : nat) (buffer : bytes) : list bytes * bytes :=
  match fuel with
  | O => ([], buffer)
  | S fuel =>
      match try_take_stream_frame buffer with
      | None => ([], buffer)
      | Some (frame, buffer) =>
          let '(fs, rest) := take_frames fuel buffer in (frame :: fs, rest)
      end
  end.

(** The loop with the fuel every buffer is content with. *)
Definition drain (buffer : bytes) : list bytes * bytes := take_frames (length buffer) buffer.

(** * One frame *)

Lemma frame_header payload out :
  Z.of_nat (length payload) ≤ 0xFFFF →
  encode_stream_frame payload out = (true, out ++ write16 (Z.of_nat (length payload)) ++ payload).
Proof.
  intros Hl. unfold encode_stream_frame. rewrite decide_False by lia.
  unfold write16, u8. change 0xFF with (Z.ones 8). by rewrite Z.land_ones, Zmod_mod by lia.
Qed.

(** The header announces the payload's length. *)
Lemma take_frame payload rest :
  Z.of_nat (length payload) ≤ 0xFFFF →
  try_take_stream_frame (write16 (Z.of_nat (length payload)) ++ payload ++ rest)
  = Some (payload, rest).
Proof.
  intros Hl. set (n := Z.of_nat (length payload)) in *.
  change (write16 n ++ payload ++ rest) with (u8 (Z.shiftr n 8) :: u8 n :: (payload ++ rest)).
  unfold try_take_stream_frame. rewrite lor_shiftl_add by (lia || apply u8_range).
  change (2 ^ 8) with 256. rewrite write16_value, u16_id by (unfold_ints; lia).
  subst n. rewrite Nat2Z.id, decide_False by (simpl; rewrite length_app; lia).
  by rewrite take_app_length, drop_app_length.
Qed.

(** A successful take splits the buffer; it shrinks by at least the prefix. *)
Lemma take_frame_inv buffer frame rest :
  try_take_stream_frame buffer = Some (frame, rest) →
  ∃ b0 b1, buffer = b0 :: b1 :: frame ++ rest ∧
    length frame = Z.to_nat (Z.lor (Z.shiftl b0 8) b1).
Proof.
  unfold try_take_stream_frame. destruct buffer as [|b0 [|b1 l]]; [done..|].
  case_decide as Hl; [done|]. intros; simplify_eq/=. exists b0, b1.
  rewrite take_drop. split; [done|]. rewrite length_take. lia.
Qed.

(** More bytes behind a buffer do not change the frame at its front. *)
Lemma take_frame_app buffer more frame rest :
  try_take_stream_frame buffer = Some (frame, rest) →
  try_take_stream_frame (buffer ++ more) = Some (frame, rest ++ more).
Proof.
  intros H. apply take_frame_inv in H as (b0 & b1 & -> & Hl). simpl.
  rewrite <- Hl, decide_False by (rewrite !length_app; lia).
  by rewrite <- app_assoc, take_app_length, drop_app_length.
Qed.

(** * Draining *)

Lemma take_frames_fuel f1 f2 buffer :
  (length buffer ≤ f1)%nat → (length buffer ≤ f2)%nat →
  take_frames f1 buffer = take_frames f2 buffer.
Proof.
  revert f2 buffer. induction f1 as [|f1 IH]; intros f2 buffer H1 H2.
  - destruct buffer; [|simpl in *; lia]. by destruct f2.
  - destruct f2 as [|f2]; [by destruct buffer; [|simpl in *; lia]|]. simpl.
    destruct (try_take_stream_frame buffer) as [[frame rest]|] eqn:E; [|done].
    apply take_frame_inv in E as (b0 & b1 & -> & _). simpl in *.
    rewrite length_app in *. by rewrite (IH f2) by lia.
Qed.

(** One unfolding of the loop, without fuel. *)
Lemma drain_step buffer :
  drain buffer =
    match try_take_stream_frame buffer with
    | None => ([], buffer)
    | Some (frame, rest) => let '(fs, r) := drain rest in (frame :: fs, r)
    end.
Proof.
  unfold drain. destruct buffer as [|b buffer]; [done|]. simpl length. cbn [take_frames].
  destruct (try_take_stream_frame (b :: buffer)) as [[frame rest]|] eqn:E; [|done].
  apply take_frame_inv in E as (b0 & b1 & E & _). simplify_eq.
  by rewrite (take_frames_fuel (length (b1 :: frame ++ rest)) (length rest))
    by (simpl; rewrite ?length_app; lia).
Qed.

(** What is left holds no whole frame, so the loop has terminated for good. *)
Lemma drain_stuck buffer : try_take_stream_frame (drain buffer).2 = None.
Proof.
  remember (length buffer) as n eqn:Hn. revert buffer Hn.
  induction (lt_wf n) as [n _ IH]. intros buffer ->. rewrite drain_step.
  destruct (try_take_stream_frame buffer) as [[frame rest]|] eqn:E; [|done].
  apply take_frame_inv in E as (b0 & b1 & -> & _).
  specialize (IH (length rest)). destruct (drain rest) as [fs r] eqn:Er. simpl.
  change r with ((fs, r).2). rewrite <- Er. apply IH; [|done].
  simpl. rewrite length_app. lia.
Qed.

(** Draining a buffer in two instalments. *)
Lemma drain_app buffer more :
  drain (buffer ++ more) =
    let '(fs1, r1) := drain buffer in
    let '(fs2, r2) := drain (r1 ++ more) in (fs1 ++ fs2, r2).
Proof.
  remember (length buffer) as n eqn:Hn. revert buffer Hn.
  induction (lt_wf n) as [n _ IH]. intros buffer ->.
  rewrite (drain_step buffer).
  destruct (try_take_stream_frame buffer) as [[frame rest]|] eqn:E;
    [|by destruct (drain (buffer ++ more))].
  rewrite drain_step, (take_frame_app _ _ _ _ E).
  apply take_frame_inv in E as (b0 & b1 & -> & _).
  rewrite (IH (length rest)) by (simpl; rewrite ?length_app; lia || done).
  destruct (drain rest) as [fs1 r1]. by destruct (drain (r1 ++ more)) as [fs2 r2].
Qed.

(** Successive chunks fed to a receiver that keeps the tail between them. *)
Fixpoint feed (buffer : bytes) (chunks : list bytes) : list bytes * bytes :=
  match chunks with
  | [] => ([], buffer)
  | c :: cs =>
      let '(fs, r) := drain (buffer ++ c) in
      let '(fs', r') := feed r cs in (fs ++ fs', r')
  end.

Lemma feed_concat buffer chunks :
  try_take_stream_frame buffer = None → feed buffer chunks = drain (buffer ++ concat chunks).
Proof.
  revert buffer. induction chunks as [|c cs IH]; intros buffer Hb; simpl.
  - rewrite app_nil_r, drain_step. by rewrite Hb.
  - pose proof (drain_stuck (buffer ++ c)) as Hs.
    rewrite app_assoc, (drain_app (buffer ++ c)). destruct (drain (buffer ++ c)) as [fs r]. simpl in Hs.
    by rewrite IH.
Qed.

(** The stream a sender produces for a list of messages. *)
Definition frames (ms : list bytes) : bytes :=
  foldl (λ out m, (encode_stream_frame m out).2) [] ms.

Lemma frames_app out ms :
  Forall (λ m, Z.of_nat (length m) ≤ 0xFFFF) ms →
  foldl (λ out m, (encode_stream_frame m out).2) out ms
  = out ++ mbind (λ m, write16 (Z.of_nat (length m)) ++ m) ms.
Proof.
  intros H. revert out. induction H as [|m ms Hm _ IH]; intros out; simpl.
  - by rewrite app_nil_r.
  - rewrite IH, frame_header by done. simpl snd. by rewrite <- !app_assoc.
Qed.

Lemma drain_frames ms tail :
  Forall (λ m, Z.of_nat (length m) ≤ 0xFFFF) ms → try_take_stream_frame tail = None →
  drain (mbind (λ m, write16 (Z.of_nat (length m)) ++ m) ms ++ tail) = (ms, tail).
Proof.
  intros H Ht. induction H as [|m ms Hm _ IH].
  - simpl. rewrite drain_step. by rewrite Ht.
  - rewrite bind_cons, <- !app_assoc, drain_step, take_frame by done. by rewrite IH.
Qed.

(** C33 (stream reassembly): however the carrier cuts the byte stream of a sender
    into chunks, the receiver's drain loop extracts exactly the messages the
    sender framed, in order, and ends with an empty buffer. *)
Theorem stream_reassembly ms chunks :
  Forall (λ m, Z.of_nat (length m) ≤ 0xFFFF) ms → concat chunks = frames ms →
  feed [] chunks = (ms, []).
Proof.
  intros Hms Hc. rewrite feed_concat by done. rewrite app_nil_l, Hc. unfold frames.
  rewrite frames_app by done. rewrite app_nil_l, <- (app_nil_r (mbind _ _)).
  by apply drain_frames.
Qed.

Lemma stream_reassembly_witness :
  feed [] [[0]; [3; 10; 20]; [30; 0]; []; [1; 7]] = ([[10; 20; 30]; [7]], []).
Proof.
  apply (stream_reassembly [[10; 20; 30]; [7]]); [|reflexivity].
  repeat constructor; by compute.
Defined.
