(* ===== verification/Stun.v ===== *)
(** STUN/TURN message codec (src/stun.hpp, src/stun.cpp): the builder, the
    parser, MESSAGE-INTEGRITY, FINGERPRINT, XOR addresses and ChannelData.

    Transaction ids come from the random generator, so they are arguments.
    HMAC-SHA1 is OpenSSL's; it is the operation of a type class. *)

From S2P Require Import Prelude Bytes Inet.

(** * Constants *)

Definition STUN_BINDING_REQUEST : Z := 0x0001.
Definition STUN_BINDING_INDICATION : Z := 0x0011.
Definition STUN_BINDING_RESPONSE : Z := 0x0101.
Definition STUN_BINDING_ERROR : Z := 0x0111.
Definition STUN_MAGIC_COOKIE : Z := 0x2112A442.

Definition STUN_ATTR_USERNAME : Z := 0x0006.
Definition STUN_ATTR_UNKNOWN_ATTRIBUTES : Z := 0x000A.
Definition STUN_ATTR_MESSAGE_INTEGRITY : Z := 0x0008.
Definition STUN_ATTR_ERROR_CODE : Z := 0x0009.
Definition STUN_ATTR_XOR_MAPPED_ADDRESS : Z := 0x0020.
Definition STUN_ATTR_PRIORITY : Z := 0x0024.
Definition STUN_ATTR_USE_CANDIDATE : Z := 0x0025.
Definition STUN_ATTR_ICE_CONTROLLING : Z := 0x802A.
Definition STUN_ATTR_ICE_CONTROLLED : Z := 0x8029.
Definition STUN_ATTR_FINGERPRINT : Z := 0x8028.

Definition TURN_ALLOCATE_REQUEST : Z := 0x0003.
Definition TURN_ALLOCATE_RESPONSE : Z := 0x0103.
Definition TURN_ALLOCATE_ERROR : Z := 0x0113.
Definition TURN_REFRESH_REQUEST : Z := 0x0004.
Definition TURN_REFRESH_RESPONSE : Z := 0x0104.
Definition TURN_CREATE_PERM_REQUEST : Z := 0x0008.
Definition TURN_CREATE_PERM_RESPONSE : Z := 0x0108.
Definition TURN_SEND_INDICATION : Z := 0x0016.
Definition TURN_DATA_INDICATION : Z := 0x0017.
Definition TURN_CHANNEL_BIND_REQUEST : Z := 0x0009.
Definition TURN_CHANNEL_BIND_RESPONSE : Z := 0x0109.
Definition TURN_CHANNEL_BIND_ERROR : Z := 0x0119.
Definition REQUESTED_TRANSPORT_UDP : Z := 17.
Definition REQUESTED_TRANSPORT_TCP : Z := 6.
Definition TURN_CONNECT_REQUEST : Z := 0x000A.
Definition TURN_CONNECT_RESPONSE : Z := 0x010A.
Definition TURN_CONNECT_ERROR : Z := 0x011A.
Definition TURN_CONNECTION_BIND_REQUEST : Z := 0x000B.
Definition TURN_CONNECTION_BIND_RESPONSE : Z := 0x010B.
Definition TURN_CONNECTION_BIND_ERROR : Z := 0x011B.
Definition TURN_CONNECTION_ATTEMPT_INDICATION : Z := 0x001C.
Definition TURN_CHANNEL_NUMBER_MIN : Z := 0x4000.
Definition TURN_CHANNEL_NUMBER_MAX : Z := 0x7FFF.
Definition TURN_CHANNEL_DATA_HEADER_SIZE : nat := 4.
Definition TURN_ATTR_CHANNEL_NUMBER : Z := 0x000C.
Definition TURN_ATTR_LIFETIME : Z := 0x000D.
Definition TURN_ATTR_XOR_PEER_ADDRESS : Z := 0x0012.
Definition TURN_ATTR_DATA : Z := 0x0013.
Definition TURN_ATTR_XOR_RELAYED_ADDRESS : Z := 0x0016.
Definition TURN_ATTR_REQUESTED_TRANSPORT : Z := 0x0019.
Definition TURN_ATTR_REALM : Z := 0x0014.
Definition TURN_ATTR_NONCE : Z := 0x0015.
Definition TURN_ATTR_CONNECTION_ID : Z := 0x002A.

(** * Interface of the HMAC implementation *)

Class Hmac := hmac_sha1 : bytes → bytes → bytes.

(** The digest is 20 bytes. *)
Class HmacLaws `{Hmac} : Prop := {
  hmac_length key msg : length (hmac_sha1 key msg) = 20%nat;
  hmac_ok key msg : bytes_ok (hmac_sha1 key msg);
}.

(** * XOR-MAPPED-ADDRESS *)

Record MappedAddress := mkMapped { ma_ip : bytes; ma_port : Z }.

#[global] Instance MappedAddress_eq_dec : EqDecision MappedAddress.
Proof. solve_decision. Defined.

Section addresses.
Context `{InetOps}.

Definition xor_key (txn : bytes) : bytes := write32 STUN_MAGIC_COOKIE ++ txn.

Definition encode_xor_addr (ip : bytes) (port : Z) (txn : bytes) : bytes :=
  let xport := Z.lxor port (u16 (Z.shiftr STUN_MAGIC_COOKIE 16)) in
  match inet_pton4 (c_str ip) with
  | Some addr4 =>
      [0; 0x01] ++ write16 xport
      ++ match read32 addr4 0 with
         | Some a => write32 (Z.lxor a STUN_MAGIC_COOKIE)
         | None => []
         end
  | None =>
      match inet_pton6 (c_str ip) with
      | Some addr6 => [0; 0x02] ++ write16 xport ++ zip_with Z.lxor addr6 (xor_key txn)
      | None => [0]
      end
  end.

(** Outer [None]: a read outside the buffer. *)
Definition decode_xor_addr (data : bytes) (txn : bytes) : option (option MappedAddress) :=
  let len := length data in
  if decide (len < 4)%nat then Some None else
  family ← data !! 1%nat;
  xport ← read16 data 2;
  let port := Z.lxor xport (u16 (Z.shiftr STUN_MAGIC_COOKIE 16)) in
  if decide (family = 0x01 ∧ (8 ≤ len)%nat) then
    xaddr ← read32 data 4;
    Some (Some (mkMapped (inet_ntop4 (write32 (Z.lxor xaddr STUN_MAGIC_COOKIE))) port))
  else if decide (family = 0x02 ∧ (20 ≤ len)%nat) then
    xaddr ← read_bytes data 4 16;
    Some (Some (mkMapped (inet_ntop6 (zip_with Z.lxor xaddr (xor_key txn))) port))
  else Some None.
End addresses.

(** * CRC-32 *)

Definition crc_bit (crc : Z) : Z :=
  Z.lxor (Z.shiftr crc 1) (Z.land 0xEDB88320 (u32 (- Z.land crc 1))).

Definition crc_byte (crc b : Z) : Z := Nat.iter 8 crc_bit (Z.lxor crc b).

Definition stun_crc32 (data : bytes) : Z :=
  Z.lxor (foldl crc_byte 0xFFFFFFFF data) 0xFFFFFFFF.

(** * Builder *)

Record StunBuilder := mkBuilder {
  msg_type_ : Z;
  txn_id_ : bytes;
  attrs_ : bytes;
}.
#[global] Instance StunBuilder_eta : Eta StunBuilder := λ b,
  mkBuilder (msg_type_ b) (txn_id_ b) (attrs_ b).

(** The constructor; [txn] is the id drawn by [generate_txn_id]. *)
Definition new_builder (msg_type : Z) (txn : bytes) : StunBuilder := mkBuilder msg_type txn [].

Definition set_txn_id (id : bytes) (b : StunBuilder) : StunBuilder := b <| txn_id_ := id |>.

Definition add_attr (type : Z) (value : bytes) (b : StunBuilder) : StunBuilder :=
  let hdr := write16 type ++ write16 (u16 (Z.of_nat (length value))) in
  b <| attrs_ := pad4 (attrs_ b ++ hdr ++ value) |>.

Definition add_attr_u32 (type value : Z) : StunBuilder → StunBuilder :=
  add_attr type (write32 value).
Definition add_attr_u64 (type value : Z) : StunBuilder → StunBuilder :=
  add_attr type (write64 value).
Definition add_username (username : bytes) : StunBuilder → StunBuilder :=
  add_attr STUN_ATTR_USERNAME username.
Definition add_priority (priority : Z) : StunBuilder → StunBuilder :=
  add_attr_u32 STUN_ATTR_PRIORITY priority.
Definition add_use_candidate : StunBuilder → StunBuilder :=
  add_attr STUN_ATTR_USE_CANDIDATE [].
Definition add_ice_controlling (tiebreaker : Z) : StunBuilder → StunBuilder :=
  add_attr_u64 STUN_ATTR_ICE_CONTROLLING tiebreaker.
Definition add_ice_controlled (tiebreaker : Z) : StunBuilder → StunBuilder :=
  add_attr_u64 STUN_ATTR_ICE_CONTROLLED tiebreaker.
Definition add_xor_peer_address `{InetOps} (ip : bytes) (port : Z) (b : StunBuilder) : StunBuilder :=
  add_attr TURN_ATTR_XOR_PEER_ADDRESS (encode_xor_addr ip port (txn_id_ b)) b.
Definition add_xor_relayed_address `{InetOps} (ip : bytes) (port : Z) (b : StunBuilder)
    : StunBuilder :=
  add_attr TURN_ATTR_XOR_RELAYED_ADDRESS (encode_xor_addr ip port (txn_id_ b)) b.
Definition add_error_code (code : Z) (reason : bytes) : StunBuilder → StunBuilder :=
  add_attr STUN_ATTR_ERROR_CODE ([0; 0; u8 (code / 100); u8 (code mod 100)] ++ reason).
Definition add_data (data : bytes) : StunBuilder → StunBuilder := add_attr TURN_ATTR_DATA data.
Definition add_channel_number (channel : Z) : StunBuilder → StunBuilder :=
  add_attr TURN_ATTR_CHANNEL_NUMBER
    [u8 (Z.shiftr channel 8); u8 (Z.land channel 0xFF); 0; 0].
Definition add_requested_transport (proto : Z) : StunBuilder → StunBuilder :=
  add_attr TURN_ATTR_REQUESTED_TRANSPORT [proto; 0; 0; 0].
Definition add_lifetime (seconds : Z) : StunBuilder → StunBuilder :=
  add_attr_u32 TURN_ATTR_LIFETIME seconds.
Definition add_realm (realm : bytes) : StunBuilder → StunBuilder := add_attr TURN_ATTR_REALM realm.
Definition add_nonce (nonce : bytes) : StunBuilder → StunBuilder := add_attr TURN_ATTR_NONCE nonce.
Definition add_connection_id (connection_id : Z) : StunBuilder → StunBuilder :=
  add_attr_u32 TURN_ATTR_CONNECTION_ID connection_id.

(** Header with the length field of [attrs_] plus [extra], then the attributes. *)
Definition message (b : StunBuilder) (extra : nat) : bytes :=
  write16 (msg_type_ b) ++ write16 (u16 (Z.of_nat (length (attrs_ b) + extra)))
  ++ write32 STUN_MAGIC_COOKIE ++ txn_id_ b ++ attrs_ b.

Definition add_integrity `{Hmac} (key : bytes) (b : StunBuilder) : StunBuilder :=
  add_attr STUN_ATTR_MESSAGE_INTEGRITY (hmac_sha1 key (message b 24)) b.

Definition add_fingerprint (b : StunBuilder) : StunBuilder :=
  add_attr_u32 STUN_ATTR_FINGERPRINT (Z.lxor (stun_crc32 (message b 8)) 0x5354554E) b.

Definition add_padding_to (target_total_bytes : nat) (b : StunBuilder) : StunBuilder :=
  let cur := (20 + length (attrs_ b))%nat in
  if decide (target_total_bytes ≤ cur)%nat then b else
  if decide (target_total_bytes - cur < 4)%nat then b else
  let aligned := (target_total_bytes - target_total_bytes mod 4)%nat in
  if decide (aligned ≤ cur)%nat then b else
  let value_len := (aligned - cur - 4)%nat in
  if decide (Z.of_nat value_len > 0xFFFF) then b else
  add_attr STUN_ATTR_UNKNOWN_ATTRIBUTES (replicate value_len 0) b.

Definition build (b : StunBuilder) : bytes := message b 0.

(** * Parser *)

Record StunMessage := mkStun {
  msg_type : Z;
  txn_id : bytes;
  xor_mapped : option MappedAddress;
  xor_peer : option MappedAddress;
  xor_relayed : option MappedAddress;
  priority : option Z;
  lifetime : option Z;
  error_code : option Z;
  username : option bytes;
  realm : option bytes;
  nonce : option bytes;
  connection_id : option Z;
  stun_data : bytes;
  use_candidate : bool;
  ice_controlling : option Z;
  ice_controlled : option Z;
  has_integrity : bool;
  has_fingerprint : bool;
}.
#[global] Instance StunMessage_eta : Eta StunMessage := λ m,
  mkStun (msg_type m) (txn_id m) (xor_mapped m) (xor_peer m) (xor_relayed m) (priority m)
    (lifetime m) (error_code m) (username m) (realm m) (nonce m) (connection_id m)
    (stun_data m) (use_candidate m) (ice_controlling m) (ice_controlled m)
    (has_integrity m) (has_fingerprint m).

Definition empty_message (type : Z) (txn : bytes) : StunMessage :=
  mkStun type txn None None None None None None None None None None [] false None None
    false false.

Definition kStunErrorReasonRoleConflict : bytes := str "Role Conflict".

Section parser.
Context `{InetOps}.

(** The [switch] over one attribute whose value bytes are [d]; [None] is a read
    outside the value. *)
Definition parse_attr (attr_type : Z) (d : bytes) (msg : StunMessage) : option StunMessage :=
  let attr_len := length d in
  if decide (attr_type = STUN_ATTR_XOR_MAPPED_ADDRESS) then
    a ← decode_xor_addr d (txn_id msg); Some (msg <| xor_mapped := a |>)
  else if decide (attr_type = TURN_ATTR_XOR_PEER_ADDRESS) then
    a ← decode_xor_addr d (txn_id msg); Some (msg <| xor_peer := a |>)
  else if decide (attr_type = TURN_ATTR_XOR_RELAYED_ADDRESS) then
    a ← decode_xor_addr d (txn_id msg); Some (msg <| xor_relayed := a |>)
  else if decide (attr_type = STUN_ATTR_PRIORITY) then
    if decide (4 ≤ attr_len)%nat then v ← read32 d 0; Some (msg <| priority := Some v |>)
    else Some msg
  else if decide (attr_type = TURN_ATTR_LIFETIME) then
    if decide (4 ≤ attr_len)%nat then v ← read32 d 0; Some (msg <| lifetime := Some v |>)
    else Some msg
  else if decide (attr_type = STUN_ATTR_USE_CANDIDATE) then Some (msg <| use_candidate := true |>)
  else if decide (attr_type = STUN_ATTR_ICE_CONTROLLING) then
    if decide (8 ≤ attr_len)%nat then v ← read64 d 0; Some (msg <| ice_controlling := Some v |>)
    else Some msg
  else if decide (attr_type = STUN_ATTR_ICE_CONTROLLED) then
    if decide (8 ≤ attr_len)%nat then v ← read64 d 0; Some (msg <| ice_controlled := Some v |>)
    else Some msg
  else if decide (attr_type = STUN_ATTR_ERROR_CODE) then
    if decide (4 ≤ attr_len)%nat then
      c ← d !! 2%nat; n ← d !! 3%nat; Some (msg <| error_code := Some (u16 (c * 100 + n)) |>)
    else Some msg
  else if decide (attr_type = STUN_ATTR_USERNAME) then Some (msg <| username := Some d |>)
  else if decide (attr_type = TURN_ATTR_REALM) then Some (msg <| realm := Some d |>)
  else if decide (attr_type = TURN_ATTR_NONCE) then Some (msg <| nonce := Some d |>)
  else if decide (attr_type = TURN_ATTR_CONNECTION_ID) then
    if decide (4 ≤ attr_len)%nat then v ← read32 d 0; Some (msg <| connection_id := Some v |>)
    else Some msg
  else if decide (attr_type = TURN_ATTR_DATA) then Some (msg <| stun_data := d |>)
  else if decide (attr_type = STUN_ATTR_MESSAGE_INTEGRITY) then
    Some (msg <| has_integrity := true |>)
  else if decide (attr_type = STUN_ATTR_FINGERPRINT) then Some (msg <| has_fingerprint := true |>)
  else Some msg.

(** The attribute loop; [stop] is [20 + msg_len].  Running out of [fuel] is [None]. *)
Fixpoint parse_attrs (fuel : nat) (data : bytes) (stop offset : nat) (msg : StunMessage)
    : option StunMessage :=
  match fuel with
  | O => None
  | S fuel =>
      if decide (offset + 4 ≤ stop)%nat then
        attr_type ← read16 data offset;
        attr_len ← read16 data (offset + 2);
        let attr_len := Z.to_nat attr_len in
        let attr_start := (offset + 4)%nat in
        if decide (attr_start + attr_len > length data)%nat then Some msg else
        value ← read_bytes data attr_start attr_len;
        msg ← parse_attr attr_type value msg;
        parse_attrs fuel data stop (align4 (attr_start + attr_len)) msg
      else Some msg
  end.

(** Outer [None]: an out-of-bounds read or exhausted fuel; inner [None]: the
    source's [std::nullopt]. *)
Definition parse_stun (data : bytes) : option (option StunMessage) :=
  if decide (length data < 20)%nat then Some None else
  type ← read16 data 0;
  msg_len ← read16 data 2;
  cookie ← read32 data 4;
  if decide (cookie ≠ STUN_MAGIC_COOKIE) then Some None else
  if decide (20 + Z.to_nat msg_len > length data)%nat then Some None else
  txn ← read_bytes data 8 12;
  msg ← parse_attrs (length data) data (20 + Z.to_nat msg_len) 20 (empty_message type txn);
  Some (Some msg).
End parser.

(** * MESSAGE-INTEGRITY verification *)

(** The search loop: [Some (Some o)] when the attribute is at [o], [Some None]
    when the loop ends without it, [None] for a read outside [raw]. *)
Fixpoint find_integrity (fuel : nat) (raw : bytes) (stop offset : nat) : option (option nat) :=
  match fuel with
  | O => None
  | S fuel =>
      if decide (offset + 4 ≤ stop)%nat then
        at_ ← read16 raw offset;
        al ← read16 raw (offset + 2);
        if decide (at_ = STUN_ATTR_MESSAGE_INTEGRITY) then Some (Some offset)
        else find_integrity fuel raw stop (align4 (offset + (4 + Z.to_nat al)))
      else Some None
  end.

(** [None]: the verification reads outside [raw]. *)
Definition verify_integrity `{Hmac} (raw key : bytes) : option bool :=
  if decide (length raw < 44)%nat then Some false else
  msg_len ← read16 raw 2;
  mi ← find_integrity (20 + Z.to_nat msg_len) raw (20 + Z.to_nat msg_len) 20;
  match mi with
  | None => Some false
  | Some mi_offset =>
      type ← read_bytes raw 0 2;
      cookie_txn ← read_bytes raw 4 16;
      attrs ← read_bytes raw 20 (mi_offset - 20);
      let msg := type ++ write16 (u16 (Z.of_nat (mi_offset - 20 + 24))) ++ cookie_txn ++ attrs in
      mac ← read_bytes raw (mi_offset + 4) 20;
      Some (bool_decide (hmac_sha1 key msg = mac))
  end.

(** * ChannelData *)

Definition encode_channel_data (channel : Z) (payload : bytes) : bytes :=
  let len := u16 (Z.of_nat (length payload)) in
  let pad := ((4 - length payload mod 4) mod 4)%nat in
  [u8 (Z.shiftr channel 8); u8 (Z.land channel 0xFF);
   u8 (Z.shiftr len 8); u8 (Z.land len 0xFF)] ++ payload ++ replicate pad 0.

Definition is_channel_data (raw : bytes) : option bool :=
  if decide (length raw < TURN_CHANNEL_DATA_HEADER_SIZE)%nat then Some false else
  b ← raw !! 0%nat;
  Some (bool_decide (u8 (Z.land b 0xC0) = 0x40)).

Record ChannelDataView := mkView { cd_channel : Z; cd_payload : bytes }.

Definition parse_channel_data (raw : bytes) : option (option ChannelDataView) :=
  if decide (length raw < TURN_CHANNEL_DATA_HEADER_SIZE)%nat then Some None else
  b0 ← raw !! 0%nat; b1 ← raw !! 1%nat; b2 ← raw !! 2%nat; b3 ← raw !! 3%nat;
  let channel := u16 (Z.lor (Z.shiftl b0 8) b1) in
  if decide (channel < TURN_CHANNEL_NUMBER_MIN ∨ channel > TURN_CHANNEL_NUMBER_MAX)
  then Some None else
  let len := Z.to_nat (Z.lor (Z.shiftl b2 8) b3) in
  if decide (4 + len > length raw)%nat then Some None else
  payload ← read_bytes raw 4 len;
  Some (Some (mkView channel payload)).

(** * Parser: bounds and termination *)

Section parser_safety.
Context `{InetOps}.

Lemma decode_xor_addr_total d txn : is_Some (decode_xor_addr d txn).
Proof.
  unfold decode_xor_addr. case_decide; [by eauto|].
  destruct (lookup_in d 1) as [? ->]; [lia|]. sbind.
  destruct (read16_in d 2) as [? ->]; [lia|]. sbind.
  case_decide as Hf; [|case_decide; [rewrite read_bytes_in by lia; sbind|]; by eauto].
  destruct (read32_in d 4) as [? ->]; [lia|]. sbind. eauto.
Qed.

Lemma parse_attr_total t d msg : is_Some (parse_attr t d msg).
Proof.
  unfold parse_attr.
  repeat (case_decide; [
    try (destruct (decode_xor_addr_total d (txn_id msg)) as [? ->]; sbind; by eauto);
    try (case_decide; [|by eauto];
         first [destruct (read32_in d 0) as [? ->]; [lia|]
               |destruct (read64_in d 0) as [? ->]; [lia|]
               |destruct (lookup_in d 2) as [? ->]; [lia|]; sbind;
                destruct (lookup_in d 3) as [? ->]; [lia|]]; sbind);
    by eauto|]).
  eauto.
Qed.

(** The effect of one attribute. *)
Definition attr_effect (t : Z) (v : bytes) (msg : StunMessage) : StunMessage :=
  default msg (parse_attr t v msg).

Lemma parse_attr_effect t d msg : parse_attr t d msg = Some (attr_effect t d msg).
Proof. unfold attr_effect. by destruct (parse_attr_total t d msg) as [? ->]. Qed.

(** Enough fuel for the distance left to [stop]; the reads stay below [stop]. *)
Lemma parse_attrs_total fuel data stop offset msg :
  (stop ≤ length data)%nat → (0 < fuel)%nat → (stop < offset + 4 * fuel)%nat →
  is_Some (parse_attrs fuel data stop offset msg).
Proof.
  intros Hs. revert offset msg. induction fuel as [|fuel IH]; intros offset msg H0 Hf; [lia|].
  cbn [parse_attrs]. case_decide; [|by eauto].
  destruct (read16_in data offset) as [t ->]; [lia|]. sbind.
  destruct (read16_in data (offset + 2)) as [l ->]; [lia|]. sbind.
  case_decide; [by eauto|]. rewrite read_bytes_in by lia. sbind.
  rewrite parse_attr_effect. sbind.
  pose proof (align4_ge (offset + 4 + Z.to_nat l)). apply IH; lia.
Qed.

Lemma attr_effect_txn t d msg :
  txn_id (attr_effect t d msg) = txn_id msg ∧ msg_type (attr_effect t d msg) = msg_type msg.
Proof.
  pose proof (parse_attr_effect t d msg) as E. revert E. generalize (attr_effect t d msg).
  intros m E. unfold parse_attr in E.
  repeat (case_decide; [inv_bind; try case_decide; by inv_bind|]). by inv_bind.
Qed.

Lemma parse_attrs_txn fuel data stop offset msg m :
  parse_attrs fuel data stop offset msg = Some m →
  txn_id m = txn_id msg ∧ msg_type m = msg_type msg.
Proof.
  revert offset msg. induction fuel as [|fuel IH]; intros offset msg; [done|].
  cbn [parse_attrs]. case_decide; [|by intros; simplify_eq]. intros. inv_bind.
  case_decide; [by simplify_eq|]. inv_bind. rewrite parse_attr_effect in *. simplify_eq.
  match goal with Hp : parse_attrs _ _ _ _ (attr_effect ?t ?v _) = _ |- _ =>
    destruct (attr_effect_txn t v msg) as [<- <-] end. eauto.
Qed.

(** C29 ([parse_stun] is memory safe and terminates): on every datagram the parser
    returns, without a read outside the buffer and within as many iterations as
    the datagram has bytes; a message it returns carries the message type and the
    12 transaction-id bytes of the header. *)
Theorem parse_stun_safe data :
  ∃ r, parse_stun data = Some r ∧
    match r with
    | None => True
    | Some m => txn_id m = slice data 8 12 ∧ length (txn_id m) = 12%nat
                ∧ read16 data 0 = Some (msg_type m)
    end.
Proof.
  unfold parse_stun. case_decide; [by eexists|].
  destruct (read16_in data 0) as [ty Hty]; [lia|]. rewrite Hty. sbind.
  destruct (read16_in data 2) as [len ->]; [lia|]. sbind.
  destruct (read32_in data 4) as [? ->]; [lia|]. sbind.
  case_decide; [by eexists|]. case_decide; [by eexists|].
  rewrite read_bytes_in by lia. sbind.
  edestruct (parse_attrs_total (length data) data (20 + Z.to_nat len) 20) as [m Hm];
    [lia..|]. rewrite Hm. sbind. apply parse_attrs_txn in Hm as [Ht Hy].
  eexists; split; [done|]. simpl in *. rewrite Ht, Hy. split; [done|].
  split; [apply length_slice; lia|done].
Qed.
End parser_safety.

(** * Parser: the attribute list *)

(** An attribute as the builder lays it out. *)
Definition encode_tlv (a : Z * bytes) : bytes :=
  pad4 (write16 (a.1) ++ write16 (u16 (Z.of_nat (length (a.2)))) ++ a.2).

Definition encode_tlvs (l : list (Z * bytes)) : bytes := mbind encode_tlv l.

(** Types and lengths fit their 16-bit fields. *)
Definition tlv_ok (a : Z * bytes) : Prop := is_u16 (a.1) ∧ is_u16 (Z.of_nat (length (a.2))).

#[global] Instance tlv_ok_dec a : Decision (tlv_ok a).
Proof. unfold tlv_ok. apply _. Defined.

(** A builder whose attribute bytes are those of a list of attributes. *)
Definition represents (b : StunBuilder) (l : list (Z * bytes)) : Prop :=
  attrs_ b = encode_tlvs l.

Lemma length_encode_tlv a : length (encode_tlv a) = align4 (4 + length (a.2)).
Proof. unfold encode_tlv. by rewrite length_pad4. Qed.

Lemma encode_tlvs_cons a l : encode_tlvs (a :: l) = encode_tlv a ++ encode_tlvs l.
Proof. done. Qed.

Lemma encode_tlvs_mod l : (length (encode_tlvs l) mod 4 = 0)%nat.
Proof.
  unfold encode_tlvs. induction l as [|a l IH]; [done|].
  rewrite bind_cons, length_app, Nat.Div0.add_mod, IH, length_encode_tlv, align4_mod. done.
Qed.

Lemma represents_new ty txn : represents (new_builder ty txn) [].
Proof. done. Qed.

Lemma represents_add_attr b l t v :
  represents b l → represents (add_attr t v b) (l ++ [(t, v)]).
Proof.
  unfold represents, add_attr, encode_tlvs. simpl. intros ->.
  rewrite pad4_app by apply encode_tlvs_mod. by rewrite bind_app, bind_singleton.
Qed.

Lemma length_add_attr b t v :
  (length (attrs_ b) mod 4 = 0)%nat →
  length (attrs_ (add_attr t v b)) = (length (attrs_ b) + align4 (4 + length v))%nat.
Proof.
  intros Hm. unfold add_attr. cbn [set_field attrs_].
  by rewrite pad4_app, length_app, length_pad4.
Qed.

Lemma length_message b n : length (txn_id_ b) = 12%nat →
  length (message b n) = (20 + length (attrs_ b))%nat.
Proof. intros H. unfold message. by rewrite !length_app, H. Qed.

(** The reads of one attribute at the end of a prefix. *)
Lemma read_tlv pre a post :
  tlv_ok a →
  let data := pre ++ encode_tlv a ++ post in
  read16 data (length pre) = Some (a.1)
  ∧ read16 data (length pre + 2) = Some (Z.of_nat (length (a.2)))
  ∧ read_bytes data (length pre + 4) (length (a.2)) = Some (a.2)
  ∧ (length pre + 4 + length (a.2) ≤ length data)%nat.
Proof.
  destruct a as [t v]. intros [Ht Hv]. unfold encode_tlv, pad4. cbn [fst snd] in *.
  rewrite (u16_id (Z.of_nat (length v))) by done.
  set (z := replicate _ _). cbv zeta. rewrite <- !app_assoc. repeat split.
  - rewrite read16_at by done. by rewrite u16_id.
  - rewrite app_assoc, read16_at by by rewrite length_app. by rewrite u16_id.
  - rewrite (app_assoc pre), (app_assoc (pre ++ _)). apply read_bytes_at; [|done].
    rewrite !length_app, !length_write16. lia.
  - rewrite !length_app, !length_write16. lia.
Qed.

Section parser_tlvs.
Context `{InetOps}.

(** The message a list of attributes describes. *)
Definition apply_tlvs (l : list (Z * bytes)) (msg : StunMessage) : StunMessage :=
  foldl (λ m a, attr_effect (a.1) (a.2) m) msg l.

Lemma parse_attrs_tlvs l fuel pre post msg :
  Forall tlv_ok l → (length pre mod 4 = 0)%nat → (length l < fuel)%nat →
  parse_attrs fuel (pre ++ encode_tlvs l ++ post) (length pre + length (encode_tlvs l))
    (length pre) msg
  = Some (apply_tlvs l msg).
Proof.
  intros Hl. revert fuel pre msg. induction Hl as [|a l Ha Hl IH]; intros fuel pre msg Hpre Hf.
  - destruct fuel as [|fuel]; [lia|]. cbn [parse_attrs].
    rewrite decide_False by (simpl; lia). done.
  - destruct fuel as [|fuel]; [lia|]. cbn [parse_attrs].
    rewrite !encode_tlvs_cons, <- !(app_assoc (encode_tlv a)).
    destruct (read_tlv pre a (encode_tlvs l ++ post) Ha) as (-> & -> & Hs & Hb). sbind.
    rewrite Nat2Z.id, Hs.
    rewrite decide_True by (rewrite length_app, length_encode_tlv;
      pose proof (align4_ge (4 + length (a.2))); lia).
    rewrite decide_False by lia. sbind. rewrite parse_attr_effect. sbind.
    rewrite <- Nat.add_assoc, align4_add, <- length_encode_tlv by done.
    rewrite !length_app, Nat.add_assoc, app_assoc, <- length_app. apply IH; [|simpl in Hf; lia].
    by rewrite length_app, length_encode_tlv, Nat.Div0.add_mod, Hpre, align4_mod.
Qed.

Lemma encode_tlvs_length_ge l : (length l ≤ length (encode_tlvs l))%nat.
Proof.
  unfold encode_tlvs. induction l as [|a l IH]; [done|].
  rewrite bind_cons, length_app, length_encode_tlv.
  pose proof (align4_ge (4 + length (a.2))). simpl length. lia.
Qed.

Lemma parse_message b l post :
  represents b l → Forall tlv_ok l → is_u16 (Z.of_nat (length (attrs_ b))) →
  is_u16 (msg_type_ b) → length (txn_id_ b) = 12%nat →
  parse_stun (build b ++ post)
  = Some (Some (apply_tlvs l (empty_message (msg_type_ b) (txn_id_ b)))).
Proof.
  intros Hr Hl Hlen Hty Htx. unfold parse_stun, build, message.
  rewrite Nat.add_0_r, (u16_id (Z.of_nat _)) by done. rewrite Hr in *.
  set (A := encode_tlvs l) in *. rewrite <- !app_assoc.
  rewrite decide_False by (rewrite !length_app, Htx, !length_write16, length_write32; lia).
  rewrite read16_write16. sbind. rewrite read16_at by done. sbind.
  rewrite (app_assoc (write16 (msg_type_ b))), read32_at by done. sbind.
  rewrite decide_False by (intros E; apply E; reflexivity).
  rewrite !u16_id, Nat2Z.id by done.
  rewrite decide_False by (rewrite !length_app, Htx, !length_write16, length_write32; lia).
  rewrite (app_assoc (_ ++ _) (write32 _)), read_bytes_at by done. sbind.
  rewrite (app_assoc _ (txn_id_ b)).
  set (hdr := (((_ ++ _) ++ _) ++ txn_id_ b)).
  assert (length hdr = 20%nat) as Hh by (subst hdr; by rewrite !length_app, Htx).
  rewrite <- Hh. unfold A at 2. rewrite parse_attrs_tlvs; [done|done|by rewrite Hh|].
  pose proof (encode_tlvs_length_ge l). rewrite !length_app, Hh. subst A. lia.
Qed.
End parser_tlvs.

(** Adding the attributes of a list in order. *)
Definition add_attrs (l : list (Z * bytes)) (b : StunBuilder) : StunBuilder :=
  foldl (λ b a, add_attr (a.1) (a.2) b) b l.

Lemma add_attrs_fields l b :
  msg_type_ (add_attrs l b) = msg_type_ b ∧ txn_id_ (add_attrs l b) = txn_id_ b.
Proof.
  revert b. unfold add_attrs. induction l as [|a l IH]; intros b; simpl; [done|].
  destruct (IH (add_attr (a.1) (a.2) b)) as [-> ->]. done.
Qed.

Lemma represents_add_attrs b l l' :
  represents b l → represents (add_attrs l' b) (l ++ l').
Proof.
  revert b l. unfold add_attrs. induction l' as [|a l' IH]; intros b l Hb; simpl.
  - by rewrite app_nil_r.
  - rewrite cons_middle, app_assoc. apply IH. destruct a. by apply represents_add_attr.
Qed.

(** * MESSAGE-INTEGRITY *)

Definition not_integrity (a : Z * bytes) : Prop := a.1 ≠ STUN_ATTR_MESSAGE_INTEGRITY.

#[global] Instance not_integrity_dec a : Decision (not_integrity a).
Proof. unfold not_integrity. apply _. Defined.

(** The search stops at the first MESSAGE-INTEGRITY of the attribute list. *)
Lemma find_integrity_tlvs l v fuel pre post stop :
  Forall tlv_ok l → Forall not_integrity l → tlv_ok (STUN_ATTR_MESSAGE_INTEGRITY, v) →
  (length pre mod 4 = 0)%nat → (length l < fuel)%nat →
  (length pre + length (encode_tlvs l) + 4 ≤ stop)%nat →
  find_integrity fuel
    (pre ++ encode_tlvs l ++ encode_tlv (STUN_ATTR_MESSAGE_INTEGRITY, v) ++ post) stop (length pre)
  = Some (Some (length pre + length (encode_tlvs l))%nat).
Proof.
  intros Hl Hn Hv. revert fuel pre Hn.
  induction Hl as [|a l Ha Hl IH]; intros fuel pre Hn Hpre Hf Hs.
  - destruct fuel as [|fuel]; [lia|]. cbn [find_integrity].
    change (encode_tlvs []) with (@nil Z) in *. rewrite app_nil_l.
    destruct (read_tlv pre _ post Hv) as (-> & -> & _). sbind.
    rewrite decide_True by (simpl in Hs; lia). rewrite decide_True by done.
    simpl. by rewrite Nat.add_0_r.
  - destruct fuel as [|fuel]; [lia|]. inv Hn. cbn [find_integrity].
    rewrite !encode_tlvs_cons in *. rewrite length_app in *. rewrite <- !app_assoc.
    set (rest := encode_tlvs l ++ _ ++ post) in *.
    destruct (read_tlv pre a rest Ha) as (-> & -> & _). sbind.
    rewrite decide_True by lia. rewrite decide_False by done.
    rewrite Nat2Z.id, align4_add, <- length_encode_tlv, <- length_app, app_assoc by done.
    subst rest. rewrite IH; [|done| |simpl in Hf; lia|rewrite length_app; lia].
    + by rewrite length_app, Nat.add_assoc.
    + by rewrite length_app, length_encode_tlv, Nat.Div0.add_mod, Hpre, align4_mod.
Qed.

(** The header and the message up to an offset, with the length rewritten. *)
Lemma integrity_input b (A rest : bytes) :
  length (txn_id_ b) = 12%nat →
  let raw := write16 (msg_type_ b) ++ write16 (u16 (Z.of_nat (length (attrs_ b))))
             ++ write32 STUN_MAGIC_COOKIE ++ txn_id_ b ++ A ++ rest in
  slice raw 0 2 ++ write16 (u16 (Z.of_nat (20 + length A - 20 + 24)))
    ++ slice raw 4 16 ++ slice raw 20 (20 + length A - 20)
  = message (b <| attrs_ := A |>) 24.
Proof.
  intros Ht raw. unfold message. simpl msg_type_; simpl txn_id_; simpl attrs_.
  replace (20 + length A - 20)%nat with (length A) by lia. subst raw.
  change 2%nat with (length (write16 (msg_type_ b))) at 1. rewrite slice_app_here. do 2 f_equal.
  rewrite (app_assoc (write16 (msg_type_ b))), (app_assoc _ (txn_id_ b)).
  rewrite slice_app_at by (rewrite ?length_app, ?Ht; done).
  rewrite (app_assoc _ (_ ++ txn_id_ b)), slice_app_at; [by rewrite <- app_assoc| |done].
  by rewrite !length_app, Ht.
Qed.

Section integrity.
Context `{Hmac}.

(** Verification of a message whose first MESSAGE-INTEGRITY follows the
    attributes [l] and carries the 20 bytes [v]. *)
Lemma verify_integrity_spec b l v l2 key :
  length (txn_id_ b) = 12%nat →
  Forall tlv_ok l → Forall not_integrity l → length v = 20%nat →
  represents b (l ++ (STUN_ATTR_MESSAGE_INTEGRITY, v) :: l2) →
  is_u16 (Z.of_nat (length (attrs_ b))) →
  verify_integrity (build b) key
  = Some (bool_decide
      (hmac_sha1 key (message (b <| attrs_ := encode_tlvs l |>) 24) = v)).
Proof.
  intros Ht Hl Hn Hv Hr Hlen.
  set (A := encode_tlvs l). set (mi := (STUN_ATTR_MESSAGE_INTEGRITY, v)).
  assert (tlv_ok mi) as Hmi by (split; simpl; rewrite ?Hv; by compute).
  assert (attrs_ b = A ++ encode_tlv mi ++ encode_tlvs l2) as Hattrs.
  { rewrite Hr. unfold A, encode_tlvs. by rewrite bind_app, bind_cons. }
  assert (length (encode_tlv mi) = 24%nat) as Hml.
  { rewrite length_encode_tlv. simpl snd. by rewrite Hv. }
  assert (encode_tlv mi = write16 STUN_ATTR_MESSAGE_INTEGRITY ++ write16 20 ++ v) as Hmv.
  { unfold encode_tlv, mi, pad4. cbn [fst snd]. rewrite Hv, !length_app, Hv.
    by rewrite app_nil_r. }
  pose proof (length_message b 0 Ht) as Hbl.
  pose proof (integrity_input b A (encode_tlv mi ++ encode_tlvs l2) Ht) as Hin.
  assert (build b = (write16 (msg_type_ b) ++ write16 (u16 (Z.of_nat (length (attrs_ b))))
            ++ write32 STUN_MAGIC_COOKIE ++ txn_id_ b) ++ A ++ encode_tlv mi ++ encode_tlvs l2)
    as Hb by (unfold build, message; rewrite Nat.add_0_r, Hattrs; by rewrite <- !app_assoc).
  assert (read16 (build b) 2 = Some (Z.of_nat (length (attrs_ b)))) as Hrd.
  { unfold build, message. rewrite Nat.add_0_r, read16_at by done.
    by rewrite (u16_id (Z.of_nat _)), u16_id by done. }
  assert (find_integrity (20 + length (attrs_ b)) (build b) (20 + length (attrs_ b)) 20
          = Some (Some (20 + length A)%nat)) as Hfind.
  { rewrite Hb. set (hdr := write16 _ ++ _).
    assert (length hdr = 20%nat) as Hh by (subst hdr; by rewrite !length_app, Ht).
    assert (length l ≤ length A)%nat by apply encode_tlvs_length_ge.
    rewrite <- Hh. apply find_integrity_tlvs; try done; rewrite ?Hh; try done;
      fold A; rewrite Hattrs, !length_app, Hml; lia. }
  assert (slice (build b) (20 + length A + 4) 20 = v) as Hslice.
  { rewrite Hb, Hmv, <- !app_assoc.
    rewrite 6!app_assoc. apply slice_app_at; [|done].
    rewrite !length_app, Ht, !length_write16, length_write32. lia. }
  unfold verify_integrity.
  rewrite decide_False by (unfold build; rewrite Hbl, Hattrs, !length_app; lia).
  rewrite Hrd. sbind. rewrite Nat2Z.id, Hfind. sbind.
  rewrite !read_bytes_in by (unfold build; rewrite Hbl, Hattrs, !length_app; lia). sbind.
  rewrite Hslice, Hb, <- !app_assoc. cbv zeta in Hin. by rewrite Hin.
Qed.

Context `{!HmacLaws}.

(** C18 (integrity of built messages): for any attributes [l] without a
    MESSAGE-INTEGRITY and any further attributes [l2], verification with [key]
    accepts the message in which [add_integrity key] stands between them, and for
    any other 20 bytes in that place it answers whether they are the HMAC of the
    message up to there; it never reads out of bounds on such messages. *)
Theorem verify_integrity_exact ty txn l v l2 key :
  length txn = 12%nat → Forall tlv_ok l → Forall not_integrity l → length v = 20%nat →
  is_u16 (Z.of_nat (length (encode_tlvs l) + 24 + length (encode_tlvs l2))) →
  let b := add_attrs l (new_builder ty txn) in
  verify_integrity (build (add_attrs l2 (add_integrity key b))) key = Some true
  ∧ verify_integrity (build (add_attrs l2 (add_attr STUN_ATTR_MESSAGE_INTEGRITY v b))) key
    = Some (bool_decide (hmac_sha1 key (message b 24) = v)).
Proof.
  intros Ht Hl Hn Hv Hlen b.
  assert (represents b l) as Hr by exact (represents_add_attrs _ [] l (represents_new ty txn)).
  assert (∀ w, length w = 20%nat →
    verify_integrity (build (add_attrs l2 (add_attr STUN_ATTR_MESSAGE_INTEGRITY w b))) key
    = Some (bool_decide (hmac_sha1 key (message b 24) = w))) as Hspec.
  { intros w Hw. set (b1 := add_attr STUN_ATTR_MESSAGE_INTEGRITY w b).
    destruct (add_attrs_fields l2 b1) as [Ety Etx].
    destruct (add_attrs_fields l (new_builder ty txn)) as [Ety' Etx'].
    assert (represents (add_attrs l2 b1) (l ++ (STUN_ATTR_MESSAGE_INTEGRITY, w) :: l2)) as Hrep.
    { rewrite cons_middle, app_assoc. by apply represents_add_attrs, represents_add_attr. }
    assert (message ((add_attrs l2 b1) <| attrs_ := encode_tlvs l |>) 24 = message b 24) as <-.
    { unfold message. simpl. rewrite Ety, Etx. simpl. by rewrite Hr. }
    apply (verify_integrity_spec _ l w l2); try done.
    - rewrite Etx. change (txn_id_ b1) with (txn_id_ b). unfold b. by rewrite Etx'.
    - rewrite Hrep. unfold encode_tlvs in *. rewrite bind_app, bind_cons, !length_app.
      rewrite length_encode_tlv. simpl snd. rewrite Hw. change (align4 (4 + 20)) with 24%nat.
      by rewrite Nat.add_assoc. }
  split; [|by apply Hspec].
  unfold add_integrity. rewrite Hspec by apply hmac_length. by rewrite bool_decide_true.
Qed.
End integrity.

(** A stand-in digest for evaluating the model: the message sum, as 20 bytes. *)
Module HmacRef.
#[local] Instance ops : Hmac := λ key msg,
  replicate 20 (u8 (foldr Z.add 0 key + 3 * foldr Z.add 0 msg)).
#[local] Instance laws : HmacLaws.
Proof.
  split; intros; unfold hmac_sha1, ops; [apply length_replicate|].
  apply Forall_replicate, u8_range.
Qed.
End HmacRef.

Lemma verify_integrity_exact_witness :
  verify_integrity (H := HmacRef.ops)
    (build (add_attrs [(STUN_ATTR_FINGERPRINT, write32 5)]
      (add_integrity (H := HmacRef.ops) (str "k")
         (add_attrs [(STUN_ATTR_USERNAME, str "abc")]
            (new_builder STUN_BINDING_REQUEST (replicate 12 9)))))) (str "k") = Some true.
Proof.
  apply (verify_integrity_exact (H := HmacRef.ops) (H0 := HmacRef.laws)
    STUN_BINDING_REQUEST (replicate 12 9) [(STUN_ATTR_USERNAME, str "abc")]
    (replicate 20 0) [(STUN_ATTR_FINGERPRINT, write32 5)] (str "k"));
    [reflexivity| | |reflexivity|by compute].
  - apply (bool_decide_eq_true_1 (Forall tlv_ok _)). vm_compute. reflexivity.
  - apply (bool_decide_eq_true_1 (Forall not_integrity _)). vm_compute. reflexivity.
Defined.

(** A message whose MESSAGE-INTEGRITY attribute is empty and ends the datagram. *)
Definition short_integrity : bytes :=
  build (add_attrs [(STUN_ATTR_USERNAME, replicate 16 65); (STUN_ATTR_MESSAGE_INTEGRITY, [])]
           (new_builder STUN_BINDING_REQUEST (replicate 12 9))).

(** C39 (over-read in [verify_integrity]): there is a 44-byte datagram that
    [parse_stun] accepts as carrying integrity and on which [verify_integrity]
    reads the 20-byte digest from beyond the end of the buffer, whatever the key
    and the hash. *)
Theorem verify_integrity_overread `{Hmac} key :
  (∃ m, parse_stun (H := InetRef.ops) short_integrity = Some (Some m) ∧ has_integrity m = true)
  ∧ verify_integrity short_integrity key = None.
Proof.
  split; [|by vm_compute]. eexists. split; [vm_compute; reflexivity|done].
Qed.

(** * XOR addresses *)

Lemma lxor_zip_cancel (a k : bytes) :
  (length a ≤ length k)%nat → zip_with Z.lxor (zip_with Z.lxor a k) k = a.
Proof.
  revert k. induction a as [|x a IH]; intros [|y k] Hl; simpl in *; try done; [lia|].
  rewrite lxor_cancel, IH by lia. done.
Qed.

Lemma cookie16 : is_u16 (u16 (Z.shiftr STUN_MAGIC_COOKIE 16)).
Proof. apply u16_range. Qed.

Section xor_roundtrip.
Context `{InetLaws}.

(** XOR address round trip: for every string, decoding the encoded
    attribute gives back the port and the address the string denotes, printed
    canonically, as IPv4 if it parses as such and as IPv6 otherwise; a string that
    denotes no address is encoded into a value the decoder refuses. *)
Theorem xor_addr_roundtrip ip port txn :
  is_u16 port → length txn = 12%nat →
  decode_xor_addr (encode_xor_addr ip port txn) txn =
  Some (match inet_pton4 (c_str ip), inet_pton6 (c_str ip) with
        | Some a, _ => Some (mkMapped (inet_ntop4 a) port)
        | None, Some a => Some (mkMapped (inet_ntop6 a) port)
        | None, None => None
        end).
Proof.
  intros Hp Ht. unfold encode_xor_addr.
  set (x16 := u16 (Z.shiftr STUN_MAGIC_COOKIE 16)).
  assert (is_u16 (Z.lxor port x16)) as Hx by (apply lxor_range; [lia|done|apply cookie16]).
  destruct (inet_pton4 (c_str ip)) as [a|] eqn:E4.
  - destruct (pton4_size _ _ E4) as [Hl Hok].
    destruct (read32_in a 0) as [va Hva]; [lia|]. rewrite Hva.
    assert (write32 va = a) as Hw.
    { rewrite (write32_read32 a 0 va Hok Hva). rewrite <- Hl. apply slice_all. }
    assert (is_u32 va) as Hva32 by by eapply read32_range.
    assert (is_u32 (Z.lxor va STUN_MAGIC_COOKIE)) by (apply lxor_range; [lia|done|by compute]).
    unfold decode_xor_addr.
    rewrite decide_False by (rewrite !length_app, length_write16; simpl; lia). simpl lookup. sbind.
    rewrite read16_at by done. sbind.
    rewrite decide_True by (split; [done|]; rewrite !length_app, length_write16, length_write32; simpl; lia).
    rewrite app_assoc, <- (app_nil_r (write32 _)), read32_at by done. sbind.
    rewrite u16_id, u32_id by done. fold x16. by rewrite !lxor_cancel, Hw.
  - destruct (inet_pton6 (c_str ip)) as [a|] eqn:E6; [|done].
    destruct (pton6_size _ _ E6) as [Hl Hok].
    assert (length (xor_key txn) = 16%nat) as Hk by (unfold xor_key; by rewrite length_app, Ht).
    assert (length (zip_with Z.lxor a (xor_key txn)) = 16%nat) as Hz
      by (rewrite length_zip_with; lia).
    unfold decode_xor_addr.
    rewrite decide_False by (rewrite !length_app, length_write16; simpl; lia). simpl lookup. sbind.
    rewrite read16_at by done. sbind. rewrite decide_False by (intros [? _]; done).
    rewrite decide_True by (split; [done|]; rewrite !length_app, length_write16, Hz; simpl; lia).
    rewrite app_assoc, <- (app_nil_r (zip_with Z.lxor a (xor_key txn))), read_bytes_at by (rewrite ?Hz; done).
    sbind.
    rewrite u16_id by done. fold x16. by rewrite lxor_cancel, lxor_zip_cancel by lia.
Qed.
End xor_roundtrip.

Lemma xor_addr_roundtrip_witness :
  decode_xor_addr (H := InetRef.ops)
    (encode_xor_addr (H := InetRef.ops) (str "192.0.2.1") 32853 (replicate 12 7)) (replicate 12 7)
  = Some (Some (mkMapped (str "192.0.2.1") 32853)).
Proof.
  rewrite (xor_addr_roundtrip (H := InetRef.ops) (H0 := InetRef.laws)
    (str "192.0.2.1") 32853 (replicate 12 7)); [|by compute|done].
  vm_compute. reflexivity.
Defined.

(** * What is built is what is parsed *)

(** The attributes a message can be built from: one constructor for each [add_*]
    method of the builder, the XOR-MAPPED-ADDRESS only servers add, and an attribute
    of a type the parser does not know. *)
Inductive stun_attr :=
  | AttrUsername (username : bytes)
  | AttrPriority (priority : Z)
  | AttrUseCandidate
  | AttrIceControlling (tiebreaker : Z)
  | AttrIceControlled (tiebreaker : Z)
  | AttrXorMapped (ip : bytes) (port : Z)
  | AttrXorPeer (ip : bytes) (port : Z)
  | AttrXorRelayed (ip : bytes) (port : Z)
  | AttrErrorCode (code : Z) (reason : bytes)
  | AttrData (data : bytes)
  | AttrChannelNumber (channel : Z)
  | AttrRequestedTransport (proto : Z)
  | AttrLifetime (seconds : Z)
  | AttrRealm (realm : bytes)
  | AttrNonce (nonce : bytes)
  | AttrConnectionId (connection_id : Z)
  | AttrIntegrity (key : bytes)
  | AttrFingerprint
  | AttrPaddingTo (target_total_bytes : nat)
  | AttrUnknown (type : Z) (value : bytes).

(** The types [parse_stun] has a [case] for. *)
Definition known_attrs : list Z :=
  [STUN_ATTR_XOR_MAPPED_ADDRESS; TURN_ATTR_XOR_PEER_ADDRESS; TURN_ATTR_XOR_RELAYED_ADDRESS;
   STUN_ATTR_PRIORITY; TURN_ATTR_LIFETIME; STUN_ATTR_USE_CANDIDATE; STUN_ATTR_ICE_CONTROLLING;
   STUN_ATTR_ICE_CONTROLLED; STUN_ATTR_ERROR_CODE; STUN_ATTR_USERNAME; TURN_ATTR_REALM;
   TURN_ATTR_NONCE; TURN_ATTR_CONNECTION_ID; TURN_ATTR_DATA; STUN_ATTR_MESSAGE_INTEGRITY;
   STUN_ATTR_FINGERPRINT].

(** The values fit their fields; an error code its class and number bytes. *)
Definition stun_attr_ok (a : stun_attr) : Prop :=
  match a with
  | AttrUsername v | AttrData v | AttrRealm v | AttrNonce v => is_u16 (Z.of_nat (length v))
  | AttrPriority v | AttrLifetime v | AttrConnectionId v => is_u32 v
  | AttrIceControlling v | AttrIceControlled v => is_u64 v
  | AttrXorMapped _ port | AttrXorPeer _ port | AttrXorRelayed _ port => is_u16 port
  | AttrErrorCode code reason => 0 ≤ code < 25600 ∧ is_u16 (Z.of_nat (4 + length reason))
  | AttrUnknown t v => is_u16 t ∧ (t ∉ known_attrs) ∧ is_u16 (Z.of_nat (length v))
  | _ => True
  end.

Section stun_roundtrip.
Context `{InetLaws, HmacLaws}.

(** The builder's method for an attribute. *)
Definition add_stun_attr (b : StunBuilder) (a : stun_attr) : StunBuilder :=
  match a with
  | AttrUsername v => add_username v b
  | AttrPriority v => add_priority v b
  | AttrUseCandidate => add_use_candidate b
  | AttrIceControlling v => add_ice_controlling v b
  | AttrIceControlled v => add_ice_controlled v b
  | AttrXorMapped ip port =>
      add_attr STUN_ATTR_XOR_MAPPED_ADDRESS (encode_xor_addr ip port (txn_id_ b)) b
  | AttrXorPeer ip port => add_xor_peer_address ip port b
  | AttrXorRelayed ip port => add_xor_relayed_address ip port b
  | AttrErrorCode code reason => add_error_code code reason b
  | AttrData v => add_data v b
  | AttrChannelNumber v => add_channel_number v b
  | AttrRequestedTransport v => add_requested_transport v b
  | AttrLifetime v => add_lifetime v b
  | AttrRealm v => add_realm v b
  | AttrNonce v => add_nonce v b
  | AttrConnectionId v => add_connection_id v b
  | AttrIntegrity key => add_integrity key b
  | AttrFingerprint => add_fingerprint b
  | AttrPaddingTo n => add_padding_to n b
  | AttrUnknown t v => add_attr t v b
  end.

(** The address a pair of arguments denotes, printed canonically. *)
Definition denoted (ip : bytes) (port : Z) : option MappedAddress :=
  match inet_pton4 (c_str ip), inet_pton6 (c_str ip) with
  | Some a, _ => Some (mkMapped (inet_ntop4 a) port)
  | None, Some a => Some (mkMapped (inet_ntop6 a) port)
  | None, None => None
  end.

(** What an attribute says: the field of [StunMessage] it stands for holds the value
    the method was given. *)
Definition stun_attr_meaning (m : StunMessage) (a : stun_attr) : StunMessage :=
  match a with
  | AttrUsername v => m <| username := Some v |>
  | AttrPriority v => m <| priority := Some v |>
  | AttrUseCandidate => m <| use_candidate := true |>
  | AttrIceControlling v => m <| ice_controlling := Some v |>
  | AttrIceControlled v => m <| ice_controlled := Some v |>
  | AttrXorMapped ip port => m <| xor_mapped := denoted ip port |>
  | AttrXorPeer ip port => m <| xor_peer := denoted ip port |>
  | AttrXorRelayed ip port => m <| xor_relayed := denoted ip port |>
  | AttrErrorCode code _ => m <| error_code := Some code |>
  | AttrData v => m <| stun_data := v |>
  | AttrLifetime v => m <| lifetime := Some v |>
  | AttrRealm v => m <| realm := Some v |>
  | AttrNonce v => m <| nonce := Some v |>
  | AttrConnectionId v => m <| connection_id := Some v |>
  | AttrIntegrity _ => m <| has_integrity := true |>
  | AttrFingerprint => m <| has_fingerprint := true |>
  | AttrChannelNumber _ | AttrRequestedTransport _ | AttrPaddingTo _ | AttrUnknown _ _ => m
  end.

(** [b'] is [b] with attributes whose effect on a message of the same transaction
    is [f]. *)
Definition adds (b b' : StunBuilder) (f : StunMessage → StunMessage) : Prop :=
  ∃ l, b' = add_attrs l b ∧ Forall tlv_ok l
    ∧ ∀ m, txn_id m = txn_id_ b → apply_tlvs l m = f m.

Lemma adds_none b : adds b b id.
Proof. by exists []. Qed.

Lemma adds_one t v b f :
  is_u16 t → is_u16 (Z.of_nat (length v)) →
  (∀ m, txn_id m = txn_id_ b → parse_attr t v m = Some (f m)) →
  adds b (add_attr t v b) f.
Proof.
  intros Ht Hv Hf. exists [(t, v)]. split; [done|]. split; [by repeat constructor; cbn; apply Ht || apply Hv|].
  intros m Hm. cbn. unfold attr_effect. by rewrite Hf.
Qed.

(** Selects the [case] of a known attribute type. *)
Local Ltac attr_case :=
  unfold parse_attr; repeat (rewrite decide_False by done); rewrite decide_True by done.

Lemma encode_xor_addr_length ip port txn :
  length txn = 12%nat → is_u16 (Z.of_nat (length (encode_xor_addr ip port txn))).
Proof.
  intros Ht. unfold encode_xor_addr. destruct (inet_pton4 _) as [a|] eqn:E4.
  - rewrite !length_app, length_write16. destruct (read32 a 0); simpl length; unfold_ints; lia.
  - destruct (inet_pton6 _) as [a|] eqn:E6; [|cbn; unfold_ints; lia].
    rewrite !length_app, length_write16, length_zip_with.
    unfold xor_key. rewrite length_app, Ht, length_write32.
    change (length [0; 2]) with 2%nat. unfold_ints. lia.
Qed.

Lemma adds_xor t ip port b f :
  is_u16 t → is_u16 port → length (txn_id_ b) = 12%nat →
  (∀ d m, parse_attr t d m = (a ← decode_xor_addr d (txn_id m); Some (f m a))) →
  adds b (add_attr t (encode_xor_addr ip port (txn_id_ b)) b) (λ m, f m (denoted ip port)).
Proof.
  intros Ht Hp Hl Hf. apply adds_one; [done|by apply encode_xor_addr_length|].
  intros m Hm. by rewrite Hf, Hm, xor_addr_roundtrip.
Qed.

Lemma error_code_value code :
  0 ≤ code < 25600 → u16 (u8 (code / 100) * 100 + u8 (code mod 100)) = code.
Proof.
  intros Hc. rewrite !u8_id, u16_id; unfold_ints; Z.div_mod_to_equations; lia.
Qed.

Lemma padding_adds n b : adds b (add_padding_to n b) id.
Proof.
  unfold add_padding_to. repeat (case_decide; [apply adds_none|]).
  apply adds_one; [done| |done]. rewrite length_replicate. unfold_ints. lia.
Qed.

Lemma unknown_adds t v b :
  is_u16 t → t ∉ known_attrs → is_u16 (Z.of_nat (length v)) → adds b (add_attr t v b) id.
Proof.
  intros Ht Hk Hv. apply adds_one; [done..|]. intros m _. unfold parse_attr.
  unfold known_attrs in Hk. rewrite !not_elem_of_cons in Hk. destruct_and! Hk.
  by rewrite !decide_False by done.
Qed.

Lemma error_code_adds code reason b :
  0 ≤ code < 25600 → is_u16 (Z.of_nat (4 + length reason)) →
  adds b (add_error_code code reason b) (λ m, m <| error_code := Some code |>).
Proof.
  intros Hc Hr. apply adds_one; [done|by rewrite length_app|]. intros m _. attr_case.
  rewrite decide_True by (rewrite length_app; simpl; lia). cbn.
  by rewrite error_code_value.
Qed.

(** Attributes whose value is kept as it is, and those of one and two words. *)
Local Ltac bytes_attr := apply adds_one; [done|done|intros m _; attr_case].
Local Ltac word_attr :=
  apply adds_one; [done|done|]; intros m _; attr_case; rewrite decide_True by (rewrite ?length_write32, ?length_write64; lia);
  rewrite <- (app_nil_r (write32 _)), read32_write32; cbn; rewrite u32_id by done.
Local Ltac long_attr :=
  apply adds_one; [done|done|]; intros m _; attr_case; rewrite decide_True by (rewrite ?length_write32, ?length_write64; lia);
  rewrite <- (app_nil_r (write64 _)), read64_write64 by done.

Lemma add_stun_attr_adds b a :
  stun_attr_ok a → length (txn_id_ b) = 12%nat →
  adds b (add_stun_attr b a) (λ m, stun_attr_meaning m a).
Proof.
  intros Ha Hl. destruct a; cbn [add_stun_attr stun_attr_meaning stun_attr_ok] in *.
  - by bytes_attr.
  - by word_attr.
  - by bytes_attr.
  - by long_attr.
  - by long_attr.
  - by apply (adds_xor _ _ _ _ (λ m a, m <| xor_mapped := a |>)).
  - by apply (adds_xor _ _ _ _ (λ m a, m <| xor_peer := a |>)).
  - by apply (adds_xor _ _ _ _ (λ m a, m <| xor_relayed := a |>)).
  - destruct Ha. by apply error_code_adds.
  - by bytes_attr.
  - apply unknown_adds; [done|by apply (bool_decide_unpack _)|done].
  - apply unknown_adds; [done|by apply (bool_decide_unpack _)|done].
  - by word_attr.
  - by bytes_attr.
  - by bytes_attr.
  - by word_attr.
  - apply adds_one; [done|by rewrite hmac_length|done].
  - unfold add_fingerprint. generalize (Z.lxor (stun_crc32 (message b 8)) 0x5354554E).
    intros v. by bytes_attr.
  - apply padding_adds.
  - by apply unknown_adds; destruct_and!.
Qed.

Lemma meaning_txn m a : txn_id (stun_attr_meaning m a) = txn_id m.
Proof. by destruct a. Qed.

Lemma build_attrs_adds l b :
  Forall stun_attr_ok l → length (txn_id_ b) = 12%nat →
  adds b (foldl add_stun_attr b l) (λ m, foldl stun_attr_meaning m l).
Proof.
  intros Hl. revert b. induction Hl as [|a l Ha _ IH]; intros b Hb; [by exists []|].
  destruct (add_stun_attr_adds b a Ha Hb) as (l1 & E & Hl1 & Hm1). cbn [foldl]. rewrite E.
  destruct (add_attrs_fields l1 b) as [_ Et].
  destruct (IH (add_attrs l1 b)) as (l2 & -> & Hl2 & Hm2); [by rewrite Et|].
  exists (l1 ++ l2). split; [unfold add_attrs; by rewrite foldl_app|].
  split; [by apply Forall_app|]. intros m Hm. unfold apply_tlvs in *.
  rewrite foldl_app, Hm1 by done. apply Hm2. by rewrite meaning_txn, Et.
Qed.

(** C17 (build/parse round trip): a message built by any sequence of the builder's
    methods, called with values that fit their fields, parses, whatever bytes follow
    it, into the message type and transaction id it was built with and, for each
    attribute in turn, the very value its method was given: the number, text or data,
    the canonical form of the address its text denotes, the flag.  Attributes the
    parser does not know, padding among them, leave no trace. *)
Theorem stun_build_parse ty txn l post :
  is_u16 ty → length txn = 12%nat → Forall stun_attr_ok l →
  let b := foldl add_stun_attr (new_builder ty txn) l in
  is_u16 (Z.of_nat (length (attrs_ b))) →
  parse_stun (build b ++ post)
  = Some (Some (foldl stun_attr_meaning (empty_message ty txn) l)).
Proof.
  intros Hty Htx Hl b Hlen.
  destruct (build_attrs_adds l (new_builder ty txn)) as (tl & E & Htl & Hm); [done|done|].
  fold b in E. destruct (add_attrs_fields tl (new_builder ty txn)) as [E1 E2].
  rewrite <- Hm by done. rewrite E in *. rewrite (parse_message _ tl); try done.
  - by rewrite E1, E2.
  - exact (represents_add_attrs _ [] tl (represents_new ty txn)).
  - by rewrite E1.
  - by rewrite E2.
Qed.
End stun_roundtrip.

(** An error response of a TURN server, and what it says. *)
Lemma stun_build_parse_witness :
  let l := [AttrUsername (str "abcde"); AttrPriority 77; AttrErrorCode 487 (str "Role Conflict");
            AttrXorPeer (str "192.0.2.1") 4000; AttrIceControlling (2 ^ 63 + 1);
            AttrUnknown 0x7777 [1; 2; 3]; AttrIntegrity (str "key"); AttrFingerprint] in
  parse_stun (H := InetRef.ops)
    (build (foldl (add_stun_attr (H := InetRef.ops) (H1 := HmacRef.ops))
              (new_builder STUN_BINDING_REQUEST (replicate 12 9)) l) ++ [1; 2; 3])
  = Some (Some ((empty_message STUN_BINDING_REQUEST (replicate 12 9))
      <| username := Some (str "abcde") |> <| priority := Some 77 |>
      <| error_code := Some 487 |> <| xor_peer := Some (mkMapped (str "192.0.2.1") 4000) |>
      <| ice_controlling := Some (2 ^ 63 + 1) |> <| has_integrity := true |>
      <| has_fingerprint := true |>)).
Proof.
  intros l.
  rewrite (stun_build_parse (H := InetRef.ops) (H0 := InetRef.laws) (H1 := HmacRef.ops)
    (H2 := HmacRef.laws) STUN_BINDING_REQUEST (replicate 12 9) l [1; 2; 3]);
    [vm_compute; reflexivity|by compute|reflexivity| |by vm_compute].
  repeat constructor; try (by compute). by apply (bool_decide_unpack _).
Defined.

(** * ChannelData *)

Lemma channel_header channel payload :
  encode_channel_data channel payload
  = write16 channel ++ write16 (u16 (Z.of_nat (length payload)))
    ++ payload ++ replicate ((4 - length payload mod 4) mod 4)%nat 0.
Proof.
  unfold encode_channel_data, write16, u8. change 0xFF with (Z.ones 8).
  by rewrite !Z.land_ones, !Zmod_mod by lia.
Qed.

(** The two top bits of a 16-bit number below 0x8000. *)
Lemma top_bits t :
  0 ≤ t < 0x8000 →
  u8 (Z.land (u8 (Z.shiftr t 8)) 0xC0) = if decide (t < 0x4000) then 0 else 0x40.
Proof.
  intros Ht. rewrite shiftr_div by lia. change (2 ^ 8) with 256.
  rewrite (u8_id (t / 256)) by (unfold_ints; Z.div_mod_to_equations; lia).
  assert (is_u8 (t / 256)) as Hb by (unfold_ints; Z.div_mod_to_equations; lia).
  assert (∀ b, is_u8 b → b < 128 → u8 (Z.land b 0xC0) = if decide (b < 64) then 0 else 0x40)
    as Hcases.
  { apply (InetRef.octet_cases (λ b,
      b < 128 → u8 (Z.land b 0xC0) = if decide (b < 64) then 0 else 0x40)).
    vm_compute. reflexivity. }
  rewrite Hcases by (done || Z.div_mod_to_equations; lia).
  repeat case_decide; try done; Z.div_mod_to_equations; lia.
Qed.

Lemma channel_frame_parse channel payload :
  is_u16 (Z.of_nat (length payload)) → 0x4000 ≤ channel ≤ 0x7FFF →
  is_channel_data (encode_channel_data channel payload) = Some true
  ∧ parse_channel_data (encode_channel_data channel payload)
    = Some (Some (mkView channel payload)).
Proof.
  intros Hp Hc. rewrite channel_header. split.
  - unfold is_channel_data. rewrite decide_False by (rewrite !length_app, !length_write16; unfold TURN_CHANNEL_DATA_HEADER_SIZE; lia).
    change ((write16 channel ++ _) !! 0%nat) with (Some (u8 (Z.shiftr channel 8))). sbind.
    rewrite top_bits, decide_False by lia. done.
  - unfold parse_channel_data.
    rewrite decide_False by (rewrite !length_app, !length_write16; unfold TURN_CHANNEL_DATA_HEADER_SIZE; lia).
    set (z := replicate _ _). set (n := u16 _).
    change ((write16 channel ++ write16 n ++ payload ++ z) !! 0%nat) with (Some (u8 (Z.shiftr channel 8))).
    change ((write16 channel ++ write16 n ++ payload ++ z) !! 1%nat) with (Some (u8 channel)).
    change ((write16 channel ++ write16 n ++ payload ++ z) !! 2%nat) with (Some (u8 (Z.shiftr n 8))).
    change ((write16 channel ++ write16 n ++ payload ++ z) !! 3%nat) with (Some (u8 n)). sbind.
    rewrite be16_value, write16_value, u16_id by (apply u8_range || (unfold_ints; lia)).
    rewrite decide_False by (unfold TURN_CHANNEL_NUMBER_MIN, TURN_CHANNEL_NUMBER_MAX; lia).
    rewrite lor_shiftl_add by (lia || apply u8_range). change (2 ^ 8) with 256.
    rewrite write16_value. subst n. rewrite !u16_id, Nat2Z.id by (done || by rewrite u16_id).
    rewrite decide_False by (rewrite !length_app, !length_write16; lia).
    rewrite app_assoc, read_bytes_at by done. done.
Qed.

(** ChannelData round trip and demultiplexing: a payload framed for a
    channel of the TURN range is recognised as ChannelData and parses back to the
    same channel and payload without its padding, the frame is a multiple of four
    bytes, and no built STUN message of a type below 0x4000 is taken for one. *)
Theorem channel_data_roundtrip channel payload b :
  TURN_CHANNEL_NUMBER_MIN ≤ channel ≤ TURN_CHANNEL_NUMBER_MAX →
  is_u16 (Z.of_nat (length payload)) → 0 ≤ msg_type_ b < 0x4000 → length (txn_id_ b) = 12%nat →
  let frame := encode_channel_data channel payload in
  is_channel_data frame = Some true
  ∧ parse_channel_data frame = Some (Some (mkView channel payload))
  ∧ (length frame mod 4 = 0)%nat
  ∧ is_channel_data (build b) = Some false.
Proof.
  intros Hc Hp Hb Ht frame. subst frame.
  unfold TURN_CHANNEL_NUMBER_MIN, TURN_CHANNEL_NUMBER_MAX in Hc.
  destruct (channel_frame_parse channel payload) as [E1 E2]; [done|lia|].
  split; [done|]. split; [done|]. split.
  - rewrite channel_header, !length_app, !length_write16, length_replicate. dm_lia.
  - unfold is_channel_data, build.
    rewrite decide_False by (rewrite length_message by done; unfold TURN_CHANNEL_DATA_HEADER_SIZE; lia).
    change (message b 0 !! 0%nat) with (Some (u8 (Z.shiftr (msg_type_ b) 8))). sbind.
    rewrite top_bits, decide_True by lia. done.
Qed.

Lemma channel_data_roundtrip_witness :
  parse_channel_data (encode_channel_data 0x4001 [1; 2; 3; 4; 5])
  = Some (Some (mkView 0x4001 [1; 2; 3; 4; 5])).
Proof.
  apply (channel_data_roundtrip 0x4001 [1; 2; 3; 4; 5]
    (new_builder STUN_BINDING_REQUEST (replicate 12 0))); by compute.
Defined.

(** * Padding probes to a size *)

(** Probe sizing: padding brings a message of attributes to exactly the
    target rounded down to a multiple of four when that exceeds the current size
    (by at most the 65539 bytes one attribute can span), and otherwise leaves it
    alone; it never overshoots the target. *)
Theorem add_padding_size b l target :
  represents b l → length (txn_id_ b) = 12%nat →
  let cur := length (build b) in
  let aligned := (target - target mod 4)%nat in
  length (build (add_padding_to target b))
  = (if decide ((cur < aligned)%nat ∧ Z.of_nat (aligned - cur - 4) ≤ 0xFFFF)
     then aligned else cur).
Proof.
  intros Hr Ht. unfold build, add_padding_to. rewrite (length_message b 0 Ht).
  assert (length (attrs_ b) mod 4 = 0)%nat as Hm by (rewrite Hr; apply encode_tlvs_mod).
  set (n := length (attrs_ b)) in *. cbv zeta.
  pose proof (Nat.Div0.mod_le target 4) as Hle.
  destruct (decide (20 + n < target - target mod 4)%nat) as [Hlt|Hge].
  - assert (4 ≤ target - target mod 4 - (20 + n))%nat by dm_lia.
    rewrite decide_False by lia. rewrite decide_False by lia. rewrite decide_False by lia.
    case_decide as Hcap.
    + rewrite length_message by done. rewrite decide_False by lia. done.
    + rewrite decide_True by lia. rewrite length_message by done.
      rewrite length_add_attr by done. fold n. rewrite length_replicate.
      rewrite align4_id; [lia|]. dm_lia.
  - rewrite (decide_False (P := (_ ∧ _))) by lia.
    repeat case_decide; try lia; by rewrite length_message.
Qed.

Lemma add_padding_size_witness :
  length (build (add_padding_to 1280 (add_username (str "abc")
    (new_builder STUN_BINDING_REQUEST (replicate 12 0))))) = 1280%nat.
Proof.
  rewrite (add_padding_size _ [(STUN_ATTR_USERNAME, str "abc")] 1280);
    [reflexivity|reflexivity|reflexivity].
Defined.

(** * Attributes behind the integrity *)

Section unprotected.
Context `{InetOps} `{HmacLaws}.

(** Attributes after MESSAGE-INTEGRITY are honoured unauthenticated: take any
    message that was closed by [add_integrity]; appending USE-CANDIDATE behind it,
    which needs no key, gives a message that still verifies and that parses as a
    nomination. *)
Theorem integrity_suffix_unprotected ty txn l key :
  is_u16 ty → length txn = 12%nat → Forall tlv_ok l → Forall not_integrity l →
  is_u16 (Z.of_nat (length (encode_tlvs l) + 28)) →
  let raw := build (add_use_candidate (add_integrity key (add_attrs l (new_builder ty txn)))) in
  verify_integrity raw key = Some true
  ∧ ∃ m, parse_stun raw = Some (Some m) ∧ use_candidate m = true.
Proof.
  intros Hty Htx Hl Hn Hlen raw. set (b := add_attrs l (new_builder ty txn)) in *.
  assert (represents b l) as Hr by exact (represents_add_attrs _ [] l (represents_new ty txn)).
  destruct (add_attrs_fields l (new_builder ty txn)) as [Ety Etx]. fold b in Ety, Etx.
  set (v := hmac_sha1 key (message b 24)).
  assert (length v = 20%nat) as Hv by apply hmac_length.
  set (b2 := add_use_candidate (add_integrity key b)).
  set (l2 := [(STUN_ATTR_USE_CANDIDATE, @nil Z)]).
  assert (represents b2 (l ++ (STUN_ATTR_MESSAGE_INTEGRITY, v) :: l2)) as Hr2.
  { rewrite cons_middle, app_assoc. by apply represents_add_attr, represents_add_attr. }
  assert (is_u16 (Z.of_nat (length (attrs_ b2)))) as Hl2.
  { rewrite Hr2. unfold encode_tlvs in *. rewrite bind_app, bind_cons, !length_app.
    rewrite length_encode_tlv. simpl snd. rewrite Hv. exact Hlen. }
  assert (length (txn_id_ b2) = 12%nat) as Ht2
    by (change (txn_id_ b2) with (txn_id_ b); by rewrite Etx).
  split.
  - subst raw. fold b2. rewrite (verify_integrity_spec b2 l v l2) by done.
    rewrite bool_decide_true; [done|]. subst v. f_equal. unfold message. simpl.
    by rewrite <- Hr.
  - subst raw. fold b2. rewrite <- (app_nil_r (build b2)), (parse_message b2 _ [] Hr2); try done.
    + eexists; split; [done|]. unfold apply_tlvs. rewrite foldl_app. simpl. done.
    + apply Forall_app; split; [done|]. repeat constructor; simpl; rewrite ?Hv; by compute.
    + simpl. by rewrite Ety.
Qed.
End unprotected.

Lemma integrity_suffix_unprotected_witness :
  verify_integrity (H := HmacRef.ops)
    (build (add_use_candidate (add_integrity (H := HmacRef.ops) (str "k")
      (add_attrs [] (new_builder STUN_BINDING_REQUEST (replicate 12 9)))))) (str "k") = Some true.
Proof.
  apply (integrity_suffix_unprotected (H := InetRef.ops) (H0 := HmacRef.ops) (H1 := HmacRef.laws)
    STUN_BINDING_REQUEST (replicate 12 9) [] (str "k")); try (by compute); by constructor.
Defined.

(** * The parsers as their callers use them

    The outer option of the parsers marks out-of-bounds reads, which do not occur
    (by the totality lemmas); callers see the inner result. *)

Lemma parse_channel_data_total raw : is_Some (parse_channel_data raw).
Proof.
  unfold parse_channel_data, TURN_CHANNEL_DATA_HEADER_SIZE. case_decide; [by eauto|].
  destruct (lookup_in raw 0) as [? ->]; [lia|]. sbind.
  destruct (lookup_in raw 1) as [? ->]; [lia|]. sbind.
  destruct (lookup_in raw 2) as [? ->]; [lia|]. sbind.
  destruct (lookup_in raw 3) as [? ->]; [lia|]. sbind.
  repeat (case_decide; [by eauto|]). rewrite read_bytes_in by lia. sbind. eauto.
Qed.

Lemma is_channel_data_total raw : is_Some (is_channel_data raw).
Proof.
  unfold is_channel_data, TURN_CHANNEL_DATA_HEADER_SIZE. case_decide; [by eauto|].
  destruct (lookup_in raw 0) as [? ->]; [lia|]. sbind. eauto.
Qed.

Definition parsed_stun `{InetOps} (data : bytes) : option StunMessage :=
  default None (parse_stun data).
Definition parsed_channel_data (raw : bytes) : option ChannelDataView :=
  default None (parse_channel_data raw).
Definition looks_like_channel_data (raw : bytes) : bool := default false (is_channel_data raw).

#[global] Opaque stun_crc32.

(** * Ports of parsed messages *)

(** The address attributes of a message carry 16-bit ports. *)
Definition ports_ok (m : StunMessage) : Prop :=
  ∀ a, xor_mapped m = Some a ∨ xor_peer m = Some a ∨ xor_relayed m = Some a → is_u16 (ma_port a).

Section ports.
Context `{InetOps}.

Lemma decode_xor_addr_port d txn a : decode_xor_addr d txn = Some (Some a) → is_u16 (ma_port a).
Proof.
  unfold decode_xor_addr. intros Hd. case_decide; [done|]. inv_bind.
  match goal with E : read16 _ _ = Some _ |- _ => apply read16_range in E as Hx end.
  repeat case_decide; inv_bind; try done; apply lxor_range; try done; by vm_compute.
Qed.

Lemma parse_attr_ports t d m m' : ports_ok m → parse_attr t d m = Some m' → ports_ok m'.
Proof.
  intros Hm E. unfold parse_attr in E.
  repeat (case_decide; [inv_bind; try case_decide; inv_bind;
    try (exact Hm); intros a Ha; cbn in Ha;
    destruct Ha as [Ha|[Ha|Ha]]; simplify_eq; eauto using decode_xor_addr_port|]).
  inv_bind. exact Hm.
Qed.

Lemma parsed_stun_ports data m : parsed_stun data = Some m → ports_ok m.
Proof.
  assert (∀ fuel stop offset m0 m1, ports_ok m0 →
    parse_attrs fuel data stop offset m0 = Some m1 → ports_ok m1) as Hp.
  { induction fuel as [|fuel IH]; intros stop offset m0 m1 Hm0; [done|].
    cbn [parse_attrs]. case_decide; [|by intros; simplify_eq]. intros. inv_bind.
    case_decide; [by simplify_eq|]. inv_bind. eauto using parse_attr_ports. }
  unfold parsed_stun, parse_stun. intros E. case_decide; [done|].
  destruct (read16 data 0); [|done]. destruct (read16 data 2); [|done].
  destruct (read32 data 4); [|done]. cbn in E. case_decide; [done|]. case_decide; [done|].
  destruct (read_bytes data 8 12); [|done]. cbn in E.
  destruct (parse_attrs _ _ _ _ _) as [m'|] eqn:Ep; [|done]. cbn in E. simplify_eq.
  apply Hp in Ep; [done|]. by intros a [|[|]].
Qed.
End ports.
