(* ===== verification/Turn.v ===== *)
(** The TURN client (src/turn.hpp, src/turn.cpp, class [TurnClient]).

    The client is a record of its members; each method is a computation over it
    that outputs what the code sends, reports through its callbacks and asks of
    its timer.  Three things come from outside and are parameters of the model:
    MD5, the random transaction ids (a supply, with the position reached in the
    state) and the results of the carrier factory (likewise).  [mu_] guards single
    critical sections of each method and is not represented. *)

From stdpp Require Import gmap.
From S2P Require Import Prelude Bytes Inet Framing Stun.

Record TurnConfig := mkTurnConfig {
  tc_server : bytes;
  tc_port : Z;
  tc_username : bytes;
  tc_password : bytes;
  tc_tcp_transport : bool;
  tc_tls_transport : bool;
  tc_requested_transport : Z;
}.

Record PendingBind := mkPendingBind {
  pb_connection_id : Z;
  pb_peer_ip : bytes;
  pb_peer_port : Z;
}.

Record TurnClient := mkTurn {
  t_carrier : bool;                       (* [carrier_ != nullptr] *)
  t_server_cid : Z;
  t_cfg : TurnConfig;
  t_alloc_cb : bool;                      (* [alloc_cb_] is set *)
  t_allocated : bool;
  t_refresh_healthy : bool;
  t_relayed : MappedAddress;
  t_realm : bytes;
  t_nonce : bytes;
  t_auth_key : bytes;
  t_lifetime : Z;
  t_permissions : gset bytes;
  t_peer_to_channel : gmap bytes Z;
  t_channel_to_peer : gmap Z (bytes * Z);
  t_next_channel : Z;
  t_rx_buffer : bytes;
  t_conn_attempt_cb : bool;
  t_data_conn_cb : bool;
  t_factory : bool;                       (* [data_carrier_factory_] is set *)
  t_pending_connects : gmap bytes (bytes * Z);
  t_pending_binds : gmap Z PendingBind;
  t_data_conn_rx_buffers : gmap Z bytes;
  t_data_connections : gmap Z Z;
  t_bound_peers : gmap Z (bytes * Z);
  t_txn_pos : nat;                        (* transaction ids drawn so far *)
  t_factory_pos : nat;                    (* factory calls so far *)
}.
#[global] Instance TurnClient_eta : Eta TurnClient := λ t,
  mkTurn (t_carrier t) (t_server_cid t) (t_cfg t) (t_alloc_cb t) (t_allocated t)
    (t_refresh_healthy t) (t_relayed t) (t_realm t) (t_nonce t) (t_auth_key t) (t_lifetime t)
    (t_permissions t) (t_peer_to_channel t) (t_channel_to_peer t) (t_next_channel t)
    (t_rx_buffer t) (t_conn_attempt_cb t) (t_data_conn_cb t) (t_factory t)
    (t_pending_connects t) (t_pending_binds t) (t_data_conn_rx_buffers t)
    (t_data_connections t) (t_bound_peers t) (t_txn_pos t) (t_factory_pos t).

Inductive turn_event :=
  | TSend (cid : Z) (data : bytes)                    (* [carrier_->send] *)
  | TData (ip : bytes) (port : Z) (data : bytes)      (* [data_cb_] *)
  | TAllocated (ip : bytes) (port : Z)                (* [alloc_cb_] *)
  | TConnAttempt (ip : bytes) (port : Z) (id : Z)     (* [conn_attempt_cb_] *)
  | TDataConn (id cid : Z) (ip : bytes) (port : Z)    (* [data_conn_cb_] *)
  | TTimerCancel                                      (* [refresh_timer_] *)
  | TTimerSet (seconds : Z).

Abbreviation turn := (eff TurnClient turn_event).

(** The OpenSSL MD5 digest. *)
Class Md5 := md5 : bytes → bytes.

Definition new_turn (carrier : bool) (server_cid : Z) (cfg : TurnConfig) (alloc_cb : bool)
    : TurnClient := {|
  t_carrier := carrier; t_server_cid := server_cid; t_cfg := cfg; t_alloc_cb := alloc_cb;
  t_allocated := false; t_refresh_healthy := true; t_relayed := mkMapped [] 0;
  t_realm := []; t_nonce := []; t_auth_key := []; t_lifetime := 600;
  t_permissions := ∅; t_peer_to_channel := ∅; t_channel_to_peer := ∅;
  t_next_channel := 0x4000; t_rx_buffer := [];
  t_conn_attempt_cb := false; t_data_conn_cb := false; t_factory := false;
  t_pending_connects := ∅; t_pending_binds := ∅; t_data_conn_rx_buffers := ∅;
  t_data_connections := ∅; t_bound_peers := ∅; t_txn_pos := 0; t_factory_pos := 0 |}.

Definition is_healthy (t : TurnClient) : bool := t_allocated t && t_refresh_healthy t.

Definition mark_unhealthy_for_test : turn unit := modify (λ t, t <| t_refresh_healthy := false |>).

Definition set_connection_attempt_callback : turn unit :=
  modify (λ t, t <| t_conn_attempt_cb := true |>).
Definition set_data_connection_callback : turn unit :=
  modify (λ t, t <| t_data_conn_cb := true |>).
Definition set_data_carrier_factory : turn unit := modify (λ t, t <| t_factory := true |>).

Section client.
Context `{InetOps} `{Hmac} `{Md5}.
Variable txn_supply : nat → bytes.
Variable factory_supply : nat → Z.

Definition generate_txn_id : turn bytes :=
  t ← get;
  modify (λ t, t <| t_txn_pos := S (t_txn_pos t) |>) ;;
  mret (txn_supply (t_txn_pos t)).

Definition data_carrier_factory : turn Z :=
  t ← get;
  modify (λ t, t <| t_factory_pos := S (t_factory_pos t) |>) ;;
  mret (factory_supply (t_factory_pos t)).

Definition compute_auth_key : turn unit :=
  modify (λ t, t <| t_auth_key :=
    md5 (tc_username (t_cfg t) ++ str ":" ++ t_realm t ++ str ":" ++ tc_password (t_cfg t)) |>).

Definition send_to_server (data : bytes) : turn unit :=
  t ← get;
  if negb (t_carrier t) || bool_decide (t_server_cid t = 0) then skip else
  if tc_tcp_transport (t_cfg t) || tc_tls_transport (t_cfg t) then
    let '(ok, framed) := encode_stream_frame data [] in
    if ok then emit (TSend (t_server_cid t) framed) else skip
  else emit (TSend (t_server_cid t) data).

(** The credential attributes every authenticated request ends with. *)
Definition add_credentials (t : TurnClient) (b : StunBuilder) : StunBuilder :=
  add_fingerprint (add_integrity (t_auth_key t)
    (add_nonce (t_nonce t) (add_realm (t_realm t) (add_username (tc_username (t_cfg t)) b)))).

Definition allocate : turn bool :=
  t ← get;
  if bool_decide (tc_server (t_cfg t) = []) then mret false else
  if negb (t_carrier t) || bool_decide (t_server_cid t = 0) then mret false else
  txn ← generate_txn_id;
  send_to_server (build (add_requested_transport (tc_requested_transport (t_cfg t))
    (new_builder TURN_ALLOCATE_REQUEST txn))) ;;
  mret true.

Definition refresh : turn unit :=
  txn ← generate_txn_id;
  t ← get;
  send_to_server (build (add_credentials t (add_lifetime (t_lifetime t)
    (new_builder TURN_REFRESH_REQUEST txn)))).

Definition schedule_refresh : turn unit :=
  t ← get;
  emit (TTimerSet (t_lifetime t / 2)).

(** The handler [schedule_refresh] installs; [ec] is the timer's error code. *)
Definition on_refresh_timer (ec : bool) : turn unit :=
  t ← get;
  if negb ec && t_allocated t then refresh ;; schedule_refresh else skip.

Definition close : turn unit :=
  emit TTimerCancel ;;
  t ← get;
  if negb (t_allocated t) then skip else
  txn ← generate_txn_id;
  send_to_server (build (add_credentials t (add_lifetime 0
    (new_builder TURN_REFRESH_REQUEST txn)))) ;;
  modify (λ t, t <| t_allocated := false |>).

Definition send_indication (peer_ip : bytes) (peer_port : Z) (data : bytes) : turn unit :=
  t ← get;
  let channel := default 0 (t_peer_to_channel t !! endpoint_text peer_ip peer_port) in
  if decide (channel ≠ 0) then send_to_server (encode_channel_data channel data) else
  txn ← generate_txn_id;
  send_to_server (build (add_data data (add_xor_peer_address peer_ip peer_port
    (new_builder TURN_SEND_INDICATION txn)))).

Definition bind_channel (peer_ip : bytes) (peer_port : Z) : turn unit :=
  t ← get;
  if decide (tc_requested_transport (t_cfg t) = REQUESTED_TRANSPORT_TCP) then skip else
  let key := endpoint_text peer_ip peer_port in
  if bool_decide (is_Some (t_peer_to_channel t !! key)) then skip else
  let channel := t_next_channel t in
  modify (λ t, t <| t_next_channel := u16 (t_next_channel t + 1) |>) ;;
  if decide (channel > TURN_CHANNEL_NUMBER_MAX) then skip else
  modify (λ t, t <| t_peer_to_channel := <[key := channel]> (t_peer_to_channel t) |>
                 <| t_channel_to_peer := <[channel := (peer_ip, peer_port)]> (t_channel_to_peer t) |>
                 <| t_permissions := {[peer_ip]} ∪ t_permissions t |>) ;;
  txn ← generate_txn_id;
  t ← get;
  send_to_server (build (add_credentials t (add_xor_peer_address peer_ip peer_port
    (add_channel_number channel (new_builder TURN_CHANNEL_BIND_REQUEST txn))))).

Definition create_permission (peer_ip : bytes) : turn unit :=
  t ← get;
  if bool_decide (peer_ip ∈ t_permissions t) then skip else
  modify (λ t, t <| t_permissions := {[peer_ip]} ∪ t_permissions t |>) ;;
  txn ← generate_txn_id;
  t ← get;
  send_to_server (build (add_credentials t (add_xor_peer_address peer_ip 0
    (new_builder TURN_CREATE_PERM_REQUEST txn)))).

(** The optional credentials of the RFC 6062 requests. *)
Definition add_known_credentials (t : TurnClient) (b : StunBuilder) : StunBuilder :=
  if bool_decide (t_realm t = []) then b else add_credentials t b.

Definition connect_to_peer (peer_ip : bytes) (peer_port : Z) : turn unit :=
  t ← get;
  if decide (tc_requested_transport (t_cfg t) ≠ REQUESTED_TRANSPORT_TCP) then skip else
  txn ← generate_txn_id;
  let msg := build (add_known_credentials t (add_xor_peer_address peer_ip peer_port
               (new_builder TURN_CONNECT_REQUEST txn))) in
  let txn_key := if decide (20 ≤ length msg)%nat then slice msg 8 12 else [] in
  modify (λ t, t <| t_pending_connects :=
    <[txn_key := (peer_ip, peer_port)]> (t_pending_connects t) |>) ;;
  send_to_server msg.

Definition send_framed_on_data_cid (cid : Z) (data : bytes) : turn unit :=
  t ← get;
  if negb (t_carrier t) || bool_decide (cid = 0) then skip else
  let '(ok, framed) := encode_stream_frame data [] in
  if ok then emit (TSend cid framed) else skip.

Definition open_data_connection (connection_id : Z) (peer_ip : bytes) (peer_port : Z)
    : turn unit :=
  t ← get;
  if negb (t_factory t) then skip else
  cid ← data_carrier_factory;
  if decide (cid = 0) then skip else
  modify (λ t, t <| t_pending_binds :=
    <[cid := mkPendingBind connection_id peer_ip peer_port]> (t_pending_binds t) |>) ;;
  txn ← generate_txn_id;
  t ← get;
  send_framed_on_data_cid cid (build (add_known_credentials t
    (add_connection_id connection_id (new_builder TURN_CONNECTION_BIND_REQUEST txn)))).

Definition handle_channel_data (data : bytes) : turn unit :=
  match parsed_channel_data data with
  | None => skip
  | Some frame =>
      t ← get;
      match t_channel_to_peer t !! cd_channel frame with
      | None => skip
      | Some (peer_ip, peer_port) => emit (TData peer_ip peer_port (cd_payload frame))
      end
  end.

Definition handle_allocate_response (msg : StunMessage) : turn unit :=
  match xor_relayed msg with
  | None => skip
  | Some addr =>
      modify (λ t, t <| t_relayed := addr |> <| t_allocated := true |>
                     <| t_lifetime := default (t_lifetime t) (lifetime msg) |>) ;;
      schedule_refresh ;;
      t ← get;
      if t_alloc_cb t then emit (TAllocated (ma_ip addr) (ma_port addr)) else skip
  end.

Definition handle_data_indication (msg : StunMessage) : turn unit :=
  match xor_peer msg with
  | Some peer =>
      if bool_decide (stun_data msg = []) then skip
      else emit (TData (ma_ip peer) (ma_port peer) (stun_data msg))
  | None => skip
  end.

Definition handle_connect_response (msg : StunMessage) : turn unit :=
  match connection_id msg with
  | None => skip
  | Some id =>
      t ← get;
      match t_pending_connects t !! txn_id msg with
      | None => skip
      | Some (peer_ip, peer_port) =>
          modify (λ t, t <| t_pending_connects := delete (txn_id msg) (t_pending_connects t) |>) ;;
          open_data_connection id peer_ip peer_port
      end
  end.

Definition handle_connection_attempt (msg : StunMessage) : turn unit :=
  match connection_id msg, xor_peer msg with
  | Some cid, Some peer =>
      t ← get;
      (if t_conn_attempt_cb t then emit (TConnAttempt (ma_ip peer) (ma_port peer) cid) else skip) ;;
      open_data_connection cid (ma_ip peer) (ma_port peer)
  | _, _ => skip
  end.

(** 401 and 438: adopt realm and nonce, derive the key, retry with credentials. *)
Definition retry_allocate (msg : StunMessage) : turn unit :=
  modify (λ t, t <| t_realm := default (t_realm t) (realm msg) |>
                 <| t_nonce := default (t_nonce t) (nonce msg) |>) ;;
  compute_auth_key ;;
  txn ← generate_txn_id;
  t ← get;
  send_to_server (build (add_credentials t
    (add_requested_transport (tc_requested_transport (t_cfg t))
       (new_builder TURN_ALLOCATE_REQUEST txn)))).

Definition dispatch_inbound_message (data : bytes) : turn unit :=
  if looks_like_channel_data data then handle_channel_data data else
  match parsed_stun data with
  | None => skip
  | Some msg =>
      if decide (msg_type msg = TURN_ALLOCATE_ERROR) then
        if bool_decide (error_code msg = Some 401) || bool_decide (error_code msg = Some 438)
        then retry_allocate msg else skip
      else if decide (msg_type msg = TURN_ALLOCATE_RESPONSE) then handle_allocate_response msg
      else if decide (msg_type msg = TURN_DATA_INDICATION) then handle_data_indication msg
      else if decide (msg_type msg = TURN_CHANNEL_BIND_RESPONSE) then skip
      else if decide (msg_type msg = TURN_CHANNEL_BIND_ERROR) then skip
      else if decide (msg_type msg = TURN_CONNECTION_ATTEMPT_INDICATION)
      then handle_connection_attempt msg
      else if decide (msg_type msg = TURN_CONNECT_RESPONSE) then handle_connect_response msg
      else skip
  end.

(** The [while (try_take_stream_frame(rx_buffer_, frame))] loop. *)
Fixpoint drain_inbound (fuel : nat) : turn unit :=
  match fuel with
  | O => skip
  | S fuel =>
      t ← get;
      match try_take_stream_frame (t_rx_buffer t) with
      | None => skip
      | Some (frame, rest) =>
          modify (λ t, t <| t_rx_buffer := rest |>) ;;
          dispatch_inbound_message frame ;;
          drain_inbound fuel
      end
  end.

Definition on_inbound (data : bytes) : turn unit :=
  t ← get;
  if tc_tcp_transport (t_cfg t) || tc_tls_transport (t_cfg t) then
    modify (λ t, t <| t_rx_buffer := t_rx_buffer t ++ data |>) ;;
    drain_inbound (length (t_rx_buffer t ++ data))
  else dispatch_inbound_message data.

Definition dispatch_data_conn_message (cid : Z) (data : bytes) : turn unit :=
  match parsed_stun data with
  | None => skip
  | Some msg =>
      if decide (msg_type msg = TURN_CONNECTION_BIND_RESPONSE) then
        t ← get;
        match t_pending_binds t !! cid with
        | None => skip
        | Some pb =>
            modify (λ t, t
              <| t_pending_binds := delete cid (t_pending_binds t) |>
              <| t_data_connections := <[pb_connection_id pb := cid]> (t_data_connections t) |>
              <| t_bound_peers := <[cid := (pb_peer_ip pb, pb_peer_port pb)]> (t_bound_peers t) |>
              <| t_data_conn_rx_buffers := delete cid (t_data_conn_rx_buffers t) |>) ;;
            if t_data_conn_cb t
            then emit (TDataConn (pb_connection_id pb) cid (pb_peer_ip pb) (pb_peer_port pb))
            else skip
        end
      else if decide (msg_type msg = TURN_CONNECTION_BIND_ERROR) then
        modify (λ t, t <| t_pending_binds := delete cid (t_pending_binds t) |>
                       <| t_data_conn_rx_buffers := delete cid (t_data_conn_rx_buffers t) |>)
      else skip
  end.

Definition on_data_connection_inbound (cid : Z) (data : bytes) : turn unit :=
  t ← get;
  match t_bound_peers t !! cid with
  | Some (peer_ip, peer_port) => emit (TData peer_ip peer_port data)
  | None =>
      modify (λ t, t <| t_data_conn_rx_buffers := delete cid (t_data_conn_rx_buffers t) |>) ;;
      let '(fs, buf) := drain (default [] (t_data_conn_rx_buffers t !! cid) ++ data) in
      for_each (dispatch_data_conn_message cid) fs ;;
      t ← get;
      if bool_decide (buf = []) then skip else
      match t_bound_peers t !! cid with
      | Some _ => skip
      | None => modify (λ t, t <| t_data_conn_rx_buffers :=
                                   <[cid := buf]> (t_data_conn_rx_buffers t) |>)
      end
  end.
End client.

(** * Inputs and runs *)

Inductive turn_input :=
  | IAllocate
  | IInbound (data : bytes)
  | IRefreshTimer (ec : bool)
  | IClose
  | ISend (ip : bytes) (port : Z) (data : bytes)
  | IBindChannel (ip : bytes) (port : Z)
  | ICreatePermission (ip : bytes)
  | IConnect (ip : bytes) (port : Z)
  | IDataInbound (cid : Z) (data : bytes)
  | ISetCallbacks.

Definition is_bind (i : turn_input) : bool :=
  match i with IBindChannel _ _ => true | _ => false end.

Section runs.
Context `{InetOps} `{Hmac} `{Md5}.
Variable txn_supply : nat → bytes.
Variable factory_supply : nat → Z.

Definition turn_handle (i : turn_input) : turn unit :=
  match i with
  | IAllocate => allocate txn_supply ;; skip
  | IInbound data => on_inbound txn_supply factory_supply data
  | IRefreshTimer ec => on_refresh_timer txn_supply ec
  | IClose => close txn_supply
  | ISend ip port data => send_indication txn_supply ip port data
  | IBindChannel ip port => bind_channel txn_supply ip port
  | ICreatePermission ip => create_permission txn_supply ip
  | IConnect ip port => connect_to_peer txn_supply ip port
  | IDataInbound cid data => on_data_connection_inbound cid data
  | ISetCallbacks =>
      set_connection_attempt_callback ;; set_data_connection_callback ;; set_data_carrier_factory
  end.

Definition turn_run (ins : list turn_input) : turn unit := for_each turn_handle ins.
End runs.

(** * Health *)

(** The health flag is left alone. *)
Definition same_health (t t' : TurnClient) : Prop :=
  t_refresh_healthy t' = t_refresh_healthy t.

#[global] Instance same_health_preorder : PreOrder same_health.
Proof. split; unfold same_health; [by intros ?|]. intros ???; congruence. Qed.

(** The channel tables and their counter are left alone; permissions only grow. *)
Definition same_channels (t t' : TurnClient) : Prop :=
  t_peer_to_channel t' = t_peer_to_channel t ∧ t_channel_to_peer t' = t_channel_to_peer t
  ∧ t_next_channel t' = t_next_channel t ∧ t_permissions t ⊆ t_permissions t'.

#[global] Instance same_channels_preorder : PreOrder same_channels.
Proof.
  split; unfold same_channels; [by intros ?|].
  intros ??? (?&?&?&?) (?&?&?&?). repeat split; try congruence. by etrans.
Qed.

Section frames.
Context `{InetOps} `{Hmac} `{Md5}.
Variable txn_supply : nat → bytes.
Variable factory_supply : nat → Z.

Section frame.
Variable R : TurnClient → TurnClient → Prop.
Context `{!PreOrder R}.

(** Methods whose updates are all outside the fields [R] watches. *)
Record watches : Prop := {
  w_txn t n : R t (t <| t_txn_pos := n |>);
  w_factory_pos t n : R t (t <| t_factory_pos := n |>);
  w_auth t k : R t (t <| t_auth_key := k |>);
  w_realm t a b : R t (t <| t_realm := a |> <| t_nonce := b |>);
  w_alloc t b : R t (t <| t_allocated := b |>);
  w_alloc_ok t a b l : R t (t <| t_relayed := a |> <| t_allocated := b |> <| t_lifetime := l |>);
  w_perm t ip : R t (t <| t_permissions := {[ip]} ∪ t_permissions t |>);
  w_connects t m : R t (t <| t_pending_connects := m |>);
  w_binds t m : R t (t <| t_pending_binds := m |>);
  w_rx t b : R t (t <| t_rx_buffer := b |>);
  w_datarx t m : R t (t <| t_data_conn_rx_buffers := m |>);
  w_bound t a b c d : R t (t <| t_pending_binds := a |> <| t_data_connections := b |>
                             <| t_bound_peers := c |> <| t_data_conn_rx_buffers := d |>);
  w_bind_err t a b : R t (t <| t_pending_binds := a |> <| t_data_conn_rx_buffers := b |>);
  w_cb1 t : R t (t <| t_conn_attempt_cb := true |>);
  w_cb2 t : R t (t <| t_data_conn_cb := true |>);
  w_cb3 t : R t (t <| t_factory := true |>);
}.
Hypothesis HR : watches.

Ltac watch := intros; first [apply (w_txn HR) | apply (w_factory_pos HR) | apply (w_auth HR)
  | apply (w_realm HR) | apply (w_alloc HR) | apply (w_alloc_ok HR) | apply (w_perm HR)
  | apply (w_connects HR) | apply (w_binds HR) | apply (w_rx HR) | apply (w_datarx HR)
  | apply (w_bound HR) | apply (w_bind_err HR) | apply (w_cb1 HR) | apply (w_cb2 HR)
  | apply (w_cb3 HR)].

Lemma keeps_txn : keeps R (generate_txn_id txn_supply).
Proof. unfold generate_txn_id. keeps_auto watch. Qed.
Lemma keeps_send_to_server d : keeps R (send_to_server d).
Proof. unfold send_to_server. keeps_auto watch. Qed.
Hint Resolve keeps_txn keeps_send_to_server : ice.

Lemma keeps_open id ip port : keeps R (open_data_connection txn_supply factory_supply id ip port).
Proof.
  unfold open_data_connection, data_carrier_factory, send_framed_on_data_cid. keeps_auto watch.
Qed.
Hint Resolve keeps_open : ice.

Lemma keeps_refresh : keeps R (refresh txn_supply).
Proof. unfold refresh. keeps_auto watch. Qed.
Hint Resolve keeps_refresh : ice.

Lemma keeps_dispatch d : keeps R (dispatch_inbound_message txn_supply factory_supply d).
Proof.
  unfold dispatch_inbound_message, handle_channel_data, retry_allocate, compute_auth_key,
    handle_allocate_response, schedule_refresh, handle_data_indication,
    handle_connection_attempt, handle_connect_response.
  keeps_auto watch.
Qed.
Hint Resolve keeps_dispatch : ice.

Lemma keeps_drain n : keeps R (drain_inbound txn_supply factory_supply n).
Proof. induction n; cbn [drain_inbound]; keeps_auto watch. Qed.
Hint Resolve keeps_drain : ice.

Lemma keeps_handle i :
  is_bind i = false → keeps R (turn_handle txn_supply factory_supply i).
Proof.
  destruct i; intros Hi; try done; cbn [turn_handle];
    unfold allocate, on_inbound, on_refresh_timer, close, send_indication, create_permission,
      connect_to_peer, on_data_connection_inbound, dispatch_data_conn_message,
      set_connection_attempt_callback, set_data_connection_callback, set_data_carrier_factory,
      schedule_refresh;
    keeps_auto watch.
Qed.
End frame.
End frames.

Lemma watches_health : watches same_health.
Proof. by split. Qed.
Lemma watches_channels : watches same_channels.
Proof. split; intros; repeat split; simpl; try done. apply union_subseteq_r. Qed.

(** * Channel tables *)

(** The forward and reverse tables are inverse to each other, every bound channel
    lies in the TURN range and below the counter, and a bound peer's address has a
    permission. *)
Record channels_wf (t : TurnClient) : Prop := {
  ch_next : TURN_CHANNEL_NUMBER_MIN ≤ t_next_channel t ≤ 0xFFFF;
  ch_fwd key ch : t_peer_to_channel t !! key = Some ch →
    TURN_CHANNEL_NUMBER_MIN ≤ ch ≤ TURN_CHANNEL_NUMBER_MAX ∧ ch < t_next_channel t
    ∧ ∃ ip port, key = endpoint_text ip port ∧ t_channel_to_peer t !! ch = Some (ip, port);
  ch_rev ch ip port : t_channel_to_peer t !! ch = Some (ip, port) →
    t_peer_to_channel t !! endpoint_text ip port = Some ch ∧ ip ∈ t_permissions t;
}.

Lemma channels_wf_new carrier cid cfg cb : channels_wf (new_turn carrier cid cfg cb).
Proof. split; simpl; [by compute| |]; intros; by rewrite lookup_empty in *. Qed.

Lemma channels_wf_same t t' : same_channels t t' → channels_wf t → channels_wf t'.
Proof.
  intros (E1 & E2 & E3 & E4) [Hn Hf Hr].
  split; rewrite ?E1, ?E2, ?E3; [done|done|]. intros ch ip port Hc.
  destruct (Hr ch ip port Hc) as [? Hin]. split; [done|]. by eapply elem_of_weaken.
Qed.

Section channels.
Context `{InetOps} `{Hmac} `{Md5}.
Variable txn_supply : nat → bytes.
Variable factory_supply : nat → Z.

(** A new binding, as [bind_channel] makes it under its lock. *)
Definition with_binding (ip : bytes) (port : Z) (t : TurnClient) : TurnClient :=
  t <| t_next_channel := u16 (t_next_channel t + 1) |>
    <| t_peer_to_channel := <[endpoint_text ip port := t_next_channel t]> (t_peer_to_channel t) |>
    <| t_channel_to_peer := <[t_next_channel t := (ip, port)]> (t_channel_to_peer t) |>
    <| t_permissions := {[ip]} ∪ t_permissions t |>.

Lemma final_bind_channel ip port t :
  let t' := final (bind_channel txn_supply ip port) t in
  (same_channels t t' ∧
     (tc_requested_transport (t_cfg t) = REQUESTED_TRANSPORT_TCP
      ∨ is_Some (t_peer_to_channel t !! endpoint_text ip port)))
  ∨ (same_channels (t <| t_next_channel := u16 (t_next_channel t + 1) |>) t'
     ∧ t_next_channel t > TURN_CHANNEL_NUMBER_MAX)
  ∨ (same_channels (with_binding ip port t) t'
     ∧ t_peer_to_channel t !! endpoint_text ip port = None
     ∧ t_next_channel t ≤ TURN_CHANNEL_NUMBER_MAX).
Proof.
  unfold bind_channel. rewrite final_get.
  case_decide as Htcp; [left; split; [reflexivity|by left]|].
  case_bool_decide as Hb; [left; split; [reflexivity|by right]|].
  rewrite final_modify.
  case_decide as Hmax; [right; left; split; [reflexivity|done]|].
  right; right. split; [|split; [by apply eq_None_not_Some|lia]].
  rewrite final_modify. fold (with_binding ip port t).
  match goal with |- same_channels _ (final ?m _) => assert (keeps same_channels m) as Hk end.
  { apply keeps_bind; [apply _|apply keeps_txn, watches_channels; apply _|]. intros txn.
    apply keeps_bind; [apply _|apply keeps_get, _|]. intros.
    apply keeps_send_to_server; apply _. }
  apply Hk.
Qed.

Lemma with_binding_wf ip port t :
  channels_wf t → t_peer_to_channel t !! endpoint_text ip port = None →
  t_next_channel t ≤ TURN_CHANNEL_NUMBER_MAX → channels_wf (with_binding ip port t).
Proof.
  unfold TURN_CHANNEL_NUMBER_MAX. intros Hwf Hnone Hmax.
  pose proof (ch_next t Hwf) as Hn. unfold TURN_CHANNEL_NUMBER_MIN in Hn.
  assert (u16 (t_next_channel t + 1) = t_next_channel t + 1) as Hu by (apply u16_id; unfold_ints; lia).
  assert (∀ ch p, t_channel_to_peer t !! ch = Some p → ch < t_next_channel t) as Hlt.
  { intros ch [ip' port'] Hc. apply (ch_rev t Hwf) in Hc as [Hc _].
    by apply (ch_fwd t Hwf) in Hc as (_ & ? & _). }
  split; unfold with_binding; simpl; rewrite ?Hu.
  - unfold TURN_CHANNEL_NUMBER_MIN. lia.
  - intros key ch. rewrite lookup_insert_Some. intros [[<- <-]|[Hne Hk]].
    + unfold TURN_CHANNEL_NUMBER_MIN, TURN_CHANNEL_NUMBER_MAX.
      split; [lia|]. split; [lia|]. exists ip, port. by rewrite lookup_insert_eq.
    + apply (ch_fwd t Hwf) in Hk as (? & ? & ip' & port' & ? & Hc).
      split; [done|]. split; [lia|]. exists ip', port'. split; [done|].
      rewrite lookup_insert_ne; [done|]. intros E. apply Hlt in Hc. lia.
  - intros ch ip' port'. rewrite lookup_insert_Some. intros [[<- [=<- <-]]|[Hne Hc]].
    + rewrite lookup_insert_eq. split; [done|]. by apply elem_of_union_l, elem_of_singleton.
    + apply (ch_rev t Hwf) in Hc as [Hc Hp]. split; [|by apply elem_of_union_r].
      rewrite lookup_insert_ne; [done|]. intros E. rewrite E in Hnone. congruence.
Qed.

Lemma turn_handle_channels i t :
  channels_wf t → t_next_channel t + (if is_bind i then 1 else 0) ≤ 0xFFFF →
  let t' := final (turn_handle txn_supply factory_supply i) t in
  channels_wf t' ∧ t_next_channel t' ≤ t_next_channel t + (if is_bind i then 1 else 0).
Proof.
  intros Hwf Hn. destruct (is_bind i) eqn:Hb.
  - destruct i; try done. cbn [turn_handle]. pose proof (ch_next t Hwf) as Hr.
    assert (u16 (t_next_channel t + 1) = t_next_channel t + 1) as Hu
      by (apply u16_id; unfold TURN_CHANNEL_NUMBER_MIN in Hr; unfold_ints; lia).
    destruct (final_bind_channel ip port t) as [[Hs _]|[[Hs Hmax]|(Hs & Hnone & Hmax)]].
    + split; [by eapply channels_wf_same|]. destruct Hs as (_ & _ & -> & _). lia.
    + split; [|destruct Hs as (_ & _ & -> & _); simpl; lia].
      eapply channels_wf_same; [exact Hs|]. destruct Hwf as [? Hf ?]. split; simpl.
      * rewrite Hu. unfold TURN_CHANNEL_NUMBER_MIN in *. lia.
      * rewrite Hu. intros key ch Hk. apply Hf in Hk as (? & ? & ?). repeat split; try done; lia.
      * done.
    + split; [by eapply channels_wf_same, with_binding_wf|].
      destruct Hs as (_ & _ & -> & _). simpl. lia.
  - assert (same_channels t (final (turn_handle txn_supply factory_supply i) t)) as Hs
      by (apply keeps_handle; [apply _|apply watches_channels|done]).
    split; [by eapply channels_wf_same|]. destruct Hs as (_ & _ & -> & _). lia.
Qed.

Lemma turn_run_channels ins t :
  channels_wf t → t_next_channel t + Z.of_nat (length (filter is_bind ins)) ≤ 0xFFFF →
  channels_wf (final (turn_run txn_supply factory_supply ins) t).
Proof.
  revert t. induction ins as [|i ins IH]; intros t Hwf Hn; [done|].
  unfold turn_run. rewrite final_for_each_cons.
  assert (Z.of_nat (length (filter is_bind (i :: ins)))
          = (if is_bind i then 1 else 0) + Z.of_nat (length (filter is_bind ins))) as Hc.
  { rewrite filter_cons. destruct (is_bind i); simpl length; lia. }
  destruct (turn_handle_channels i t) as [Hwf' Hn']; [done|lia|].
  apply IH; [done|]. lia.
Qed.

(** C20 (channel bookkeeping): after any sequence of API calls, inbound messages
    and timer expiries on a fresh client with fewer than 49152 [bind_channel]
    calls in it, the two channel tables are inverse to each other, every bound
    channel is in the range 0x4000-0x7FFF a server accepts, and every bound peer's
    address has a permission. *)
Theorem turn_channels_inverse carrier cid cfg cb ins :
  Z.of_nat (length (filter is_bind ins)) < 49152 →
  channels_wf (final (turn_run txn_supply factory_supply ins) (new_turn carrier cid cfg cb)).
Proof.
  intros Hn. apply turn_run_channels; [apply channels_wf_new|]. simpl. lia.
Qed.

(** Refresh failures never show: no sequence of API calls, inbound messages
    (error responses to REFRESH included) and timer expiries makes a client
    report a failed refresh; [is_healthy] is just [is_allocated]. *)
Theorem turn_health_is_allocation carrier cid cfg cb ins :
  let t := final (turn_run txn_supply factory_supply ins) (new_turn carrier cid cfg cb) in
  is_healthy t = t_allocated t.
Proof.
  intros t. assert (t_refresh_healthy t = true) as Hh.
  { subst t. generalize (eq_refl : t_refresh_healthy (new_turn carrier cid cfg cb) = true).
    generalize (new_turn carrier cid cfg cb). induction ins as [|i ins IH]; intros t Ht; [done|].
    unfold turn_run. rewrite final_for_each_cons. apply IH. rewrite <- Ht. destruct (is_bind i) eqn:Hb.
    - destruct i; try done. cbn [turn_handle].
      unfold bind_channel. refine ((_ : keeps same_health _) t).
      keeps_auto ltac:(intros; reflexivity);
        first [apply keeps_txn, watches_health; apply _|apply keeps_send_to_server; apply _].
    - apply keeps_handle; [apply _|apply watches_health|done]. }
  unfold is_healthy. by rewrite Hh, andb_true_r.
Qed.
End channels.

Definition example_turn_cfg : TurnConfig :=
  mkTurnConfig (str "turn.example") 3478 (str "user") (str "pass") false false REQUESTED_TRANSPORT_UDP.

Module TurnRef.
#[local] Instance md5 : Md5 := λ d, replicate 16 (u8 (foldr Z.add 0 d)).
Definition txn (n : nat) : bytes := replicate 12 (u8 (Z.of_nat n)).
Definition cids (n : nat) : Z := Z.of_nat n + 100.
End TurnRef.

Lemma turn_channels_inverse_witness :
  channels_wf (final (turn_run (H := InetRef.ops) (H0 := HmacRef.ops) (H1 := TurnRef.md5)
                        TurnRef.txn TurnRef.cids
                        [IAllocate; IBindChannel (str "192.0.2.7") 4000;
                         IBindChannel (str "192.0.2.8") 4000; ISend (str "192.0.2.7") 4000 [1; 2]])
                 (new_turn true 5 example_turn_cfg true)).
Proof.
  apply (turn_channels_inverse (H := InetRef.ops) (H0 := HmacRef.ops) (H1 := TurnRef.md5)
    TurnRef.txn TurnRef.cids true 5 example_turn_cfg true
    [IAllocate; IBindChannel (str "192.0.2.7") 4000;
     IBindChannel (str "192.0.2.8") 4000; ISend (str "192.0.2.7") 4000 [1; 2]]).
  reflexivity.
Defined.

(** * Stream transports *)

(** The computation neither reads nor writes the reassembly buffer. *)
Definition rx_indep {A} (m : turn A) : Prop :=
  ∀ t r, run m (t <| t_rx_buffer := r |>)
         = let '(a, t', o) := run m t in (a, t' <| t_rx_buffer := r |>, o).

Lemma rx_indep_bind {A B} (m : turn A) (f : A → turn B) :
  rx_indep m → (∀ a, rx_indep (f a)) → rx_indep (m ≫= f).
Proof.
  intros Hm Hf t r. rewrite !run_bind, Hm. destruct (run m t) as [[a t1] o1].
  rewrite Hf. by destruct (run (f a) t1) as [[b t2] o2].
Qed.
Lemma rx_indep_get {B} (f : TurnClient → turn B) :
  (∀ t r, f (t <| t_rx_buffer := r |>) = f t) → (∀ t, rx_indep (f t)) → rx_indep (get ≫= f).
Proof. intros He Hf t r. rewrite !run_get, He. apply Hf. Qed.
Lemma rx_indep_ret {A} (a : A) : rx_indep (mret a).
Proof. done. Qed.
Lemma rx_indep_skip : rx_indep skip.
Proof. done. Qed.
Lemma rx_indep_emit e : rx_indep (emit e).
Proof. done. Qed.
Lemma rx_indep_modify f :
  (∀ t r, f (t <| t_rx_buffer := r |>) = (f t) <| t_rx_buffer := r |>) → rx_indep (modify f).
Proof. intros Hf t r. cbn [run modify]. by rewrite Hf. Qed.

Ltac rx_auto :=
  repeat first
    [ progress intros
    | apply rx_indep_get; [reflexivity|]
    | apply rx_indep_bind
    | apply rx_indep_ret | apply rx_indep_skip | apply rx_indep_emit
    | apply rx_indep_modify; reflexivity
    | solve [auto with ice]
    | case_match ].

Section streams.
Context `{InetOps} `{Hmac} `{Md5}.
Variable txn_supply : nat → bytes.
Variable factory_supply : nat → Z.

Lemma rx_txn : rx_indep (generate_txn_id txn_supply).
Proof. unfold generate_txn_id. rx_auto. Qed.
Lemma rx_send d : rx_indep (send_to_server d).
Proof. unfold send_to_server. rx_auto. Qed.
Hint Resolve rx_txn rx_send : ice.
Lemma rx_open id ip port : rx_indep (open_data_connection txn_supply factory_supply id ip port).
Proof.
  unfold open_data_connection, data_carrier_factory, send_framed_on_data_cid. rx_auto.
Qed.
Hint Resolve rx_open : ice.
Lemma rx_dispatch d : rx_indep (dispatch_inbound_message txn_supply factory_supply d).
Proof.
  unfold dispatch_inbound_message, handle_channel_data, retry_allocate, compute_auth_key,
    handle_allocate_response, schedule_refresh, handle_data_indication,
    handle_connection_attempt, handle_connect_response.
  rx_auto.
Qed.

Abbreviation dispatch := (dispatch_inbound_message txn_supply factory_supply).

Lemma rx_for_each fs : rx_indep (for_each dispatch fs).
Proof.
  induction fs as [|f fs IH]; [apply rx_indep_skip|].
  apply rx_indep_bind; [apply rx_dispatch|intros; exact IH].
Qed.

(** The drain loop dispatches the frames the buffer holds and keeps the tail. *)
Lemma drain_inbound_spec fuel t buf :
  (length buf ≤ fuel)%nat →
  run (drain_inbound txn_supply factory_supply fuel) (t <| t_rx_buffer := buf |>)
  = let '(fs, rest) := drain buf in
    let '(_, t', o) := run (for_each dispatch fs) t in (tt, t' <| t_rx_buffer := rest |>, o).
Proof.
  revert t buf. induction fuel as [|fuel IH]; intros t buf Hf.
  { destruct buf; [|simpl in *; lia]. done. }
  cbn [drain_inbound]. rewrite run_get, drain_step.
  change (t_rx_buffer (t <| t_rx_buffer := buf |>)) with buf.
  destruct (try_take_stream_frame buf) as [[frame rest]|] eqn:E; [|done].
  apply take_frame_inv in E as (b0 & b1 & -> & _). simpl in Hf. rewrite length_app in Hf.
  rewrite run_modify, run_bind. cbn beta.
  change (_ <| t_rx_buffer := rest |>) with (t <| t_rx_buffer := rest |>).
  rewrite rx_dispatch. destruct (drain rest) as [fs r] eqn:Ed. cbn [for_each].
  rewrite run_bind. destruct (run (dispatch frame) t) as [[[] t1] o1].
  rewrite IH, Ed by lia. by destruct (run (for_each dispatch fs) t1) as [[[] t2] o2].
Qed.

Definition streaming (t : TurnClient) : bool :=
  tc_tcp_transport (t_cfg t) || tc_tls_transport (t_cfg t).

Definition same_cfg (t t' : TurnClient) : Prop := t_cfg t' = t_cfg t.

#[local] Instance same_cfg_preorder : PreOrder same_cfg.
Proof. split; unfold same_cfg; [by intros ?|]. intros ???; congruence. Qed.

Lemma dispatch_cfg fs t : t_cfg (final (for_each dispatch fs) t) = t_cfg t.
Proof.
  refine ((_ : keeps same_cfg _) t). apply keeps_for_each; [apply _|]. intros.
  apply keeps_dispatch; [apply _|by split].
Qed.

Lemma on_inbound_stream t buf data :
  streaming t = true →
  run (on_inbound txn_supply factory_supply data) (t <| t_rx_buffer := buf |>)
  = let '(fs, rest) := drain (buf ++ data) in
    let '(_, t', o) := run (for_each dispatch fs) t in (tt, t' <| t_rx_buffer := rest |>, o).
Proof.
  intros Hs. unfold on_inbound. rewrite run_get. unfold streaming in Hs.
  change (t_cfg (t <| t_rx_buffer := buf |>)) with (t_cfg t). rewrite Hs, run_modify.
  change (t_rx_buffer (t <| t_rx_buffer := buf |>)) with buf.
  change (_ <| t_rx_buffer := buf ++ data |>) with (t <| t_rx_buffer := buf ++ data |>).
  by apply drain_inbound_spec.
Qed.

Lemma on_inbound_chunks chunks t buf :
  streaming t = true →
  run (for_each (on_inbound txn_supply factory_supply) chunks) (t <| t_rx_buffer := buf |>)
  = let '(fs, rest) := feed buf chunks in
    let '(_, t', o) := run (for_each dispatch fs) t in (tt, t' <| t_rx_buffer := rest |>, o).
Proof.
  revert t buf. induction chunks as [|c cs IH]; intros t buf Hs; [done|].
  cbn [for_each feed]. rewrite run_bind, on_inbound_stream by done.
  destruct (drain (buf ++ c)) as [fs r] eqn:Ed.
  pose proof (dispatch_cfg fs t) as Hc. unfold final, exec in Hc.
  destruct (feed r cs) as [fs' r'] eqn:Ef. rewrite for_each_app, run_bind.
  destruct (run (for_each dispatch fs) t) as [[[] t1] o1].
  rewrite IH, Ef by (unfold streaming in *; simpl in Hc; by rewrite Hc).
  by destruct (run (for_each dispatch fs') t1) as [[[] t2] o2].
Qed.

(** C19 (a stream transport delivers messages): on a TCP or TLS control connection
    with an empty buffer, feeding the client any chunking of the server's byte
    stream has exactly the state changes and outputs of dispatching the server's
    messages one by one. *)
Theorem turn_stream_transparent t ms chunks :
  streaming t = true → t_rx_buffer t = [] →
  Forall (λ m, Z.of_nat (length m) ≤ 0xFFFF) ms → concat chunks = frames ms →
  exec (for_each (on_inbound txn_supply factory_supply) chunks) t
  = exec (for_each (dispatch_inbound_message txn_supply factory_supply) ms) t.
Proof.
  intros Hs Hrx Hms Hc.
  assert (t = t <| t_rx_buffer := [] |>) as Ht by (rewrite <- Hrx; by destruct t).
  assert (feed [] chunks = (ms, [])) as Hfeed.
  { rewrite feed_concat, app_nil_l, Hc by done. unfold frames. rewrite frames_app by done.
    rewrite app_nil_l, <- (app_nil_r (mbind _ _)). by apply drain_frames. }
  unfold exec. rewrite Ht at 1. rewrite on_inbound_chunks, Hfeed by done.
  pose proof (rx_for_each ms t []) as Hx. rewrite <- Ht in Hx.
  destruct (run (for_each dispatch ms) t) as [[[] t'] o]. congruence.
Qed.
End streams.

Lemma turn_stream_transparent_witness :
  let cfg := mkTurnConfig (str "s") 3478 (str "u") (str "p") true false REQUESTED_TRANSPORT_UDP in
  exec (for_each (on_inbound (H := InetRef.ops) (H0 := HmacRef.ops) (H1 := TurnRef.md5)
          TurnRef.txn TurnRef.cids) [[0; 5; 1]; [2; 3; 4; 5; 0]; [0]]) (new_turn true 5 cfg true)
  = exec (for_each (dispatch_inbound_message (H := InetRef.ops) (H0 := HmacRef.ops)
          (H1 := TurnRef.md5) TurnRef.txn TurnRef.cids) [[1; 2; 3; 4; 5]; []])
      (new_turn true 5 cfg true).
Proof.
  intros cfg.
  apply (turn_stream_transparent (H := InetRef.ops) (H0 := HmacRef.ops) (H1 := TurnRef.md5)
    TurnRef.txn TurnRef.cids); [reflexivity|reflexivity| |reflexivity].
  repeat constructor; by compute.
Defined.

(** * Relayed data *)

(** The fields that decide how messages reach the server. *)
Definition same_wire (t t' : TurnClient) : Prop :=
  t_carrier t' = t_carrier t ∧ t_server_cid t' = t_server_cid t ∧ t_cfg t' = t_cfg t.

#[global] Instance same_wire_preorder : PreOrder same_wire.
Proof. split; unfold same_wire; [by intros ?|]. intros ??? (?&?&?) (?&?&?). naive_solver congruence. Qed.

Section relay.
Context `{InetOps} `{Hmac} `{Md5}.
Variable txn_supply : nat → bytes.
Variable factory_supply : nat → Z.

Lemma bind_channel_wire ip port : keeps same_wire (bind_channel txn_supply ip port).
Proof.
  unfold bind_channel.
  keeps_auto ltac:(intros; by repeat split);
    first [apply keeps_txn; [apply _|by split] | apply keeps_send_to_server; apply _].
Qed.

Lemma send_to_server_udp t d :
  t_carrier t = true → t_server_cid t ≠ 0 → streaming t = false →
  outputs (send_to_server d) t = [TSend (t_server_cid t) d].
Proof.
  intros Hc Hs Hu. unfold send_to_server. rewrite outputs_get, Hc.
  rewrite bool_decide_false by done. unfold streaming in Hu. by rewrite Hu.
Qed.

(** A bound channel carries data both ways: on a UDP allocation over a UDP
    control connection, once [bind_channel] has bound a new peer, what
    [send_indication] puts on the wire for it is one ChannelData frame with at
    most seven bytes of overhead, and that same frame arriving from the server is
    handed to the data callback as that peer's unchanged payload. *)
Theorem turn_channel_echo t ip port payload :
  channels_wf t → t_next_channel t ≤ TURN_CHANNEL_NUMBER_MAX →
  t_peer_to_channel t !! endpoint_text ip port = None →
  t_carrier t = true → t_server_cid t ≠ 0 → streaming t = false →
  tc_requested_transport (t_cfg t) ≠ REQUESTED_TRANSPORT_TCP →
  is_u16 (Z.of_nat (length payload)) →
  let t1 := final (bind_channel txn_supply ip port) t in
  ∃ frame,
    outputs (send_indication txn_supply ip port payload) t1 = [TSend (t_server_cid t) frame]
    ∧ outputs (on_inbound txn_supply factory_supply frame) t1 = [TData ip port payload]
    ∧ (length frame ≤ length payload + 7)%nat.
Proof.
  intros Hwf Hmax Hnew Hc Hs Hu Htcp Hp t1.
  destruct (bind_channel_wire ip port t) as (Ec & Es & Ecfg). fold t1 in Ec, Es, Ecfg.
  assert (streaming t1 = false) as Hu1 by (unfold streaming in *; by rewrite Ecfg).
  assert (same_channels (with_binding ip port t) t1) as (Hp2c & Hc2p & _ & _).
  { destruct (final_bind_channel txn_supply ip port t) as [[_ [?|[? ?]]]|[[_ ?]|(? & _)]];
      [congruence|congruence|lia|done]. }
  set (ch := t_next_channel t) in *.
  pose proof (ch_next t Hwf) as Hr. fold ch in Hr.
  unfold TURN_CHANNEL_NUMBER_MIN, TURN_CHANNEL_NUMBER_MAX in *.
  assert (t_peer_to_channel t1 !! endpoint_text ip port = Some ch) as Hfwd.
  { rewrite Hp2c. unfold with_binding. simpl. by rewrite lookup_insert_eq. }
  assert (t_channel_to_peer t1 !! ch = Some (ip, port)) as Hrev.
  { rewrite Hc2p. unfold with_binding. simpl. by rewrite lookup_insert_eq. }
  exists (encode_channel_data ch payload). split; [|split].
  - unfold send_indication. rewrite outputs_get, Hfwd. simpl default.
    rewrite decide_True by lia. by rewrite send_to_server_udp, Es by congruence.
  - destruct (channel_frame_parse ch payload) as [E1 E2]; [done|lia|].
    unfold on_inbound. rewrite outputs_get. unfold streaming in Hu1. rewrite Hu1.
    unfold dispatch_inbound_message, looks_like_channel_data. rewrite E1. simpl default.
    unfold handle_channel_data, parsed_channel_data. rewrite E2.
    change (default None (Some (Some ?x))) with (Some x). cbv iota.
    rewrite outputs_get. simpl cd_channel. by rewrite Hrev.
  - rewrite channel_header, !length_app, !length_write16, length_replicate. dm_lia.
Qed.
End relay.

Lemma turn_channel_echo_witness :
  let t := new_turn true 5 example_turn_cfg true in
  let t1 := final (bind_channel (H := InetRef.ops) (H0 := HmacRef.ops) TurnRef.txn
                     (str "192.0.2.7") 4000) t in
  ∃ frame, outputs (send_indication (H := InetRef.ops) TurnRef.txn (str "192.0.2.7") 4000
                      [1; 2; 3]) t1 = [TSend 5 frame].
Proof.
  intros t t1.
  destruct (turn_channel_echo (H := InetRef.ops) (H0 := HmacRef.ops) (H1 := TurnRef.md5)
    TurnRef.txn TurnRef.cids t (str "192.0.2.7") 4000 [1; 2; 3]) as (frame & E & _);
    [apply channels_wf_new|by compute|reflexivity|reflexivity|discriminate|reflexivity
    |discriminate|by compute|].
  exists frame. exact E.
Defined.

(** * Authenticated requests *)

Section credentials.
Context `{InetOps} `{HmacLaws} `{Md5}.

(** The attributes [add_credentials] appends to a builder. *)
Definition credential_tlvs (t : TurnClient) : list (Z * bytes) :=
  [(STUN_ATTR_USERNAME, tc_username (t_cfg t)); (TURN_ATTR_REALM, t_realm t);
   (TURN_ATTR_NONCE, t_nonce t)].

(** Credentials that fit a STUN message together with [n] bytes of attributes. *)
Definition credentials_fit (t : TurnClient) (n : nat) : Prop :=
  is_u16 (Z.of_nat (n + length (encode_tlvs (credential_tlvs t)) + 32)).

Lemma credential_tlvs_ok t n : credentials_fit t n → Forall tlv_ok (credential_tlvs t).
Proof.
  unfold credentials_fit, credential_tlvs, encode_tlvs. intros Hf.
  rewrite !bind_cons, !length_app, !length_encode_tlv in Hf. cbn [snd] in Hf.
  pose proof (align4_ge (4 + length (tc_username (t_cfg t)))).
  pose proof (align4_ge (4 + length (t_realm t))).
  pose proof (align4_ge (4 + length (t_nonce t))).
  apply Forall_cons_2; [split; [by compute|]|apply Forall_cons_2; [split; [by compute|]|
    apply Forall_cons_2; [split; [by compute|]|apply Forall_nil_2]]];
    cbn [snd]; unfold_ints; lia.
Qed.

Lemma credentials_verify t b l :
  represents b l → length (txn_id_ b) = 12%nat → Forall tlv_ok l → Forall not_integrity l →
  is_u16 (msg_type_ b) → credentials_fit t (length (attrs_ b)) →
  let raw := build (add_credentials t b) in
  verify_integrity raw (t_auth_key t) = Some true
  ∧ ∃ m, parse_stun raw = Some (Some m) ∧ msg_type m = msg_type_ b
      ∧ username m = Some (tc_username (t_cfg t)) ∧ realm m = Some (t_realm t)
      ∧ nonce m = Some (t_nonce t)
      ∧ lifetime m = lifetime (apply_tlvs l (empty_message (msg_type_ b) (txn_id_ b))).
Proof.
  intros Hr Ht Hl Hn Hty Hfit. unfold add_credentials.
  set (b1 := add_nonce _ _).
  set (l1 := l ++ credential_tlvs t).
  assert (represents b1 l1) as Hr1.
  { unfold l1, credential_tlvs. rewrite (cons_middle _ l), app_assoc.
    rewrite (cons_middle _ (l ++ _)), (app_assoc (l ++ _)).
    by repeat apply represents_add_attr. }
  set (v := hmac_sha1 (t_auth_key t) (message b1 24)).
  assert (length v = 20%nat) as Hv by apply hmac_length.
  set (fp := write32 (Z.lxor (stun_crc32 (message (add_integrity (t_auth_key t) b1) 8)) 0x5354554E)).
  set (l2 := [(STUN_ATTR_FINGERPRINT, fp)]).
  set (b2 := add_fingerprint (add_integrity (t_auth_key t) b1)).
  assert (represents b2 (l1 ++ (STUN_ATTR_MESSAGE_INTEGRITY, v) :: l2)) as Hr2.
  { rewrite cons_middle, app_assoc.
    exact (represents_add_attr (add_integrity (t_auth_key t) b1) _ STUN_ATTR_FINGERPRINT fp
             (represents_add_attr b1 l1 STUN_ATTR_MESSAGE_INTEGRITY v Hr1)). }
  assert (Forall tlv_ok l1) as Hl1 by (apply Forall_app; eauto using credential_tlvs_ok).
  assert (Forall not_integrity l1) as Hn1.
  { apply Forall_app. split; [done|]. by repeat constructor. }
  assert (is_u16 (Z.of_nat (length (attrs_ b2)))) as Hlen.
  { rewrite Hr2. unfold l1, l2, encode_tlvs in *. rewrite !bind_app, bind_cons, !length_app.
    rewrite length_encode_tlv. cbn [snd]. rewrite Hv.
    unfold credentials_fit in Hfit. rewrite Hr in Hfit. unfold encode_tlvs in Hfit.
    change (align4 (4 + 20)) with 24%nat. rewrite bind_singleton, length_encode_tlv. cbn [snd].
    unfold fp. rewrite length_write32. change (align4 (4 + 4)) with 8%nat.
    exact Hfit. }
  split.
  - rewrite (verify_integrity_spec b2 l1 v l2) by done.
    rewrite bool_decide_true; [done|]. subst v. f_equal. unfold message. simpl.
    by rewrite <- Hr1.
  - rewrite <- (app_nil_r (build b2)), (parse_message b2 _ [] Hr2); try done.
    + eexists; split; [done|]. unfold apply_tlvs, l1. rewrite !foldl_app.
      set (m0 := foldl _ _ l).
      assert (msg_type m0 = msg_type_ b) as E0.
      { subst m0. change (msg_type_ b) with (msg_type (empty_message (msg_type_ b2) (txn_id_ b2))).
        generalize (empty_message (msg_type_ b2) (txn_id_ b2)). clear.
        induction l as [|a l IH]; intros m; [done|]. simpl. rewrite IH. apply attr_effect_txn. }
      by rewrite <- E0.
    + apply Forall_app; split; [done|].
      apply Forall_cons_2; [split; cbn [fst snd]; rewrite ?Hv; by compute|].
      apply Forall_cons_2; [|apply Forall_nil_2].
      split; cbn [fst snd]; [by compute|]. unfold fp. rewrite length_write32. by compute.
Qed.

Lemma credentials_length t b l : represents b l → length (txn_id_ b) = 12%nat →
  length (build (add_credentials t b))
  = (length (attrs_ b) + length (encode_tlvs (credential_tlvs t)) + 52)%nat.
Proof.
  intros Hr Ht. unfold build. rewrite length_message by done. unfold add_credentials. set (b1 := add_nonce _ _).
  assert (represents b1 (((l ++ [_]) ++ [_]) ++ [_])) as Hr1 by by repeat apply represents_add_attr.
  unfold add_fingerprint, add_integrity, add_attr_u32.
  assert (length (attrs_ b1) mod 4 = 0)%nat as Hm by (rewrite Hr1; apply encode_tlvs_mod).
  set (b2 := add_attr STUN_ATTR_MESSAGE_INTEGRITY _ b1).
  assert (length (attrs_ b2) = length (attrs_ b1) + 24)%nat as Hb2
    by (unfold b2; rewrite length_add_attr, hmac_length; done).
  rewrite length_add_attr, length_write32, Hb2, Hr1, Hr.
  2:{ rewrite Hb2, Nat.Div0.add_mod, Hm. done. }
  unfold credential_tlvs, encode_tlvs. rewrite !bind_app, !bind_cons, !length_app.
  change (align4 (4 + 4)) with 8%nat. cbn [length mbind list_bind]. simpl length. lia.
Qed.

Variable txn_supply : nat → bytes.
Variable factory_supply : nat → Z.
Hypothesis txn_length : ∀ n, length (txn_supply n) = 12%nat.

(** The client after adopting the challenge of an error response. *)
Definition challenged (msg : StunMessage) (t : TurnClient) : TurnClient :=
  let t := t <| t_realm := default (t_realm t) (realm msg) |>
             <| t_nonce := default (t_nonce t) (nonce msg) |> in
  t <| t_auth_key :=
    md5 (tc_username (t_cfg t) ++ str ":" ++ t_realm t ++ str ":" ++ tc_password (t_cfg t)) |>.

Definition drawn (t : TurnClient) : TurnClient := t <| t_txn_pos := S (t_txn_pos t) |>.

Lemma outputs_draw {B} (f : bytes → turn B) t :
  outputs (generate_txn_id txn_supply ≫= f) t = outputs (f (txn_supply (t_txn_pos t))) (drawn t).
Proof. rewrite outputs_bind. unfold generate_txn_id. rewrite outputs_get. done. Qed.

(** Answering an authentication challenge: when the server refuses an
    allocation with 401 or 438, the client adopts the offered realm and nonce and
    sends one Allocate request carrying its username, that realm and that nonce,
    whose MESSAGE-INTEGRITY verifies under MD5(username:realm:password). *)
Theorem turn_auth_retry t err msg :
  parsed_stun err = Some msg → looks_like_channel_data err = false →
  msg_type msg = TURN_ALLOCATE_ERROR →
  error_code msg = Some 401 ∨ error_code msg = Some 438 →
  t_carrier t = true → t_server_cid t ≠ 0 → streaming t = false →
  credentials_fit (challenged msg t) 8 →
  let t' := challenged msg t in
  ∃ raw m,
    outputs (dispatch_inbound_message txn_supply factory_supply err) t
      = [TSend (t_server_cid t) raw]
    ∧ verify_integrity raw (t_auth_key t') = Some true
    ∧ parse_stun raw = Some (Some m) ∧ msg_type m = TURN_ALLOCATE_REQUEST
    ∧ username m = Some (tc_username (t_cfg t))
    ∧ realm m = Some (default (t_realm t) (realm msg))
    ∧ nonce m = Some (default (t_nonce t) (nonce msg)).
Proof.
  intros Hp Hch Hty Herr Hc Hs Hu Hfit t'.
  set (rt := [tc_requested_transport (t_cfg t); 0; 0; 0]).
  set (b := add_requested_transport (tc_requested_transport (t_cfg t))
              (new_builder TURN_ALLOCATE_REQUEST (txn_supply (t_txn_pos t)))).
  assert (represents b [(TURN_ATTR_REQUESTED_TRANSPORT, rt)]) as Hr
    by exact (represents_add_attr _ [] TURN_ATTR_REQUESTED_TRANSPORT rt (represents_new _ _)).
  destruct (credentials_verify t' b [(TURN_ATTR_REQUESTED_TRANSPORT, rt)])
    as (Hv & m & Hpm & Hmt & Hmu & Hmr & Hmn & _).
  - done.
  - apply txn_length.
  - apply Forall_cons_2; [by compute|apply Forall_nil_2].
  - apply Forall_cons_2; [by compute|apply Forall_nil_2].
  - by compute.
  - rewrite Hr. exact Hfit.
  - exists (build (add_credentials t' b)), m. split; [|done].
    unfold dispatch_inbound_message. rewrite Hch, Hp, Hty, decide_True by done.
    replace (_ || _) with true
      by (destruct Herr as [-> | ->]; [by rewrite bool_decide_true|by rewrite orb_comm]).
    unfold retry_allocate, compute_auth_key. rewrite outputs_modify, outputs_modify, outputs_draw.
    rewrite outputs_get.
    change (add_credentials (drawn _) _) with (add_credentials t' b).
    by rewrite send_to_server_udp.
Qed.

(** A message as it goes to the server: framed on a stream. *)
Definition on_wire (t : TurnClient) (msg : bytes) : bytes :=
  if streaming t then (encode_stream_frame msg []).2 else msg.
Definition reachable (t : TurnClient) : Prop :=
  t_carrier t = true ∧ t_server_cid t ≠ 0.

Lemma send_to_server_wire t d : reachable t → Z.of_nat (length d) ≤ 0xFFFF →
  exec (send_to_server d) t = (t, [TSend (t_server_cid t) (on_wire t d)]).
Proof.
  intros [Hc Hs] Hl. unfold send_to_server, on_wire, streaming, exec. rewrite run_get, Hc.
  rewrite bool_decide_false by done. cbn [negb orb]. rewrite (frame_header d []) by done.
  by destruct (_ || _).
Qed.

(** [raw] gives up an allocation of the client: a Refresh request with a lifetime of
    zero, under the client's credentials. *)
Definition gives_up (t : TurnClient) (raw : bytes) : Prop :=
  verify_integrity raw (t_auth_key t) = Some true
  ∧ ∃ m, parse_stun raw = Some (Some m) ∧ msg_type m = TURN_REFRESH_REQUEST ∧ lifetime m = Some 0
      ∧ username m = Some (tc_username (t_cfg t)) ∧ realm m = Some (t_realm t) ∧ nonce m = Some (t_nonce t).

Lemma close_gives_up t : reachable t → credentials_fit t 28 → t_allocated t = true →
  ∃ raw, exec (close txn_supply) t
    = (drawn t <| t_allocated := false |>, [TTimerCancel; TSend (t_server_cid t) (on_wire t raw)])
  ∧ gives_up t raw.
Proof.
  intros Hw Hfit Ha. set (b := add_lifetime 0 (new_builder TURN_REFRESH_REQUEST (txn_supply (t_txn_pos t)))).
  assert (represents b [(TURN_ATTR_LIFETIME, write32 0)]) as Hr
    by exact (represents_add_attr _ [] TURN_ATTR_LIFETIME (write32 0) (represents_new _ _)).
  assert (length (attrs_ b) = 8%nat) as Hlen by by rewrite Hr.
  destruct (credentials_verify t b [(TURN_ATTR_LIFETIME, write32 0)])
    as (Hv & m & Hpm & Hmt & Hmu & Hmr & Hmn & Hml);
    [done|apply txn_length|by repeat constructor|by repeat constructor|by compute| |].
  { rewrite Hlen. unfold credentials_fit in *. unfold_ints. lia. }
  exists (build (add_credentials t b)). split; [|by split; [|exists m]].
  assert (Z.of_nat (length (build (add_credentials t b))) ≤ 0xFFFF) as Hl.
  { rewrite (credentials_length t b _ Hr), Hlen by apply txn_length. unfold credentials_fit in Hfit.
    unfold_ints. lia. }
  pose proof (send_to_server_wire (drawn t) (build (add_credentials t b)) Hw Hl) as Hx. revert Hx.
  unfold close, generate_txn_id, exec. rewrite run_bind. cbn [run emit]. rewrite run_get, Ha. cbn [negb].
  rewrite run_bind, run_get, run_modify. cbn [run mret eff_ret]. cbv beta iota. subst b.
  fold (drawn t). generalize (build (add_credentials t
    (add_lifetime 0 (new_builder TURN_REFRESH_REQUEST (txn_supply (t_txn_pos t)))))).
  intros raw. rewrite run_bind. destruct (run (send_to_server raw) (drawn t)) as [[[] t'] es].
  by intros [= -> ->].
Qed.
End credentials.

(** * Channel numbers wrap *)

Section wrap.
Context `{InetOps} `{Hmac} `{Md5}.
Variable txn_supply : nat → bytes.

(** Binding one peer address on the ports [0 .. n-1]. *)
Fixpoint bind_ports (ip : bytes) (n : nat) (t : TurnClient) : TurnClient :=
  match n with
  | O => t
  | S n => final (bind_channel txn_supply ip (Z.of_nat n)) (bind_ports ip n t)
  end.

Lemma bind_ports_next ip n t :
  tc_requested_transport (t_cfg t) ≠ REQUESTED_TRANSPORT_TCP → t_peer_to_channel t = ∅ →
  is_u16 (t_next_channel t) →
  let t' := bind_ports ip n t in
  t_next_channel t' = u16 (t_next_channel t + Z.of_nat n) ∧ t_cfg t' = t_cfg t
  ∧ (∀ k, (n ≤ k)%nat → t_peer_to_channel t' !! endpoint_text ip (Z.of_nat k) = None).
Proof.
  intros Htcp Hemp Hu. induction n as [|n IH]; cbn [bind_ports]; cbv zeta in *.
  - rewrite Z.add_0_r, u16_id by done. rewrite Hemp. split; [done|]. split; [done|].
    intros. apply lookup_empty.
  - destruct IH as (En & Ec & Hnone). set (t1 := bind_ports ip n t) in *.
    destruct (bind_channel_wire txn_supply ip (Z.of_nat n) t1) as (_ & _ & Ecfg).
    assert (u16 (t_next_channel t1 + 1) = u16 (t_next_channel t + Z.of_nat (S n))) as Hn1.
    { rewrite En. unfold u16. rewrite Z.add_mod_idemp_l by lia. f_equal. lia. }
    destruct (final_bind_channel txn_supply ip (Z.of_nat n) t1)
      as [[_ [E|[? E]]]|[[Hs ?]|(Hs & _ & _)]].
    + congruence.
    + rewrite Hnone in E by lia. done.
    + destruct Hs as (Hp & _ & -> & _). simpl. split; [done|]. split; [congruence|].
      intros k Hk. rewrite Hp. simpl. apply Hnone. lia.
    + destruct Hs as (Hp & _ & -> & _). simpl. split; [done|]. split; [congruence|].
      intros k Hk. rewrite Hp. unfold with_binding. simpl. rewrite lookup_insert_ne; [apply Hnone; lia|].
      intros E. apply endpoint_text_inj in E as [_ E]; lia.
Qed.

(** Channel numbers wrap below the TURN range: after [bind_channel] for 49153
    distinct endpoints the 16-bit counter has wrapped, and the next endpoint is
    bound to channel 1, outside 0x4000-0x7FFF, which servers and [parse_channel_data]
    reject. *)
Theorem bind_channel_wraps ip carrier cid cb :
  let t := bind_ports ip (Z.to_nat 49153) (new_turn carrier cid example_turn_cfg cb) in
  t_peer_to_channel (final (bind_channel txn_supply ip 49153) t) !! endpoint_text ip 49153 = Some 1
  ∧ 1 < TURN_CHANNEL_NUMBER_MIN.
Proof.
  intros t. split; [|by compute].
  destruct (bind_ports_next ip (Z.to_nat 49153) (new_turn carrier cid example_turn_cfg cb))
    as (En & Ec & Hnone); [done|done|by compute|]. fold t in En, Ec, Hnone.
  rewrite Z2Nat.id in En by lia. change (u16 (_ + 49153)) with 1 in En.
  specialize (Hnone (Z.to_nat 49153)). rewrite Z2Nat.id in Hnone by lia.
  destruct (final_bind_channel txn_supply ip 49153 t) as [[_ [E|[? E]]]|[[_ Hgt]|(Hs & _ & _)]].
  - rewrite Ec in E. clear -E. discriminate E.
  - rewrite Hnone in E by lia. discriminate E.
  - rewrite En in Hgt. clear -Hgt. discriminate Hgt.
  - destruct Hs as (-> & _). unfold with_binding. cbn [set_field t_peer_to_channel].
    rewrite lookup_insert_eq, En. reflexivity.
Qed.
End wrap.

(** * Data connections *)

Section data_connections.
Context `{InetOps}.

(** Bytes behind the bind response are lost: when the first peer bytes arrive
    in the same chunk as the ConnectionBind response and do not happen to form a
    length-prefixed frame, the connection becomes bound but those bytes are
    neither delivered nor kept. *)
Theorem bind_response_tail_lost t cid pb resp msg raw :
  t_bound_peers t !! cid = None → t_pending_binds t !! cid = Some pb →
  t_data_conn_rx_buffers t !! cid = None → t_data_conn_cb t = true →
  Z.of_nat (length resp) ≤ 0xFFFF → parsed_stun resp = Some msg →
  msg_type msg = TURN_CONNECTION_BIND_RESPONSE →
  try_take_stream_frame raw = None →
  let chunk := write16 (Z.of_nat (length resp)) ++ resp ++ raw in
  let t' := final (on_data_connection_inbound cid chunk) t in
  outputs (on_data_connection_inbound cid chunk) t
    = [TDataConn (pb_connection_id pb) cid (pb_peer_ip pb) (pb_peer_port pb)]
  ∧ t_bound_peers t' !! cid = Some (pb_peer_ip pb, pb_peer_port pb)
  ∧ t_data_conn_rx_buffers t' !! cid = None.
Proof.
  intros Hb Hpend Hbuf Hcb Hlen Hparse Hty Hraw chunk.
  assert (drain ([] ++ chunk) = ([resp], raw)) as Hd.
  { rewrite app_nil_l, drain_step. unfold chunk. rewrite take_frame by done.
    rewrite drain_step. by rewrite Hraw. }
  set (t0 := t <| t_data_conn_rx_buffers := delete cid (t_data_conn_rx_buffers t) |>).
  set (t1 := t0 <| t_pending_binds := delete cid (t_pending_binds t0) |>
    <| t_data_connections := <[pb_connection_id pb := cid]> (t_data_connections t0) |>
    <| t_bound_peers := <[cid := (pb_peer_ip pb, pb_peer_port pb)]> (t_bound_peers t0) |>
    <| t_data_conn_rx_buffers := delete cid (t_data_conn_rx_buffers t0) |>).
  assert (run (on_data_connection_inbound cid chunk) t
    = (tt, t1, [TDataConn (pb_connection_id pb) cid (pb_peer_ip pb) (pb_peer_port pb)])) as E.
  { unfold on_data_connection_inbound. rewrite run_get, Hb, run_modify, Hbuf. simpl default.
    rewrite Hd. cbn [for_each]. fold t0.
    rewrite run_bind, run_bind. unfold dispatch_data_conn_message at 1.
    rewrite Hparse, Hty, decide_True by done. rewrite run_get.
    change (t_pending_binds t0) with (t_pending_binds t). rewrite Hpend, run_modify.
    change (t_data_conn_cb t0) with (t_data_conn_cb t). rewrite Hcb.
    change (run (emit ?e) ?s) with (tt, s, [e]). cbv beta iota.
    change (run skip ?s) with (tt, s, @nil turn_event). cbv beta iota. fold t1.
    rewrite run_get.
    assert (t_bound_peers t1 !! cid = Some (pb_peer_ip pb, pb_peer_port pb)) as ->
      by (unfold t1; simpl; by rewrite lookup_insert_eq).
    by destruct (bool_decide (raw = [])). }
  unfold outputs, final, exec. rewrite E. simpl.
  rewrite lookup_insert_eq, lookup_delete_eq. done.
Qed.
End data_connections.

Definition example_bind_response : bytes :=
  build (new_builder TURN_CONNECTION_BIND_RESPONSE (replicate 12 2)).

Lemma bind_response_tail_lost_witness :
  let t := (new_turn true 5 example_turn_cfg true)
             <| t_data_conn_cb := true |>
             <| t_pending_binds := {[ 9 := mkPendingBind 77 (str "192.0.2.7") 4000 ]} |> in
  outputs (on_data_connection_inbound (H := InetRef.ops) 9
    (write16 20 ++ example_bind_response ++ [72; 105])) t
  = [TDataConn 77 9 (str "192.0.2.7") 4000].
Proof.
  intros t.
  apply (bind_response_tail_lost (H := InetRef.ops) t 9 (mkPendingBind 77 (str "192.0.2.7") 4000)
    example_bind_response (empty_message TURN_CONNECTION_BIND_RESPONSE (replicate 12 2)) [72; 105]);
    try reflexivity.
  by compute.
Defined.

(** The challenge a server answers the first, unauthenticated request with. *)
Definition example_challenge : bytes :=
  build (add_nonce (str "n0") (add_realm (str "example") (add_error_code 401 []
    (new_builder TURN_ALLOCATE_ERROR (replicate 12 1))))).

Definition example_challenge_msg : StunMessage :=
  (empty_message TURN_ALLOCATE_ERROR (replicate 12 1))
    <| error_code := Some 401 |> <| realm := Some (str "example") |> <| nonce := Some (str "n0") |>.

Lemma turn_auth_retry_witness :
  ∃ raw, outputs (dispatch_inbound_message (H := InetRef.ops) (H0 := HmacRef.ops)
                    (H1 := TurnRef.md5) TurnRef.txn TurnRef.cids example_challenge)
           (new_turn true 5 example_turn_cfg true) = [TSend 5 raw].
Proof.
  destruct (turn_auth_retry (H := InetRef.ops) (H0 := HmacRef.ops) (H1 := HmacRef.laws)
    (H2 := TurnRef.md5) TurnRef.txn TurnRef.cids (λ n, eq_refl)
    (new_turn true 5 example_turn_cfg true) example_challenge example_challenge_msg)
    as (raw & m & E & _);
    [vm_compute; reflexivity|vm_compute; reflexivity|reflexivity|left; reflexivity|reflexivity
    |discriminate|reflexivity|vm_compute; split; [discriminate|reflexivity]|].
  exists raw. exact E.
Defined.
