(* ===== verification/PathMtu.v ===== *)
(** Path MTU discovery (src/path_mtu.hpp, src/path_mtu.cpp, class [PathMtuProbe]):
    the RFC 8899 search over a ladder of candidate sizes, with bisection after a
    confirmed loss.  Sizes are [size_t]; the invariant shows that no subtraction
    of the search underflows. *)

From stdpp Require Import sorting.
From S2P Require Import Prelude.

Definition kProbeGranularity : Z := 8.
Definition kProbeLossThreshold : Z := 2.

Inductive PathMtuState := Base | Searching | SearchComplete | Error.

#[global] Instance PathMtuState_eq_dec : EqDecision PathMtuState.
Proof. solve_decision. Defined.

Record PathMtuProbe := mkProbe {
  base_ : Z;
  steps_ : list Z;
  ladder_idx_ : nat;
  low_ : Z;
  high_ : Z;
  current_ : Z;
  effective_ : Z;
  loss_count_ : Z;
  state_ : PathMtuState;
}.
#[global] Instance PathMtuProbe_eta : Eta PathMtuProbe := λ p,
  mkProbe (base_ p) (steps_ p) (ladder_idx_ p) (low_ p) (high_ p) (current_ p) (effective_ p)
    (loss_count_ p) (state_ p).

(** [std::unique]: drop elements equal to their predecessor. *)
Fixpoint unique (l : list Z) : list Z :=
  match l with
  | [] => []
  | x :: l' =>
      match unique l' with
      | [] => [x]
      | y :: r => if decide (x = y) then y :: r else x :: y :: r
      end
  end.

Definition ladder (base : Z) (steps : list Z) : list Z :=
  filter (λ v, ¬ (v ≤ 0 ∨ v ≤ base)) (unique (merge_sort Z.le steps)).

Definition new_probe (base : Z) (steps : list Z) : PathMtuProbe :=
  let steps := ladder base steps in
  let p := mkProbe base steps 0 0 0 0 base 0 Base in
  match steps with
  | [] => p <| state_ := SearchComplete |>
  | s0 :: _ => p <| state_ := Searching |> <| current_ := s0 |>
  end.

Definition next_probe_size (p : PathMtuProbe) : option Z :=
  if decide (state_ p = SearchComplete) then None else
  if decide (current_ p = 0) then None else Some (current_ p).

Definition complete (p : PathMtuProbe) : PathMtuProbe :=
  p <| state_ := SearchComplete |> <| current_ := 0 |>.

Definition on_probe_ack (p : PathMtuProbe) : PathMtuProbe :=
  if decide (state_ p = SearchComplete) then p else
  let p := p <| effective_ := current_ p |> <| loss_count_ := 0 |> in
  if decide (high_ p ≠ 0) then
    let p := p <| low_ := current_ p |> in
    if decide (high_ p - low_ p ≤ kProbeGranularity) then complete p else
    p <| current_ := (low_ p + high_ p) / 2 |> <| state_ := Searching |>
  else
    if decide (ladder_idx_ p + 1 ≥ length (steps_ p))%nat then complete p else
    let p := p <| ladder_idx_ := (ladder_idx_ p + 1)%nat |> in
    p <| current_ := default 0 (steps_ p !! ladder_idx_ p) |> <| state_ := Searching |>.

Definition on_probe_loss (p : PathMtuProbe) : PathMtuProbe :=
  if decide (state_ p = SearchComplete) then p else
  let p := p <| loss_count_ := u32 (loss_count_ p + 1) |> in
  if decide (loss_count_ p < kProbeLossThreshold) then p else
  let p := p <| loss_count_ := 0 |> <| state_ := Error |>
             <| high_ := current_ p |> <| low_ := effective_ p |> in
  if decide (high_ p - low_ p ≤ kProbeGranularity) then complete p else
  p <| current_ := (low_ p + high_ p) / 2 |> <| state_ := Searching |>.

Definition is_complete (p : PathMtuProbe) : bool := bool_decide (state_ p = SearchComplete).

(** * The ladder *)

Lemma unique_head x l : ∃ r, unique (x :: l) = x :: r.
Proof.
  simpl. destruct (unique l) as [|y r]; [eauto|]. case_decide; subst; eauto.
Qed.

Lemma unique_sorted l : StronglySorted Z.le l → StronglySorted Z.lt (unique l).
Proof.
  induction 1 as [|x l Hs IH Hx]; [constructor|]. simpl.
  destruct (unique l) as [|y r] eqn:E; [repeat constructor|].
  case_decide as Hxy; [done|].
  assert (x < y) as Hlt.
  { destruct l as [|z l]; [done|]. destruct (unique_head z l) as [r' E'].
    rewrite E in E'. simplify_eq. inv Hx. lia. }
  constructor; [done|]. inv IH. constructor; [done|].
  eapply Forall_impl; [eassumption|]. simpl. intros. lia.
Qed.

Lemma ladder_sorted base steps : StronglySorted Z.lt (ladder base steps).
Proof.
  unfold ladder. assert (StronglySorted Z.le (merge_sort Z.le steps)) as Hs
    by (apply StronglySorted_merge_sort; apply _).
  apply unique_sorted in Hs. revert Hs. generalize (unique (merge_sort Z.le steps)).
  induction l as [|x l IH]; intros Hs; [constructor|]. inv Hs. rewrite filter_cons.
  case_decide; [|by apply IH]. constructor; [by apply IH|].
  apply Forall_forall. intros y Hy. apply list_elem_of_filter in Hy as [_ Hy].
  rewrite Forall_forall in *. auto.
Qed.

Lemma unique_in v l : v ∈ unique l → v ∈ l.
Proof.
  induction l as [|x l IH]; [done|]. cbn. destruct (unique l) as [|y r].
  - intros ->%list_elem_of_singleton. apply elem_of_cons. by left.
  - case_decide; intros Hv; apply elem_of_cons; [by right; apply IH|].
    apply elem_of_cons in Hv as [->|Hv]; [by left|by right; apply IH].
Qed.
(** The rungs are among the configured steps. *)
Lemma ladder_in v base steps : v ∈ ladder base steps → v ∈ steps.
Proof.
  intros [_ Hv%unique_in]%list_elem_of_filter. by rewrite merge_sort_Permutation in Hv.
Qed.

Lemma ladder_above base steps : Forall (λ v, 0 < v ∧ base < v) (ladder base steps).
Proof.
  apply Forall_forall. intros v Hv. apply list_elem_of_filter in Hv as [Hv _]. lia.
Qed.

(** * Invariant *)

(** A search in progress: the size under probe lies strictly between the
    confirmed size and, once a size has failed, the failed one. *)
Record searching (p : PathMtuProbe) : Prop := {
  se_base : 0 ≤ base_ p ≤ effective_ p;
  se_steps : StronglySorted Z.lt (steps_ p) ∧ Forall (λ v, 0 < v ∧ base_ p < v) (steps_ p);
  se_idx : (ladder_idx_ p < length (steps_ p))%nat;
  se_loss : 0 ≤ loss_count_ p < kProbeLossThreshold;
  se_current : effective_ p < current_ p;
  se_ladder : high_ p = 0 → steps_ p !! ladder_idx_ p = Some (current_ p);
  se_bisect : high_ p ≠ 0 →
    current_ p < high_ p ∧ kProbeGranularity < high_ p - effective_ p
    ∧ current_ p = (effective_ p + high_ p) / 2
    ∧ ∃ v, v ∈ steps_ p ∧ high_ p ≤ v;
  se_state : state_ p = Searching;
}.

(** A finished search: nothing is under probe and the result is at least the base. *)
Record completed (p : PathMtuProbe) : Prop := {
  co_state : state_ p = SearchComplete;
  co_current : current_ p = 0;
  co_effective : base_ p ≤ effective_ p;
}.

Definition probe_inv (p : PathMtuProbe) : Prop := searching p ∨ completed p.

Lemma new_probe_inv base steps : 0 ≤ base → probe_inv (new_probe base steps).
Proof.
  intros Hb. unfold new_probe. pose proof (ladder_sorted base steps) as Hs.
  pose proof (ladder_above base steps) as Ha.
  destruct (ladder base steps) as [|s0 r]; [right; by split|left].
  inv Ha. split; simpl; try done; unfold kProbeLossThreshold; try lia. split; [done|by constructor].
Qed.

Lemma ladder_next p :
  searching p → high_ p = 0 → (ladder_idx_ p + 1 < length (steps_ p))%nat →
  ∃ v, steps_ p !! (ladder_idx_ p + 1)%nat = Some v ∧ current_ p < v.
Proof.
  intros Hp Hh Hi. destruct (lookup_lt_is_Some_2 _ _ Hi) as [v Hv]. exists v. split; [done|].
  destruct (se_steps p Hp) as [Hs _]. pose proof (se_ladder p Hp Hh) as Hc.
  clear -Hs Hv Hc. revert Hv Hc. generalize (ladder_idx_ p).
  induction Hs as [|x l Hs IH Hx]; intros [|i] Hv Hc; simplify_eq/=.
  - rewrite Forall_lookup in Hx. eauto.
  - rewrite Nat.add_comm in Hv. simpl in *. eapply IH; [|done]. by rewrite Nat.add_comm.
Qed.

Lemma mid_between a b : a + 8 < b → a < (a + b) / 2 < b.
Proof. intros. Z.div_mod_to_equations. lia. Qed.

(** The invariant makes the two outcomes concrete. *)
Lemma searching_ack p :
  searching p →
  let p' := on_probe_ack p in
  base_ p' = base_ p ∧ steps_ p' = steps_ p ∧ effective_ p' = current_ p ∧ high_ p' = high_ p
  ∧ ((completed p' ∧ if decide (high_ p = 0)
                     then (ladder_idx_ p + 1 = length (steps_ p))%nat
                     else high_ p - current_ p ≤ kProbeGranularity)
     ∨ (searching p' ∧ loss_count_ p' = 0
        ∧ if decide (high_ p = 0) then ladder_idx_ p' = (ladder_idx_ p + 1)%nat
          else ladder_idx_ p' = ladder_idx_ p)).
Proof.
  intros Hp. pose proof (se_base p Hp). pose proof (se_idx p Hp). pose proof (se_current p Hp).
  unfold on_probe_ack. rewrite decide_False by (by rewrite (se_state p Hp)). simpl.
  destruct (decide (high_ p = 0)) as [Hh|Hh].
  - rewrite decide_False by auto. case_decide as Hi.
    + simpl. repeat split; try done; [left]. split; [split; simpl; done || lia|lia].
    + simpl. repeat split; try done. right. split; [|done].
      destruct (ladder_next p Hp Hh) as (v & Hv & Hlt); [lia|].
      split; simpl; rewrite ?Hv; simpl; try done; try lia. apply Hp.
  - rewrite decide_True by done. destruct (se_bisect p Hp Hh) as (Hc & Hg & _ & Hv).
    unfold kProbeGranularity in *. case_decide as Hd; simpl.
    + repeat split; try done. left. split; [split; simpl; done || lia|lia].
    + repeat split; try done. right. split; [|done].
      destruct (mid_between (current_ p) (high_ p)) as [? ?]; [lia|].
      split; simpl; try done; try lia; [apply Hp|].
      intros _. unfold kProbeGranularity. split; [lia|split; [lia|done]].
Qed.

Lemma searching_loss p :
  searching p →
  let p' := on_probe_loss p in
  base_ p' = base_ p ∧ steps_ p' = steps_ p ∧ effective_ p' = effective_ p
  ∧ ladder_idx_ p' = ladder_idx_ p
  ∧ ((loss_count_ p = 0 ∧ searching p' ∧ loss_count_ p' = 1 ∧ high_ p' = high_ p
      ∧ current_ p' = current_ p)
     ∨ (loss_count_ p = 1 ∧ high_ p' = current_ p
        ∧ ((completed p' ∧ current_ p - effective_ p ≤ kProbeGranularity)
           ∨ (searching p' ∧ loss_count_ p' = 0)))).
Proof.
  intros Hp. pose proof (se_base p Hp). pose proof (se_current p Hp).
  pose proof (se_loss p Hp) as Hl. unfold kProbeLossThreshold in Hl.
  unfold on_probe_loss. rewrite decide_False by (by rewrite (se_state p Hp)). simpl.
  rewrite u32_id by (unfold_ints; lia). unfold kProbeLossThreshold, kProbeGranularity.
  case_decide as Ht; simpl.
  - do 4 (split; [done|]). left. split; [lia|]. split; [|split; [lia|done]].
    destruct Hp. split; simpl; try done. unfold kProbeLossThreshold. lia.
  - case_decide as Hg; simpl; do 4 (split; [done|]); right; (split; [lia|]); (split; [done|]).
    + left. split; [split; simpl; done || lia|lia].
    + right. split; [|done].
      destruct (mid_between (effective_ p) (current_ p)) as [? ?]; [lia|].
      split; simpl; try done; try lia; [apply Hp|apply Hp|].
      intros _. split; [lia|]. split; [unfold kProbeGranularity; lia|]. split; [done|].
      destruct (decide (high_ p = 0)) as [Hh|Hh].
      * exists (current_ p). split; [|lia]. by eapply list_elem_of_lookup_2, se_ladder.
      * destruct (se_bisect p Hp Hh) as (? & _ & _ & v & ? & ?). exists v. split; [done|lia].
Qed.

Lemma completed_stuck p : completed p → on_probe_ack p = p ∧ on_probe_loss p = p.
Proof.
  intros [Hs _ _]. unfold on_probe_ack, on_probe_loss. by rewrite !decide_True.
Qed.

(** * Runs *)

Inductive outcome := Ack | Loss.

Definition on_outcome (p : PathMtuProbe) (o : outcome) : PathMtuProbe :=
  match o with Ack => on_probe_ack p | Loss => on_probe_loss p end.

Definition probe_run (p : PathMtuProbe) (os : list outcome) : PathMtuProbe := foldl on_outcome p os.

Lemma on_outcome_inv p o :
  probe_inv p → probe_inv (on_outcome p o)
  ∧ effective_ p ≤ effective_ (on_outcome p o) ∧ base_ (on_outcome p o) = base_ p
  ∧ steps_ (on_outcome p o) = steps_ p.
Proof.
  intros [Hp|Hp].
  - destruct o; simpl.
    + destruct (searching_ack p Hp) as (-> & -> & -> & _ & Hc).
      pose proof (se_current p Hp). split; [|split; [lia|done]].
      destruct Hc as [[? _]|[? _]]; [by right|by left].
    + destruct (searching_loss p Hp) as (-> & -> & -> & _ & Hc).
      split; [|split; [lia|done]].
      destruct Hc as [(_ & ? & _)|(_ & _ & [[? _]|[? _]])]; [by left|by right|by left].
  - destruct (completed_stuck p Hp) as [E1 E2].
    destruct o; simpl; rewrite ?E1, ?E2; (split; [by right|]); split; done || lia.
Qed.

(** ** Termination *)

(** The outcomes a search can still take, when every window fits [8 * 2^k]:
    two per ladder rung left and two per halving. *)
Definition remaining (k : nat) (p : PathMtuProbe) (n : Z) : Prop :=
  completed p ∨
  (searching p ∧
   if decide (high_ p = 0)
   then (∀ v, v ∈ steps_ p → v - base_ p ≤ 8 * 2 ^ Z.of_nat k)
        ∧ 2 * (Z.of_nat (length (steps_ p) - ladder_idx_ p) + Z.of_nat k) - loss_count_ p ≤ n
   else ∃ j : nat, high_ p - effective_ p ≤ 8 * 2 ^ Z.of_nat j
        ∧ 2 * Z.of_nat j - loss_count_ p ≤ n).

Lemma halve_window a b (j : nat) :
  8 < b - a ≤ 8 * 2 ^ Z.of_nat j →
  ∃ j' : nat, j = S j' ∧ b - (a + b) / 2 ≤ 8 * 2 ^ Z.of_nat j'
             ∧ (a + b) / 2 - a ≤ 8 * 2 ^ Z.of_nat j'.
Proof.
  intros H. destruct j as [|j]; [simpl in H; lia|]. exists j. split; [done|].
  rewrite Nat2Z.inj_succ, Z.pow_succ_r in H by lia.
  set (w := 2 ^ Z.of_nat j) in *. Z.div_mod_to_equations. lia.
Qed.

Lemma remaining_step k p o n : remaining k p n → remaining k (on_outcome p o) (n - 1).
Proof.
  intros [Hc|[Hp Hn]].
  { left. destruct (completed_stuck p Hc) as [E1 E2]. destruct o; simpl; by rewrite ?E1, ?E2. }
  pose proof (se_loss p Hp) as Hl. unfold kProbeLossThreshold in Hl.
  pose proof (se_idx p Hp) as Hi. pose proof (se_base p Hp) as Hb.
  pose proof (se_current p Hp) as Hcur. destruct o; simpl.
  - destruct (searching_ack p Hp) as (Eb & Es & Ee & Eh & [[Hc _]|(Hp' & El & Hidx)]); [by left|].
    right. split; [done|]. rewrite Eh, Eb, Es, Ee, El. case_decide as Hh.
    + rewrite Hidx. destruct Hn as [Hv Hn]. split; [done|]. lia.
    + destruct (se_bisect p Hp Hh) as (_ & Hg & Em & _). unfold kProbeGranularity in Hg.
      destruct Hn as (j & Hj & Hn). rewrite Em.
      destruct (halve_window (effective_ p) (high_ p) j) as (j' & -> & Hw & _); [lia|].
      exists j'. split; [done|]. lia.
  - destruct (searching_loss p Hp)
      as (Eb & Es & Ee & Ei & [(E0 & Hp' & El & Eh & _)|(E1 & Eh & [[Hc _]|[Hp' El]])]);
      [|by left|].
    + right. split; [done|]. rewrite Eh, Eb, Es, Ee, Ei, El. case_decide as Hh.
      * destruct Hn as [Hv Hn]. split; [done|]. lia.
      * destruct Hn as (j & Hj & Hn). exists j. split; [done|]. lia.
    + right. split; [done|]. rewrite Eh, Ee, El. rewrite decide_False by lia.
      destruct (decide (high_ p = 0)) as [Hh|Hh].
      * destruct Hn as [Hv Hn]. exists k. split; [|lia].
        assert (current_ p - base_ p ≤ 8 * 2 ^ Z.of_nat k)
          by (apply Hv; by eapply list_elem_of_lookup_2, se_ladder). lia.
      * destruct (se_bisect p Hp Hh) as (_ & Hg & Em & _). unfold kProbeGranularity in Hg.
        destruct Hn as (j & Hj & Hn). rewrite Em.
        destruct (halve_window (effective_ p) (high_ p) j) as (j' & -> & _ & Hw); [lia|].
        exists j'. split; [done|]. lia.
Qed.

Lemma remaining_zero k p n : n ≤ 0 → remaining k p n → completed p.
Proof.
  intros Hn [Hc|[Hp Hr]]; [done|]. exfalso.
  pose proof (se_loss p Hp) as Hl. unfold kProbeLossThreshold in Hl.
  pose proof (se_idx p Hp) as Hi. case_decide as Hh; [lia|].
  destruct Hr as (j & Hj & Hr). destruct (se_bisect p Hp Hh) as (_ & Hg & _).
  unfold kProbeGranularity in Hg. destruct j as [|j]; [simpl in Hj; lia|lia].
Qed.

Lemma remaining_run k os p n :
  remaining k p n → remaining k (probe_run p os) (n - Z.of_nat (length os)).
Proof.
  revert p n. unfold probe_run. induction os as [|o os IH]; intros p n Hr; simpl foldl.
  - by rewrite Z.sub_0_r.
  - apply (remaining_step k p o) in Hr. apply IH in Hr.
    replace (n - Z.of_nat (length (o :: os))) with (n - 1 - Z.of_nat (length os))
      by (simpl length; lia). done.
Qed.

Lemma new_probe_remaining k base steps :
  0 ≤ base → (∀ v, v ∈ ladder base steps → v - base ≤ 8 * 2 ^ Z.of_nat k) →
  remaining k (new_probe base steps) (2 * Z.of_nat (length (ladder base steps) + k)).
Proof.
  intros Hb Hv. destruct (new_probe_inv base steps Hb) as [Hp|Hc]; [|by left].
  right. split; [done|]. unfold new_probe in *.
  destruct (ladder base steps) as [|s0 r]; simpl in *; [split; [done|lia]|].
  split; [done|]. lia.
Qed.

(** C25 (the MTU search terminates): with [k] such that no rung exceeds the base by
    more than [8 * 2^k], every sequence of [2 * (rungs + k)] probe outcomes, in
    whatever order acknowledgements and losses come, completes the search. *)
Theorem pmtu_terminates base steps k os :
  0 ≤ base → (∀ v, v ∈ ladder base steps → v - base ≤ 8 * 2 ^ Z.of_nat k) →
  (2 * (length (ladder base steps) + k) ≤ length os)%nat →
  is_complete (probe_run (new_probe base steps) os) = true
  ∧ next_probe_size (probe_run (new_probe base steps) os) = None.
Proof.
  intros Hb Hv Hl.
  assert (completed (probe_run (new_probe base steps) os)) as [Hs _ _].
  { refine (remaining_zero k _ _ _ (remaining_run k os _ _ (new_probe_remaining k base steps Hb Hv))).
    lia. }
  unfold is_complete, next_probe_size. rewrite Hs. by rewrite bool_decide_true, decide_True.
Qed.

Lemma pmtu_terminates_witness :
  is_complete (probe_run (new_probe 1200 [1350; 1400; 1450; 1492])
    (concat (replicate 8 [Ack; Loss]) ++ [Loss; Loss; Ack; Loss])) = true.
Proof.
  apply (pmtu_terminates 1200 [1350; 1400; 1450; 1492] 6); [lia| |vm_compute; lia].
  intros v Hv. apply (Forall_forall (λ v, v - 1200 ≤ 512) (ladder 1200 [1350; 1400; 1450; 1492])) in Hv;
    [exact Hv|]. apply (bool_decide_eq_true_1 (Forall _ _)). vm_compute. reflexivity.
Defined.

(** The effective MTU only grows and never drops below the base: whatever the
    outcomes, the reported size is monotone along a run, starts at the base, and
    the search invariant holds: the size under probe is strictly between the
    confirmed and the failed size, so no unsigned subtraction underflows. *)
Theorem pmtu_invariant base steps os os' :
  0 ≤ base →
  let p := probe_run (new_probe base steps) os in
  let p' := probe_run p os' in
  probe_inv p ∧ base ≤ effective_ p ≤ effective_ p'.
Proof.
  intros Hb.
  assert (∀ os p, probe_inv p →
    probe_inv (probe_run p os) ∧ effective_ p ≤ effective_ (probe_run p os)) as Hrun.
  { unfold probe_run. clear. induction os as [|o os IH]; intros p Hp; simpl; [split; [done|lia]|].
    destruct (on_outcome_inv p o Hp) as (Hp' & Hle & _). destruct (IH _ Hp'). split; [done|lia]. }
  destruct (Hrun os _ (new_probe_inv base steps Hb)) as [Hp He].
  destruct (Hrun os' _ Hp) as [_ He']. cbv zeta. split; [done|]. split; [|done].
  etrans; [|exact He]. unfold new_probe. destruct (ladder base steps); simpl; lia.
Qed.

Lemma pmtu_invariant_witness :
  probe_inv (probe_run (new_probe 1200 [1400; 1500]) [Ack; Loss; Loss; Ack]).
Proof. apply (pmtu_invariant 1200 [1400; 1500] [Ack; Loss; Loss; Ack] []). lia. Defined.

(** ** Accuracy *)

(** A path that delivers exactly the probes of at most [mtu] bytes. *)
Definition path_outcome (mtu : Z) (p : PathMtuProbe) : outcome :=
  if decide (current_ p ≤ mtu) then Ack else Loss.

Fixpoint path_run (mtu : Z) (n : nat) (p : PathMtuProbe) : PathMtuProbe :=
  match n with
  | O => p
  | S n => path_run mtu n (on_outcome p (path_outcome mtu p))
  end.

(** Confirmed sizes pass, failed sizes do not; a finished search has closed the
    window or confirmed the top rung. *)
Definition consistent (mtu : Z) (p : PathMtuProbe) : Prop :=
  effective_ p ≤ mtu
  ∧ (searching p ∧ (high_ p ≠ 0 → mtu < high_ p)
     ∨ completed p ∧ (steps_ p = [] ∨ last (steps_ p) = Some (effective_ p)
                      ∨ mtu < effective_ p + kProbeGranularity)).

Lemma consistent_step mtu p :
  consistent mtu p → consistent mtu (on_outcome p (path_outcome mtu p)).
Proof.
  intros [He [[Hp Hh]|[Hc Hr]]].
  - unfold path_outcome. case_decide as Hcur; simpl.
    + destruct (searching_ack p Hp) as (_ & Es & Ee & Eh & Hc). split; [lia|].
      destruct Hc as [[Hc Hd]|[Hp' _]].
      * right. split; [done|]. right. rewrite Es, Ee. case_decide as Hz.
        -- left. rewrite last_lookup. rewrite <- Hd, Nat.add_1_r. simpl. by apply se_ladder.
        -- right. specialize (Hh Hz). lia.
      * left. split; [done|]. by rewrite Eh.
    + destruct (searching_loss p Hp) as (_ & Es & Ee & _ & Hc). split; [lia|].
      destruct Hc as [(_ & Hp' & _ & Eh & _)|(_ & Eh & [[Hc Hd]|[Hp' _]])].
      * left. split; [done|]. by rewrite Eh.
      * right. split; [done|]. right; right. lia.
      * left. split; [done|]. rewrite Eh. lia.
  - destruct (completed_stuck p Hc) as [E1 E2].
    split; destruct (path_outcome mtu p); simpl; rewrite ?E1, ?E2; auto.
Qed.

Lemma path_run_spec mtu n p k m :
  consistent mtu p → remaining k p m →
  consistent mtu (path_run mtu n p) ∧ remaining k (path_run mtu n p) (m - Z.of_nat n)
  ∧ steps_ (path_run mtu n p) = steps_ p.
Proof.
  revert p m. induction n as [|n IH]; intros p m Hc Hr; simpl path_run.
  - by rewrite Z.sub_0_r.
  - assert (probe_inv p) as Hi by (destruct Hc as [_ [[? _]|[? _]]]; [by left|by right]).
    destruct (on_outcome_inv p (path_outcome mtu p) Hi) as (_ & _ & _ & Es).
    apply consistent_step in Hc. apply (remaining_step k _ (path_outcome mtu p)) in Hr.
    destruct (IH _ _ Hc Hr) as (H1 & H2 & H3). split; [done|]. split; [|congruence].
    replace (m - Z.of_nat (S n)) with (m - 1 - Z.of_nat n) by lia. done.
Qed.

(** C24 (the search finds the path MTU): on a path that delivers exactly the probes
    of at most [mtu] bytes, with the base size passing, the search completes and
    reports a size that passes and that is either the top rung of the ladder or
    within eight bytes of the path's MTU. *)
Theorem pmtu_accurate base steps k mtu n :
  0 ≤ base ≤ mtu → (∀ v, v ∈ ladder base steps → v - base ≤ 8 * 2 ^ Z.of_nat k) →
  (2 * (length (ladder base steps) + k) ≤ n)%nat →
  let p := path_run mtu n (new_probe base steps) in
  is_complete p = true ∧ effective_ p ≤ mtu
  ∧ (ladder base steps = [] ∨ last (ladder base steps) = Some (effective_ p)
     ∨ mtu < effective_ p + kProbeGranularity).
Proof.
  intros Hb Hv Hn p.
  assert (consistent mtu (new_probe base steps)) as Hc.
  { split; [unfold new_probe; destruct (ladder base steps); simpl; lia|].
    destruct (new_probe_inv base steps) as [Hp|Hp]; [lia| |]; [left|right]; (split; [done|]);
      unfold new_probe in *; destruct (ladder base steps); simpl; try done; [by left|].
    by destruct Hp. }
  assert (steps_ (new_probe base steps) = ladder base steps) as Es
    by (unfold new_probe; by destruct (ladder base steps)).
  destruct (path_run_spec mtu n _ k _ Hc (new_probe_remaining k base steps (proj1 Hb) Hv))
    as ([He Hd] & Hr & Es'). fold p in He, Hd, Hr, Es'.
  apply remaining_zero in Hr; [|lia]. split; [unfold is_complete; by rewrite (co_state p Hr), bool_decide_true|].
  split; [done|]. rewrite <- Es, <- Es'. destruct Hd as [[Hp _]|[_ Hd]]; [|done].
  pose proof (se_state p Hp). pose proof (co_state p Hr). congruence.
Qed.

Lemma pmtu_accurate_witness :
  let p := path_run 1472 20 (new_probe 1200 [1350; 1400; 1450; 1492]) in
  effective_ p ≤ 1472 ∧ 1472 < effective_ p + 8.
Proof.
  destruct (pmtu_accurate 1200 [1350; 1400; 1450; 1492] 6 1472 20) as (_ & H1 & [H2|[H2|H2]]);
    [lia| |vm_compute; lia|discriminate H2|vm_compute in H2; discriminate H2|exact (conj H1 H2)].
  intros v Hv. apply (Forall_forall (λ v, v - 1200 ≤ 512) (ladder 1200 [1350; 1400; 1450; 1492])) in Hv;
    [exact Hv|]. apply (bool_decide_eq_true_1 (Forall _ _)). vm_compute. reflexivity.
Defined.
