(* ===== verification/MdnsCodec.v ===== *)
(** DNS wire format of the mDNS responder and resolver (src/mdns.cpp, the helpers
    up to the manager class): names with compression pointers, queries, responses
    and the message parser; host name generation and recognition.

    As in [Bytes], an outer [None] of a decoder is a read outside the packet (or
    exhausted fuel); the inner option is the source's verdict. *)

From S2P Require Import Prelude Bytes Inet Candidate.

Definition DNS_TYPE_A : Z := 1.
Definition DNS_TYPE_AAAA : Z := 28.
Definition DNS_CLASS_IN : Z := 1.
Definition DNS_TTL_SECONDS : Z := 120.
Definition DNS_HEADER_SIZE : nat := 12.

(** [std::tolower] in the C locale. *)
Definition tolower (c : Z) : Z := if decide (65 ≤ c ≤ 90) then c + 32 else c.
Definition to_lower (s : bytes) : bytes := tolower <$> s.

Definition DOT : Z := 46.

(** * Names *)

(** Length of the longest prefix without a dot. *)
Fixpoint label_length (name : bytes) : nat :=
  match name with
  | [] => 0
  | c :: name' => if decide (c = DOT) then 0 else S (label_length name')
  end.

(** The label loop of [encode_name] on the rest of the name. *)
Fixpoint encode_labels (fuel : nat) (name : bytes) (encoded_size : nat) (out : bytes)
    : bool * bytes :=
  match fuel with
  | O => (true, out ++ [0])
  | S fuel =>
      if decide (name = []) then (true, out ++ [0]) else
      let label_len := label_length name in
      if decide (label_len = 0%nat) then
        if decide (label_len = length name) then (true, out ++ [0]) else (false, out)
      else if decide (label_len > 63)%nat then (false, out) else
      let out := out ++ [Z.of_nat label_len] ++ take label_len name in
      let encoded_size := (encoded_size + (1 + label_len))%nat in
      if decide (encoded_size > 255)%nat then (false, out) else
      encode_labels fuel (drop (label_len + 1) name) encoded_size out
  end.

Definition encode_name (out name : bytes) : bool * bytes := encode_labels (length name) name 0 out.

(** The decoding loop; [next] is the value [out_next] will have. *)
Fixpoint decode_labels (fuel : nat) (data : bytes) (cur : nat) (jumped : bool) (jumps total : nat)
    (name : bytes) (next : nat) : option (option (bytes * nat)) :=
  match fuel with
  | O => None
  | S fuel =>
      if decide (cur ≥ length data)%nat then Some None else
      len ← data !! cur;
      if decide (len = 0) then Some (Some (name, if jumped then next else (cur + 1)%nat)) else
      if decide (Z.land len 0xC0 = 0xC0) then
        if decide (cur + 1 ≥ length data)%nat then Some None else
        lo ← data !! (cur + 1)%nat;
        let target := Z.to_nat (Z.lor (Z.shiftl (Z.land len 0x3F) 8) lo) in
        if decide (target ≥ length data)%nat then Some None else
        let next := if jumped then next else (cur + 2)%nat in
        if decide (jumps + 1 > 16)%nat then Some None else
        decode_labels fuel data target true (jumps + 1) total name next
      else if decide (Z.land len 0xC0 ≠ 0) then Some None else
      let len := Z.to_nat len in
      if decide (cur + 1 + len > length data)%nat then Some None else
      if decide (total + 1 + len > 255)%nat then Some None else
      label ← read_bytes data (cur + 1) len;
      let name := (if decide (name = []) then name else name ++ [DOT]) ++ to_lower label in
      decode_labels fuel data (cur + (1 + len)) jumped jumps (total + (1 + len)) name next
  end.

(** 16 jumps, 127 labels and the terminator bound the loop; [300] is ample. *)
Definition name_fuel : nat := 300.

Definition decode_name (data : bytes) (off : nat) : option (option (bytes * nat)) :=
  decode_labels name_fuel data off false 0 0 [] 0.

(** * Host names *)

Definition hex_digit (d : Z) : Z := if decide (d < 10) then 48 + d else 87 + d.

(** [raw] are the 16 bytes drawn from the random generator. *)
Definition uuid_bytes (raw : bytes) : bytes :=
  let b6 := default 0 (raw !! 6%nat) in
  let b8 := default 0 (raw !! 8%nat) in
  <[8%nat := u8 (Z.lor (Z.land b8 0x3F) 0x80)]> (<[6%nat := u8 (Z.lor (Z.land b6 0x0F) 0x40)]> raw).

Definition uuid_text (raw : bytes) : bytes :=
  concat (imap (λ i b,
    (if bool_decide (i = 4 ∨ i = 6 ∨ i = 8 ∨ i = 10)%nat then [45] else [])
    ++ [hex_digit (Z.shiftr b 4); hex_digit (Z.land b 0x0F)]) raw).

Definition generate_uuid_v4 (raw : bytes) : bytes := uuid_text (uuid_bytes raw).

Definition local_suffix : bytes := str ".local".

Definition is_mdns_local_name (name : bytes) : bool :=
  if decide (length name ≤ length local_suffix)%nat then false else
  if decide (length name > kMaxMdnsHostnameLen)%nat then false else
  let tail := drop (length name - length local_suffix) name in
  bool_decide (to_lower tail = local_suffix) && forallb (λ c, negb (bool_decide (c = 0))) name.

(** * The [sscanf] format of the IPv4 literals, "%hhu.%hhu.%hhu.%hhu" *)

Definition is_digit (c : Z) : bool := bool_decide (48 ≤ c ≤ 57).
Definition is_space (c : Z) : bool := bool_decide (c = 32 ∨ 9 ≤ c ≤ 13).

Fixpoint skip_space (s : bytes) : bytes :=
  match s with
  | c :: s' => if is_space c then skip_space s' else s
  | [] => []
  end.

(** The digits at the front, as a number, how many they are, and the rest. *)
Fixpoint scan_digits (s : bytes) (acc : Z) (n : nat) : Z * nat * bytes :=
  match s with
  | c :: s' => if is_digit c then scan_digits s' (acc * 10 + (c - 48)) (S n) else (acc, n, s)
  | [] => (acc, n, [])
  end.

(** One [%hhu]: white space, a sign, digits; saturating as [strtoul], then reduced. *)
Definition scan_hhu (s : bytes) : option (Z * bytes) :=
  let s := skip_space s in
  let '(neg, s) :=
    match s with
    | 43 :: s' => (false, s')
    | 45 :: s' => (true, s')
    | _ => (false, s)
    end in
  let '(v, n, rest) := scan_digits s 0 0 in
  if decide (n = 0%nat) then None else
  let v := if decide (2 ^ 64 ≤ v) then 2 ^ 64 - 1 else if (neg : bool) then u64 (- v) else v in
  Some (u8 v, rest).

Definition scan_dot (s : bytes) : option bytes :=
  match s with 46 :: s' => Some s' | _ => None end.

(** [Some] when the call converts all four fields. *)
Definition sscanf_ipv4 (s : bytes) : option bytes :=
  '(a, s) ← scan_hhu s; s ← scan_dot s;
  '(b, s) ← scan_hhu s; s ← scan_dot s;
  '(c, s) ← scan_hhu s; s ← scan_dot s;
  '(d, _) ← scan_hhu s;
  Some [a; b; c; d].

(** [snprintf("%u.%u.%u.%u")]. *)
Definition dotted (o : bytes) : bytes :=
  match o with
  | [a; b; c; d] =>
      to_string a ++ [DOT] ++ to_string b ++ [DOT] ++ to_string c ++ [DOT] ++ to_string d
  | _ => []
  end.

(** * Messages *)

Definition dns_header (txn_id flags qdcount ancount : Z) : bytes :=
  write16 txn_id ++ write16 flags ++ write16 qdcount ++ write16 ancount
  ++ write16 0 ++ write16 0.

(** Empty when the name cannot be encoded. *)
Definition encode_dns_query (hostname : bytes) (txn_id : Z) (want_aaaa : bool) : bytes :=
  let '(ok, out) := encode_name (dns_header txn_id 0 1 0) hostname in
  if (ok : bool)
  then out ++ write16 (if want_aaaa then DNS_TYPE_AAAA else DNS_TYPE_A) ++ write16 DNS_CLASS_IN
  else [].

(** A failed name encoding leaves what it wrote before it failed. *)
Definition emit_answer (hostname : bytes) (qtype : Z) (rdata out : bytes) : bytes :=
  let '(ok, out) := encode_name out hostname in
  if (ok : bool)
  then out ++ write16 qtype ++ write16 0x8001 ++ write32 DNS_TTL_SECONDS
           ++ write16 (u16 (Z.of_nat (length rdata))) ++ rdata
  else out.

Section messages.
Context `{InetOps}.

Definition emit_v4 (hostname : bytes) (out ip : bytes) : bytes :=
  match sscanf_ipv4 (c_str ip) with
  | Some octets => emit_answer hostname DNS_TYPE_A octets out
  | None => out
  end.

Definition emit_v6 (hostname : bytes) (out ip : bytes) : bytes :=
  match inet_pton6 (c_str ip) with
  | Some in6 => emit_answer hostname DNS_TYPE_AAAA in6 out
  | None => out
  end.

Definition encode_dns_response (hostname : bytes) (txn_id : Z) (ipv4 ipv6 : list bytes) : bytes :=
  let ancount := u16 (Z.of_nat (length ipv4 + length ipv6)) in
  let out := dns_header txn_id 0x8400 0 ancount in
  foldl (emit_v6 hostname) (foldl (emit_v4 hostname) out ipv4) ipv6.

Record Answer := mkAnswer { an_name : bytes; an_ipv4 : bytes; an_ipv6 : bytes }.

Record DnsParsedMessage := mkDns {
  dns_is_response : bool;
  dns_txn_id : Z;
  dns_question : bytes;
  dns_qtype : Z;
  dns_answers : list Answer;
}.

(** The question loop; the first question's name and type are kept. *)
Fixpoint parse_questions (n : nat) (first : bool) (data : bytes) (off : nat) (q : bytes * Z)
    : option (option (nat * (bytes * Z))) :=
  match n with
  | O => Some (Some (off, q))
  | S n =>
      r ← decode_name data off;
      match r with
      | None => Some None
      | Some (name, off) =>
          if decide (off + 4 > length data)%nat then Some None else
          qtype ← read16 data off;
          parse_questions n false data (off + 4) (if first then (name, qtype) else q)
      end
  end.

(** One resource record at [off]: its answer, if it is an address, and its end. *)
Definition parse_record (data : bytes) (off : nat) : option (option (list Answer * nat)) :=
  r ← decode_name data off;
  match r with
  | None => Some None
  | Some (name, off) =>
      if decide (off + 10 > length data)%nat then Some None else
      rtype ← read16 data off;
      rclass_raw ← read16 data (off + 2);
      let rclass := u16 (Z.land rclass_raw 0x7FFF) in
      ttl ← read32 data (off + 4);
      rdlen ← read16 data (off + 8);
      let off := (off + 10)%nat in
      let rdlen := Z.to_nat rdlen in
      if decide (off + rdlen > length data)%nat then Some None else
      answers ←
        (if decide (rclass = DNS_CLASS_IN ∧ rtype = DNS_TYPE_A ∧ rdlen = 4%nat)
         then rdata ← read_bytes data off 4; Some [mkAnswer name (dotted rdata) []]
         else if decide (rclass = DNS_CLASS_IN ∧ rtype = DNS_TYPE_AAAA ∧ rdlen = 16%nat)
         then rdata ← read_bytes data off 16; Some [mkAnswer name [] (inet_ntop6 rdata)]
         else Some []);
      Some (Some (answers, (off + rdlen)%nat))
  end.

Fixpoint parse_answers (n : nat) (data : bytes) (off : nat) (acc : list Answer)
    : option (option (list Answer)) :=
  match n with
  | O => Some (Some acc)
  | S n =>
      r ← parse_record data off;
      match r with
      | None => Some None
      | Some (answers, off) => parse_answers n data off (acc ++ answers)
      end
  end.

Definition parse_dns_message (data : bytes) : option (option DnsParsedMessage) :=
  if decide (length data < DNS_HEADER_SIZE)%nat then Some None else
  txn_id ← read16 data 0;
  flags ← read16 data 2;
  qdcount ← read16 data 4;
  ancount ← read16 data 6;
  r ← parse_questions (Z.to_nat qdcount) true data DNS_HEADER_SIZE ([], 0);
  match r with
  | None => Some None
  | Some (off, (question, qtype)) =>
      r ← parse_answers (Z.to_nat ancount) data off [];
      match r with
      | None => Some None
      | Some answers =>
          Some (Some (mkDns (bool_decide (Z.land flags 0x8000 ≠ 0)) txn_id question qtype answers))
      end
  end.
End messages.

(** * Decoding: bounds and termination *)

(** Every iteration raises [jumps] (at most 16) or [total] (at most 255). *)
Lemma decode_labels_total fuel data cur jumped jumps total name next :
  (jumps ≤ 16)%nat → (total ≤ 255)%nat → (16 - jumps + (255 - total) < fuel)%nat →
  is_Some (decode_labels fuel data cur jumped jumps total name next).
Proof.
  revert cur jumped jumps total name next.
  induction fuel as [|fuel IH]; intros cur jumped jumps total name next Hj Ht Hf; [lia|].
  cbn [decode_labels]. case_decide; [by eauto|].
  destruct (lookup_in data cur) as [len ->]; [lia|]. sbind.
  case_decide; [by eauto|]. case_decide.
  - case_decide; [by eauto|]. destruct (lookup_in data (cur + 1)) as [lo ->]; [lia|]. sbind.
    case_decide; [by eauto|]. case_decide; [by eauto|]. apply IH; lia.
  - case_decide; [by eauto|]. case_decide; [by eauto|]. case_decide; [by eauto|].
    rewrite read_bytes_in by lia. sbind. apply IH; lia.
Qed.

Lemma decode_name_total data off : is_Some (decode_name data off).
Proof. apply decode_labels_total; unfold name_fuel; lia. Qed.

Section parse_safety.
Context `{InetOps}.

Lemma parse_questions_total n first data off q : is_Some (parse_questions n first data off q).
Proof.
  revert first off q. induction n as [|n IH]; intros first off q; cbn [parse_questions]; [by eauto|].
  destruct (decode_name_total data off) as [[[name off']|] ->]; sbind; [|by eauto].
  case_decide; [by eauto|]. destruct (read16_in data off') as [? ->]; [lia|]. sbind. apply IH.
Qed.

Lemma parse_record_total data off : is_Some (parse_record data off).
Proof.
  unfold parse_record.
  destruct (decode_name_total data off) as [[[name off']|] ->]; sbind; [|by eauto].
  case_decide; [by eauto|]. destruct (read16_in data off') as [? ->]; [lia|]. sbind.
  destruct (read16_in data (off' + 2)) as [? ->]; [lia|]. sbind.
  destruct (read32_in data (off' + 4)) as [? ->]; [lia|]. sbind.
  destruct (read16_in data (off' + 8)) as [? ->]; [lia|]. sbind.
  case_decide; [by eauto|]. case_decide; [|case_decide; [|by eauto]];
    rewrite read_bytes_in by lia; sbind; by eauto.
Qed.

Lemma parse_answers_total n data off acc : is_Some (parse_answers n data off acc).
Proof.
  revert off acc. induction n as [|n IH]; intros off acc; cbn [parse_answers]; [by eauto|].
  destruct (parse_record_total data off) as [[[? ?]|] ->]; sbind; [apply IH|by eauto].
Qed.

(** C30 ([parse_dns_message] is memory safe and terminates): on every packet,
    compression pointers into the packet and loops of them included, the parser
    returns without a read outside the packet, and every name is decoded within
    300 steps. *)
Theorem parse_dns_message_safe data :
  is_Some (parse_dns_message data) ∧ ∀ off, is_Some (decode_name data off).
Proof.
  split; [|apply decode_name_total].
  unfold parse_dns_message, DNS_HEADER_SIZE. case_decide; [by eauto|].
  destruct (read16_in data 0) as [? ->]; [lia|]. sbind.
  destruct (read16_in data 2) as [? ->]; [lia|]. sbind.
  destruct (read16_in data 4) as [qd ->]; [lia|]. sbind.
  destruct (read16_in data 6) as [an ->]; [lia|]. sbind.
  destruct (parse_questions_total (Z.to_nat qd) true data 12 ([], 0)) as [[[off [? ?]]|] ->];
    sbind; [|by eauto].
  destruct (parse_answers_total (Z.to_nat an) data off []) as [[?|] ->]; sbind; by eauto.
Qed.
End parse_safety.

(** * Names: round trip *)

Fixpoint join_dot (ls : list bytes) : bytes :=
  match ls with
  | [] => []
  | [l] => l
  | l :: ls => l ++ DOT :: join_dot ls
  end.

(** The labels on the wire, without the terminator. *)
Definition wire_labels (ls : list bytes) : bytes := mbind (λ l, Z.of_nat (length l) :: l) ls.

Definition label_ok (l : bytes) : Prop := (0 < length l ≤ 63)%nat ∧ DOT ∉ l.

#[global] Instance label_ok_dec l : Decision (label_ok l).
Proof. unfold label_ok. apply _. Defined.

(** A name that fits the limits of RFC 1035. *)
Definition name_ok (ls : list bytes) : Prop :=
  Forall label_ok ls ∧ (length (wire_labels ls) ≤ 255)%nat.

#[global] Instance name_ok_dec ls : Decision (name_ok ls).
Proof. unfold name_ok. apply _. Defined.

Lemma label_length_app l r : DOT ∉ l → label_length (l ++ DOT :: r) = length l.
Proof.
  induction l as [|c l IH]; cbn [label_length app length]; [by rewrite decide_True|].
  rewrite not_elem_of_cons. intros [Hc Hl]. rewrite decide_False by congruence. by rewrite IH.
Qed.

Lemma label_length_all l : DOT ∉ l → label_length l = length l.
Proof.
  induction l as [|c l IH]; cbn [label_length length]; [done|].
  rewrite not_elem_of_cons. intros [Hc Hl]. rewrite decide_False by congruence. by rewrite IH.
Qed.

Lemma wire_labels_cons l ls : wire_labels (l :: ls) = Z.of_nat (length l) :: l ++ wire_labels ls.
Proof. done. Qed.

(** One label at the front of a name. *)
Lemma encode_label fuel l r size out :
  label_ok l → (size + (1 + length l) ≤ 255)%nat →
  encode_labels (S fuel) (l ++ r) size out =
    if decide (label_length (l ++ r) = length l)
    then encode_labels fuel (drop (length l + 1) (l ++ r)) (size + (1 + length l))
           (out ++ [Z.of_nat (length l)] ++ l)
    else encode_labels (S fuel) (l ++ r) size out.
Proof.
  intros [Hl _] Hs. case_decide as E; [|done]. cbn [encode_labels]. rewrite E.
  rewrite decide_False by (destruct l; simpl in *; [lia|done]).
  rewrite decide_False by lia. rewrite decide_False by lia.
  rewrite take_app_length, decide_False by lia. done.
Qed.

Lemma encode_labels_spec ls fuel size out :
  Forall label_ok ls → (size + length (wire_labels ls) ≤ 255)%nat →
  (length (join_dot ls) ≤ fuel)%nat →
  encode_labels fuel (join_dot ls) size out = (true, out ++ wire_labels ls ++ [0]).
Proof.
  intros Hls. revert fuel size out.
  induction Hls as [|l ls Hl Hls IH]; intros fuel size out Hs Hf; [by destruct fuel|].
  pose proof Hl as [Hlen Hdot].
  rewrite wire_labels_cons in *. simpl length in Hs. rewrite length_app in Hs.
  destruct ls as [|l' ls].
  - simpl join_dot in *. destruct fuel as [|fuel]; [lia|].
    rewrite <- (app_nil_r l) at 1. rewrite encode_label by (done || lia).
    rewrite app_nil_r, label_length_all, decide_True by done.
    rewrite drop_ge by lia. change (wire_labels []) with (@nil Z). rewrite app_nil_r.
    destruct fuel; simpl; by rewrite <- !app_assoc.
  - change (join_dot (l :: l' :: ls)) with (l ++ DOT :: join_dot (l' :: ls)) in *.
    rewrite length_app, length_cons in Hf. destruct fuel as [|fuel]; [lia|].
    rewrite encode_label by (done || lia). rewrite label_length_app, decide_True by done.
    replace (drop (length l + 1) (l ++ DOT :: join_dot (l' :: ls))) with (join_dot (l' :: ls))
      by (rewrite <- drop_drop, drop_app_length; done).
    rewrite IH by lia. change (?x :: l ++ ?w) with ([x] ++ l ++ w). by rewrite <- !app_assoc.
Qed.

(** The text the decoder accumulates. *)
Definition add_label (name l : bytes) : bytes :=
  (if decide (name = []) then name else name ++ [DOT]) ++ to_lower l.

Lemma add_labels_join ls name :
  Forall label_ok ls → ls ≠ [] →
  foldl add_label name ls =
    (if decide (name = []) then [] else name ++ [DOT]) ++ to_lower (join_dot ls).
Proof.
  intros Hls. revert name. induction Hls as [|l ls [Hl _] Hls IH]; intros name Hne; [done|].
  destruct ls as [|l' ls].
  - cbn [foldl join_dot]. unfold add_label. by repeat case_decide; subst.
  - cbn [foldl] in *. rewrite IH by done.
    change (join_dot (l :: l' :: ls)) with (l ++ DOT :: join_dot (l' :: ls)).
    assert (add_label name l ≠ []) as Hn.
    { unfold add_label. intros [_ E]%app_nil. destruct l; simpl in *; [lia|done]. }
    rewrite (decide_False (P := add_label name l = [])) by done. unfold add_label, to_lower.
    rewrite fmap_app, fmap_cons. change (tolower DOT) with DOT. rewrite <- !app_assoc.
    by repeat case_decide; subst.
Qed.

(** A length byte below 64 has clear top bits. *)
Lemma label_byte n : (0 < n ≤ 63)%nat → Z.land (Z.of_nat n) 0xC0 = 0.
Proof.
  intros Hn. assert (∀ b, is_u8 b → b < 64 → Z.land b 0xC0 = 0) as Hb.
  { apply (InetRef.octet_cases (λ b, b < 64 → Z.land b 0xC0 = 0)). vm_compute. reflexivity. }
  apply Hb; unfold_ints; lia.
Qed.

Lemma decode_labels_spec ls fuel pre post total name :
  Forall label_ok ls → (total + length (wire_labels ls) ≤ 255)%nat → (length ls < fuel)%nat →
  decode_labels fuel (pre ++ wire_labels ls ++ 0 :: post) (length pre) false 0 total name 0
  = Some (Some (foldl add_label name ls, (length pre + length (wire_labels ls) + 1)%nat)).
Proof.
  intros Hls. revert fuel pre total name.
  induction Hls as [|l ls [Hl Hd] Hls IH]; intros fuel pre total name Ht Hf;
    (destruct fuel as [|fuel]; [lia|]); cbn [decode_labels].
  - change (wire_labels []) with (@nil Z). rewrite app_nil_l.
    rewrite decide_False by (rewrite length_app, length_cons; lia).
    rewrite (list_lookup_middle pre post 0 (length pre)) by done. sbind. rewrite decide_True by done.
    do 3 f_equal. simpl length. lia.
  - rewrite wire_labels_cons, length_cons, length_app in *. cbn [length] in Hf.
    set (n := Z.of_nat (length l)). set (rest := wire_labels ls ++ 0 :: post).
    replace (pre ++ (n :: l ++ wire_labels ls) ++ 0 :: post) with (pre ++ n :: l ++ rest)
      by (subst rest; rewrite <- app_comm_cons, <- app_assoc; done).
    rewrite decide_False by (rewrite length_app, length_cons; lia).
    rewrite (list_lookup_middle pre (l ++ rest) n (length pre)) by done. sbind.
    rewrite decide_False by lia.
    subst n. rewrite label_byte by done. rewrite decide_False by done.
    rewrite decide_False by auto.
    rewrite Nat2Z.id, decide_False by (rewrite length_app, length_cons, length_app; lia).
    rewrite decide_False by lia.
    rewrite cons_middle, app_assoc. rewrite read_bytes_at by (rewrite ?length_app; done).
    sbind. rewrite (app_assoc _ l).
    replace (length pre + (1 + length l))%nat
      with (length ((pre ++ [Z.of_nat (length l)]) ++ l)) by (rewrite !length_app; simpl; lia).
    subst rest. rewrite IH by lia. do 3 f_equal. rewrite !length_app. simpl. lia.
Qed.

(** DNS name round trip: a name of valid labels is encoded, and decoding it,
    at any offset of a packet, yields its lower-case text and the offset just
    behind it. *)
Theorem dns_name_roundtrip ls pre post :
  name_ok ls →
  encode_name pre (join_dot ls) = (true, pre ++ wire_labels ls ++ [0])
  ∧ decode_name (pre ++ wire_labels ls ++ [0] ++ post) (length pre)
    = Some (Some (to_lower (join_dot ls), (length pre + length (wire_labels ls) + 1)%nat)).
Proof.
  intros [Hls Hlen]. split; [by apply encode_labels_spec|].
  unfold decode_name. change ([0] ++ post) with (0 :: post).
  rewrite decode_labels_spec; [|done|lia|].
  - destruct ls as [|l ls]; [done|]. by rewrite add_labels_join.
  - assert (length ls ≤ length (wire_labels ls))%nat; [|unfold name_fuel; lia].
    clear. induction ls as [|l ls IH]; [done|].
    rewrite wire_labels_cons, !length_cons, length_app. lia.
Qed.

Definition example_labels : list bytes := [str "Host-1"; str "local"].

Lemma dns_name_roundtrip_witness :
  decode_name ([9; 9] ++ wire_labels example_labels ++ [0] ++ [5]) 2
  = Some (Some (str "host-1.local", 16%nat)).
Proof.
  apply (dns_name_roundtrip example_labels [9; 9] [5]).
  apply (bool_decide_eq_true_1 (name_ok example_labels)). vm_compute. reflexivity.
Defined.

(** * IPv4 literals *)

Definition dec_value (acc : Z) (ds : bytes) : Z := foldl (λ a c, a * 10 + (c - 48)) acc ds.

Lemma scan_digits_spec ds r acc n :
  Forall (λ b, 48 ≤ b ≤ 57) ds → (∀ c r', r = c :: r' → is_digit c = false) →
  scan_digits (ds ++ r) acc n = (dec_value acc ds, (n + length ds)%nat, r).
Proof.
  intros Hds Hr. revert acc n. induction Hds as [|d ds Hd _ IH]; intros acc n.
  - simpl. rewrite Nat.add_0_r. destruct r as [|c r]; [done|]. simpl.
    by rewrite (Hr c r).
  - cbn [scan_digits app]. unfold is_digit at 1. rewrite bool_decide_true by done.
    rewrite IH. unfold dec_value. simpl. do 2 f_equal. lia.
Qed.

Lemma octet_text b : is_u8 b → dec_value 0 (to_string b) = b ∧ (0 < length (to_string b))%nat.
Proof.
  apply (InetRef.octet_cases (λ b, dec_value 0 (to_string b) = b ∧ (0 < length (to_string b))%nat)).
  vm_compute. reflexivity.
Qed.

Lemma scan_hhu_octet b r :
  is_u8 b → (∀ c r', r = c :: r' → is_digit c = false) →
  scan_hhu (to_string b ++ r) = Some (b, r).
Proof.
  intros Hb Hr. destruct (octet_text b Hb) as [Hv Hl].
  pose proof (to_string_digits b) as Hd.
  assert (skip_space (to_string b ++ r) = to_string b ++ r
    ∧ match to_string b ++ r with
      | 43 :: s' => (false, s') | 45 :: s' => (true, s') | _ => (false, to_string b ++ r)
      end = (false, to_string b ++ r)) as [E1 E2].
  { destruct (to_string b) as [|d ds]; [simpl in Hl; lia|]. inv Hd. cbn [skip_space app].
    unfold is_space. rewrite bool_decide_false by lia. split; [done|].
    assert (d = 48 ∨ d = 49 ∨ d = 50 ∨ d = 51 ∨ d = 52 ∨ d = 53 ∨ d = 54 ∨ d = 55 ∨ d = 56 ∨ d = 57)
      as Hcase by lia.
    by destruct Hcase as [->|[->|[->|[->|[->|[->|[->|[->|[->| ->]]]]]]]]]. }
  unfold scan_hhu. rewrite E1, E2, scan_digits_spec, Hv by done.
  rewrite decide_False by lia. rewrite decide_False by (unfold_ints; lia). by rewrite u8_id.
Qed.

Lemma dot_not_digit c r r' : DOT :: r = c :: r' → is_digit c = false.
Proof. intros; by simplify_eq. Qed.

Lemma sscanf_dotted o :
  length o = 4%nat → bytes_ok o → sscanf_ipv4 (dotted o) = Some o ∧ c_str (dotted o) = dotted o.
Proof.
  intros Hl Ho. destruct o as [|a [|b [|c [|d [|]]]]]; try done.
  inv Ho. repeat match goal with H : Forall _ (_ :: _) |- _ => inv H end. split.
  - unfold dotted, sscanf_ipv4.
    do 3 (rewrite scan_hhu_octet by eauto using dot_not_digit; sbind;
          change (scan_dot ([DOT] ++ ?s)) with (Some s); sbind).
    rewrite <- (app_nil_r (to_string d)), scan_hhu_octet by done. done.
  - apply InetRef.c_str_no_nul. unfold dotted.
    assert (∀ z, 0 ∉ to_string z) as Hz.
    { intros z Hin. pose proof (to_string_digits z) as Hd. rewrite Forall_forall in Hd.
      apply Hd in Hin. lia. }
    rewrite !not_elem_of_app. assert (0 ∉ [DOT]) by (rewrite list_elem_of_singleton; done). auto 10.
Qed.

(** * Messages: round trips *)

(** A resource record as [emit_answer] lays it out. *)
Definition record_bytes (ls : list bytes) (qtype : Z) (rdata : bytes) : bytes :=
  wire_labels ls ++ [0] ++ write16 qtype ++ write16 0x8001 ++ write32 DNS_TTL_SECONDS
  ++ write16 (Z.of_nat (length rdata)) ++ rdata.

Lemma emit_answer_spec ls qtype rdata out :
  name_ok ls → is_u16 (Z.of_nat (length rdata)) →
  emit_answer (join_dot ls) qtype rdata out = out ++ record_bytes ls qtype rdata.
Proof.
  intros [Hls Hlen] Hr. unfold emit_answer, encode_name.
  rewrite encode_labels_spec by done. unfold record_bytes.
  rewrite (u16_id (Z.of_nat _)) by done. by rewrite <- !app_assoc.
Qed.

Lemma dns_header_reads txn fl qd an rest :
  let data := dns_header txn fl qd an ++ rest in
  read16 data 0 = Some (u16 txn) ∧ read16 data 2 = Some (u16 fl)
  ∧ read16 data 4 = Some (u16 qd) ∧ read16 data 6 = Some (u16 an).
Proof.
  unfold dns_header, read16. simpl.
  by rewrite !be16_value, !write16_value by apply u8_range.
Qed.

Section roundtrips.
Context `{InetLaws}.

Lemma decode_name_at ls pre post :
  name_ok ls →
  decode_name (pre ++ wire_labels ls ++ [0] ++ post) (length pre)
  = Some (Some (to_lower (join_dot ls), length (pre ++ wire_labels ls ++ [0]))).
Proof.
  intros [Hls Hlen]. unfold decode_name. change ([0] ++ post) with (0 :: post).
  rewrite decode_labels_spec; [|done|lia|].
  - rewrite !length_app, Nat.add_assoc. destruct ls as [|l ls]; [done|]. by rewrite add_labels_join.
  - assert (length ls ≤ length (wire_labels ls))%nat; [|unfold name_fuel; lia].
    clear. induction ls as [|l ls IH]; [done|].
    rewrite wire_labels_cons, !length_cons, length_app. lia.
Qed.

#[local] Opaque decode_name.

Lemma parse_questions_one data off q :
  parse_questions (Z.to_nat (u16 1)) true data off q =
    r ← decode_name data off;
    match r with
    | None => Some None
    | Some (name, off) =>
        if decide (off + 4 > length data)%nat then Some None else
        qtype ← read16 data off; Some (Some ((off + 4)%nat, (name, qtype)))
    end.
Proof. reflexivity. Qed.

(** A message with one question and no records, from its reads. *)
Lemma parse_one_question data txn ty name off :
  read16 data 0 = Some (u16 txn) → read16 data 2 = Some (u16 0) → read16 data 4 = Some (u16 1) →
  read16 data 6 = Some (u16 0) → decode_name data DNS_HEADER_SIZE = Some (Some (name, off)) →
  read16 data off = Some (u16 ty) → length data = (off + 4)%nat → (12 ≤ off)%nat →
  is_u16 txn → is_u16 ty →
  parse_dns_message data = Some (Some (mkDns false txn name ty [])).
Proof.
  intros E0 E2 E4 E6 Hn Hr Hlen Hoff Htx Hty. unfold parse_dns_message.
  rewrite decide_False by (unfold DNS_HEADER_SIZE; lia).
  rewrite E0, bind_some, E2, bind_some, E4, bind_some, E6, bind_some.
  rewrite (parse_questions_one data), Hn, bind_some, decide_False by lia.
  rewrite Hr, !bind_some. simpl. by rewrite !u16_id.
Qed.

(** DNS query round trip: the responder parses a query for a valid name as a
    query with that transaction id, the lower-case name and the record type asked
    for. *)
Theorem dns_query_roundtrip ls txn aaaa :
  name_ok ls → ls ≠ [] → is_u16 txn →
  parse_dns_message (encode_dns_query (join_dot ls) txn aaaa)
  = Some (Some (mkDns false txn (to_lower (join_dot ls))
                  (if aaaa then DNS_TYPE_AAAA else DNS_TYPE_A) [])).
Proof.
  intros Hok Hne Htx. unfold encode_dns_query, encode_name. destruct Hok as [Hls Hlen].
  rewrite encode_labels_spec by done.
  set (ty := if aaaa then _ else _).
  assert (is_u16 ty) as Hty by (by destruct aaaa).
  rewrite <- !app_assoc. set (hdr := dns_header txn 0 1 0).
  set (data := hdr ++ wire_labels ls ++ [0] ++ write16 ty ++ write16 DNS_CLASS_IN).
  set (pre := hdr ++ wire_labels ls ++ [0]).
  destruct (dns_header_reads txn 0 1 0 (wire_labels ls ++ [0] ++ write16 ty ++ write16 DNS_CLASS_IN))
    as (E0 & E2 & E4 & E6). fold hdr data in E0, E2, E4, E6.
  assert (decode_name data DNS_HEADER_SIZE = Some (Some (to_lower (join_dot ls), length pre))) as Hn.
  { assert (DNS_HEADER_SIZE = length hdr) as -> by done. by apply decode_name_at. }
  assert (data = pre ++ write16 ty ++ write16 DNS_CLASS_IN) as Hd
    by (subst data pre; by rewrite <- !app_assoc).
  assert (read16 data (length pre) = Some (u16 ty)) as Hr by (rewrite Hd; by apply read16_at).
  assert (length data = length pre + 4)%nat as Hlen' by (rewrite Hd, !length_app; done).
  assert (12 ≤ length pre)%nat as Hpre by (subst pre; rewrite length_app; simpl; lia).
  by apply (parse_one_question data txn ty _ (length pre)).
Qed.

(** The answer a record of the two address types parses to. *)
Definition record_answer (ls : list bytes) (qtype : Z) (rdata : bytes) : Answer :=
  if decide (qtype = DNS_TYPE_A) then mkAnswer (to_lower (join_dot ls)) (dotted rdata) []
  else mkAnswer (to_lower (join_dot ls)) [] (inet_ntop6 rdata).

(** Address records: a type and data of the matching size. *)
Definition record_ok (r : Z * bytes) : Prop :=
  (r.1 = DNS_TYPE_A ∧ length (r.2) = 4%nat) ∨ (r.1 = DNS_TYPE_AAAA ∧ length (r.2) = 16%nat).

Lemma parse_record_spec ls r pre post :
  name_ok ls → record_ok r →
  parse_record (pre ++ record_bytes ls (r.1) (r.2) ++ post) (length pre)
  = Some (Some ([record_answer ls (r.1) (r.2)],
                length (pre ++ record_bytes ls (r.1) (r.2)))).
Proof.
  intros Hls Hr. destruct r as [qtype rdata]. unfold record_ok in Hr. cbn [fst snd] in *.
  assert (is_u16 (Z.of_nat (length rdata)) ∧ is_u16 qtype) as [Hu Hq].
  { destruct Hr as [[-> ->]|[-> ->]]; split; by compute. }
  set (data := pre ++ record_bytes ls qtype rdata ++ post).
  set (p1 := pre ++ wire_labels ls ++ [0]). set (o := length p1).
  assert (data = p1 ++ write16 qtype ++ write16 0x8001 ++ write32 DNS_TTL_SECONDS
    ++ write16 (Z.of_nat (length rdata)) ++ rdata ++ post) as Hd.
  { subst data p1. unfold record_bytes. by rewrite <- !app_assoc. }
  assert (decode_name data (length pre) = Some (Some (to_lower (join_dot ls), o))) as Hn.
  { replace data with (pre ++ wire_labels ls ++ [0] ++ (write16 qtype ++ write16 0x8001
      ++ write32 DNS_TTL_SECONDS ++ write16 (Z.of_nat (length rdata)) ++ rdata ++ post))
      by (subst data; unfold record_bytes; by rewrite <- !app_assoc).
    by apply decode_name_at. }
  assert (read16 data o = Some qtype) as R0.
  { rewrite Hd. rewrite read16_at by done. by rewrite u16_id. }
  assert (read16 data (o + 2) = Some 0x8001) as R2.
  { rewrite Hd, app_assoc. rewrite read16_at by by rewrite length_app. done. }
  assert (read32 data (o + 4) = Some DNS_TTL_SECONDS) as R4.
  { rewrite Hd, app_assoc, (app_assoc (p1 ++ _)), read32_at; [done|].
    rewrite !length_app, !length_write16. subst o. lia. }
  assert (read16 data (o + 8) = Some (Z.of_nat (length rdata))) as R8.
  { rewrite Hd, app_assoc, (app_assoc (p1 ++ _)), (app_assoc ((p1 ++ _) ++ _)), read16_at;
      [by rewrite u16_id|].
    rewrite !length_app, !length_write16, length_write32. subst o. lia. }
  assert (read_bytes data (o + 10) (length rdata) = Some rdata) as Hs.
  { rewrite Hd, app_assoc, (app_assoc (p1 ++ _)), (app_assoc ((p1 ++ _) ++ _)),
      (app_assoc (((p1 ++ _) ++ _) ++ _)). apply read_bytes_at; [|done].
    rewrite !length_app, !length_write16, length_write32. subst o. lia. }
  assert (length data = o + 10 + length rdata + length post)%nat as Hlen.
  { rewrite Hd, !length_app, !length_write16, length_write32. subst o. lia. }
  assert (length (pre ++ record_bytes ls qtype rdata) = o + 10 + length rdata)%nat as Hend.
  { subst o p1. unfold record_bytes. rewrite !length_app, !length_write16, length_write32. lia. }
  rewrite Hend. clearbody data o. unfold parse_record.
  rewrite Hn, bind_some, decide_False by lia.
  rewrite R0, bind_some, R2, bind_some, R4, bind_some, R8, bind_some, Nat2Z.id.
  rewrite decide_False by lia. unfold record_answer.
  change (u16 (Z.land 0x8001 0x7FFF)) with 1.
  destruct Hr as [[-> Hr4]|[-> Hr4]]; rewrite Hr4 in *; by rewrite Hs.
Qed.

Definition records_bytes (ls : list bytes) (rs : list (Z * bytes)) : bytes :=
  mbind (λ r, record_bytes ls (r.1) (r.2)) rs.

Lemma parse_answers_spec ls rs pre acc :
  name_ok ls → Forall record_ok rs →
  parse_answers (length rs) (pre ++ records_bytes ls rs) (length pre) acc
  = Some (Some (acc ++ ((λ r, record_answer ls (r.1) (r.2)) <$> rs))).
Proof.
  intros Hls Hrs. revert pre acc. induction Hrs as [|r rs Hr Hrs IH]; intros pre acc.
  - simpl. by rewrite app_nil_r.
  - unfold records_bytes. rewrite bind_cons. fold (records_bytes ls rs).
    cbn [length parse_answers]. rewrite parse_record_spec, bind_some by done.
    rewrite app_assoc, IH, fmap_cons. by rewrite <- app_assoc.
Qed.

Lemma foldl_emit_v4 ls v4 out :
  name_ok ls → Forall (λ o, length o = 4%nat ∧ bytes_ok o) v4 →
  foldl (emit_v4 (join_dot ls)) out (dotted <$> v4)
  = out ++ records_bytes ls ((DNS_TYPE_A,.) <$> v4).
Proof.
  intros Hls Hv. revert out. induction Hv as [|o v4 [Ho Hok] Hv IH]; intros out; simpl.
  - by rewrite app_nil_r.
  - destruct (sscanf_dotted o Ho Hok) as [E1 E2]. unfold emit_v4 at 2. rewrite E2, E1.
    rewrite emit_answer_spec by (done || rewrite Ho; by compute).
    rewrite IH. unfold records_bytes. simpl. by rewrite <- app_assoc.
Qed.

Lemma foldl_emit_v6 ls v6 out :
  name_ok ls → Forall (λ o, length o = 16%nat ∧ bytes_ok o) v6 →
  foldl (emit_v6 (join_dot ls)) out (inet_ntop6 <$> v6)
  = out ++ records_bytes ls ((DNS_TYPE_AAAA,.) <$> v6).
Proof.
  intros Hls Hv. revert out. induction Hv as [|o v6 [Ho Hok] Hv IH]; intros out; simpl.
  - by rewrite app_nil_r.
  - unfold emit_v6 at 2. rewrite ntop6_text, pton6_ntop6 by done.
    rewrite emit_answer_spec by (done || rewrite Ho; by compute).
    rewrite IH. unfold records_bytes. simpl. by rewrite <- app_assoc.
Qed.

(** MDNS response round trip: the resolver parses the responder's answer for a
    valid name and lists of IPv4 and IPv6 addresses as a response with one answer
    per address, in order, each with the lower-case name and the address text. *)
Theorem dns_response_roundtrip ls txn v4 v6 :
  name_ok ls → is_u16 txn → is_u16 (Z.of_nat (length v4 + length v6)) →
  Forall (λ o, length o = 4%nat ∧ bytes_ok o) v4 →
  Forall (λ o, length o = 16%nat ∧ bytes_ok o) v6 →
  parse_dns_message (encode_dns_response (join_dot ls) txn (dotted <$> v4) (inet_ntop6 <$> v6))
  = Some (Some (mkDns true txn [] 0
      (((λ o, mkAnswer (to_lower (join_dot ls)) (dotted o) []) <$> v4)
       ++ ((λ o, mkAnswer (to_lower (join_dot ls)) [] (inet_ntop6 o)) <$> v6)))).
Proof.
  intros Hls Htx Hn Hv4 Hv6. unfold encode_dns_response. rewrite !length_fmap.
  rewrite (u16_id (Z.of_nat _)), foldl_emit_v4, foldl_emit_v6, <- app_assoc by done.
  set (rs := ((DNS_TYPE_A,.) <$> v4) ++ ((DNS_TYPE_AAAA,.) <$> v6)).
  replace (records_bytes ls ((DNS_TYPE_A,.) <$> v4) ++ records_bytes ls ((DNS_TYPE_AAAA,.) <$> v6))
    with (records_bytes ls rs) by (unfold records_bytes, rs; by rewrite bind_app).
  set (n := Z.of_nat (length v4 + length v6)) in *.
  assert (length rs = Z.to_nat n) as Hrs
    by (subst rs n; rewrite length_app, !length_fmap, Nat2Z.id; done).
  assert (Forall record_ok rs) as Hok.
  { apply Forall_app. split; apply Forall_fmap; (eapply Forall_impl; [eassumption|]);
      intros o [Ho _]; [left|right]; done. }
  set (hdr := dns_header txn 0x8400 0 n).
  destruct (dns_header_reads txn 0x8400 0 n (records_bytes ls rs)) as (E0 & E2 & E4 & E6).
  fold hdr in E0, E2, E4, E6.
  pose proof (parse_answers_spec ls rs hdr [] Hls Hok) as Ha. rewrite app_nil_l in Ha.
  unfold parse_dns_message.
  rewrite decide_False by (rewrite length_app; unfold DNS_HEADER_SIZE; simpl; lia).
  rewrite E0, bind_some, E2, bind_some, E4, bind_some, E6, bind_some.
  rewrite (u16_id txn), (u16_id n) by done.
  assert (Z.to_nat (u16 0) = 0%nat) as -> by done. cbn [parse_questions].
  assert (DNS_HEADER_SIZE = length hdr) as -> by done.
  rewrite bind_some, <- Hrs, Ha, bind_some. do 3 f_equal.
  subst rs. rewrite fmap_app, <- !list_fmap_compose. done.
Qed.
End roundtrips.

Lemma dns_query_roundtrip_witness :
  parse_dns_message (H := InetRef.ops) (encode_dns_query (str "Host-1.local") 77 true)
  = Some (Some (mkDns false 77 (str "host-1.local") DNS_TYPE_AAAA [])).
Proof.
  apply (dns_query_roundtrip (H := InetRef.ops) example_labels 77 true);
    [|discriminate|by compute].
  apply (bool_decide_eq_true_1 (name_ok example_labels)). vm_compute. reflexivity.
Defined.

Lemma dns_response_roundtrip_witness :
  parse_dns_message (H := InetRef.ops) (encode_dns_response (H := InetRef.ops)
    (str "Host-1.local") 77 [str "10.0.0.1"] [])
  = Some (Some (mkDns true 77 [] 0 [mkAnswer (str "host-1.local") (str "10.0.0.1") []])).
Proof.
  apply (dns_response_roundtrip (H := InetRef.ops) (H0 := InetRef.laws) example_labels 77
    [[10; 0; 0; 1]] []); [|by compute|by compute| |constructor].
  - apply (bool_decide_eq_true_1 (name_ok example_labels)). vm_compute. reflexivity.
  - constructor; [|constructor]. split; [done|].
    apply (bool_decide_eq_true_1 (Forall is_u8 [10; 0; 0; 1])). vm_compute. reflexivity.
Defined.

(** An address the responder cannot parse poisons its answer: with one
    malformed IPv4 string among the registered addresses the header still counts
    it, and every resolver, this one included, rejects the whole response. *)
Theorem dns_response_bad_address txn :
  parse_dns_message (H := InetRef.ops) (encode_dns_response (H := InetRef.ops)
    (str "a.local") txn [str "10.0.0.1"; str "10.0.0.x"] []) = Some None.
Proof. vm_compute. reflexivity. Qed.

(** * Generated host names *)

Lemma hex_digit_range d : 0 ≤ d < 16 → 48 ≤ hex_digit d ≤ 57 ∨ 97 ≤ hex_digit d ≤ 102.
Proof. intros. unfold hex_digit. case_decide; lia. Qed.

Lemma nibbles b : is_u8 b → 0 ≤ Z.shiftr b 4 < 16 ∧ 0 ≤ Z.land b 0x0F < 16.
Proof.
  apply (InetRef.octet_cases (λ b, 0 ≤ Z.shiftr b 4 < 16 ∧ 0 ≤ Z.land b 0x0F < 16)).
  vm_compute. reflexivity.
Qed.

Lemma version_nibbles b :
  is_u8 b →
  hex_digit (Z.shiftr (u8 (Z.lor (Z.land b 0x0F) 0x40)) 4) = 52
  ∧ hex_digit (Z.shiftr (u8 (Z.lor (Z.land b 0x3F) 0x80)) 4) ∈ [56; 57; 97; 98].
Proof.
  apply (InetRef.octet_cases (λ b,
    hex_digit (Z.shiftr (u8 (Z.lor (Z.land b 0x0F) 0x40)) 4) = 52
    ∧ hex_digit (Z.shiftr (u8 (Z.lor (Z.land b 0x3F) 0x80)) 4) ∈ [56; 57; 97; 98])).
  vm_compute. reflexivity.
Qed.

(** A UUID text consists of hyphens and hexadecimal digits in lower case. *)
Lemma uuid_text_chars raw :
  bytes_ok raw → Forall (λ c, c = 45 ∨ 48 ≤ c ≤ 57 ∨ 97 ≤ c ≤ 102) (uuid_text raw).
Proof.
  intros Hr. apply Forall_forall. intros c Hc.
  unfold uuid_text in Hc. apply list_elem_of_In, in_concat in Hc as (p & Hp & Hc).
  apply list_elem_of_In, elem_of_lookup_imap in Hp as (i & b & -> & Hb).
  pose proof (bytes_ok_lookup _ _ _ Hr Hb) as Hu. destruct (nibbles b Hu) as [Hh Hl].
  apply hex_digit_range in Hh, Hl. apply list_elem_of_In in Hc.
  apply elem_of_app in Hc as [Hc|Hc].
  - case_bool_decide; [apply list_elem_of_singleton in Hc; lia|by apply elem_of_nil in Hc].
  - apply elem_of_cons in Hc as [Hc|Hc]; [lia|apply list_elem_of_singleton in Hc; lia].
Qed.

Lemma uuid_text_no_nul raw :
  bytes_ok raw → forallb (λ c, negb (bool_decide (c = 0))) (uuid_text raw) = true.
Proof.
  intros Hr%uuid_text_chars. apply forallb_forall. intros c Hc%list_elem_of_In.
  rewrite Forall_forall in Hr. apply Hr in Hc. rewrite bool_decide_false; [done|lia].
Qed.

Lemma uuid_bytes_ok raw : bytes_ok raw → bytes_ok (uuid_bytes raw).
Proof. intros. unfold uuid_bytes. by repeat (apply Forall_insert; [|apply u8_range]). Qed.

(** The labels of a generated name. *)
Definition uuid_labels (raw : bytes) : list bytes := [generate_uuid_v4 raw; str "local"].

Lemma uuid_labels_ok raw : length raw = 16%nat → bytes_ok raw → name_ok (uuid_labels raw).
Proof.
  intros Hl Hr. pose proof (uuid_text_chars _ (uuid_bytes_ok _ Hr)) as Hc.
  assert (length (generate_uuid_v4 raw) = 36%nat) as H36
    by (do 16 (destruct raw as [|? raw]; [done|]); by destruct raw).
  unfold name_ok, uuid_labels. rewrite !wire_labels_cons. cbn [length]. rewrite length_app, H36.
  split; [|apply (bool_decide_eq_true_1 (_ ≤ _)%nat); vm_compute; reflexivity].
  constructor; [|constructor; [|constructor]; by apply (bool_decide_eq_true_1 (label_ok _)); vm_compute].
  split; [lia|]. intros Hd. rewrite Forall_forall in Hc. apply Hc in Hd. unfold DOT in Hd. lia.
Qed.

Lemma uuid_labels_name raw : join_dot (uuid_labels raw) = generate_uuid_v4 raw ++ str ".local".
Proof. done. Qed.

Lemma uuid_labels_lower raw : bytes_ok raw → to_lower (join_dot (uuid_labels raw)) = join_dot (uuid_labels raw).
Proof.
  intros Hr. rewrite uuid_labels_name. unfold to_lower. rewrite fmap_app. f_equal.
  rewrite <- (list_fmap_id (generate_uuid_v4 raw)) at 2. apply list_fmap_ext.
  intros i c Hc. pose proof (uuid_text_chars _ (uuid_bytes_ok _ Hr)) as Hall.
  rewrite Forall_lookup in Hall. apply Hall in Hc. unfold tolower. rewrite decide_False by lia. done.
Qed.

(** Generated mDNS host names are well formed: for any 16 random bytes the
    generated UUID has the version digit 4 and a variant digit 8, 9, a or b at
    their places, and with the suffix ".local" it is a 42-byte name that
    [is_mdns_local_name] recognises and a signal can carry. *)
Theorem uuid_name_ok raw :
  length raw = 16%nat → bytes_ok raw →
  let name := generate_uuid_v4 raw ++ local_suffix in
  is_mdns_local_name name = true ∧ length name = 42%nat
  ∧ name !! 14%nat = Some 52
  ∧ (∃ d, name !! 19%nat = Some d ∧ d ∈ [56; 57; 97; 98]).
Proof.
  intros Hl Hok name.
  pose proof (uuid_bytes_ok _ Hok) as Hub.
  pose proof (uuid_text_no_nul _ Hub) as Hnul. fold (generate_uuid_v4 raw) in Hnul.
  assert (length (generate_uuid_v4 raw) = 36%nat ∧ generate_uuid_v4 raw !! 14%nat = Some 52
    ∧ ∃ d, generate_uuid_v4 raw !! 19%nat = Some d ∧ d ∈ [56; 57; 97; 98]) as (H36 & H14 & d & H19 & Hd).
  { do 16 (destruct raw as [|? raw]; [done|]). destruct raw; [|done].
    unfold bytes_ok in Hok. repeat (apply Forall_cons_1 in Hok as [? Hok]).
    unfold generate_uuid_v4, uuid_bytes, uuid_text. simpl.
    split; [done|]. split; [f_equal; by apply version_nibbles|].
    eexists; split; [done|]. by apply version_nibbles. }
  subst name. split; [|split; [|split]].
  - unfold is_mdns_local_name. rewrite length_app, H36.
    rewrite decide_False by (simpl; lia). rewrite decide_False by (unfold kMaxMdnsHostnameLen; simpl; lia).
    change (36 + length local_suffix - length local_suffix)%nat with 36%nat.
    rewrite <- H36, drop_app_length. rewrite bool_decide_true by (by vm_compute).
    rewrite forallb_app, Hnul. done.
  - by rewrite length_app, H36.
  - by rewrite lookup_app_l by lia.
  - exists d. by rewrite lookup_app_l by lia.
Qed.

Lemma uuid_name_ok_witness :
  is_mdns_local_name (generate_uuid_v4 (replicate 16 171) ++ local_suffix) = true.
Proof.
  apply (uuid_name_ok (replicate 16 171)); [reflexivity|].
  apply (bool_decide_eq_true_1 (Forall is_u8 (replicate 16 171))). vm_compute. reflexivity.
Defined.
