(* ===== verification/Mdns.v ===== *)
(** The mDNS manager (src/mdns.hpp, src/mdns.cpp, class [MdnsManager]): responder
    and resolver as one object on its strand.

    [PendingQuery] objects are shared between the pending table and their timers,
    so they live in a heap indexed by the number of the [resolve] call; the pending
    table holds references.  Sockets are their outcomes: [start] takes what the
    operating system answered.  The iteration order of the unordered pending table
    is the one of [map_to_list]; no theorem depends on it. *)

From stdpp Require Import gmap.
From S2P Require Import Prelude Bytes Inet Candidate MdnsCodec.

Definition kMdnsPort : Z := 5353.
Definition kMdnsIPv4MulticastAddr : bytes := str "224.0.0.251".
Definition kMdnsIPv6MulticastAddr : bytes := str "ff02::fb".

Record MdnsResolveResult := mkResult {
  rr_ipv4 : list bytes;
  rr_ipv6 : list bytes;
  rr_resolved : bool;
}.
#[global] Instance MdnsResolveResult_eta : Eta MdnsResolveResult := λ r,
  mkResult (rr_ipv4 r) (rr_ipv6 r) (rr_resolved r).

Record PendingQuery := mkQuery {
  pq_hostname_lc : bytes;
  pq_txn_id : Z;
  pq_accumulated : MdnsResolveResult;
  pq_fired : bool;
}.
#[global] Instance PendingQuery_eta : Eta PendingQuery := λ q,
  mkQuery (pq_hostname_lc q) (pq_txn_id q) (pq_accumulated q) (pq_fired q).

Record NameRecord := mkNames { nr_ipv4 : list bytes; nr_ipv6 : list bytes }.

Record MdnsManager := mkMdns {
  m_v4_open : bool;
  m_v6_open : bool;
  m_rx_v4 : bool;                          (* an [async_receive_from] is outstanding *)
  m_rx_v6 : bool;
  m_running : bool;
  m_stopping : bool;
  m_posted_stops : nat;                    (* strand halves of [stop] not yet run *)
  m_names : gmap bytes NameRecord;
  m_pending : gmap bytes (list nat);
  m_queries : gmap nat PendingQuery;       (* the heap of query objects *)
  m_local_v4 : list bytes;
  m_local_v6 : list bytes;
  m_calls : nat;                           (* [resolve] calls so far *)
}.
#[global] Instance MdnsManager_eta : Eta MdnsManager := λ m,
  mkMdns (m_v4_open m) (m_v6_open m) (m_rx_v4 m) (m_rx_v6 m) (m_running m) (m_stopping m)
    (m_posted_stops m) (m_names m) (m_pending m) (m_queries m) (m_local_v4 m) (m_local_v6 m)
    (m_calls m).

Inductive mdns_event :=
  | MResolved (call : nat) (r : MdnsResolveResult)     (* the callback of a [resolve] *)
  | MSendV4 (dst : bytes) (port : Z) (pkt : bytes)
  | MSendV6 (dst : bytes) (port : Z) (pkt : bytes)
  | MTimerSet (call : nat) (ms : Z)
  | MTimerCancel (call : nat)
  | MSocketsClosed.

Abbreviation mdns := (eff MdnsManager mdns_event).

Definition new_mdns : MdnsManager :=
  mkMdns false false false false false false 0 ∅ ∅ ∅ [] [] 0.

(** One entry of [getifaddrs]: flags and the address by family. *)
Inductive ifa_addr := IfaNone | IfaV4 (sin_addr : bytes) | IfaV6 (sin6_addr : bytes) | IfaOther.
Record ifaddrs := mkIfa { ifa_loopback : bool; ifa_up : bool; ifa_address : ifa_addr }.

(** [IN6_IS_ADDR_LINKLOCAL]: the prefix fe80::/10. *)
Definition in6_is_linklocal (a : bytes) : bool :=
  bool_decide (a !! 0%nat = Some 254) &&
  match a !! 1%nat with Some b => bool_decide (Z.land b 192 = 128) | None => false end.

Section enumerate.
Context `{InetOps}.

Definition enumerate_one (acc : list bytes * list bytes) (ifa : ifaddrs) : list bytes * list bytes :=
  let '(v4, v6) := acc in
  match ifa_address ifa with
  | IfaNone => (v4, v6)
  | addr =>
      if ifa_loopback ifa then (v4, v6) else
      if negb (ifa_up ifa) then (v4, v6) else
      match addr with
      | IfaV4 a => (v4 ++ [inet_ntop4 a], v6)
      | IfaV6 a => if in6_is_linklocal a then (v4, v6) else (v4, v6 ++ [inet_ntop6 a])
      | _ => (v4, v6)
      end
  end.

(** [None]: [getifaddrs] failed, the lists stay cleared. *)
Definition enumerate_local_addresses (ifas : option (list ifaddrs)) : list bytes * list bytes :=
  match ifas with
  | None => ([], [])
  | Some l => foldl enumerate_one ([], []) l
  end.
End enumerate.

(** [async_receive_v4], [async_receive_v6]: arm the next receive. *)
Definition async_receive (v6 : bool) : mdns unit :=
  m ← get;
  if m_stopping m then skip else
  if v6 then if m_v6_open m then modify (λ m, m <| m_rx_v6 := true |>) else skip
  else if m_v4_open m then modify (λ m, m <| m_rx_v4 := true |>) else skip.

(** [ifas]: the answer of [getifaddrs]; [v4_ok], [v6_ok]: the sockets could be
    opened and bound. *)
Definition start `{InetOps} (ifas : option (list ifaddrs)) (v4_ok v6_ok : bool) : mdns bool :=
  m ← get;
  if m_running m then mret true else
  let '(local_v4, local_v6) := enumerate_local_addresses ifas in
  modify (λ m, m <| m_running := true |> <| m_local_v4 := local_v4 |> <| m_local_v6 := local_v6 |>) ;;
  (if v4_ok then modify (λ m, m <| m_v4_open := true |>) else skip) ;;
  (if v6_ok then modify (λ m, m <| m_v6_open := true |>) else skip) ;;
  m ← get;
  if negb (m_v4_open m) && negb (m_v6_open m) then
    modify (λ m, m <| m_running := false |>) ;; mret false
  else
    (if m_v4_open m then async_receive false else skip) ;;
    (if m_v6_open m then async_receive true else skip) ;;
    mret true.

(** [if (!q->fired.exchange(true)) { before; if (q->cb) q->cb(q->accumulated); }];
    returns whether the callback ran. *)
Definition fire (call : nat) (before : mdns unit) : mdns bool :=
  m ← get;
  match m_queries m !! call with
  | Some q =>
      if pq_fired q then mret false else
      modify (λ m, m <| m_queries := <[call := q <| pq_fired := true |>]> (m_queries m) |>) ;;
      before ;;
      emit (MResolved call (pq_accumulated q)) ;;
      mret true
  | None => mret false
  end.

(** The caller's half of [stop] and the half it dispatches to the strand. *)
Definition stop : mdns unit :=
  m ← get;
  if negb (m_running m) then skip else
  modify (λ m, m <| m_running := false |> <| m_stopping := true |>
                 <| m_posted_stops := S (m_posted_stops m) |>).

Definition stop_on_strand : mdns unit :=
  m ← get;
  match m_posted_stops m with
  | O => skip
  | S n =>
      modify (λ m, m <| m_posted_stops := n |>) ;;
      emit MSocketsClosed ;;
      for_each (λ call, emit (MTimerCancel call) ;; fire call skip ;; skip)
        (concat (snd <$> map_to_list (m_pending m))) ;;
      modify (λ m, m <| m_pending := ∅ |>)
  end.

Definition register_name (hostname : bytes) : mdns unit :=
  modify (λ m, m <| m_names :=
    <[to_lower hostname := mkNames (m_local_v4 m) (m_local_v6 m)]> (m_names m) |>).

Definition unregister_name (hostname : bytes) : mdns unit :=
  modify (λ m, m <| m_names := delete (to_lower hostname) (m_names m) |>).

Definition send_packet (v6 : bool) (pkt : bytes) : mdns unit :=
  if bool_decide (pkt = []) then skip
  else if v6 then emit (MSendV6 kMdnsIPv6MulticastAddr kMdnsPort pkt)
  else emit (MSendV4 kMdnsIPv4MulticastAddr kMdnsPort pkt).

Definition send_query (hostname_lc : bytes) (txn_id : Z) : mdns unit :=
  m ← get;
  if m_stopping m then skip else
  let pkt_a := encode_dns_query hostname_lc txn_id false in
  let pkt_aaaa := encode_dns_query hostname_lc txn_id true in
  (if m_v4_open m then send_packet false pkt_a ;; send_packet false pkt_aaaa else skip) ;;
  (if m_v6_open m then send_packet true pkt_a ;; send_packet true pkt_aaaa else skip).

(** [txn] is the random 16-bit transaction id. *)
Definition resolve (hostname : bytes) (timeout txn : Z) : mdns unit :=
  let name_lc := to_lower hostname in
  m ← get;
  let call := m_calls m in
  match m_names m !! name_lc with
  | Some rec =>
      modify (λ m, m <| m_calls := S call |>) ;;
      emit (MResolved call (mkResult (nr_ipv4 rec) (nr_ipv6 rec) true))
  | None =>
      modify (λ m, m <| m_calls := S call |>
        <| m_queries := <[call := mkQuery name_lc txn (mkResult [] [] false) false]> (m_queries m) |>
        <| m_pending :=
             <[name_lc := default [] (m_pending m !! name_lc) ++ [call]]> (m_pending m) |>) ;;
      send_query name_lc txn ;;
      emit (MTimerSet call timeout)
  end.

(** Removing a query from the pending list of its name. *)
Definition remove_pending (call : nat) (hostname_lc : bytes) : mdns unit :=
  modify (λ m, m <| m_pending :=
    match m_pending m !! hostname_lc with
    | None => m_pending m
    | Some vec =>
        let vec := filter (λ c, c ≠ call) vec in
        if decide (vec = []) then delete hostname_lc (m_pending m)
        else <[hostname_lc := vec]> (m_pending m)
    end |>).

(** The timer handler of a query. *)
Definition on_query_timer (call : nat) (ec : bool) : mdns unit :=
  if ec then skip else
  m ← get;
  match m_queries m !! call with
  | None => skip
  | Some q => fire call (remove_pending call (pq_hostname_lc q)) ;; skip
  end.

(** Adding one answer to the accumulated result of a query. *)
Definition accumulate (ans : Answer) (r : MdnsResolveResult) : MdnsResolveResult :=
  let r :=
    if negb (bool_decide (an_ipv4 ans = [])) && negb (bool_decide (an_ipv4 ans ∈ rr_ipv4 r))
    then r <| rr_ipv4 := rr_ipv4 r ++ [an_ipv4 ans] |> <| rr_resolved := true |> else r in
  if negb (bool_decide (an_ipv6 ans = [])) && negb (bool_decide (an_ipv6 ans ∈ rr_ipv6 r))
  then r <| rr_ipv6 := rr_ipv6 r ++ [an_ipv6 ans] |> <| rr_resolved := true |> else r.

Definition accumulate_query (ans : Answer) (call : nat) : mdns unit :=
  modify (λ m, m <| m_queries :=
    alter (λ q, q <| pq_accumulated := accumulate ans (pq_accumulated q) |>) call (m_queries m) |>).

Definition on_answer (ans : Answer) : mdns unit :=
  m ← get;
  match m_pending m !! an_name ans with
  | None => skip
  | Some calls => for_each (accumulate_query ans) calls
  end.

(** The inner loop of the firing pass: the calls that stay pending. *)
Fixpoint fire_resolved (calls : list nat) : mdns (list nat) :=
  match calls with
  | [] => mret []
  | call :: calls =>
      m ← get;
      fired ← (if (match m_queries m !! call with
                   | Some q => rr_resolved (pq_accumulated q)
                   | None => false
                   end)
               then fire call (emit (MTimerCancel call)) else mret false);
      kept ← fire_resolved calls;
      mret (if fired : bool then kept else call :: kept)
  end.

Definition fire_entry (entry : bytes * list nat) : mdns unit :=
  kept ← fire_resolved (entry.2);
  modify (λ m, m <| m_pending :=
    if decide (kept = []) then delete (entry.1) (m_pending m)
    else <[entry.1 := kept]> (m_pending m) |>).

Section packets.
Context `{InetOps}.

(** [dst]: the questioner's address and port; [dst_v6]: whether it is IPv6. *)
Definition send_answer (hostname : bytes) (rec : NameRecord) (txn_id qtype : Z)
    (dst : bytes) (dst_port : Z) (dst_v6 : bool) : mdns unit :=
  m ← get;
  if m_stopping m then skip else
  let '(v4_out, v6_out) :=
    if decide (qtype = DNS_TYPE_A) then (nr_ipv4 rec, [])
    else if decide (qtype = DNS_TYPE_AAAA) then ([], nr_ipv6 rec)
    else (nr_ipv4 rec, nr_ipv6 rec) in
  if bool_decide (v4_out = []) && bool_decide (v6_out = []) then skip else
  let pkt := encode_dns_response hostname txn_id v4_out v6_out in
  if bool_decide (pkt = []) then skip else
  if dst_v6 && m_v6_open m then
    emit (MSendV6 kMdnsIPv6MulticastAddr kMdnsPort pkt) ;; emit (MSendV6 dst dst_port pkt)
  else if m_v4_open m then
    emit (MSendV4 kMdnsIPv4MulticastAddr kMdnsPort pkt) ;; emit (MSendV4 dst dst_port pkt)
  else skip.

Definition on_packet (data : bytes) (src : bytes) (src_port : Z) (src_v6 : bool) : mdns unit :=
  match default None (parse_dns_message data) with
  | None => skip
  | Some parsed =>
      if negb (dns_is_response parsed) then
        if bool_decide (dns_question parsed = []) then skip else
        m ← get;
        match m_names m !! dns_question parsed with
        | None => skip
        | Some rec =>
            send_answer (dns_question parsed) rec (dns_txn_id parsed) (dns_qtype parsed)
              src src_port src_v6
        end
      else
        for_each on_answer (dns_answers parsed) ;;
        m ← get;
        for_each fire_entry (map_to_list (m_pending m))
  end.

(** The receive handler of a socket: [data] is the datagram, [ec] a failed
    receive.  It runs only while a receive is outstanding. *)
Definition on_receive (v6 : bool) (ec : bool) (data : bytes) (src : bytes) (src_port : Z)
    : mdns unit :=
  m ← get;
  if negb (if v6 then m_rx_v6 m else m_rx_v4 m) then skip else
  modify (λ m, if v6 then m <| m_rx_v6 := false |> else m <| m_rx_v4 := false |>) ;;
  if ec || m_stopping m then skip else
  (if decide (data = []) then skip else on_packet data src src_port v6) ;;
  async_receive v6.

(** Everything that can happen to the manager, in any order. *)
Inductive mdns_input :=
  | IStart (ifas : option (list ifaddrs)) (v4_ok v6_ok : bool)
  | IStop
  | IStopOnStrand
  | IRegister (hostname : bytes)
  | IUnregister (hostname : bytes)
  | IResolve (hostname : bytes) (timeout txn : Z)
  | IQueryTimer (call : nat) (ec : bool)
  | IReceive (v6 ec : bool) (data src : bytes) (port : Z).

Definition mdns_handle (i : mdns_input) : mdns unit :=
  match i with
  | IStart ifas v4 v6 => start ifas v4 v6 ;; skip
  | IStop => stop
  | IStopOnStrand => stop_on_strand
  | IRegister h => register_name h
  | IUnregister h => unregister_name h
  | IResolve h t txn => resolve h t txn
  | IQueryTimer c ec => on_query_timer c ec
  | IReceive v6 ec data src port => on_receive v6 ec data src port
  end.

Definition mdns_run (is_ : list mdns_input) : mdns unit := for_each mdns_handle is_.
End packets.

(** * The callback of a [resolve] runs once *)

Definition is_callback (call : nat) (e : mdns_event) : bool :=
  match e with MResolved c _ => bool_decide (c = call) | _ => false end.

(** How often the callback of a call ran. *)
Definition callbacks (call : nat) (es : list mdns_event) : nat :=
  length (List.filter (is_callback call) es).

(** Whether the call is over: made, and not an unfired query. *)
Definition completed (m : MdnsManager) (call : nat) : nat :=
  match m_queries m !! call with
  | Some q => if pq_fired q then 1 else 0
  | None => if decide (call < m_calls m)%nat then 1 else 0
  end%nat.

Definition heap_wf (m : MdnsManager) : Prop :=
  ∀ call, is_Some (m_queries m !! call) → (call < m_calls m)%nat.

(** The calls completed by a handler are those whose callback it ran. *)
Definition balanced (m : MdnsManager) (o : list mdns_event) (m' : MdnsManager) : Prop :=
  heap_wf m → heap_wf m' ∧ ∀ call, (callbacks call o + completed m call = completed m' call)%nat.

(** Neither the heap nor the call counter changes and no callback runs. *)
Definition quiet (m : MdnsManager) (o : list mdns_event) (m' : MdnsManager) : Prop :=
  m_queries m' = m_queries m ∧ m_calls m' = m_calls m ∧ ∀ call, callbacks call o = 0%nat.

Lemma callbacks_app call o1 o2 :
  callbacks call (o1 ++ o2) = (callbacks call o1 + callbacks call o2)%nat.
Proof. unfold callbacks. by rewrite List.filter_app, length_app. Qed.

#[export] Instance balanced_trace : TraceOrder balanced.
Proof.
  split; [by intros m; split|].
  intros m1 o1 m2 o2 m3 H1 H2 Hwf. destruct (H1 Hwf) as [Hwf2 Hc1].
  destruct (H2 Hwf2) as [Hwf3 Hc2]. split; [done|].
  intros call. rewrite callbacks_app, <- Hc2, <- Hc1. lia.
Qed.

#[export] Instance quiet_trace : TraceOrder quiet.
Proof.
  split; [by intros m|].
  intros m1 o1 m2 o2 m3 (?&?&H1) (?&?&H2). split_and!; [congruence..|].
  intros call. by rewrite callbacks_app, H1, H2.
Qed.

Lemma quiet_balanced m o m' : quiet m o m' → balanced m o m'.
Proof.
  intros (Hq & Hc & Ho) Hwf. unfold heap_wf, completed. rewrite Hq, Hc. split; [done|].
  intros call. by rewrite Ho.
Qed.

Lemma quiet_is_balanced {A} (p : mdns A) : traces quiet p → traces balanced p.
Proof. intros Hp m. apply quiet_balanced, Hp. Qed.

Ltac quiet_auto := traces_auto ltac:(intros; repeat case_match; by split_and!).

Lemma fire_balanced call before : traces quiet before → traces balanced (fire call before).
Proof.
  intros Hb m. unfold fire. rewrite outputs_get, final_get.
  destruct (m_queries m !! call) as [q|] eqn:Hq; [|apply trace_refl].
  destruct (pq_fired q) eqn:Hf; [apply trace_refl|].
  rewrite outputs_modify, final_modify.
  set (m1 := m <| m_queries := _ |>).
  assert (m_queries m1 = <[call := q <| pq_fired := true |>]> (m_queries m)) as Hq1 by done.
  rewrite outputs_bind, final_bind. destruct (Hb m1) as (Hq2 & Hc2 & Ho).
  set (m2 := final before m1) in *.
  intros Hwf. split.
  - intros c. change (final _ m2) with m2. rewrite Hq2, Hc2, Hq1. change (m_calls m1) with (m_calls m).
    intros [<- | [_ Hs]]%lookup_insert_is_Some; apply Hwf; [by rewrite Hq | done].
  - intros c. change (final _ m2) with m2. rewrite callbacks_app, Ho.
    unfold completed. rewrite Hq2, Hc2, Hq1. change (m_calls m1) with (m_calls m).
    unfold callbacks. cbn.
    destruct (decide (call = c)) as [->|Hne].
    + rewrite bool_decide_true, Hq, Hf by done. by rewrite lookup_insert_eq.
    + rewrite bool_decide_false by done. by rewrite lookup_insert_ne.
Qed.

Lemma heap_wf_fresh m : heap_wf m → m_queries m !! m_calls m = None.
Proof.
  intros Hwf. destruct (m_queries m !! m_calls m) eqn:Hq; [|done].
  exfalso. apply (Nat.lt_irrefl (m_calls m)), Hwf. by rewrite Hq.
Qed.

(** A new unfired query under the next call number. *)
Lemma new_query_balanced m m' q :
  m_queries m' = <[m_calls m := q]> (m_queries m) → m_calls m' = S (m_calls m) →
  pq_fired q = false → balanced m [] m'.
Proof.
  intros Hq Hc Hf Hwf. pose proof (heap_wf_fresh m Hwf) as Hn.
  unfold heap_wf, completed. rewrite Hq, Hc. split; intros c.
  - intros [<- | [_ Hs]]%lookup_insert_is_Some; [lia|]. apply Hwf in Hs. lia.
  - destruct (decide (m_calls m = c)) as [<-|].
    + rewrite lookup_insert_eq, Hn, Hf, decide_False by lia. done.
    + rewrite lookup_insert_ne by done.
      destruct (m_queries m !! c); [done|]. cbn. repeat case_decide; lia.
Qed.

(** A call answered at once. *)
Lemma local_answer_balanced m m' r :
  m_queries m' = m_queries m → m_calls m' = S (m_calls m) →
  balanced m [MResolved (m_calls m) r] m'.
Proof.
  intros Hq Hc Hwf. pose proof (heap_wf_fresh m Hwf) as Hn.
  unfold heap_wf, completed, callbacks. rewrite Hq, Hc. split; intros c.
  - intros Hs%Hwf. lia.
  - cbn. case_bool_decide as Hd; [subst c|]; cbn [length].
    + by rewrite Hn, decide_False, decide_True by lia.
    + destruct (m_queries m !! c); [done|]. repeat case_decide; lia.
Qed.

Lemma resolve_balanced hostname timeout txn : traces balanced (resolve hostname timeout txn).
Proof.
  intros m. unfold resolve. rewrite outputs_get, final_get.
  destruct (m_names m !! _) as [rec|]; rewrite outputs_modify, final_modify.
  - by apply local_answer_balanced.
  - match goal with |- balanced _ (outputs ?p ?m1) _ =>
      apply (trace_trans m [] m1 (outputs p m1) (final p m1));
      [ by eapply new_query_balanced
      | apply quiet_balanced; generalize m1; change (traces quiet p) ] end.
    unfold send_query, send_packet. quiet_auto.
Qed.

Lemma accumulate_query_balanced ans call : traces balanced (accumulate_query ans call).
Proof.
  apply traces_modify. intros m Hwf. unfold heap_wf, completed. cbn. split; intros c.
  - rewrite lookup_alter_is_Some. apply Hwf.
  - destruct (decide (call = c)) as [<-|].
    + rewrite lookup_alter_eq. by destruct (m_queries m !! call).
    + by rewrite lookup_alter_ne.
Qed.

Lemma fire_resolved_balanced calls : traces balanced (fire_resolved calls).
Proof.
  induction calls as [|call calls IH]; cbn [fire_resolved]; [apply traces_ret, _|].
  apply traces_bind; [exact _ | apply traces_get, _ | intros m].
  apply traces_bind; [exact _ | | intros fired].
  - match goal with |- traces _ (if ?b then _ else _) => destruct b end; [|apply traces_ret, _].
    apply fire_balanced. quiet_auto.
  - apply traces_bind; [exact _ | exact IH | intros kept; apply traces_ret, _].
Qed.

Ltac balanced_step :=
  match goal with
  | |- traces quiet _ => solve [quiet_auto]
  | |- traces balanced (fire _ _) => apply fire_balanced
  | |- traces balanced (accumulate_query _ _) => apply accumulate_query_balanced
  | |- traces balanced (resolve _ _ _) => apply resolve_balanced
  | |- traces balanced (fire_resolved _) => apply fire_resolved_balanced
  | |- traces balanced (_ ≫= _) => apply traces_bind; [exact _| |]; intros
  | |- traces balanced (for_each _ _) => apply traces_for_each; [exact _|]; intros
  | |- traces balanced (modify _) => apply quiet_is_balanced; solve [quiet_auto]
  | |- traces balanced (emit _) => apply quiet_is_balanced; solve [quiet_auto]
  | |- traces balanced get => apply traces_get, _
  | |- traces balanced skip => apply traces_skip, _
  | |- traces balanced (mret _) => apply traces_ret, _
  | |- _ => case_match
  end.

Section once.
Context `{InetOps}.

Lemma mdns_handle_balanced i : traces balanced (mdns_handle i).
Proof.
  destruct i; cbn [mdns_handle];
    unfold start, stop, stop_on_strand, register_name, unregister_name,
      on_query_timer, on_receive, on_packet, send_answer, on_answer, fire_entry,
      remove_pending, async_receive;
    repeat balanced_step.
Qed.

Lemma mdns_run_balanced ins : traces balanced (mdns_run ins).
Proof. apply traces_for_each; [exact _|]. apply mdns_handle_balanced. Qed.

Lemma new_mdns_wf : heap_wf new_mdns.
Proof. intros c [q Hq]. cbn in Hq. by rewrite lookup_empty in Hq. Qed.

Lemma callbacks_completed ins call :
  callbacks call (outputs (mdns_run ins) new_mdns)
  = completed (final (mdns_run ins) new_mdns) call.
Proof.
  destruct (mdns_run_balanced ins new_mdns new_mdns_wf) as [_ <-]. unfold completed.
  cbn. rewrite lookup_empty. by rewrite Nat.add_0_r.
Qed.

Lemma completed_le m call : (completed m call ≤ 1)%nat.
Proof. unfold completed. repeat case_match; lia. Qed.

(** An expired timer leaves its call completed. *)
Lemma timer_completes m call :
  heap_wf m →
  completed (final (on_query_timer call false) m) call
  = if decide (call < m_calls m)%nat then 1%nat else 0%nat.
Proof.
  intros Hwf. unfold on_query_timer. rewrite final_get.
  destruct (m_queries m !! call) as [q|] eqn:Hq.
  - rewrite decide_True by (apply Hwf; by rewrite Hq).
    rewrite final_bind. change (final skip ?x) with x.
    unfold fire. rewrite final_get, Hq. unfold completed.
    destruct (pq_fired q) eqn:Hf; [cbn; by rewrite Hq, Hf|]. cbn. by rewrite lookup_insert_eq.
  - change (final skip m) with m. unfold completed. by rewrite Hq.
Qed.

(** C26 (mDNS callbacks): whatever the order of [start], [stop], registrations,
    resolutions, packets and timers, the callback of a [resolve] call has run exactly
    as often as the call is completed, so at most once; and once its timer expires,
    exactly once for a call that was made and never for another. *)
Theorem mdns_callback_exactly_once ins call :
  callbacks call (outputs (mdns_run ins) new_mdns)
    = completed (final (mdns_run ins) new_mdns) call
  ∧ (callbacks call (outputs (mdns_run ins) new_mdns) ≤ 1)%nat
  ∧ callbacks call (outputs (mdns_run (ins ++ [IQueryTimer call false])) new_mdns)
    = if decide (call < m_calls (final (mdns_run ins) new_mdns))%nat then 1%nat else 0%nat.
Proof.
  rewrite !callbacks_completed. split_and!; [done | apply completed_le |].
  unfold mdns_run. rewrite final_for_each_app, final_for_each_cons.
  apply timer_completes. apply (mdns_run_balanced ins new_mdns new_mdns_wf).
Qed.

End once.

(** * A stopped manager *)

Definition not_sent (e : mdns_event) : Prop :=
  match e with MSendV4 _ _ _ | MSendV6 _ _ _ => False | _ => True end.

(** Once stopping, the manager stays so, sends nothing and arms no receive. *)
Definition silent (m : MdnsManager) (o : list mdns_event) (m' : MdnsManager) : Prop :=
  m_stopping m = true →
  m_stopping m' = true ∧ Forall not_sent o ∧
  (m_rx_v4 m' = true → m_rx_v4 m = true) ∧ (m_rx_v6 m' = true → m_rx_v6 m = true).

#[export] Instance silent_trace : TraceOrder silent.
Proof.
  split; [by intros m Hm|].
  intros m1 o1 m2 o2 m3 H1 H2 Hs. destruct (H1 Hs) as (Hs2 & Ho1 & ? & ?).
  destruct (H2 Hs2) as (Hs3 & Ho2 & ? & ?). split_and!; auto. by apply Forall_app.
Qed.

Lemma send_query_silent h txn : traces silent (send_query h txn).
Proof. intros m Hs. unfold send_query. rewrite outputs_get, final_get, Hs. by split_and!. Qed.

Lemma async_receive_silent v6 : traces silent (async_receive v6).
Proof. intros m Hs. unfold async_receive. rewrite outputs_get, final_get, Hs. by split_and!. Qed.

Section silent.
Context `{InetOps}.

Lemma send_answer_silent h rec txn qt dst port v6 :
  traces silent (send_answer h rec txn qt dst port v6).
Proof. intros m Hs. unfold send_answer. rewrite outputs_get, final_get, Hs. by split_and!. Qed.

Ltac silent_leaf := intros ? ?; repeat case_match; split_and!; solve [done | repeat constructor].

Lemma fire_silent call before : traces silent before → traces silent (fire call before).
Proof. intros Hb. unfold fire. traces_auto ltac:(silent_leaf). Qed.

Lemma fire_resolved_silent calls : traces silent (fire_resolved calls).
Proof.
  induction calls as [|call calls IH]; cbn [fire_resolved]; traces_auto ltac:(silent_leaf);
    apply fire_silent; traces_auto ltac:(silent_leaf).
Qed.

Ltac silent_step :=
  match goal with
  | |- traces silent (send_query _ _) => apply send_query_silent
  | |- traces silent (send_answer _ _ _ _ _ _ _) => apply send_answer_silent
  | |- traces silent (async_receive _) => apply async_receive_silent
  | |- traces silent (fire _ _) => apply fire_silent
  | |- traces silent (fire_resolved _) => apply fire_resolved_silent
  | |- traces silent (_ ≫= _) => apply traces_bind; [exact _| |]; intros
  | |- traces silent (for_each _ _) => apply traces_for_each; [exact _|]; intros
  | |- traces silent (modify _) => apply traces_modify; solve [silent_leaf]
  | |- traces silent (emit _) => apply traces_emit; solve [silent_leaf]
  | |- traces silent get => apply traces_get, _
  | |- traces silent skip => apply traces_skip, _
  | |- traces silent (mret _) => apply traces_ret, _
  | |- _ => case_match
  end.

Lemma mdns_handle_silent i : traces silent (mdns_handle i).
Proof.
  destruct i; cbn [mdns_handle];
    unfold start, stop, stop_on_strand, register_name, unregister_name, resolve,
      on_query_timer, on_receive, on_packet, on_answer, fire_entry, remove_pending,
      accumulate_query;
    repeat silent_step.
Qed.

(** Stop is final: from the moment [stop] ran on a running manager, no later
    input -- a new [start] included -- makes it send a packet or arm a receive that
    was not outstanding: a stopped manager that is started again stays deaf and mute. *)
Theorem mdns_stop_is_final m ins :
  m_running m = true →
  let m1 := final stop m in
  Forall not_sent (outputs (mdns_run ins) m1)
  ∧ (m_rx_v4 (final (mdns_run ins) m1) = true → m_rx_v4 m = true)
  ∧ (m_rx_v6 (final (mdns_run ins) m1) = true → m_rx_v6 m = true).
Proof.
  intros Hr m1. unfold m1, stop. rewrite final_get, Hr. cbn [negb].
  set (m2 := final _ m).
  assert (traces silent (mdns_run ins)) as Ht.
  { apply traces_for_each; [exact _|]. apply mdns_handle_silent. }
  by destruct (Ht m2) as (_ & ? & ? & ?).
Qed.
End silent.

(** Stopping and starting again: [start] reports success, no receive is armed. *)
Lemma mdns_stop_is_final_witness :
  let m := final (start (H := InetRef.ops) (Some []) true true) new_mdns in
  let ins := [IStopOnStrand; IStart (Some []) true true; IResolve (str "a.local") 5000 7] in
  m_running (final (mdns_run (H := InetRef.ops) ins) (final stop m)) = true
  ∧ Forall not_sent (outputs (mdns_run (H := InetRef.ops) ins) (final stop m)).
Proof.
  split; [reflexivity|]. apply (mdns_stop_is_final (H := InetRef.ops)). reflexivity.
Defined.
