(* ===== verification/DnsExt.v ===== *)
(** The DNS extension client (src/dns_ext_client.hpp, src/dns_ext_client.cpp): SRV
    rdata decoding, the ordering of SRV targets and the STUN/TURN service URIs.

    [gn.dns] and the URI parser of the SDK are parameters: the records the
    extension emits, [gn::uri_has_control_bytes] and [gn::parse_uri]. *)

From S2P Require Import Prelude Bytes Inet Candidate MdnsCodec.

Record ResolvedSrv := mkSrv {
  srv_target : bytes;
  srv_port : Z;
  srv_priority : Z;
  srv_weight : Z;
  srv_ttl_s : Z;
}.
#[global] Instance ResolvedSrv_eta : Eta ResolvedSrv := λ r,
  mkSrv (srv_target r) (srv_port r) (srv_priority r) (srv_weight r) (srv_ttl_s r).
#[global] Instance ResolvedSrv_eq_dec : EqDecision ResolvedSrv.
Proof. solve_decision. Defined.

(** The loop of [decode_name] at [cursor]; [Some None] is [!ok], [None] a read
    outside [src].  [fuel] bounds the iterations; every one advances [cursor]. *)
Fixpoint decode_name_loop (fuel : nat) (src : bytes) (cursor : nat) (name : bytes)
    : option (option (bytes * nat)) :=
  match fuel with
  | O => None
  | S fuel =>
      if decide (cursor < length src)%nat then
        lb ← src !! cursor;
        let cursor := S cursor in
        if decide (Z.land lb 192 ≠ 0) then Some None else
        if decide (lb = 0) then Some (Some (name, cursor)) else
        if decide (lb > 63) then Some None else
        if decide (cursor + Z.to_nat lb > length src)%nat then Some None else
        let name := if decide (name = []) then name else name ++ str "." in
        label ← read_bytes src cursor (Z.to_nat lb);
        decode_name_loop fuel src (cursor + Z.to_nat lb) (name ++ label)
      else Some None
  end.

Definition decode_name (src : bytes) : option (option (bytes * nat)) :=
  decode_name_loop (S (length src)) src 0 [].

Definition parse_srv_blob (rdata : bytes) : option (option ResolvedSrv) :=
  if decide (length rdata < 7)%nat then Some None else
  priority ← read16 rdata 0;
  weight ← read16 rdata 2;
  port ← read16 rdata 4;
  nv ← decode_name (drop 6 rdata);
  match nv with
  | None => Some None
  | Some (name, _) => Some (Some (mkSrv name port priority weight 0))
  end.

(** A record the extension emits. *)
Record dns_record := mkRecord { rec_type : Z; rec_ttl_s : Z; rec_rdata : bytes }.

(** [gn_dns_api_t]: [resolve name type max] emits the records of a query; [None] is a
    null slot. *)
Record gn_dns_api := mkDnsApi {
  dv_size : nat;
  dv_resolve : option (bytes → Z → Z → list dns_record);
}.

(** [DnsExtClient::query]: the slot the client calls.  [raw] is [None] when the host
    has no query slot, refuses or returns null. *)
Definition dns_query (sizeof_api : nat) (raw : option gn_dns_api)
    : option (bytes → Z → Z → list dns_record) :=
  vt ← raw;
  if decide (dv_size vt < sizeof_api)%nat then None else dv_resolve vt.

(** [std::string]'s [operator<] on byte values. *)
Fixpoint str_lt (a b : bytes) : bool :=
  match a, b with
  | _, [] => false
  | [], _ :: _ => true
  | x :: a, y :: b => if decide (x < y) then true else if decide (y < x) then false else str_lt a b
  end.

Definition srv_lt (a b : ResolvedSrv) : bool :=
  if decide (srv_priority a ≠ srv_priority b) then bool_decide (srv_priority a < srv_priority b)
  else if decide (srv_weight a ≠ srv_weight b) then bool_decide (srv_weight a > srv_weight b)
  else str_lt (srv_target a) (srv_target b).

(** [GN_DNS_RR_SRV]: the SDK's record type; [resolve name type max]: the records
    [gn.dns] emits for a query. *)
Section client.
Variable GN_DNS_RR_SRV : Z.
Variable resolve : bytes → Z → Z → list dns_record.

Definition srv_emit (out : list ResolvedSrv) (rec : dns_record) : list ResolvedSrv :=
  if decide (rec_type rec ≠ GN_DNS_RR_SRV) then out else
  match default None (parse_srv_blob (rec_rdata rec)) with
  | None => out
  | Some p => out ++ [p <| srv_ttl_s := rec_ttl_s rec |>]
  end.

Definition resolve_srv (srv_name : bytes) (max_results : Z) : list ResolvedSrv :=
  std_sort srv_lt (foldl srv_emit [] (resolve srv_name GN_DNS_RR_SRV max_results)).

Definition resolve_service (service proto host : bytes) (max_results : Z) : list ResolvedSrv :=
  resolve_srv (str "_" ++ service ++ str "." ++ str "_" ++ proto ++ str "." ++ host) max_results.
End client.

(** * Service URIs *)

Record ServiceUri := mkUri { uri_scheme : bytes; uri_host : bytes; uri_port : Z }.

(** [string_view::find] and [rfind] of one character. *)
Fixpoint find_char (c : Z) (s : bytes) : option nat :=
  match s with
  | [] => None
  | x :: s => if decide (x = c) then Some O else S <$> find_char c s
  end.

Fixpoint rfind_char (c : Z) (s : bytes) : option nat :=
  match s with
  | [] => None
  | x :: s => match rfind_char c s with
              | Some n => Some (S n)
              | None => if decide (x = c) then Some O else None
              end
  end.

Definition CH_COLON : Z := 58.
Definition CH_SLASH : Z := 47.
Definition CH_AT : Z := 64.
Definition CH_LBRACKET : Z := 91.

(** Drop an optional [//]. *)
Definition strip_authority (rest : bytes) : bytes :=
  match rest with
  | a :: b :: rest' =>
      if decide (a = CH_SLASH ∧ b = CH_SLASH) then rest' else rest
  | _ => rest
  end.

(** Drop what precedes the rightmost [@]. *)
Definition strip_userinfo (rest : bytes) : bytes :=
  match rfind_char CH_AT rest with
  | None => rest
  | Some at_ => drop (S at_) rest
  end.

Section uri.
Variable uri_has_control_bytes : bytes → bool.
Variable parse_uri : bytes → option (bytes * Z).    (* host and port *)

Definition parse_service_uri (raw : bytes) : option ServiceUri :=
  if uri_has_control_bytes raw then None else
  scheme_end ← find_char CH_COLON raw;
  let scheme := take scheme_end raw in
  if decide (scheme ≠ str "stun" ∧ scheme ≠ str "turn") then None else
  let rest := drop (S scheme_end) raw in
  if decide (rest = []) then None else
  let rest := strip_authority rest in
  if decide (rest = []) then None else
  let rest := strip_userinfo rest in
  match rest with
  | [] => None
  | c :: _ =>
      if decide (c = CH_LBRACKET) then None else
      match find_char CH_COLON rest with
      | None => Some (mkUri scheme rest 0)
      | Some _ =>
          match parse_uri (scheme ++ str "://" ++ rest) with
          | None => None
          | Some (host, port) =>
              if decide (host = [] ∨ port = 0) then None else Some (mkUri scheme host port)
          end
      end
  end.
End uri.

(** * Decoding *)

Lemma decode_name_loop_safe fuel src cursor name :
  (length src < fuel + cursor)%nat → (0 < fuel)%nat → is_Some (decode_name_loop fuel src cursor name).
Proof.
  revert cursor name. induction fuel as [|fuel IH]; intros cursor name Hf Hp; [lia|].
  cbn [decode_name_loop]. case_decide as Hc; [|done].
  destruct (lookup_lt_is_Some_2 src cursor Hc) as [lb ->]. rewrite bind_some.
  repeat (case_decide; [done|]). rewrite read_bytes_in by lia. rewrite bind_some. apply IH; lia.
Qed.

Lemma decode_name_safe src : is_Some (decode_name src).
Proof. apply decode_name_loop_safe; lia. Qed.

Lemma parse_srv_blob_safe rdata : is_Some (parse_srv_blob rdata).
Proof.
  unfold parse_srv_blob. case_decide; [done|].
  destruct (read16_in rdata 0) as [? ->]; [lia|]. rewrite bind_some.
  destruct (read16_in rdata 2) as [? ->]; [lia|]. rewrite bind_some.
  destruct (read16_in rdata 4) as [? ->]; [lia|]. rewrite bind_some.
  destruct (decode_name_safe (drop 6 rdata)) as [nv ->]. rewrite bind_some.
  by destruct nv as [[? ?]|].
Qed.

(** A label of RFC 1035: 1 to 63 bytes, any bytes. *)
Definition srv_label (l : bytes) : Prop := (0 < length l ≤ 63)%nat.

#[global] Instance srv_label_dec l : Decision (srv_label l).
Proof. unfold srv_label. apply _. Defined.

(** One label added to the dotted name. *)
Definition push_label (name l : bytes) : bytes :=
  (if decide (name = []) then name else name ++ str ".") ++ l.

Lemma push_labels name ls :
  Forall srv_label ls → ls ≠ [] →
  foldl push_label name ls = (if decide (name = []) then [] else name ++ str ".") ++ join_dot ls.
Proof.
  revert name. induction ls as [|l ls IH]; intros name Hok Hne; [done|].
  apply Forall_cons_1 in Hok as [Hl Hls]. unfold srv_label in Hl.
  destruct ls as [|l' ls]; cbn [foldl].
  - unfold push_label. by repeat case_decide; subst.
  - assert (push_label name l ≠ []) as Hn.
    { unfold push_label. intros [_ ->]%app_nil. cbn in Hl. lia. }
    change (foldl push_label (push_label (push_label name l) l') ls)
      with (foldl push_label (push_label name l) (l' :: ls)).
    rewrite IH by done. rewrite decide_False by done.
    change (join_dot (l :: l' :: ls)) with (l ++ DOT :: join_dot (l' :: ls)).
    unfold push_label. change (str ".") with [DOT]. rewrite <- !app_assoc. cbn [app].
    repeat case_decide; by subst.
Qed.

Lemma decode_name_loop_labels fuel ls pre post name :
  Forall srv_label ls → (length ls < fuel)%nat →
  decode_name_loop fuel (pre ++ wire_labels ls ++ 0 :: post) (length pre) name
  = Some (Some (foldl push_label name ls, (length pre + length (wire_labels ls) + 1)%nat)).
Proof.
  revert fuel pre name. induction ls as [|l ls IH]; intros fuel pre name Hok Hf.
  - destruct fuel as [|fuel]; [lia|]. cbn [decode_name_loop].
    change (wire_labels []) with (@nil Z). rewrite app_nil_l.
    rewrite decide_True by (rewrite length_app, length_cons; lia).
    rewrite list_lookup_middle by done. rewrite bind_some.
    rewrite decide_False by (intros []; reflexivity). rewrite decide_True by done.
    cbn [foldl length]. do 3 f_equal. lia.
  - apply Forall_cons_1 in Hok as [Hl Hls]. unfold srv_label in Hl.
    rewrite wire_labels_cons, length_cons, length_app in *. cbn [length] in Hf.
    destruct fuel as [|fuel]; [lia|]. cbn [decode_name_loop].
    rewrite <- app_comm_cons.
    rewrite decide_True by (rewrite length_app, length_cons; lia).
    rewrite list_lookup_middle by done. rewrite bind_some.
    rewrite label_byte by lia.
    rewrite decide_False by auto. rewrite decide_False by lia. rewrite decide_False by lia.
    rewrite decide_False by (rewrite !length_app, length_cons, !length_app; lia).
    rewrite Nat2Z.id.
    replace (read_bytes (pre ++ Z.of_nat (length l) :: (l ++ wire_labels ls) ++ 0 :: post)
               (S (length pre)) (length l)) with (Some l); [rewrite bind_some|].
    + set (n := Z.of_nat (length l)).
      replace (pre ++ n :: (l ++ wire_labels ls) ++ 0 :: post)
        with ((pre ++ n :: l) ++ wire_labels ls ++ 0 :: post) by (by rewrite <- !app_assoc).
      replace (S (length pre) + length l)%nat with (length (pre ++ n :: l))
        by (rewrite length_app, length_cons; lia).
      rewrite IH by (done || lia). cbn [foldl]. unfold push_label at 2.
      do 3 f_equal. rewrite length_app, length_cons. lia.
    + set (n := Z.of_nat (length l)).
      rewrite <- app_assoc. change (n :: l ++ ?x) with ([n] ++ l ++ x).
      rewrite (app_assoc pre [n]). symmetry. apply read_bytes_at; [|done].
      rewrite length_app; cbn; lia.
Qed.

(** SRV decoding: the SRV rdata of a target made of valid labels -- priority,
    weight and port in network order, then the uncompressed name -- decodes to those
    fields and the dotted name, whatever follows the name; on any other rdata the
    decoder still reads only inside it. *)
Theorem srv_blob_decodes priority weight port ls post rdata :
  is_u16 priority → is_u16 weight → is_u16 port → Forall srv_label ls →
  parse_srv_blob (write16 priority ++ write16 weight ++ write16 port ++ wire_labels ls ++ 0 :: post)
    = Some (Some (mkSrv (join_dot ls) port priority weight 0))
  ∧ is_Some (parse_srv_blob rdata).
Proof.
  intros Hp Hw Ho Hls. split; [|apply parse_srv_blob_safe].
  set (name := wire_labels ls ++ 0 :: post). unfold parse_srv_blob.
  rewrite decide_False
    by (unfold name; rewrite !length_app, !length_write16, length_cons; lia).
  rewrite (read16_write16 priority), bind_some.
  rewrite (read16_at (write16 priority) weight _ 2) by reflexivity. rewrite bind_some.
  rewrite (app_assoc (write16 priority)).
  rewrite (read16_at (write16 priority ++ write16 weight) port _ 4)
    by reflexivity. rewrite bind_some.
  rewrite (app_assoc (write16 priority ++ write16 weight)).
  rewrite drop_app_length' by reflexivity.
  unfold decode_name, name.
  rewrite (decode_name_loop_labels _ ls [] post []); [|done|].
  - rewrite bind_some. rewrite !u16_id by done. do 3 f_equal.
    destruct ls as [|l ls]; [done|]. by rewrite push_labels.
  - rewrite length_app, length_cons.
    assert (length ls ≤ length (wire_labels ls))%nat; [|lia].
    clear. induction ls as [|l ls IH]; [done|].
    rewrite wire_labels_cons, !length_cons, length_app. lia.
Qed.

Lemma srv_blob_decodes_witness :
  parse_srv_blob (write16 10 ++ write16 60 ++ write16 3478
                  ++ wire_labels [str "turn"; str "example"] ++ 0 :: [])
    = Some (Some (mkSrv (str "turn.example") 3478 10 60 0))
  ∧ is_Some (parse_srv_blob [1; 2]).
Proof.
  apply (srv_blob_decodes 10 60 3478 [str "turn"; str "example"] [] [1; 2]);
    [unfold_ints; lia..|].
  apply (bool_decide_eq_true_1 (Forall srv_label [str "turn"; str "example"])).
  vm_compute. reflexivity.
Defined.

Lemma decode_name_loop_exact fuel src cursor name n c :
  bytes_ok src → decode_name_loop fuel src cursor name = Some (Some (n, c)) →
  ∃ ls post, Forall srv_label ls ∧ drop cursor src = wire_labels ls ++ 0 :: post
    ∧ n = foldl push_label name ls.
Proof.
  intros Hok. revert cursor name. induction fuel as [|fuel IH]; intros cursor name; [done|].
  cbn [decode_name_loop]. case_decide as Hc; [|done].
  destruct (src !! cursor) as [lb|] eqn:Hlb; [|done]. rewrite bind_some.
  pose proof (bytes_ok_lookup _ _ _ Hok Hlb) as Hr. rewrite (drop_S _ _ _ Hlb).
  case_decide; [done|]. case_decide as H0.
  { intros [= <- _]. exists [], (drop (S cursor) src). by subst lb. }
  case_decide; [done|]. case_decide as Hle; [done|]. rewrite read_bytes_in, bind_some by lia.
  intros (ls & post & Hls & Hd & ->)%IH. set (l := slice src (S cursor) (Z.to_nat lb)) in *.
  assert (length l = Z.to_nat lb) as Hl by (apply length_slice; lia).
  exists (l :: ls), post. split; [constructor; [unfold srv_label; unfold_ints; lia|done]|].
  split; [|done]. rewrite wire_labels_cons, Hl, Z2Nat.id by (unfold_ints; lia).
  rewrite <- app_comm_cons, <- app_assoc, <- Hd. f_equal. symmetry. apply slice_drop.
Qed.

(** Only the encodings above are accepted. *)
Lemma parse_srv_blob_exact rdata p :
  bytes_ok rdata → parse_srv_blob rdata = Some (Some p) →
  is_u16 (srv_priority p) ∧ is_u16 (srv_weight p) ∧ is_u16 (srv_port p) ∧
  ∃ ls post, Forall srv_label ls ∧ srv_target p = join_dot ls ∧
    rdata = write16 (srv_priority p) ++ write16 (srv_weight p) ++ write16 (srv_port p)
            ++ wire_labels ls ++ 0 :: post.
Proof.
  intros Hok. unfold parse_srv_blob. case_decide as H7; [done|]. intros E.
  apply bind_Some in E as (pr & Hp & E). apply bind_Some in E as (w & Hw & E).
  apply bind_Some in E as (po & Ho & E). apply bind_Some in E as ([[n c]|] & Hn & E); [|done].
  simplify_eq. cbn. unfold decode_name in Hn.
  apply decode_name_loop_exact in Hn as (ls & post & Hls & Hd & ->); [|by apply bytes_ok_drop].
  rewrite drop_0 in Hd. split_and!; [by eapply read16_range..|].
  exists ls, post. split; [done|]. split.
  - destruct ls as [|l ls]; [done|]. by rewrite push_labels.
  - rewrite (write16_read16 _ _ _ Hok Hp), (write16_read16 _ _ _ Hok Hw),
      (write16_read16 _ _ _ Hok Ho), <- Hd.
    change (drop 6 rdata) with (drop (4 + 2) rdata). rewrite slice_drop.
    change (drop 4 rdata) with (drop (2 + 2) rdata). rewrite slice_drop.
    symmetry. exact (slice_drop rdata 0 2).
Qed.

(** * Ordering *)

Lemma str_lt_asym a b : str_lt a b = true → str_lt b a = false.
Proof.
  revert b. induction a as [|x a IH]; intros [|y b]; cbn; try done.
  repeat case_decide; auto; lia.
Qed.

Lemma str_lt_negtrans a b c : str_lt b a = false → str_lt c b = false → str_lt c a = false.
Proof.
  revert b c. induction a as [|x a IH]; intros [|y b] [|z c]; cbn; try done.
  repeat case_decide; try done; try lia. apply IH.
Qed.

Lemma srv_lt_asym a b : srv_lt a b = true → srv_lt b a = false.
Proof.
  unfold srv_lt. repeat case_decide; try congruence;
    rewrite ?bool_decide_eq_true, ?bool_decide_eq_false; [lia.. | apply str_lt_asym].
Qed.

Lemma srv_lt_negtrans a b c : srv_lt b a = false → srv_lt c b = false → srv_lt c a = false.
Proof.
  unfold srv_lt. repeat case_decide; rewrite ?bool_decide_eq_false; try lia; try congruence.
  apply str_lt_negtrans.
Qed.

(** What the query callback makes of one emitted record. *)
Definition srv_of_record (SRV : Z) (rec : dns_record) : option ResolvedSrv :=
  if decide (rec_type rec = SRV) then
    (λ p, p <| srv_ttl_s := rec_ttl_s rec |>) <$> default None (parse_srv_blob (rec_rdata rec))
  else None.

Lemma srv_emit_all SRV recs out :
  foldl (srv_emit SRV) out recs = out ++ omap (srv_of_record SRV) recs.
Proof.
  revert out. induction recs as [|rec recs IH]; intros out; [by rewrite app_nil_r|].
  cbn [foldl omap list_omap]. rewrite IH. unfold srv_emit, srv_of_record.
  repeat case_decide; try done.
  destruct (default None _) as [p|]; cbn; [|done]. by rewrite <- app_assoc.
Qed.

(** The wire form of an SRV record (RFC 2782): priority, weight and port in network
    order, then the labels of the target; what follows the name is ignored. *)
Definition srv_encodes (SRV : Z) (rec : dns_record) (p : ResolvedSrv) : Prop :=
  rec_type rec = SRV ∧ srv_ttl_s p = rec_ttl_s rec ∧
  is_u16 (srv_priority p) ∧ is_u16 (srv_weight p) ∧ is_u16 (srv_port p) ∧
  ∃ ls post, Forall srv_label ls ∧ srv_target p = join_dot ls ∧
    rec_rdata rec = write16 (srv_priority p) ++ write16 (srv_weight p) ++ write16 (srv_port p)
                    ++ wire_labels ls ++ 0 :: post.

Lemma srv_of_record_spec SRV rec :
  bytes_ok (rec_rdata rec) →
  match srv_of_record SRV rec with
  | Some p => srv_encodes SRV rec p
  | None => ∀ p, ¬ srv_encodes SRV rec p
  end.
Proof.
  intros Hok. unfold srv_of_record. case_decide as Ht; [|by intros p [? _]].
  destruct (parse_srv_blob_safe (rec_rdata rec)) as [[p|] Hp]; rewrite Hp; cbn.
  - apply parse_srv_blob_exact in Hp as (Hpr & Hw & Hpo & Hls); [|done].
    split; [done|]. split; [done|]. by split_and!.
  - intros p (_ & _ & Hpr & Hw & Hpo & ls & post & Hls & _ & E). rewrite E in Hp.
    destruct (srv_blob_decodes _ _ _ ls post [] Hpr Hw Hpo Hls) as [Hd _]. by rewrite Hd in Hp.
Qed.

(** Lower priority first; within a priority, higher weight first. *)
Definition srv_order (a b : ResolvedSrv) : Prop :=
  srv_priority a < srv_priority b
  ∨ srv_priority a = srv_priority b ∧ srv_weight b ≤ srv_weight a.

(** C27 (SRV targets): [resolve_service] asks for the SRV records of
    [_service._proto.host] and returns, each as often as emitted, exactly the targets
    of those among the emitted records that are SRV records in the wire form of RFC
    2782: priority, weight and port in network order, then an uncompressed name of
    labels of 1 to 63 bytes, with the record's TTL.  Every other record -- of another
    type, truncated, with a compressed name -- is passed over.  The targets are ordered
    by increasing priority and, within a priority, decreasing weight. *)
Theorem resolve_service_sorted SRV resolve service proto host max :
  let records := resolve (str "_" ++ service ++ str "._" ++ proto ++ str "." ++ host) SRV max in
  let targets := resolve_service SRV resolve service proto host max in
  Forall (λ rec, bytes_ok (rec_rdata rec)) records →
  (∃ found, targets ≡ₚ omap id found ∧
     Forall2 (λ rec o, match o with
                       | Some p => srv_encodes SRV rec p
                       | None => ∀ p, ¬ srv_encodes SRV rec p
                       end) records found)
  ∧ StronglySorted srv_order targets.
Proof.
  intros records targets Hok. unfold targets, resolve_service, resolve_srv.
  change (resolve (str "_" ++ service ++ str "." ++ str "_" ++ proto ++ str "." ++ host) SRV max)
    with records.
  rewrite srv_emit_all, app_nil_l. split.
  - exists (srv_of_record SRV <$> records). split.
    + rewrite std_sort_perm. clear. induction records as [|rec l IH]; [done|]. cbn.
      by destruct (srv_of_record SRV rec); cbn; rewrite IH.
    + apply Forall2_fmap_r, Forall_Forall2_diag. eapply Forall_impl; [done|].
      intros rec. apply srv_of_record_spec.
  - apply (StronglySorted_impl (not_after srv_lt)).
    + intros a b. unfold not_after, srv_lt, srv_order.
      repeat case_decide; rewrite ?bool_decide_eq_false; lia.
    + apply std_sort_sorted; [apply srv_lt_asym | apply srv_lt_negtrans].
Qed.

(** Two targets, the worse first, an SRV record with a compressed name and an address
    record. *)
Definition example_records : list dns_record :=
  [mkRecord 33 300 (write16 20 ++ write16 60 ++ write16 3478 ++ wire_labels [str "b"] ++ [0]);
   mkRecord 33 300 (write16 10 ++ write16 5 ++ write16 3479 ++ wire_labels [str "a"; str "c"] ++ [0]);
   mkRecord 33 300 (write16 1 ++ write16 5 ++ write16 3479 ++ [192; 12]);
   mkRecord 1 300 [192; 0; 2; 1]].

Lemma resolve_service_sorted_witness :
  let resolve := λ _ _ _, example_records in
  let targets := resolve_service 33 resolve (str "turn") (str "udp") (str "example") 8 in
  targets = [mkSrv (str "a.c") 3479 10 5 300; mkSrv (str "b") 3478 20 60 300]
  ∧ ∃ found, targets ≡ₚ omap id found ∧ length found = 4%nat.
Proof.
  intros resolve targets. split; [vm_compute; reflexivity|].
  destruct (resolve_service_sorted 33 resolve (str "turn") (str "udp") (str "example") 8)
    as [(found & Hp & Hf) _].
  - repeat (apply Forall_cons; split; [by apply (bool_decide_eq_true_1 (Forall is_u8 _)); vm_compute|]).
    apply Forall_nil. exact I.
  - exists found. split; [exact Hp|]. rewrite <- (Forall2_length _ _ _ Hf). reflexivity.
Defined.

(** * Service URIs *)

Lemma find_char_none c s : c ∉ s → find_char c s = None.
Proof.
  induction s as [|x s IH]; [done|]. rewrite not_elem_of_cons. intros [Hx Hs]. cbn.
  rewrite decide_False by done. by rewrite IH.
Qed.

Lemma find_char_app c s t : c ∉ s → find_char c (s ++ c :: t) = Some (length s).
Proof.
  induction s as [|x s IH]; cbn; [by rewrite decide_True|].
  rewrite not_elem_of_cons. intros [Hx Hs]. rewrite decide_False by done. by rewrite IH.
Qed.

Lemma rfind_char_none c s : c ∉ s → rfind_char c s = None.
Proof.
  induction s as [|x s IH]; [done|]. rewrite not_elem_of_cons. intros [Hx Hs]. cbn.
  by rewrite IH, decide_False by done.
Qed.

Lemma rfind_char_app c s t : c ∉ t → rfind_char c (s ++ c :: t) = Some (length s).
Proof.
  intros Ht. induction s as [|x s IH]; cbn.
  - by rewrite rfind_char_none, decide_True by done.
  - by rewrite IH.
Qed.

Section uri_forms.
Variable uri_has_control_bytes : bytes → bool.
Variable parse_uri : bytes → option (bytes * Z).

(** The userinfo, when there is one, is dropped up to the last [@]. *)
Lemma strip_userinfo_app (userinfo : option bytes) host :
  CH_AT ∉ host →
  strip_userinfo (match userinfo with Some u => u ++ CH_AT :: host | None => host end) = host.
Proof.
  intros Hh. unfold strip_userinfo. destruct userinfo as [u|]; [|by rewrite rfind_char_none].
  rewrite rfind_char_app by done. rewrite (cons_middle CH_AT), app_assoc.
  apply drop_app_length'. rewrite length_app; cbn; lia.
Qed.

(** A [stun:] or [turn:] URI without a port, with or without [//] and userinfo,
    asks for SRV expansion of its host. *)
Lemma service_uri_srv_form scheme slashes userinfo host :
  scheme = str "stun" ∨ scheme = str "turn" → CH_COLON ∉ host → CH_AT ∉ host →
  host ≠ [] → head host ≠ Some CH_LBRACKET →
  let authority := match userinfo with Some u => u ++ CH_AT :: host | None => host end in
  let raw := scheme ++ CH_COLON :: (if slashes : bool then CH_SLASH :: CH_SLASH :: authority
                                    else authority) in
  (slashes = false → head authority ≠ Some CH_SLASH) →
  uri_has_control_bytes raw = false →
  parse_service_uri uri_has_control_bytes parse_uri raw = Some (mkUri scheme host 0).
Proof.
  intros Hs Hcolon Hat Hne Hbr authority raw Hslash Hctl. unfold parse_service_uri.
  rewrite Hctl. unfold raw.
  rewrite find_char_app by (destruct Hs as [-> | ->]; by apply (bool_decide_eq_true_1 (CH_COLON ∉ _))).
  rewrite bind_some, take_app_length, (cons_middle CH_COLON), app_assoc.
  rewrite drop_app_length' by (rewrite length_app; cbn; lia).
  rewrite decide_False by intuition.
  assert (authority ≠ []) as Hane.
  { unfold authority. destruct userinfo as [[|]|]; by try done. }
  rewrite decide_False by (by destruct slashes).
  assert (strip_authority (if slashes then CH_SLASH :: CH_SLASH :: authority else authority)
          = authority) as ->.
  { destruct slashes; cbn [strip_authority]; [by rewrite decide_True|].
    specialize (Hslash eq_refl). unfold strip_authority.
    destruct authority as [|a [|b t]]; [done..|]. rewrite decide_False; [done|].
    intros [-> _]. by apply Hslash. }
  rewrite decide_False by done. unfold authority. rewrite strip_userinfo_app by done.
  destruct host as [|c host]; [done|].
  rewrite decide_False by (intros ->; by apply Hbr). by rewrite find_char_none.
Qed.
End uri_forms.
