(* ===== verification/SessionState.v ===== *)
(** The state of an ICE session (src/session.hpp, class [IceSession]): its
    configuration, check pairs and members, grouped by concern, and the effects its
    handlers have.

    Handlers run on the session's strand, one at a time.  What comes from outside is
    given by the operations of the class [SessionEnv]: random transaction ids and
    strings, the outcome of dialling an endpoint, the interfaces, the port-mapping
    router, the URI parser, and whether appending to a vector moves it and what is then
    read through a reference to its old place.
    The clock is a member, constant while a handler runs.  The TURN client, the
    mDNS manager and the carriers are other objects: calls on them are effects. *)

From stdpp Require Import gmap.
From S2P Require Import Prelude Bytes Inet Candidate MdnsCodec Mdns Stun Turn PathMtu.

Inductive SessionState := New | Gathering | WaitingRemote | Checking | Connected | Failed.
#[global] Instance SessionState_eq_dec : EqDecision SessionState.
Proof. solve_decision. Defined.

Inductive PairState := PFrozen | PWaiting | PInProgress | PSucceeded | PFailed.
#[global] Instance PairState_eq_dec : EqDecision PairState.
Proof. solve_decision. Defined.

Definition kCandidateFilterExcludeIpv4 : Z := Z.shiftl 1 0.
Definition kCandidateFilterExcludeIpv6 : Z := Z.shiftl 1 1.
Definition kCandidateFilterRelayOnly : Z := Z.shiftl 1 2.
Definition kCandidateFilterHostOnly : Z := Z.shiftl 1 3.
Definition kCheckConcurrencyCap : nat := 10.
Definition kPendingAppDataMaxFrames : nat := 64.
Definition kReorderWindow : nat := 64.

Record IceConfig := mkIceConfig {
  stun_servers : list bytes;
  cfg_turn : TurnConfig;
  turn_servers : list TurnConfig;
  session_timeout_s : Z;
  keepalive_interval_s : Z;
  consent_max_failures : Z;
  turn_allocate_timeout_s : Z;
  turn_backup_interval_s : Z;
  turn_failover_min_interval_s : Z;
  consent_max_recovery : Z;
  check_interval_ms : Z;
  max_check_retries : Z;
  aggressive_nomination : bool;
  candidate_filter_flags : Z;
  mdns_obfuscate_host_candidates : bool;
  mdns_resolve_timeout_ms : Z;
  path_mtu : Z;
  pmtu_active_probing : bool;
  pmtu_search_steps : list Z;
  pmtu_probe_timeout_ms : Z;
  pmtu_probe_concurrency : Z;
  lite_mode : bool;
  reactive_interface_change : bool;
  symmetric_port_prediction_enabled : bool;
  symmetric_port_prediction_attempts : Z;
  tcp_candidates_enabled : bool;
  tcp_so_timeout_ms : Z;
  tcp_connect_timeout_ms : Z;
  auto_restart_on_consent_loss : bool;
  auto_restart_max_attempts : Z;
  auto_restart_backoff_ms : Z;
  nomination_wait_ms : Z;
  prefer_turn_tcp : bool;
  security_overhead : Z;
  ordered_delivery : bool;
}.
#[global] Instance IceConfig_eta : Eta IceConfig := λ c,
  mkIceConfig (stun_servers c) (cfg_turn c) (turn_servers c) (session_timeout_s c)
    (keepalive_interval_s c) (consent_max_failures c) (turn_allocate_timeout_s c)
    (turn_backup_interval_s c) (turn_failover_min_interval_s c) (consent_max_recovery c)
    (check_interval_ms c) (max_check_retries c) (aggressive_nomination c)
    (candidate_filter_flags c) (mdns_obfuscate_host_candidates c) (mdns_resolve_timeout_ms c)
    (path_mtu c) (pmtu_active_probing c) (pmtu_search_steps c) (pmtu_probe_timeout_ms c)
    (pmtu_probe_concurrency c) (lite_mode c) (reactive_interface_change c)
    (symmetric_port_prediction_enabled c) (symmetric_port_prediction_attempts c)
    (tcp_candidates_enabled c) (tcp_so_timeout_ms c) (tcp_connect_timeout_ms c)
    (auto_restart_on_consent_loss c) (auto_restart_max_attempts c) (auto_restart_backoff_ms c) (nomination_wait_ms c)
    (prefer_turn_tcp c) (security_overhead c) (ordered_delivery c).

(** The initializers of [IceConfig]. *)
Definition default_config : IceConfig := {|
  stun_servers := []; cfg_turn := mkTurnConfig [] 3478 [] [] false false REQUESTED_TRANSPORT_UDP;
  turn_servers := []; session_timeout_s := 10; keepalive_interval_s := 20;
  consent_max_failures := 3; turn_allocate_timeout_s := 5; turn_backup_interval_s := 30;
  turn_failover_min_interval_s := 60; consent_max_recovery := 3; check_interval_ms := 50;
  max_check_retries := 4; aggressive_nomination := false; candidate_filter_flags := 0;
  mdns_obfuscate_host_candidates := false; mdns_resolve_timeout_ms := 5000; path_mtu := 1200;
  pmtu_active_probing := true; pmtu_search_steps := [1200; 1400; 1500; 4000; 9000];
  pmtu_probe_timeout_ms := 500; pmtu_probe_concurrency := 1; lite_mode := false;
  reactive_interface_change := true; symmetric_port_prediction_enabled := true;
  symmetric_port_prediction_attempts := 8; tcp_candidates_enabled := true;
  tcp_so_timeout_ms := 5000; tcp_connect_timeout_ms := 3000; auto_restart_on_consent_loss := true;
  auto_restart_max_attempts := 3; auto_restart_backoff_ms := 500; nomination_wait_ms := 500;
  prefer_turn_tcp := false; security_overhead := 0; ordered_delivery := false |}.

Definition candidate_allowed (type : CandidateType) (family : AddressFamily) (filter_flags : Z) : bool :=
  if bool_decide (Z.land filter_flags kCandidateFilterExcludeIpv4 ≠ 0)
     && bool_decide (family = IPv4) then false
  else if bool_decide (Z.land filter_flags kCandidateFilterExcludeIpv6 ≠ 0)
     && bool_decide (family = IPv6) then false
  else if bool_decide (Z.land filter_flags kCandidateFilterRelayOnly ≠ 0)
     && bool_decide (type ≠ Relay) then false
  else if bool_decide (Z.land filter_flags kCandidateFilterHostOnly ≠ 0)
     && bool_decide (type ≠ Host) then false
  else true.

Record CheckPair := mkPair {
  cp_local : Candidate;
  cp_remote : Candidate;
  cp_priority : Z;
  cp_retries : Z;
  cp_state : PairState;
  cp_valid : bool;
  cp_nominee_check_sent : bool;
  cp_triggered : bool;
  cp_pending_nomination : bool;
  cp_txn_id : bytes;
  cp_txn_send_us : Z;
  cp_transport_type : TransportType;
}.
#[global] Instance CheckPair_eta : Eta CheckPair := λ p,
  mkPair (cp_local p) (cp_remote p) (cp_priority p) (cp_retries p) (cp_state p) (cp_valid p)
    (cp_nominee_check_sent p) (cp_triggered p) (cp_pending_nomination p) (cp_txn_id p)
    (cp_txn_send_us p) (cp_transport_type p).

(** * Members, grouped *)

Record Creds := mkCreds {
  local_ufrag : bytes; local_pwd : bytes; remote_ufrag : bytes; remote_pwd : bytes;
}.
#[global] Instance Creds_eta : Eta Creds := λ c,
  mkCreds (local_ufrag c) (local_pwd c) (remote_ufrag c) (remote_pwd c).

(** The nominated path. *)
Record Nominated := mkNominated {
  nominated_ip : bytes; nominated_port : Z; uses_relay : bool;
  nominated_local_type : CandidateType; nominated_remote_type : CandidateType;
  nominated_cid : Z; nominated_transport : TransportType;
}.
#[global] Instance Nominated_eta : Eta Nominated := λ n,
  mkNominated (nominated_ip n) (nominated_port n) (uses_relay n) (nominated_local_type n)
    (nominated_remote_type n) (nominated_cid n) (nominated_transport n).

(** The deferred nomination ([pending_nom_*]). *)
Record PendingNom := mkPendingNom {
  pending_nom_ip : bytes; pending_nom_port : Z; pending_nom_relay : bool;
  pending_nom_cid : Z; pending_nom_tx : TransportType;
}.

Record EndpointInfo := mkEndpoint { ep_ip : bytes; ep_port : Z; ep_transport : TransportType }.

(** The connection tables. *)
Record Endpoints := mkEndpoints {
  endpoint_to_cid : gmap bytes Z;
  cid_to_endpoint_udp : gmap Z EndpointInfo;
  cid_to_endpoint_tcp : gmap Z EndpointInfo;
  relay_endpoint_to_cid : gmap bytes Z;
  relay_cids : gset Z;
  next_relay_cid : Z;
  tcp_rx_buffers : gmap Z bytes;
  tcp_connect_timers : gset Z;
}.
#[global] Instance Endpoints_eta : Eta Endpoints := λ e,
  mkEndpoints (endpoint_to_cid e) (cid_to_endpoint_udp e) (cid_to_endpoint_tcp e)
    (relay_endpoint_to_cid e) (relay_cids e) (next_relay_cid e) (tcp_rx_buffers e)
    (tcp_connect_timers e).

(** The generation counters that cancel detached timers; 32-bit, their overflow is
    not represented. *)
Record Gens := mkGens {
  check_gen : nat; keepalive_gen : nat; gather_gen : nat; nomination_wait_gen : nat;
  turn_allocate_gen : nat; turn_backup_gen : nat; pmtu_probe_gen : nat;
}.
#[global] Instance Gens_eta : Eta Gens := λ g,
  mkGens (check_gen g) (keepalive_gen g) (gather_gen g) (nomination_wait_gen g)
    (turn_allocate_gen g) (turn_backup_gen g) (pmtu_probe_gen g).

(** [gn_portmap_mapping_t]: the members the session reads. *)
Record PortmapMapping := mkMapping {
  mp_protocol : Z;
  mp_int_port : Z;
  mp_ext_ip : bytes;
  mp_ext_port : Z;
}.

Record GatherState := mkGather {
  local_port : Z;
  carrier_initialized : bool;
  pending_stun_probes : list bytes;
  mdns_local_hostname : bytes;
  gathered_signal_fired : bool;
  stun_gathered : bool;
  turn_gathering : bool;
  symmetric_stride : Z;
  first_observed_srflx_port : Z;
  have_first_srflx_port : bool;
  portmap_mapping : option PortmapMapping;
}.
#[global] Instance GatherState_eta : Eta GatherState := λ g,
  mkGather (local_port g) (carrier_initialized g) (pending_stun_probes g) (mdns_local_hostname g)
    (gathered_signal_fired g) (stun_gathered g) (turn_gathering g) (symmetric_stride g)
    (first_observed_srflx_port g) (have_first_srflx_port g) (portmap_mapping g).

Record Consent := mkConsent {
  consent_missed : Z;
  consent_recovery_attempts : Z;
  auto_restart_attempts : Z;
  auto_restart_last : option Z;            (* microseconds; [None]: the epoch value *)
}.
#[global] Instance Consent_eta : Eta Consent := λ c,
  mkConsent (consent_missed c) (consent_recovery_attempts c) (auto_restart_attempts c)
    (auto_restart_last c).

Record Pmtu := mkPmtu {
  pmtu_probe : option PathMtuProbe;
  pmtu_inflight_txn : bytes;
  pmtu_inflight : bool;
  effective_mtu_ : Z;
}.
#[global] Instance Pmtu_eta : Eta Pmtu := λ p,
  mkPmtu (pmtu_probe p) (pmtu_inflight_txn p) (pmtu_inflight p) (effective_mtu_ p).

(** Sequence numbers and reorder buffer of the ordered mode. *)
Record Ordered := mkOrdered {
  send_data_seq : Z;
  recv_data_seq : Z;
  recv_reorder_buf : gmap Z bytes;
}.
#[global] Instance Ordered_eta : Eta Ordered := λ o,
  mkOrdered (send_data_seq o) (recv_data_seq o) (recv_reorder_buf o).

(** The carrier of a TURN client. *)
Inductive TurnCarrier := CarrierUdp | CarrierTcp | CarrierTls.

(** What the session sees of a TURN client: its carrier, its state, its address and
    whether its data callback hands data to the session. *)
Record TurnHandle := mkTurnHandle {
  th_carrier : TurnCarrier;
  th_server_cid : Z;
  th_forwards : bool;
  th_allocated : bool;
  th_healthy : bool;
  th_relayed : MappedAddress;
}.
#[global] Instance TurnHandle_eta : Eta TurnHandle := λ t,
  mkTurnHandle (th_carrier t) (th_server_cid t) (th_forwards t) (th_allocated t) (th_healthy t) (th_relayed t).

(** The TURN server list and its failover state. *)
Record RelayState := mkRelay {
  r_turn : TurnConfig;                     (* [cfg_.turn] *)
  r_turn_servers : list TurnConfig;        (* [cfg_.turn_servers] *)
  turn_attempt_idx : nat;
  turn_backups : list TurnConfig;
  turn_backup_probe_idx : nat;
  turn_last_failover : option Z;           (* microseconds; [None]: the epoch value *)
}.
#[global] Instance RelayState_eta : Eta RelayState := λ r,
  mkRelay (r_turn r) (r_turn_servers r) (turn_attempt_idx r) (turn_backups r)
    (turn_backup_probe_idx r) (turn_last_failover r).

(** Construction-time members. *)
Record Fixed := mkFixed {
  f_cfg : IceConfig;
  f_carrier : bool;
  f_carrier_tcp : bool;
  f_carrier_tls : bool;
  f_timer_ctx : bool;
  f_mdns : bool;
  f_portmap : bool;
  f_tiebreaker : Z;
}.

Record IceSession := mkSession {
  s_fixed : Fixed;
  s_state : SessionState;
  s_controlling : bool;
  s_creds : Creds;
  s_local_candidates : list Candidate;
  s_remote_candidates : list Candidate;
  s_check_list : list CheckPair;
  s_current_check : nat;
  s_nom : Nominated;
  s_pending_nom : PendingNom;
  s_eps : Endpoints;
  s_gens : Gens;
  s_gather : GatherState;
  s_consent : Consent;
  s_pmtu : Pmtu;
  s_ordered : Ordered;
  s_pending_app_data : list bytes;
  s_rtt_ewma_us : Z;
  s_relay : RelayState;
  s_turn : option TurnHandle;
  s_turn_backup_probe : option TurnHandle;
  s_nomination_wait_armed : bool;
  s_nominee_selected : bool;
  s_remote_end_of_candidates : bool;
  s_peer_signal_flags : Z;
  s_last_activity : Z;
  s_now_us : Z;                            (* the clock *)
  s_draws : nat;                           (* random values drawn so far *)
  s_dials : nat;                           (* endpoints dialled so far *)
}.
#[global] Instance IceSession_eta : Eta IceSession := λ s,
  mkSession (s_fixed s) (s_state s) (s_controlling s) (s_creds s) (s_local_candidates s)
    (s_remote_candidates s) (s_check_list s) (s_current_check s) (s_nom s) (s_pending_nom s)
    (s_eps s) (s_gens s) (s_gather s) (s_consent s) (s_pmtu s) (s_ordered s)
    (s_pending_app_data s) (s_rtt_ewma_us s) (s_relay s) (s_turn s) (s_turn_backup_probe s)
    (s_nomination_wait_armed s) (s_nominee_selected s) (s_remote_end_of_candidates s)
    (s_peer_signal_flags s) (s_last_activity s) (s_now_us s) (s_draws s) (s_dials s).

Abbreviation cfg s := (f_cfg (s_fixed s)).

Inductive timer_kind :=
  | TmCheck | TmKeepalive | TmNominationWait | TmPmtu | TmGather | TmTurnAllocate | TmTurnBackup.

Inductive session_event :=
  | ESend (cid : Z) (data : bytes)                    (* [carrier_->send] *)
  | ESendTcp (cid : Z) (data : bytes)                 (* [carrier_tcp_->send] *)
  | EDisconnect (cid : Z)                             (* unsubscribe and disconnect *)
  | EDisconnectTcp (cid : Z)
  | ETurnSend (ip : bytes) (port : Z) (data : bytes)  (* [turn_->send_indication] *)
  | ETurnPermission (ip : bytes)
  | ETurnBind (ip : bytes) (port : Z)
  | ETurnInbound (data : bytes)
  | ETurnBackupInbound (data : bytes)
  | ETurnAllocate (t : TurnHandle) (c : TurnConfig)   (* a client becomes [turn_] and allocates *)
  | ETurnBackupAllocate (t : TurnHandle) (c : TurnConfig)
  | ETurnClose                                        (* [turn_->close] *)
  | ETurnBackupClose
  | ETurnPromote                                      (* the backup becomes [turn_] *)
  | EData (data : bytes)                              (* [callbacks_.on_data] *)
  | EConnected (ip : bytes) (port : Z)
  | EFailed
  | EGathered (s : IceSession)                        (* [on_gathered]; what the callback finds *)
  | EAutoRestart (attempt max_attempts : Z)
  | ETimer (k : timer_kind) (ms : Z) (gen : nat)      (* a detached timer *)
  | ETcpConnectTimer (cid ms : Z)
  | EMdnsUnregister (hostname : bytes)
  | EMdnsResolve (idx : nat) (hostname : bytes) (ms : Z)
  | EMdnsRegister (hostname : bytes)
  | EPortmapRelease (protocol int_port : Z)
  | EPostStunProbes                                   (* work posted to the strand *)
  | EPostTurnAttempt
  | EPostRelayed (ip : bytes) (port : Z) (data : bytes)
  | EStaleRead                                        (* through a reference into a vector that has moved *)
  | ELock                                             (* [local_state_mu_] *)
  | EUnlock.

Abbreviation session := (eff IceSession session_event).

(** Random values by position in their supply; the outcome of the n-th dial, [None]
    when the carrier refuses or yields no valid id; what the host answers while
    gathering; whether, at a given time, appending to a vector of [n] elements moves it,
    and the port a read through a reference into it then yields. *)
Class SessionEnv := {
  env_txn : nat → bytes;
  env_string : nat → nat → bytes;          (* position, length *)
  env_uuid : nat → bytes;                  (* 16 random bytes *)
  env_dial : nat → bytes → option Z;
  env_listen_port : Z;                     (* [carrier_->listen_port()] *)
  env_ifaddrs : option (list ifaddrs);     (* [getifaddrs] *)
  env_portmap_supported : bool;            (* a port mapping protocol is supported *)
  env_portmap : Z → option PortmapMapping; (* the answer for a local port *)
  env_parse_uri : bytes → option (bytes * Z);
  env_moves : Z → nat → bool;              (* [push_back] reallocates *)
  env_stale_port : Z → nat → Z;
}.

Section primitives.
Context `{SessionEnv}.

Definition generate_txn_id : session bytes :=
  s ← get;
  modify (λ s, s <| s_draws := S (s_draws s) |>) ;;
  mret (env_txn (s_draws s)).

Definition random_string (len : nat) : session bytes :=
  s ← get;
  modify (λ s, s <| s_draws := S (s_draws s) |>) ;;
  mret (env_string (s_draws s) len).

Definition generate_ufrag : session bytes := random_string 8.
Definition generate_pwd : session bytes := random_string 24.

Definition dial (uri : bytes) : session (option Z) :=
  s ← get;
  modify (λ s, s <| s_dials := S (s_dials s) |>) ;;
  mret (env_dial (s_dials s) uri).
End primitives.

Definition set_eps (f : Endpoints → Endpoints) : session unit :=
  modify (λ s, s <| s_eps := f (s_eps s) |>).
Definition set_nom (f : Nominated → Nominated) : session unit :=
  modify (λ s, s <| s_nom := f (s_nom s) |>).
Definition set_gens (f : Gens → Gens) : session unit :=
  modify (λ s, s <| s_gens := f (s_gens s) |>).
Definition set_gather (f : GatherState → GatherState) : session unit :=
  modify (λ s, s <| s_gather := f (s_gather s) |>).
Definition set_consent (f : Consent → Consent) : session unit :=
  modify (λ s, s <| s_consent := f (s_consent s) |>).
Definition set_pmtu (f : Pmtu → Pmtu) : session unit :=
  modify (λ s, s <| s_pmtu := f (s_pmtu s) |>).
Definition set_relay (f : RelayState → RelayState) : session unit :=
  modify (λ s, s <| s_relay := f (s_relay s) |>).
Definition set_ordered (f : Ordered → Ordered) : session unit :=
  modify (λ s, s <| s_ordered := f (s_ordered s) |>).
Definition set_check_list (f : list CheckPair → list CheckPair) : session unit :=
  modify (λ s, s <| s_check_list := f (s_check_list s) |>).
Definition set_state (st : SessionState) : session unit :=
  modify (λ s, s <| s_state := st |>).
Definition set_pair (i : nat) (f : CheckPair → CheckPair) : session unit :=
  set_check_list (alter f i).

(** [callbacks_.on_gathered], which reads the session. *)
Definition announce_gathered : session unit := s ← get; emit (EGathered s).
Lemma announce_gathered_keeps (R : IceSession → IceSession → Prop) `{!PreOrder R} :
  keeps R announce_gathered.
Proof. unfold announce_gathered. keeps_auto idtac. Qed.
#[export] Hint Extern 0 (keeps _ announce_gathered) => apply announce_gathered_keeps; exact _ : ice.

(** [last_activity_.store(now)] *)
Definition touch : session unit := modify (λ s, s <| s_last_activity := s_now_us s |>).

(** The constructor: credentials and tiebreaker are drawn by the caller. *)
Definition new_session (f : Fixed) (controlling : bool) (ufrag pwd : bytes) (now : Z)
    : IceSession := {|
  s_fixed := f; s_state := New;
  s_controlling := if lite_mode (f_cfg f) then false else controlling;
  s_creds := mkCreds ufrag pwd [] [];
  s_local_candidates := []; s_remote_candidates := []; s_check_list := [];
  s_current_check := 0; s_nom := mkNominated [] 0 false Host Host 0 Udp;
  s_pending_nom := mkPendingNom [] 0 false 0 Udp;
  s_eps := mkEndpoints ∅ ∅ ∅ ∅ ∅ 0xC000000000000000 ∅ ∅;
  s_gens := mkGens 0 0 0 0 0 0 0;
  s_gather := mkGather 0 false [] [] false false false 0 0 false None;
  s_consent := mkConsent 0 0 0 None;
  s_pmtu := mkPmtu None [] false (u32 (path_mtu (f_cfg f)));
  s_ordered := mkOrdered 0 0 ∅;
  s_pending_app_data := []; s_rtt_ewma_us := 0;
  s_relay := mkRelay (cfg_turn (f_cfg f)) (turn_servers (f_cfg f)) 0 [] 0 None; s_turn := None; s_turn_backup_probe := None;
  s_nomination_wait_armed := false; s_nominee_selected := false;
  s_remote_end_of_candidates := false; s_peer_signal_flags := 0;
  s_last_activity := now; s_now_us := now; s_draws := 0; s_dials := 0 |}.

(** A concrete environment and sessions, for the witnesses. *)
Module SessionRef.
#[local] Instance env : SessionEnv := {|
  env_txn n := replicate 8 7 ++ write32 (Z.of_nat n);
  env_string n len := replicate len (97 + Z.of_nat n mod 26);
  env_uuid n := replicate 16 (Z.of_nat n mod 256);
  env_dial n _ := if decide (Z.of_nat n + 1 < 2 ^ 62) then Some (Z.of_nat n + 1) else None;
  env_listen_port := 40000;
  env_ifaddrs := Some [mkIfa false true (IfaV4 [192; 168; 1; 2])];
  env_portmap_supported := false;
  env_portmap _ := None;
  env_parse_uri _ := None;
  env_moves _ n := bool_decide (n ∈ [0; 1; 2; 4; 8; 16]%nat);   (* a vector that doubles *)
  env_stale_port _ _ := 0;
|}.
Definition fixed (c : IceConfig) (tiebreaker : Z) : Fixed :=
  mkFixed c true true false true true false tiebreaker.
Definition ordered_config : IceConfig := default_config <| ordered_delivery := true |>.
Definition ordered_new : IceSession :=
  new_session (fixed ordered_config 5) true (str "abcdefgh") (str "secret") 1.
(** Connected over the UDP connection 3. *)
Definition ordered_connected : IceSession := ordered_new
  <| s_state := Connected |> <| s_nom := mkNominated (str "10.0.0.2") 9 false Host Host 3 Udp |>.
End SessionRef.
