(* ===== verification/Delivery.v ===== *)
(** The data plane of a session (src/session.cpp): the connection tables, sending
    application data on the nominated path, parking it until there is one, and the
    ordered delivery mode. *)

From stdpp Require Import gmap.
From S2P Require Import Prelude Bytes Inet Candidate Framing Stun Turn PathMtu SessionState.

Definition endpoint_key (ip : bytes) (port : Z) : bytes := endpoint_text ip port.
Definition endpoint_uri (ip : bytes) (port : Z) : bytes := str "udp://" ++ endpoint_text ip port.
Definition endpoint_uri_tcp (ip : bytes) (port : Z) : bytes :=
  str "tcp://" ++ endpoint_text ip port.

(** [frame_tcp_stun]: the length is converted to 16 bits. *)
Definition frame_tcp_stun (msg : bytes) : bytes := write16 (u16 (Z.of_nat (length msg))) ++ msg.

Section tables.
Context `{SessionEnv}.

(** 0 when there is no carrier or it cannot dial. *)
Definition ensure_remote_cid (ip : bytes) (port : Z) : session Z :=
  s ← get;
  if negb (f_carrier (s_fixed s)) then mret 0 else
  let key := endpoint_key ip port in
  match endpoint_to_cid (s_eps s) !! key with
  | Some cid => mret cid
  | None =>
      r ← dial (endpoint_uri ip port);
      match r with
      | None => mret 0
      | Some cid =>
          set_eps (λ e, e <| endpoint_to_cid := <[key := cid]> (endpoint_to_cid e) |>
            <| cid_to_endpoint_udp :=
                 <[cid := mkEndpoint ip port Udp]> (cid_to_endpoint_udp e) |>) ;;
          mret cid
      end
  end.

Definition relay_cid_for_endpoint (ip : bytes) (port : Z) : session Z :=
  s ← get;
  let key := endpoint_key ip port in
  match relay_endpoint_to_cid (s_eps s) !! key with
  | Some cid => mret cid
  | None =>
      let cid := next_relay_cid (s_eps s) in
      set_eps (λ e, e <| next_relay_cid := u64 (next_relay_cid e + 1) |>
        <| relay_endpoint_to_cid := <[key := cid]> (relay_endpoint_to_cid e) |>
        <| relay_cids := {[cid]} ∪ relay_cids e |>
        <| cid_to_endpoint_udp := <[cid := mkEndpoint ip port Udp]> (cid_to_endpoint_udp e) |>) ;;
      mret cid
  end.

Definition ensure_remote_tcp_cid (ip : bytes) (port : Z) : session Z :=
  s ← get;
  if negb (f_carrier_tcp (s_fixed s)) then mret 0 else
  r ← dial (endpoint_uri_tcp ip port);
  match r with
  | None => mret 0
  | Some cid =>
      set_eps (λ e, e
        <| cid_to_endpoint_tcp :=
             <[cid := mkEndpoint ip port TcpActive]> (cid_to_endpoint_tcp e) |>
        <| tcp_connect_timers := {[cid]} ∪ tcp_connect_timers e |>) ;;
      emit (ETcpConnectTimer cid (tcp_connect_timeout_ms (cfg s))) ;;
      mret cid
  end.

Definition arm_tcp_so_connect (ip : bytes) (port : Z) : session Z := ensure_remote_tcp_cid ip port.

Definition tear_down_cids : session unit :=
  s ← get;
  set_eps (λ e, e <| tcp_connect_timers := ∅ |>) ;;
  (if f_carrier (s_fixed s)
   then for_each (λ x, emit (EDisconnect (x.1))) (map_to_list (cid_to_endpoint_udp (s_eps s)))
   else skip) ;;
  (if f_carrier_tcp (s_fixed s)
   then for_each (λ x, emit (EDisconnectTcp (x.1))) (map_to_list (cid_to_endpoint_tcp (s_eps s)))
   else skip) ;;
  set_eps (λ e, e <| endpoint_to_cid := ∅ |> <| cid_to_endpoint_udp := ∅ |>
                  <| cid_to_endpoint_tcp := ∅ |> <| tcp_rx_buffers := ∅ |>).

(** * Sending *)

Definition send_on_strand (buf : bytes) : session unit :=
  s ← get;
  let ip := nominated_ip (s_nom s) in
  let port := nominated_port (s_nom s) in
  let use_tcp := transport_is_tcp (nominated_transport (s_nom s)) in
  let seq := send_data_seq (s_ordered s) in
  let add_seqno := ordered_delivery (cfg s) && negb use_tcp in
  (if add_seqno then set_ordered (λ o, o <| send_data_seq := u32 (send_data_seq o + 1) |>)
   else skip) ;;
  let out := if add_seqno then write32 seq ++ buf else buf in
  if uses_relay (s_nom s) && bool_decide (s_turn s ≠ None) then emit (ETurnSend ip port out) else
  cid ← (if decide (nominated_cid (s_nom s) = 0) then
           cid ← ensure_remote_cid ip port;
           (if decide (cid = 0) then skip else set_nom (λ n, n <| nominated_cid := cid |>)) ;;
           mret cid
         else mret (nominated_cid (s_nom s)));
  if decide (cid = 0) then skip else
  if use_tcp then
    if f_carrier_tcp (s_fixed s) then emit (ESendTcp cid (frame_tcp_stun out)) else skip
  else if f_carrier (s_fixed s) then emit (ESend cid out) else skip.

Fixpoint flush_loop (n : nat) : session unit :=
  match n with
  | O => skip
  | S n =>
      s ← get;
      match s_pending_app_data s with
      | [] => skip
      | buf :: rest =>
          modify (λ s, s <| s_pending_app_data := rest |>) ;;
          send_on_strand buf ;;
          flush_loop n
      end
  end.

(** [while (!pending_app_data_.empty())]: one iteration per parked frame. *)
Definition flush_pending_app_data : session unit :=
  s ← get; flush_loop (length (s_pending_app_data s)).

(** The strand half of [send]. *)
Definition send (data : bytes) : session unit :=
  touch ;;
  s ← get;
  if decide (s_state s = Connected) then send_on_strand data else
  modify (λ s, s <| s_pending_app_data :=
    (if decide (kPendingAppDataMaxFrames ≤ length (s_pending_app_data s))%nat
     then tail (s_pending_app_data s) else s_pending_app_data s) ++ [data] |>).
End tables.

(** * Ordered delivery *)

(** The least key of the reorder buffer, an ordered map. *)
Definition first_key (m : gmap Z bytes) : option Z :=
  foldr (λ x acc, Some (match acc with None => x.1 | Some k => Z.min (x.1) k end)) None
    (map_to_list m).

(** [while (true)]: deliver the buffered successors; one iteration per entry. *)
Fixpoint deliver_loop (n : nat) : session unit :=
  match n with
  | O => skip
  | S n =>
      s ← get;
      let o := s_ordered s in
      match recv_reorder_buf o !! recv_data_seq o with
      | None => skip
      | Some d =>
          emit (EData d) ;;
          set_ordered (λ o, o
            <| recv_reorder_buf := delete (recv_data_seq o) (recv_reorder_buf o) |>
            <| recv_data_seq := u32 (recv_data_seq o + 1) |>) ;;
          deliver_loop n
      end
  end.

(** [deliver_in_order] after the sequence number has been read. *)
Definition deliver_seq (seq : Z) (data : bytes) : session unit :=
  s ← get;
  let o := s_ordered s in
  if decide (seq < recv_data_seq o) then skip else
  if decide (seq = recv_data_seq o) then
    emit (EData data) ;;
    set_ordered (λ o, o <| recv_data_seq := u32 (recv_data_seq o + 1) |>) ;;
    deliver_loop (size (recv_reorder_buf o))
  else
    (if decide (kReorderWindow ≤ size (recv_reorder_buf o))%nat then
       set_ordered (λ o, o <| recv_data_seq :=
         default (recv_data_seq o) (first_key (recv_reorder_buf o)) |>)
     else skip) ;;
    set_ordered (λ o, o <| recv_reorder_buf := <[seq := data]> (recv_reorder_buf o) |>).

Definition deliver_in_order (raw : bytes) : session unit :=
  match raw with
  | b0 :: b1 :: b2 :: b3 :: data =>
      deliver_seq
        (Z.lor (Z.lor (Z.lor (u32 (Z.shiftl b0 24)) (Z.shiftl b1 16)) (Z.shiftl b2 8)) b3) data
  | _ => skip
  end.

(** * Correctness of ordered delivery *)

Section ordered.
Variable msgs : list bytes.
Hypothesis msgs_fit : Z.of_nat (length msgs) < 2 ^ 32.

(** The buffer [m] holds messages from number [k] on. *)
Definition buffered (k : nat) (m : gmap Z bytes) : Prop :=
  map_Forall (λ i d, ∃ j : nat, i = Z.of_nat j ∧ (k ≤ j)%nat ∧ msgs !! j = Some d) m.

(** [k] messages were delivered and everything that arrived, [seen], is either
    delivered or buffered. *)
Record ordered_inv (seen : list nat) (k : nat) (o : Ordered) : Prop := {
  oi_recv : recv_data_seq o = Z.of_nat k;
  oi_buf : buffered (S k) (recv_reorder_buf o);
  oi_le : (k ≤ length msgs)%nat;
  oi_delivered j : (j < k)%nat → j ∈ seen;
  oi_seen j : j ∈ seen → (j < k)%nat ∨ is_Some (recv_reorder_buf o !! Z.of_nat j);
  oi_kept j : is_Some (recv_reorder_buf o !! Z.of_nat j) → j ∈ seen;
  oi_window j : is_Some (recv_reorder_buf o !! Z.of_nat j) → (j < k + kReorderWindow)%nat;
}.

Lemma set_ordered_final f s : s_ordered (final (set_ordered f) s) = f (s_ordered s).
Proof. done. Qed.

Lemma buffered_delete k m : buffered k m → buffered (S k) (delete (Z.of_nat k) m).
Proof.
  intros Hm i d [Hne Hi]%lookup_delete_Some. destruct (Hm i d Hi) as (j & -> & Hj & Hd).
  exists j. split_and!; [done| |done]. destruct (decide (j = k)); [by subst | lia].
Qed.

(** The loop delivers the run of messages that starts at the next number. *)
Lemma deliver_loop_spec n k s :
  recv_data_seq (s_ordered s) = Z.of_nat k → buffered k (recv_reorder_buf (s_ordered s)) →
  (size (recv_reorder_buf (s_ordered s)) ≤ n)%nat → (k ≤ length msgs)%nat →
  ∃ k', (k ≤ k' ≤ length msgs)%nat
    ∧ outputs (deliver_loop n) s = EData <$> take (k' - k) (drop k msgs)
    ∧ recv_data_seq (s_ordered (final (deliver_loop n) s)) = Z.of_nat k'
    ∧ buffered (S k') (recv_reorder_buf (s_ordered (final (deliver_loop n) s)))
    ∧ (∀ j, (k ≤ j < k')%nat → is_Some (recv_reorder_buf (s_ordered s) !! Z.of_nat j))
    ∧ (∀ j, (k' ≤ j)%nat →
         recv_reorder_buf (s_ordered (final (deliver_loop n) s)) !! Z.of_nat j
         = recv_reorder_buf (s_ordered s) !! Z.of_nat j)
    ∧ (∀ j, (k ≤ j < k')%nat →
         recv_reorder_buf (s_ordered (final (deliver_loop n) s)) !! Z.of_nat j = None).
Proof.
  revert k s. induction n as [|n IH]; intros k s Hr Hb Hn Hk; cbn [deliver_loop].
  - exists k. rewrite Nat.sub_diag. split_and!; try done; try (intros; lia).
    change (final skip s) with s. apply Nat.le_0_r, map_size_empty_inv in Hn. rewrite Hn.
    apply map_Forall_empty.
  - rewrite outputs_get, final_get. rewrite Hr.
    destruct (recv_reorder_buf (s_ordered s) !! Z.of_nat k) as [d|] eqn:Hd.
    + destruct (Hb _ _ Hd) as (j & Hj & _ & Hm). apply Nat2Z.inj in Hj as <-.
      assert (k < length msgs)%nat as Hlt by (apply lookup_lt_is_Some; by rewrite Hm).
      rewrite outputs_bind, final_bind. change (final (emit ?e) s) with s.
      unfold set_ordered. rewrite outputs_modify, final_modify.
      set (s1 := s <| s_ordered := _ |>).
      assert (recv_reorder_buf (s_ordered s1)
              = delete (Z.of_nat k) (recv_reorder_buf (s_ordered s))) as Hb1
        by (unfold s1; cbn; by rewrite Hr).
      destruct (IH (S k) s1) as (k' & Hk' & Ho & Hr' & Hb' & Hs & Hkeep & Hgone).
      * transitivity (u32 (recv_data_seq (s_ordered s) + 1)); [done|].
        rewrite Hr, u32_id by (unfold_ints; lia). lia.
      * rewrite Hb1. by apply buffered_delete.
      * rewrite Hb1. rewrite map_size_delete_Some by (by rewrite Hd). lia.
      * lia.
      * exists k'. split_and!; [lia|lia| |done|done| | |].
        -- rewrite Ho. replace (k' - k)%nat with (S (k' - S k)) by lia.
           by rewrite (drop_S _ _ _ Hm).
        -- intros j Hj. destruct (decide (j = k)) as [->|]; [by rewrite Hd|].
           specialize (Hs j ltac:(lia)). rewrite Hb1, lookup_delete_ne in Hs by lia. done.
        -- intros j Hj. rewrite Hkeep, Hb1, lookup_delete_ne by lia. done.
        -- intros j Hj. destruct (decide (j = k)) as [->|]; [|apply Hgone; lia].
           destruct (recv_reorder_buf (s_ordered (final (deliver_loop n) s1)) !! Z.of_nat k)
             as [d'|] eqn:He; [|done].
           destruct (Hb' _ _ He) as (j' & ? & ? & _). lia.
    + exists k. rewrite Nat.sub_diag. change (final skip s) with s.
      split_and!; try done; try (intros; lia).
      intros i d Hi. destruct (Hb i d Hi) as (j & -> & Hj & Hm). exists j.
      split_and!; [done| |done]. destruct (decide (j = k)); [congruence | lia].
Qed.

(** A buffer of messages between [k] and [k + w] holds fewer than [w]. *)
Lemma buffered_size k w m :
  buffered (S k) m → (∀ j, is_Some (m !! Z.of_nat j) → (j < k + w)%nat) → (0 < w)%nat →
  (size m < w)%nat.
Proof.
  intros Hb Hw Hp. assert (dom m ⊆ list_to_set (C := gset Z) (Z.of_nat <$> seq (S k) (w - 1))) as Hd.
  { intros i [d Hi]%elem_of_dom. destruct (Hb i d Hi) as (j & -> & Hj & _).
    apply elem_of_list_to_set, list_elem_of_fmap_2, elem_of_seq.
    specialize (Hw j ltac:(by rewrite Hi)). lia. }
  apply subseteq_size in Hd. rewrite size_dom in Hd.
  rewrite size_list_to_set in Hd by (apply NoDup_fmap_2; [apply _ | apply NoDup_seq]).
  rewrite length_fmap, length_seq in Hd. lia.
Qed.

(** An arrival that fills no gap at the front. *)
Lemma ordered_inv_seen seen k o j :
  ordered_inv seen k o → (j < k)%nat → ordered_inv (seen ++ [j]) k o.
Proof.
  intros [] Hj. split; auto; intros j'; rewrite elem_of_app, ?list_elem_of_singleton; auto.
  intros [?| ->]; auto.
Qed.

Lemma ordered_inv_insert seen k o j d :
  ordered_inv seen k o → (k < j < k + kReorderWindow)%nat → msgs !! j = Some d →
  ordered_inv (seen ++ [j]) k
    (o <| recv_reorder_buf := <[Z.of_nat j := d]> (recv_reorder_buf o) |>).
Proof.
  intros [] Hj Hd.
  assert (∀ j', is_Some (<[Z.of_nat j:=d]> (recv_reorder_buf o) !! Z.of_nat j') ↔
                j' = j ∨ is_Some (recv_reorder_buf o !! Z.of_nat j')) as Hins.
  { intros j'. rewrite lookup_insert_is_Some'. split; (intros [?|?]; [left; lia | by right]). }
  split; cbn; try done.
  - apply map_Forall_insert_2; [|done]. exists j. split_and!; [done|lia|done].
  - intros j' Hj'. rewrite elem_of_app. auto.
  - intros j'. rewrite elem_of_app, list_elem_of_singleton, Hins.
    intros [Hs| ->]; [|by right; left]. destruct (oi_seen0 j' Hs); auto.
  - intros j'. rewrite elem_of_app, list_elem_of_singleton, Hins. intros [->|?]; auto.
  - intros j' [->|?]%Hins; [lia | auto].
Qed.

(** The expected message releases the run behind it. *)
Lemma deliver_next seen k s d :
  ordered_inv seen k (s_ordered s) → msgs !! k = Some d →
  let m := (set_ordered (λ o, o <| recv_data_seq := u32 (recv_data_seq o + 1) |>) ;;
            deliver_loop (size (recv_reorder_buf (s_ordered s)))) in
  ∃ k', (k < k')%nat ∧ ordered_inv (seen ++ [k]) k' (s_ordered (final m s))
    ∧ EData d :: outputs m s = EData <$> take (k' - k) (drop k msgs).
Proof.
  intros Hi Hd m. assert (k < length msgs)%nat as Hlt by (apply lookup_lt_is_Some; by rewrite Hd).
  unfold m, set_ordered. rewrite outputs_modify, final_modify. set (s1 := s <| s_ordered := _ |>).
  assert (recv_reorder_buf (s_ordered s1) = recv_reorder_buf (s_ordered s)) as Hb1 by done.
  destruct Hi. rewrite <- Hb1 in *.
  destruct (deliver_loop_spec (size (recv_reorder_buf (s_ordered s1))) (S k) s1)
    as (k' & Hk' & Ho & Hr' & Hb' & Hs & Hkeep & Hgone); [|done|done|lia|].
  { transitivity (u32 (recv_data_seq (s_ordered s) + 1)); [done|].
    rewrite oi_recv0, u32_id by (unfold_ints; lia). lia. }
  set (s2 := final _ s1) in *. set (b2 := recv_reorder_buf (s_ordered s2)) in *.
  assert (∀ j, is_Some (b2 !! Z.of_nat j) →
               (k' ≤ j)%nat ∧ is_Some (recv_reorder_buf (s_ordered s1) !! Z.of_nat j)) as Hb2.
  { intros j Hj. assert (k' ≤ j)%nat; [|by rewrite <- Hkeep].
    destruct Hj as [x Hx]. destruct (Hb' _ _ Hx) as (j' & ? & ? & _). lia. }
  exists k'. split_and!; [lia| |].
  - split; try done.
    + lia.
    + intros j Hj. rewrite elem_of_app, list_elem_of_singleton.
      destruct (decide (j < k)%nat); [auto|]. destruct (decide (j = k)); [auto|].
      left. apply oi_kept0, Hs. lia.
    + intros j. rewrite elem_of_app, list_elem_of_singleton. intros [Hj| ->]; [|left; lia].
      destruct (decide (j < k')%nat); [auto|]. right. unfold b2. rewrite Hkeep by lia.
      destruct (oi_seen0 j Hj) as [?|?]; [lia|done].
    + intros j [_ Hj]%Hb2. rewrite elem_of_app. auto.
    + intros j [? Hj%oi_window0]%Hb2. lia.
  - rewrite Ho. replace (k' - k)%nat with (S (k' - S k)) by lia. by rewrite (drop_S _ _ _ Hd).
Qed.

(** One arrival, within the window of the first missing message. *)
Lemma deliver_seq_spec seen k s j d :
  ordered_inv seen k (s_ordered s) → msgs !! j = Some d → (j < k + kReorderWindow)%nat →
  ∃ k', (k ≤ k')%nat ∧ ordered_inv (seen ++ [j]) k' (s_ordered (final (deliver_seq (Z.of_nat j) d) s))
    ∧ outputs (deliver_seq (Z.of_nat j) d) s = EData <$> take (k' - k) (drop k msgs).
Proof.
  intros Hi Hj Hw. unfold deliver_seq. rewrite outputs_get, final_get, (oi_recv _ _ _ Hi).
  destruct (Nat.lt_trichotomy j k) as [Hlt|[->|Hgt]].
  - rewrite decide_True by lia. exists k. rewrite Nat.sub_diag.
    split_and!; [done | by apply ordered_inv_seen | done].
  - rewrite decide_False, decide_True by lia. rewrite outputs_bind, final_bind.
    change (final (emit ?e) s) with s. destruct (deliver_next seen k s d Hi Hj) as (k' & ? & ? & ?).
    exists k'. split_and!; [lia | done | done].
  - rewrite !decide_False by lia.
    rewrite decide_False
      by (pose proof (buffered_size k kReorderWindow _ (oi_buf _ _ _ Hi) (oi_window _ _ _ Hi)
                        ltac:(unfold kReorderWindow; lia)); lia).
    exists k. rewrite Nat.sub_diag. split_and!; [done | | done].
    apply (ordered_inv_insert seen k (s_ordered s) j d); [done | lia | done].
Qed.

(** A frame carries its number. *)
Lemma deliver_frame seq d :
  is_u32 seq → deliver_in_order (write32 seq ++ d) = deliver_seq seq d.
Proof.
  intros Hj. unfold deliver_in_order, write32. cbn [app].
  f_equal. pose proof (be32_value (u8 (Z.shiftr seq 24)) (u8 (Z.shiftr seq 16))
    (u8 (Z.shiftr seq 8)) (u8 seq)) as Hv.
  rewrite Hv by apply u8_range. rewrite write32_value. by apply u32_id.
Qed.

(** Arrivals, by message number; none overtakes [kReorderWindow] missing ones. *)
Definition windowed (arrivals : list nat) : Prop :=
  ∀ p j q m, arrivals = p ++ j :: q → m ∉ p → (j < m + kReorderWindow)%nat.

Definition frame (j : nat) : bytes := write32 (Z.of_nat j) ++ default [] (msgs !! j).

Lemma deliver_all p arrivals k s :
  ordered_inv p k (s_ordered s) → Forall (λ j, (j < length msgs)%nat) arrivals →
  windowed (p ++ arrivals) →
  ∃ k', (k ≤ k')%nat ∧
    ordered_inv (p ++ arrivals) k' (s_ordered (final (for_each deliver_in_order (frame <$> arrivals)) s))
    ∧ outputs (for_each deliver_in_order (frame <$> arrivals)) s = EData <$> take (k' - k) (drop k msgs).
Proof.
  revert p k s. induction arrivals as [|j arrivals IH]; intros p k s Hi Ha Hw.
  - exists k. rewrite Nat.sub_diag, app_nil_r. by split_and!.
  - apply Forall_cons_1 in Ha as [Hj Ha]. destruct (lookup_lt_is_Some_2 _ _ Hj) as [d Hd].
    rewrite fmap_cons, final_for_each_cons, outputs_for_each_cons.
    assert (deliver_in_order (frame j) = deliver_seq (Z.of_nat j) d) as ->.
    { unfold frame. rewrite Hd. apply deliver_frame. unfold_ints. lia. }
    assert (k ∉ p) as Hk.
    { intros [?|[x Hx]]%(oi_seen _ _ _ Hi); [lia|].
      destruct (oi_buf _ _ _ Hi _ _ Hx) as (? & ? & ? & _). lia. }
    destruct (deliver_seq_spec p k s j d Hi Hd (Hw p j arrivals k eq_refl Hk))
      as (k1 & Hk1 & Hi1 & Ho1).
    rewrite cons_middle, app_assoc in Hw |- *.
    destruct (IH (p ++ [j]) k1 _ Hi1 Ha Hw) as (k2 & Hk2 & Hi2 & Ho2).
    exists k2. split_and!; [lia | done |]. rewrite Ho1, Ho2, <- fmap_app. f_equal.
    replace (drop k1 msgs) with (drop (k1 - k) (drop k msgs))
      by (rewrite drop_drop; f_equal; lia).
    rewrite take_take_drop. f_equal. lia.
Qed.
End ordered.

(** * The sender *)

(** A connected session in ordered mode whose path is the UDP connection [cid]. *)
Definition ordered_path (s : IceSession) (cid : Z) : Prop :=
  s_state s = Connected ∧ ordered_delivery (cfg s) = true ∧ f_carrier (s_fixed s) = true
  ∧ nominated_transport (s_nom s) = Udp ∧ nominated_cid (s_nom s) = cid ∧ cid ≠ 0
  ∧ uses_relay (s_nom s) && bool_decide (s_turn s ≠ None) = false.

Section sender.
Context `{SessionEnv}.

Lemma send_on_strand_ordered s cid d :
  ordered_path s cid →
  outputs (send_on_strand d) s = [ESend cid (write32 (send_data_seq (s_ordered s)) ++ d)]
  ∧ final (send_on_strand d) s
    = s <| s_ordered := (s_ordered s) <| send_data_seq := u32 (send_data_seq (s_ordered s) + 1) |> |>.
Proof.
  intros (Hst & Ho & Hc & Htx & Hcid & Hne & Hr).
  unfold send_on_strand, set_ordered. rewrite outputs_get, final_get.
  rewrite Htx, Ho. change (transport_is_tcp Udp) with false. cbn [andb negb].
  rewrite outputs_modify, final_modify, Hr, Hcid, decide_False by done.
  rewrite outputs_bind, final_bind. cbn. rewrite decide_False by done. by rewrite Hc.
Qed.

Lemma send_ordered s cid d :
  ordered_path s cid →
  outputs (send d) s = [ESend cid (write32 (send_data_seq (s_ordered s)) ++ d)]
  ∧ ordered_path (final (send d) s) cid
  ∧ send_data_seq (s_ordered (final (send d) s)) = u32 (send_data_seq (s_ordered s) + 1).
Proof.
  intros Hp. unfold send, touch. rewrite outputs_modify, final_modify, outputs_get, final_get.
  set (s1 := s <| s_last_activity := _ |>).
  assert (ordered_path s1 cid) as Hp1 by exact Hp.
  rewrite decide_True by apply Hp1.
  destruct (send_on_strand_ordered s1 cid d Hp1) as [-> ->]. done.
Qed.

Lemma send_all_ordered s cid msgs :
  ordered_path s cid → is_u32 (send_data_seq (s_ordered s)) →
  outputs (for_each send msgs) s
  = imap (λ i d, ESend cid (write32 (u32 (send_data_seq (s_ordered s) + Z.of_nat i)) ++ d)) msgs.
Proof.
  revert s. induction msgs as [|d msgs IH]; intros s Hp Hq; [done|].
  destruct (send_ordered s cid d Hp) as (Ho & Hp' & Hs').
  rewrite outputs_for_each_cons, Ho, IH by (done || rewrite Hs'; apply u32_range).
  cbn [imap app]. rewrite Z.add_0_r, u32_id by done. f_equal.
  apply imap_ext. intros i x _. cbn. rewrite Hs'. do 3 f_equal. unfold u32.
  rewrite Zplus_mod_idemp_l. f_equal. lia.
Qed.
End sender.

(** The payload of a datagram sent on [cid]. *)
Definition datagram (cid : Z) (e : session_event) : option bytes :=
  match e with ESend c d => if decide (c = cid) then Some d else None | _ => None end.

Section end_to_end.
Context `{SessionEnv}.

Lemma wire_frames s cid msgs :
  ordered_path s cid → send_data_seq (s_ordered s) = 0 → Z.of_nat (length msgs) < 2 ^ 32 →
  omap (datagram cid) (outputs (for_each send msgs) s) = frame msgs <$> seq 0 (length msgs).
Proof.
  intros Hp Hs Hl. rewrite (send_all_ordered s cid) by (done || rewrite Hs; unfold_ints; lia).
  rewrite Hs. apply list_eq. intros i. rewrite list_lookup_fmap.
  assert (∀ (f : nat → bytes → bytes) l, omap (datagram cid) (imap (λ i d, ESend cid (f i d)) l) = imap f l) as Hom.
  { intros f l. revert f. induction l as [|x l IH]; intros f; [done|].
    cbn [imap omap list_omap datagram]. rewrite decide_True by done. f_equal.
    apply (IH (λ i d, f (S i) d)). }
  rewrite (Hom (λ i d, write32 (u32 (0 + Z.of_nat i)) ++ d)), list_lookup_imap.
  destruct (msgs !! i) as [d|] eqn:Hd.
  - assert (i < length msgs)%nat as Hi by (apply lookup_lt_is_Some; by rewrite Hd).
    rewrite (lookup_seq_lt _ _ i Hi). cbn. unfold frame. rewrite Hd, u32_id; [done|].
    unfold_ints. lia.
  - rewrite lookup_seq_ge; [done|]. by apply lookup_ge_None.
Qed.

(** What arrives of the wire. *)
Lemma arriving_frames sender cid msgs arrivals :
  ordered_path sender cid → send_data_seq (s_ordered sender) = 0 →
  Z.of_nat (length msgs) < 2 ^ 32 → Forall (λ j, (j < length msgs)%nat) arrivals →
  omap (omap (datagram cid) (outputs (for_each send msgs) sender) !!.) arrivals
  = frame msgs <$> arrivals.
Proof.
  intros Hp Hs Hl Ha. rewrite wire_frames by done. induction Ha as [|j l Hj _ IH]; [done|].
  cbn [omap list_omap]. rewrite list_lookup_fmap, lookup_seq_lt by done. cbn. by rewrite IH.
Qed.

(** Ordered delivery: the datagrams of an ordered sender may be lost, repeated
    and reordered; as long as no arriving datagram is [kReorderWindow] or more ahead
    of a missing one, the receiver hands up exactly the messages before the first
    missing one, each once and in order.  So when all arrive, all are delivered. *)
Theorem ordered_delivery_in_order sender receiver cid msgs arrivals :
  ordered_path sender cid → send_data_seq (s_ordered sender) = 0 →
  recv_data_seq (s_ordered receiver) = 0 → recv_reorder_buf (s_ordered receiver) = ∅ →
  Z.of_nat (length msgs) < 2 ^ 32 →
  Forall (λ j, (j < length msgs)%nat) arrivals → windowed arrivals →
  let wire := omap (datagram cid) (outputs (for_each send msgs) sender) in
  ∃ k, outputs (for_each deliver_in_order (omap (wire !!.) arrivals)) receiver = EData <$> take k msgs
    ∧ (k ≤ length msgs)%nat ∧ (∀ j, (j < k)%nat → j ∈ arrivals) ∧ k ∉ arrivals.
Proof.
  intros Hp Hs Hr Hb Hl Ha Hw wire.
  unfold wire. rewrite arriving_frames by done.
  destruct (deliver_all msgs Hl [] arrivals 0 receiver) as (k & _ & Hi & Ho); [|done..|].
  - split; rewrite ?Hb.
    + by rewrite Hr.
    + apply map_Forall_empty.
    + lia.
    + intros; lia.
    + intros j []%not_elem_of_nil.
    + intros j. rewrite lookup_empty. intros [? [=]].
    + intros j. rewrite lookup_empty. intros [? [=]].
  - exists k. destruct Hi. split_and!; [| done | done |].
    + rewrite Ho, Nat.sub_0_r. by rewrite drop_0.
    + intros [?|[x Hx]]%oi_seen0; [lia|]. destruct (oi_buf0 _ _ Hx) as (? & ? & ? & _). lia.
Qed.

(** * Parked data *)

(** The most recent [n] elements. *)
Definition last_n {A} (n : nat) (l : list A) : list A := drop (length l - n) l.

Lemma send_parked s d :
  s_state s ≠ Connected → (length (s_pending_app_data s) ≤ kPendingAppDataMaxFrames)%nat →
  outputs (send d) s = [] ∧ s_state (final (send d) s) = s_state s
  ∧ s_pending_app_data (final (send d) s)
    = last_n kPendingAppDataMaxFrames (s_pending_app_data s ++ [d]).
Proof.
  intros Hst Hl. unfold send, touch. rewrite outputs_modify, final_modify, outputs_get, final_get.
  set (s1 := s <| s_last_activity := _ |>). change (s_state s1) with (s_state s).
  rewrite decide_False by done. split_and!; [done..|]. cbn. unfold last_n.
  rewrite length_app. cbn [length]. case_decide.
  - replace (length (s_pending_app_data s) + 1 - kPendingAppDataMaxFrames)%nat with 1%nat by lia.
    destruct (s_pending_app_data s); [cbn in *; unfold kPendingAppDataMaxFrames in *; lia|done].
  - by replace (length (s_pending_app_data s) + 1 - kPendingAppDataMaxFrames)%nat with 0%nat by lia.
Qed.

Lemma last_n_app {A} n (l k : list A) : last_n n (last_n n l ++ k) = last_n n (l ++ k).
Proof.
  unfold last_n. rewrite !length_app, length_drop.
  destruct (decide (length l ≤ n)%nat).
  - replace (length l - n)%nat with 0%nat by lia. rewrite drop_0. f_equal. lia.
  - rewrite <- (drop_app_le l k (length l - n)) by lia. rewrite drop_drop. f_equal. lia.
Qed.

Lemma length_last_n {A} n (l : list A) : (length (last_n n l) ≤ n)%nat.
Proof. unfold last_n. rewrite length_drop. lia. Qed.

Lemma send_all_parked s ds :
  s_state s ≠ Connected → (length (s_pending_app_data s) ≤ kPendingAppDataMaxFrames)%nat →
  outputs (for_each send ds) s = []
  ∧ s_pending_app_data (final (for_each send ds) s)
    = last_n kPendingAppDataMaxFrames (s_pending_app_data s ++ ds).
Proof.
  revert s. induction ds as [|d ds IH]; intros s Hst Hl.
  - split; [done|]. rewrite app_nil_r. unfold last_n.
    by replace (length (s_pending_app_data s) - kPendingAppDataMaxFrames)%nat with 0%nat by lia.
  - destruct (send_parked s d Hst Hl) as (Ho & Hs & Hp).
    rewrite outputs_for_each_cons, final_for_each_cons, Ho.
    destruct (IH (final (send d) s)) as [-> ->]; [by rewrite Hs | |].
    + rewrite Hp. apply length_last_n.
    + split; [done|]. rewrite Hp, last_n_app, <- app_assoc. done.
Qed.

(** Parking touches nothing but the parked frames and the time of the last activity. *)
Lemma parked_frame s ds : s_state s ≠ Connected → ∃ t l,
  final (for_each send ds) s = s <| s_last_activity := t |> <| s_pending_app_data := l |>.
Proof.
  revert s. induction ds as [|d ds IH]; intros s Hst.
  - by exists (s_last_activity s), (s_pending_app_data s); destruct s.
  - rewrite final_for_each_cons. unfold send at 2, touch. rewrite final_modify, final_get.
    set (s1 := s <| s_last_activity := _ |>). change (s_state s1) with (s_state s).
    rewrite decide_False by done.
    match goal with |- context [final (for_each send ds) ?x] => destruct (IH x Hst) as (t & l & ->) end.
    by exists t, l.
Qed.

(** The session has a path for application data: the relay, or a connection of the
    nominated transport. *)
Definition relayed (s : IceSession) : bool := uses_relay (s_nom s) && bool_decide (s_turn s ≠ None).
Definition path_open (s : IceSession) : Prop :=
  relayed s = false →
  nominated_cid (s_nom s) ≠ 0
  ∧ (if transport_is_tcp (nominated_transport (s_nom s))
     then f_carrier_tcp (s_fixed s) else f_carrier (s_fixed s)) = true.

(** The frame a path carries for the [i]-th message from now on, and how it goes out. *)
Definition numbered (s : IceSession) : bool :=
  ordered_delivery (cfg s) && negb (transport_is_tcp (nominated_transport (s_nom s))).
Definition path_frame (s : IceSession) (i : nat) (d : bytes) : bytes :=
  if numbered s then write32 (u32 (send_data_seq (s_ordered s) + Z.of_nat i)) ++ d else d.
Definition path_event (s : IceSession) (out : bytes) : session_event :=
  if relayed s then ETurnSend (nominated_ip (s_nom s)) (nominated_port (s_nom s)) out
  else if transport_is_tcp (nominated_transport (s_nom s))
  then ESendTcp (nominated_cid (s_nom s)) (frame_tcp_stun out)
  else ESend (nominated_cid (s_nom s)) out.

Lemma send_on_strand_path s d :
  path_open s → is_u32 (send_data_seq (s_ordered s)) →
  outputs (send_on_strand d) s = [path_event s (path_frame s 0 d)]
  ∧ final (send_on_strand d) s
    = if numbered s then s <| s_ordered := (s_ordered s)
        <| send_data_seq := u32 (send_data_seq (s_ordered s) + 1) |> |> else s.
Proof.
  intros Hp Hq. unfold send_on_strand, set_ordered. rewrite outputs_get, final_get.
  unfold path_event, path_frame. rewrite Z.add_0_r, (u32_id (send_data_seq _)) by done.
  fold (numbered s) (relayed s). rewrite outputs_bind, final_bind.
  set (s1 := final _ s).
  replace (outputs _ s) with (@nil session_event) by by destruct (numbered s).
  assert (s1 = if numbered s then s <| s_ordered := (s_ordered s)
    <| send_data_seq := u32 (send_data_seq (s_ordered s) + 1) |> |> else s) as <-
    by (unfold s1; by destruct (numbered s)).
  clearbody s1. destruct (relayed s) eqn:Hr; [done|]. destruct (Hp Hr) as [Hc Hf].
  rewrite decide_False by done. cbn. rewrite decide_False by done.
  destruct (transport_is_tcp _); by rewrite Hf.
Qed.

(** Flushing sends every parked frame, oldest first, and leaves none. *)
Lemma flush_path s :
  path_open s → is_u32 (send_data_seq (s_ordered s)) →
  outputs flush_pending_app_data s
    = imap (λ i d, path_event s (path_frame s i d)) (s_pending_app_data s)
  ∧ s_pending_app_data (final flush_pending_app_data s) = [].
Proof.
  unfold flush_pending_app_data. rewrite outputs_get, final_get.
  remember (s_pending_app_data s) as ds eqn:Hds. revert s Hds.
  induction ds as [|d ds IH]; intros s Hds Hp Hq; [done|].
  cbn [length flush_loop]. rewrite outputs_get, final_get, <- Hds, outputs_modify, final_modify.
  set (s1 := s <| s_pending_app_data := ds |>). rewrite outputs_bind, final_bind.
  destruct (send_on_strand_path s1 d Hp Hq) as [-> ->]. change (numbered s1) with (numbered s).
  set (s2 := if numbered s then _ else _).
  assert (s_pending_app_data s2 = ds ∧ s_nom s2 = s_nom s ∧ s_turn s2 = s_turn s
    ∧ s_fixed s2 = s_fixed s ∧ is_u32 (send_data_seq (s_ordered s2))) as (E1 & E2 & E3 & E4 & E5).
  { unfold s2. destruct (numbered s); [|done]. split_and!; [done..|apply u32_range]. }
  assert (path_open s2) as Hp2 by (unfold path_open, relayed; by rewrite E2, E3, E4).
  destruct (IH s2 (eq_sym E1) Hp2 E5) as [-> ->]. split; [|done]. cbn [imap app]. f_equal.
  assert (numbered s2 = numbered s) as En by (unfold numbered, cfg; by rewrite E2, E4).
  apply imap_ext. intros i x _. cbn. unfold path_event, relayed, path_frame.
  rewrite E2, E3, En. destruct (numbered s) eqn:En'; [|done].
  replace (u32 (send_data_seq (s_ordered s2) + _)) with (u32 (send_data_seq (s_ordered s) + Z.of_nat (S i)));
    [done|].
  unfold s2. cbn. unfold u32. rewrite Zplus_mod_idemp_l. f_equal. lia.
Qed.
End end_to_end.

Lemma ordered_delivery_in_order_witness :
  let msgs := [str "a"; str "b"; str "c"; str "d"] in
  let wire := omap (datagram 3)
    (outputs (for_each (send (H := SessionRef.env)) msgs) SessionRef.ordered_connected) in
  ∃ k, outputs (for_each deliver_in_order (omap (wire !!.) [1; 0; 1; 3]%nat)) SessionRef.ordered_new
       = EData <$> take k msgs
    ∧ (k ≤ 4)%nat ∧ (∀ j, (j < k)%nat → j ∈ [1; 0; 1; 3]%nat) ∧ k ∉ [1; 0; 1; 3]%nat.
Proof.
  apply (ordered_delivery_in_order (H := SessionRef.env) SessionRef.ordered_connected
    SessionRef.ordered_new 3 [str "a"; str "b"; str "c"; str "d"] [1; 0; 1; 3]%nat);
    [by split_and! | done | done | done | done | repeat constructor; cbn; lia |].
  intros p j q m Heq _. assert (j ∈ [1; 0; 1; 3]%nat) as Hj by (rewrite Heq; set_solver).
  unfold kReorderWindow. set_unfold in Hj. lia.
Defined.

(** * What leaves the parked frames alone *)

Definition same_parked (s s' : IceSession) : Prop := s_pending_app_data s' = s_pending_app_data s.
#[export] Instance same_parked_po : PreOrder same_parked.
Proof. split; unfold same_parked; [done|intros x y z; congruence]. Qed.

Lemma send_on_strand_parked `{SessionEnv} buf : keeps same_parked (send_on_strand buf).
Proof.
  unfold send_on_strand, ensure_remote_cid, dial, set_eps, set_nom, set_ordered. keeps_auto ltac:(done).
Qed.

(** * What delivery depends on *)

(** Delivery changes nothing but the reorder state, and depends on nothing else. *)
Definition ordered_only (s s' : IceSession) : Prop := ∃ o, s' = s <| s_ordered := o |>.
#[export] Instance ordered_only_po : PreOrder ordered_only.
Proof.
  split; [intros s; exists (s_ordered s); by destruct s|]. intros x y z [o1 ->] [o2 ->]. by exists o2.
Qed.

Lemma deliver_loop_only n : keeps ordered_only (deliver_loop n).
Proof.
  induction n as [|n IH]; cbn [deliver_loop]; unfold set_ordered;
    keeps_auto ltac:(first [apply IH | intros ?; by eexists]).
Qed.

Lemma deliver_in_order_only d : keeps ordered_only (deliver_in_order d).
Proof.
  unfold deliver_in_order, deliver_seq, set_ordered. pose proof deliver_loop_only.
  keeps_auto ltac:(first [done | intros ?; by eexists]).
Qed.

Definition same_outcome (m : session unit) : Prop := ∀ s t, s_ordered s = s_ordered t →
  outputs m s = outputs m t ∧ s_ordered (final m s) = s_ordered (final m t).

Lemma deliver_loop_outcome n : same_outcome (deliver_loop n).
Proof.
  induction n as [|n IH]; intros s t E; [done|]. cbn [deliver_loop].
  rewrite !outputs_get, !final_get, E. destruct (_ !! _) as [d|]; [|done].
  unfold set_ordered. rewrite !outputs_bind, !final_bind.
  match goal with |- _ ∧ s_ordered (final _ ?x) = s_ordered (final _ ?y) =>
    destruct (IH x y) as [Ho Hf]; [cbn; by rewrite E|] end.
  split; [by rewrite Ho|exact Hf].
Qed.

Lemma deliver_in_order_outcome d : same_outcome (deliver_in_order d).
Proof.
  intros s t E. unfold deliver_in_order. do 4 (destruct d as [|? d]; [done|]).
  unfold deliver_seq. rewrite !outputs_get, !final_get, E. case_decide; [done|]. case_decide.
  - rewrite !outputs_bind, !final_bind.
    match goal with |- _ ∧ s_ordered (final (deliver_loop ?n) ?x) = s_ordered (final _ ?y) =>
      destruct (deliver_loop_outcome n x y) as [Ho Hf]; [cbn; by rewrite E|] end.
    split; [by rewrite Ho|exact Hf].
  - rewrite !outputs_bind, !final_bind. case_decide; cbn; by rewrite E.
Qed.

(** * Overflow of the reorder window *)

Lemma first_key_spec m :
  match first_key m with
  | None => m = ∅
  | Some k => is_Some (m !! k) ∧ map_Forall (λ i _, k ≤ i) m
  end.
Proof.
  unfold first_key.
  assert (∀ l : list (Z * bytes),
    match foldr (λ x acc, Some (match acc with None => x.1 | Some k => Z.min (x.1) k end)) None l with
    | None => l = []
    | Some k => k ∈ l.*1 ∧ ∀ i, i ∈ l.*1 → k ≤ i
    end) as Hl.
  { induction l as [|[i x] l IH]; [done|]. cbn [foldr fst].
    destruct (foldr _ None l) as [k|]; cbn.
    - destruct IH as [Hk Hm]. split.
      + destruct (Z.min_spec i k) as [[_ ->]|[_ ->]]; [by left | by right].
      + intros j [->|Hj]%elem_of_cons; [lia|]. specialize (Hm j Hj). lia.
    - subst l. split; [by left|]. intros j [->|[]%not_elem_of_nil]%elem_of_cons. lia. }
  specialize (Hl (map_to_list m)).
  destruct (foldr _ None (map_to_list m)) as [k|].
  - destruct Hl as [Hk Hmin]. split.
    + apply list_elem_of_fmap in Hk as ([k' d] & -> & Hd%elem_of_map_to_list). cbn. by rewrite Hd.
    + intros i d Hi%elem_of_map_to_list. apply Hmin.
      apply list_elem_of_fmap. by exists (i, d).
  - by apply map_to_list_empty_iff.
Qed.

(** The state after messages [1..n] arrived and message 0 did not. *)
Definition stalled (n : nat) (o : Ordered) : Prop :=
  0 ≤ recv_data_seq o ≤ 1 ∧ (recv_data_seq o = 1 → (0 < n)%nat)
  ∧ ∀ i, is_Some (recv_reorder_buf o !! i) ↔ 1 ≤ i ≤ Z.of_nat n.

Lemma stalled_step n s d :
  stalled n (s_ordered s) →
  outputs (deliver_seq (Z.of_nat (S n)) d) s = []
  ∧ stalled (S n) (s_ordered (final (deliver_seq (Z.of_nat (S n)) d) s)).
Proof.
  intros (Hr & Hn & Hb). unfold deliver_seq. rewrite outputs_get, final_get.
  rewrite !decide_False by lia. split; [by case_decide|].
  assert (∀ o, 0 ≤ recv_data_seq o ≤ 1 → recv_reorder_buf o = recv_reorder_buf (s_ordered s) →
    stalled (S n) (o <| recv_reorder_buf := <[Z.of_nat (S n) := d]> (recv_reorder_buf o) |>)) as Hs.
  { intros o Ho Hbuf. split_and!; [apply Ho.. | lia |]. intros i.
    change (recv_reorder_buf (o <| recv_reorder_buf := ?m |>)) with m.
    rewrite Hbuf, lookup_insert_is_Some', Hb. lia. }
  rewrite final_bind. case_decide as Hw.
  - apply Hs; [|done]. change (recv_data_seq _) with
      (default (recv_data_seq (s_ordered s)) (first_key (recv_reorder_buf (s_ordered s)))).
    pose proof (first_key_spec (recv_reorder_buf (s_ordered s))) as Hf.
    destruct (first_key _) as [k|]; [|done]. destruct Hf as [Hk Hmin]. cbn.
    apply Hb in Hk as Hk1. destruct (proj2 (Hb 1) ltac:(lia)) as [x Hx].
    specialize (Hmin _ _ Hx). cbn in Hmin. lia.
  - by apply Hs.
Qed.

(** C40 (a full reorder window stalls): when message 0 is lost and [n] later messages
    arrive in order, nothing is delivered however large [n] is, and all of them stay
    buffered, beyond [kReorderWindow]: advancing past the gap does not release them. *)
Theorem reorder_overflow_stalls s (f : nat → bytes) n :
  recv_data_seq (s_ordered s) = 0 → recv_reorder_buf (s_ordered s) = ∅ →
  Z.of_nat n < 2 ^ 32 - 1 →
  let arrivals := (λ i, write32 (Z.of_nat i) ++ f i) <$> seq 1 n in
  outputs (for_each deliver_in_order arrivals) s = []
  ∧ size (recv_reorder_buf (s_ordered (final (for_each deliver_in_order arrivals) s))) = n.
Proof.
  intros Hr Hb Hn arrivals.
  assert (∀ m k s, stalled k (s_ordered s) → (Z.of_nat (k + m) < 2 ^ 32) →
    let a := (λ i, write32 (Z.of_nat i) ++ f i) <$> seq (S k) m in
    outputs (for_each deliver_in_order a) s = []
    ∧ stalled (k + m) (s_ordered (final (for_each deliver_in_order a) s))) as Hrun.
  { intros m. induction m as [|m IH]; intros k s1 Hk Hkm a.
    - unfold a. cbn. rewrite Nat.add_0_r. done.
    - unfold a. cbn [seq]. rewrite fmap_cons, outputs_for_each_cons, final_for_each_cons.
      rewrite deliver_frame by (unfold_ints; lia).
      destruct (stalled_step k s1 (f (S k)) Hk) as [-> Hs2].
      destruct (IH (S k) _ Hs2 ltac:(lia)) as [-> Hs3].
      by replace (k + S m)%nat with (S k + m)%nat by lia. }
  destruct (Hrun n 0%nat s) as [Ho Hs]; [|lia|].
  - unfold stalled. rewrite Hr, Hb. split_and!; [lia..|]. intros i. rewrite lookup_empty.
    split; [by intros [? [=]] | lia].
  - split; [exact Ho|]. destruct Hs as (_ & _ & Hs). fold arrivals in Hs.
    rewrite <- size_dom.
    replace (dom _) with (list_to_set (C := gset Z) (Z.of_nat <$> seq 1 n)).
    + rewrite size_list_to_set by (apply NoDup_fmap_2; [apply _ | apply NoDup_seq]).
      by rewrite length_fmap, length_seq.
    + apply set_eq. intros i. rewrite elem_of_dom, Hs, elem_of_list_to_set, list_elem_of_fmap.
      split.
      * intros (j & -> & Hj%elem_of_seq). lia.
      * intros Hi. exists (Z.to_nat i). rewrite elem_of_seq. lia.
Qed.

Lemma reorder_overflow_stalls_witness :
  let arrivals := (λ i, write32 (Z.of_nat i) ++ str "x") <$> seq 1 100 in
  outputs (for_each deliver_in_order arrivals) SessionRef.ordered_new = []
  ∧ size (recv_reorder_buf (s_ordered
      (final (for_each deliver_in_order arrivals) SessionRef.ordered_new))) = 100%nat.
Proof.
  apply (reorder_overflow_stalls SessionRef.ordered_new (λ _, str "x") 100); [done | done | lia].
Defined.
