(* ===== verification/CheckList.v ===== *)
(** Connectivity checks (src/session.cpp): pairing candidates into a check list,
    freezing, the paced check loop, check requests and role conflicts.

    A [CheckPair&] into [check_list_] is an index into the list.  Locking
    [local_state_mu_], a non-recursive mutex, is an effect. *)

From stdpp Require Import gmap.
From S2P Require Import Prelude Bytes Inet Candidate Framing Stun Turn PathMtu SessionState.
From S2P Require Import Delivery.

(** * Pair states *)

Definition fnd_key (p : CheckPair) : bytes :=
  c_foundation (cp_local p) ++ str "|" ++ c_foundation (cp_remote p).

Definition set_cp_state (st : PairState) (p : CheckPair) : CheckPair := p <| cp_state := st |>.

(** [seen]: the foundation pairs met so far. *)
Fixpoint assign_states (seen : list bytes) (l : list CheckPair) : list CheckPair :=
  match l with
  | [] => []
  | p :: l =>
      if decide (fnd_key p ∈ seen) then set_cp_state PFrozen p :: assign_states seen l
      else set_cp_state PWaiting p :: assign_states (fnd_key p :: seen) l
  end.

Definition assign_initial_pair_states (l : list CheckPair) : list CheckPair := assign_states [] l.

Definition in_progress_count (l : list CheckPair) : nat :=
  length (filter (λ p, cp_state p = PInProgress) l).

Definition unfreeze_siblings (local_fnd remote_fnd : bytes) (l : list CheckPair) : list CheckPair :=
  if decide (local_fnd = [] ∨ remote_fnd = []) then l else
  (λ p, if decide (cp_state p ≠ PFrozen) then p else
        if decide (c_foundation (cp_local p) = local_fnd ∧ c_foundation (cp_remote p) = remote_fnd)
        then set_cp_state PWaiting p else p) <$> l.

Definition active (p : CheckPair) : Prop := cp_state p = PWaiting ∨ cp_state p = PInProgress.
Definition pending (p : CheckPair) : Prop := cp_state p = PFrozen ∨ active p.
#[global] Instance active_dec p : Decision (active p).
Proof. unfold active. apply _. Defined.
#[global] Instance pending_dec p : Decision (pending p).
Proof. unfold pending. apply _. Defined.

Fixpoint promote_frozen (promoted : list bytes) (l : list CheckPair) : list CheckPair :=
  match l with
  | [] => []
  | p :: l =>
      if decide (cp_state p ≠ PFrozen) then p :: promote_frozen promoted l else
      if decide (fnd_key p ∈ promoted) then p :: promote_frozen promoted l
      else set_cp_state PWaiting p :: promote_frozen (fnd_key p :: promoted) l
  end.

Definition unfreeze_stuck_pairs (l : list CheckPair) : list CheckPair :=
  if decide (Exists active l) then l else promote_frozen [] l.

(** * Building the list *)

Definition tcp_transport_pairs (l r : TransportType) : bool :=
  match l with
  | TcpActive => bool_decide (r = TcpPassive)
  | TcpPassive => bool_decide (r = TcpActive)
  | TcpSimultaneousOpen => bool_decide (r = TcpSimultaneousOpen)
  | Udp => false
  end.

(** The guards of the pairing loop. *)
Definition pairable (l r : Candidate) : bool :=
  negb (bool_decide (c_type l = HostMdns))
  && negb (bool_decide (c_type r = HostMdns) && negb (bool_decide (c_hostname r = [])))
  && bool_decide (c_family l = c_family r)
  && ((bool_decide (c_transport l = Udp) && bool_decide (c_transport r = Udp))
      || tcp_transport_pairs (c_transport l) (c_transport r)).

Definition with_foundation `{InetOps} (c : Candidate) : Candidate :=
  if decide (c_foundation c = [])
  then c <| c_foundation := compute_foundation (c_type c) (address_str c) [] (c_transport c) |>
  else c.

Definition by_priority (a b : CheckPair) : bool := bool_decide (cp_priority b < cp_priority a).

Section build.
Context `{InetOps} `{SessionEnv}.

Definition assign_local_foundations : session unit :=
  emit ELock ;;
  modify (λ s, s <| s_local_candidates := with_foundation <$> s_local_candidates s |>) ;;
  emit EUnlock.

Definition new_pair (l r : Candidate) (controlling : bool) (txn : bytes) : CheckPair :=
  mkPair l r (pair_priority (c_priority l) (c_priority r) controlling) 0 PFrozen false false false
    false txn 0 (c_transport l).

Definition push_pair (p : CheckPair) : session unit := set_check_list (λ l, l ++ [p]).

(** The predicted ports [k], [k+1], ... of a symmetric NAT, [n] of them at most. *)
Fixpoint predict_pairs (n : nat) (k : Z) (stride : Z) (pair : CheckPair) : session unit :=
  match n with
  | O => skip
  | S n =>
      let r := cp_remote pair in
      let predicted := u32 (c_port r + u32 (stride * k)) in
      if decide (predicted > 65535) then skip else
      txn ← generate_txn_id;
      push_pair (pair
        <| cp_remote := r <| c_port := predicted |>
             <| c_foundation := c_foundation r ++ str ":p" ++ to_string predicted |> |>
        <| cp_txn_id := txn |>
        <| cp_priority := if decide (cp_priority pair > 0) then cp_priority pair - 1 else 0 |>) ;;
      predict_pairs n (k + 1) stride pair
  end.

Definition add_pair (stride : Z) (attempts : nat) (l r : Candidate) : session unit :=
  if negb (pairable l r) then skip else
  s ← get;
  txn ← generate_txn_id;
  let pair := new_pair l r (s_controlling s) txn in
  push_pair pair ;;
  if bool_decide (0 < attempts)%nat && bool_decide (c_type r = Srflx)
  then predict_pairs attempts 1 stride pair else skip.

(** The stride of predicted ports, 0 for none, and the number of attempts. *)
Definition prediction_stride (s : IceSession) : Z :=
  if bool_decide (Z.land (s_peer_signal_flags s) ICE_SIGNAL_FLAG_SYMMETRIC = 0)
     || negb (symmetric_port_prediction_enabled (cfg s)) then 0 else
  let own := symmetric_stride (s_gather s) in
  if decide (own ≠ 0) then own else 1.

Definition prediction_attempts (s : IceSession) : nat :=
  if bool_decide (prediction_stride s ≠ 0)
     && bool_decide (0 < symmetric_port_prediction_attempts (cfg s))
  then Z.to_nat (symmetric_port_prediction_attempts (cfg s)) else 0%nat.

Definition build_check_list : session unit :=
  emit ELock ;;
  set_check_list (λ _, []) ;;
  s ← get;
  let stride := prediction_stride s in
  let attempts := prediction_attempts s in
  assign_local_foundations ;;
  modify (λ s, s <| s_remote_candidates := with_foundation <$> s_remote_candidates s |>) ;;
  s ← get;
  for_each (λ l, for_each (add_pair stride attempts l) (s_remote_candidates s))
    (s_local_candidates s) ;;
  set_check_list (std_sort by_priority) ;;
  set_check_list assign_initial_pair_states ;;
  modify (λ s, s <| s_current_check := 0%nat |>) ;;
  emit EUnlock.
End build.

(** * Sending checks *)

Definition max_retries (s : IceSession) : Z := u8 (max_check_retries (cfg s)).

(** The attributes of a check request before MESSAGE-INTEGRITY. *)
Definition check_request (s : IceSession) (p : CheckPair) : StunBuilder :=
  let b := add_priority (c_priority (cp_local p))
    (add_username (remote_ufrag (s_creds s) ++ str ":" ++ local_ufrag (s_creds s))
       (new_builder STUN_BINDING_REQUEST (cp_txn_id p))) in
  if s_controlling s then
    let b := add_ice_controlling (f_tiebreaker (s_fixed s)) b in
    if aggressive_nomination (cfg s) || cp_nominee_check_sent p then add_use_candidate b else b
  else add_ice_controlled (f_tiebreaker (s_fixed s)) b.

Section checks.
Context `{InetOps} `{Hmac} `{SessionEnv}.

(** Over TCP: the connection by transport type, [None] to leave without sending. *)
Definition tcp_check_cid (p : CheckPair) : session (option Z) :=
  match cp_transport_type p with
  | TcpSimultaneousOpen =>
      cid ← arm_tcp_so_connect (address_str (cp_remote p)) (c_port (cp_remote p)); mret (Some cid)
  | TcpActive =>
      cid ← ensure_remote_tcp_cid (address_str (cp_remote p)) (c_port (cp_remote p));
      mret (Some cid)
  | _ => mret None
  end.

(** The transport half of [send_check]. *)
Definition transmit_check (p : CheckPair) (msg : bytes) : session unit :=
  let ip := address_str (cp_remote p) in
  let port := c_port (cp_remote p) in
  s ← get;
  if transport_is_tcp (cp_transport_type p) then
    cid ← tcp_check_cid p;
    match cid with
    | None => skip
    | Some cid =>
        if bool_decide (cid = 0) || negb (f_carrier_tcp (s_fixed s)) then skip
        else emit (ESendTcp cid (frame_tcp_stun msg))
    end
  else if bool_decide (c_type (cp_local p) = Relay)
          && match s_turn s with Some t => th_allocated t | None => false end then
    relay_cid_for_endpoint ip port ;;
    emit (ETurnSend ip port msg)
  else
    cid ← ensure_remote_cid ip port;
    if bool_decide (cid = 0) || negb (f_carrier (s_fixed s)) then skip
    else emit (ESend cid msg).

Definition send_check (i : nat) : session unit :=
  s ← get;
  match s_check_list s !! i with
  | None => skip
  | Some p =>
      if decide (max_retries s ≤ cp_retries p) then
        set_pair i (set_cp_state PFailed) ;;
        set_check_list
          (unfreeze_siblings (c_foundation (cp_local p)) (c_foundation (cp_remote p)))
      else
        set_pair i (λ p, p <| cp_retries := u8 (cp_retries p + 1) |>
                           <| cp_txn_send_us := s_now_us s |>) ;;
        transmit_check p
          (build (add_fingerprint (add_integrity (remote_pwd (s_creds s)) (check_request s p))))
  end.

(** The happy-eyeballs burst: the first waiting pair of each family. *)
Fixpoint begin_loop (idxs : list nat) (fired_v4 fired_v6 : bool) : session unit :=
  match idxs with
  | [] => skip
  | i :: idxs =>
      if fired_v4 && fired_v6 then skip else
      s ← get;
      match s_check_list s !! i with
      | None => skip
      | Some p =>
          if decide (cp_state p ≠ PWaiting) then begin_loop idxs fired_v4 fired_v6 else
          if bool_decide (c_family (cp_local p) = IPv4) && negb fired_v4 then
            set_pair i (set_cp_state PInProgress) ;; send_check i ;; begin_loop idxs true fired_v6
          else if bool_decide (c_family (cp_local p) = IPv6) && negb fired_v6 then
            set_pair i (set_cp_state PInProgress) ;; send_check i ;; begin_loop idxs fired_v4 true
          else begin_loop idxs fired_v4 fired_v6
      end
  end.

(** * The check tick *)

Definition base_rto_us (s : IceSession) : Z := u64 (check_interval_ms (cfg s) * 5 * 1000).
Definition shl64 (x n : Z) : Z := u64 (Z.shiftl x n).

(** One pair of the retransmission loop. *)
Definition retransmit_one (i : nat) : session unit :=
  s ← get;
  match s_check_list s !! i with
  | None => skip
  | Some p =>
      let elapsed := u64 (s_now_us s - cp_txn_send_us p) in
      if decide (cp_state p ≠ PInProgress) then skip else
      if decide (max_retries s ≤ cp_retries p) then
        if bool_decide (cp_txn_send_us p ≠ 0)
           && bool_decide (elapsed < shl64 (base_rto_us s) (max_check_retries (cfg s) - 1))
        then skip
        else
          set_pair i (set_cp_state PFailed) ;;
          set_check_list
            (unfreeze_siblings (c_foundation (cp_local p)) (c_foundation (cp_remote p)))
      else if bool_decide (cp_txn_send_us p ≠ 0)
              && bool_decide (elapsed < shl64 (base_rto_us s) (Z.min (cp_retries p) 5))
      then skip
      else send_check i
  end.

(** One pair of the promotion loop. *)
Fixpoint promote_loop (idxs : list nat) : session unit :=
  match idxs with
  | [] => skip
  | i :: idxs =>
      s ← get;
      if decide (kCheckConcurrencyCap ≤ in_progress_count (s_check_list s))%nat then skip else
      match s_check_list s !! i with
      | None => skip
      | Some p =>
          (if bool_decide (cp_state p = PWaiting) && bool_decide (cp_retries p < max_retries s)
           then set_pair i (set_cp_state PInProgress) ;; send_check i
           else skip) ;;
          promote_loop idxs
      end
  end.

Definition fail_session : session unit := set_state Failed ;; emit EFailed.

(** No pair is pending any more. *)
Definition checks_exhausted : session unit :=
  s ← get;
  if decide (s_state s = Connected) then skip else
  if negb (s_controlling s) && negb (s_nomination_wait_armed s)
     && bool_decide (0 < nomination_wait_ms (cfg s))
     && bool_decide (Exists (λ p, cp_valid p = true) (s_check_list s)) then
    modify (λ s, s <| s_nomination_wait_armed := true |>) ;;
    if f_timer_ctx (s_fixed s) then
      let gen := S (nomination_wait_gen (s_gens s)) in
      set_gens (λ g, g <| nomination_wait_gen := gen |>) ;;
      emit (ETimer TmNominationWait (nomination_wait_ms (cfg s)) gen)
    else skip
  else fail_session.

Definition run_next_check : session unit :=
  s ← get;
  if decide (s_state s ≠ Checking) then skip else
  set_check_list unfreeze_stuck_pairs ;;
  for_each retransmit_one (seq 0 (length (s_check_list s))) ;;
  s ← get;
  let any_pending := bool_decide (Exists pending (s_check_list s)) in
  promote_loop (seq 0 (length (s_check_list s))) ;;
  if negb any_pending then checks_exhausted else
  if f_timer_ctx (s_fixed s) then
    let gen := S (check_gen (s_gens s)) in
    set_gens (λ g, g <| check_gen := gen |>) ;;
    emit (ETimer TmCheck (check_interval_ms (cfg s)) gen)
  else skip.

Definition begin_checks : session unit :=
  s ← get;
  if lite_mode (cfg s) then skip else
  begin_loop (seq 0 (length (s_check_list s))) false false ;;
  run_next_check.

(** The timers' handlers. *)
Definition on_check_timer (gen : nat) : session unit :=
  s ← get;
  if decide (check_gen (s_gens s) ≠ gen) then skip else run_next_check.

Definition on_nomination_wait (gen : nat) : session unit :=
  s ← get;
  if decide (nomination_wait_gen (s_gens s) ≠ gen) then skip else
  if decide (s_state s = Connected) then skip else fail_session.

(** Rebuild the list and go on checking, when there is something to pair. *)
Definition rebuild_if_checking : session unit :=
  s ← get;
  if bool_decide (s_state s = Checking) && negb (bool_decide (s_local_candidates s = []))
     && negb (bool_decide (s_remote_candidates s = [])) then
    build_check_list ;;
    modify (λ s, s <| s_current_check := 0%nat |>) ;;
    run_next_check
  else skip.

(** Returns whether this side switched its role. *)
Definition handle_role_conflict (sender_controlling : bool) (sender_tiebreaker : Z) : session bool :=
  s ← get;
  if negb (Bool.eqb sender_controlling (s_controlling s)) then mret false else
  if decide (sender_tiebreaker ≤ f_tiebreaker (s_fixed s)) then mret false else
  modify (λ s, s <| s_controlling := negb (s_controlling s) |>) ;;
  rebuild_if_checking ;;
  mret true.
End checks.

(** * The local mutex *)

(** A trace of [local_state_mu_] operations on one thread blocks when the mutex is
    acquired while held. *)
Fixpoint self_deadlocks (held : bool) (es : list session_event) : bool :=
  match es with
  | [] => false
  | ELock :: es => held || self_deadlocks true es
  | EUnlock :: es => self_deadlocks false es
  | _ :: es => self_deadlocks held es
  end.

(** C35 (the check list cannot be built): whatever the session, [build_check_list]
    acquires [local_state_mu_] again, in [assign_local_foundations], while it holds
    it; the mutex is not recursive. *)
Theorem build_check_list_self_deadlock `{InetOps} `{SessionEnv} s :
  self_deadlocks false (outputs build_check_list s) = true.
Proof.
  unfold build_check_list. rewrite outputs_bind.
  change (outputs (emit ELock) s) with [ELock]. change (final (emit ELock) s) with s.
  unfold set_check_list. rewrite outputs_modify, outputs_get.
  unfold assign_local_foundations. rewrite outputs_bind, outputs_bind. reflexivity.
Qed.

(** * Frames *)

(** Only the connection tables, the dial count and the draw count changed. *)
Definition eps_only (s s' : IceSession) : Prop :=
  ∃ e n d, s' = s <| s_eps := e |> <| s_dials := n |> <| s_draws := d |>.

#[export] Instance eps_only_po : PreOrder eps_only.
Proof.
  split.
  - intros s. exists (s_eps s), (s_dials s), (s_draws s). by destruct s.
  - intros s1 s2 s3 (e & n & d & ->) (e' & n' & d' & ->). by exists e', n', d'.
Qed.

Ltac eps_auto := keeps_auto ltac:(intros []; do 3 eexists; cbn; reflexivity).

Section frames.
Context `{SessionEnv}.

Lemma ensure_remote_cid_frame ip port : keeps eps_only (ensure_remote_cid ip port).
Proof. unfold ensure_remote_cid, dial, set_eps. eps_auto. Qed.
Lemma ensure_remote_tcp_cid_frame ip port : keeps eps_only (ensure_remote_tcp_cid ip port).
Proof. unfold ensure_remote_tcp_cid, dial, set_eps. eps_auto. Qed.
Lemma relay_cid_for_endpoint_frame ip port : keeps eps_only (relay_cid_for_endpoint ip port).
Proof. unfold relay_cid_for_endpoint, dial, set_eps. eps_auto. Qed.
End frames.

#[export] Hint Resolve ensure_remote_cid_frame ensure_remote_tcp_cid_frame
  relay_cid_for_endpoint_frame : ice.

Lemma transmit_check_frame `{InetOps} `{Hmac} `{SessionEnv} p msg :
  keeps eps_only (transmit_check p msg).
Proof. unfold transmit_check, tcp_check_cid, arm_tcp_so_connect. eps_auto. Qed.
