(* ===== verification/CheckLoop.v ===== *)
(** The check phase ends: without answers, the ticks of [run_next_check] bring every
    pair to an end and the session to [Failed], within a bounded number of ticks. *)

From stdpp Require Import gmap.
From S2P Require Import Prelude Bytes Inet Candidate Framing Stun Turn PathMtu SessionState.
From S2P Require Import Delivery CheckList.

(** * Work left *)

(** A pair's remaining steps: leaving [Frozen], being sent [m] times, failing. *)
Definition pair_work (m : Z) (p : CheckPair) : Z :=
  match cp_state p with
  | PFrozen => m + 3
  | PWaiting => m + 2
  | PInProgress => m - cp_retries p + 1
  | PSucceeded | PFailed => 0
  end.

(** Pairs not yet sent have no retries and no send time; sent ones were sent in the past. *)
Definition pair_ok (m now : Z) (p : CheckPair) : Prop :=
  match cp_state p with
  | PFrozen | PWaiting => cp_retries p = 0 ∧ cp_txn_send_us p = 0
  | PInProgress => 0 ≤ cp_retries p ≤ m ∧ 0 ≤ cp_txn_send_us p ≤ now
  | PSucceeded | PFailed => True
  end.

Fixpoint work (m : Z) (l : list CheckPair) : Z :=
  match l with [] => 0 | p :: l => pair_work m p + work m l end.

(** [l'] is [l] with some pairs advanced. *)
Definition advanced (m : Z) (l l' : list CheckPair) : Prop :=
  Forall2 (λ p p', p' = p ∨ pair_work m p' < pair_work m p) l l'.

#[export] Instance advanced_po m : PreOrder (advanced m).
Proof.
  split.
  - intros l. induction l; constructor; auto.
  - intros l1 l2 l3 H12. revert l3. induction H12 as [|p1 p2 l1 l2 Hp _ IH]; intros l3 H23.
    + apply Forall2_nil_inv_l in H23 as ->. constructor.
    + apply Forall2_cons_inv_l in H23 as (p3 & l3' & Hp3 & Hl & ->). constructor; [|by apply IH].
      destruct Hp as [->|Hp], Hp3 as [->|Hp3]; auto. right. lia.
Qed.

Lemma advanced_work m l l' : advanced m l l' → work m l' ≤ work m l.
Proof. induction 1 as [|p p' l l' [->|Hp] _ IH]; cbn; lia. Qed.

Lemma advanced_strict m l l' i p p' :
  advanced m l l' → l !! i = Some p → l' !! i = Some p' → pair_work m p' < pair_work m p →
  work m l' < work m l.
Proof.
  intros Ha. revert i. induction Ha as [|q q' l l' Hq Ha IH]; intros [|i] Hp Hp' Hlt; try done.
  - simplify_eq/=. apply advanced_work in Ha. lia.
  - cbn in *. specialize (IH i Hp Hp' Hlt). destruct Hq as [->|]; lia.
Qed.

Lemma advanced_lookup m l l' i p :
  advanced m l l' → l !! i = Some p →
  ∃ p', l' !! i = Some p' ∧ (p' = p ∨ pair_work m p' < pair_work m p).
Proof. intros Ha Hp. apply (Forall2_lookup_l _ _ _ _ _ Ha Hp). Qed.

Lemma advanced_alter m l i f :
  (∀ p, l !! i = Some p → f p = p ∨ pair_work m (f p) < pair_work m p) → advanced m l (alter f i l).
Proof.
  revert i. induction l as [|q l IH]; intros i Hf; [constructor|].
  destruct i as [|i]; cbn.
  - constructor; [by apply Hf | exact (reflexivity (R := advanced m) l)].
  - constructor; [by left|]. apply IH. intros p Hp. by apply Hf.
Qed.

Lemma advanced_unfreeze m lf rf l : advanced m l (unfreeze_siblings lf rf l).
Proof.
  unfold unfreeze_siblings. case_decide; [reflexivity|].
  induction l as [|p l IH]; constructor; [|exact IH].
  case_decide as Hf; [by left|]. case_decide; [|by left]. right.
  unfold pair_work. cbn. rewrite Hf. lia.
Qed.

Lemma advanced_promote m seen l : advanced m l (promote_frozen seen l).
Proof.
  revert seen. induction l as [|p l IH]; intros seen; cbn; [constructor|].
  case_decide as Hf; [constructor; [by left | apply IH]|].
  case_decide; constructor; try apply IH; [by left|].
  right. unfold pair_work. cbn. rewrite Hf. lia.
Qed.

Lemma advanced_stuck m l : advanced m l (unfreeze_stuck_pairs l).
Proof. unfold unfreeze_stuck_pairs. case_decide; [reflexivity | apply advanced_promote]. Qed.

(** ** Well-formed lists stay so *)

Lemma ok_unfreeze m now lf rf l :
  Forall (pair_ok m now) l → Forall (pair_ok m now) (unfreeze_siblings lf rf l).
Proof.
  intros Hl. unfold unfreeze_siblings. case_decide; [done|]. apply Forall_fmap.
  eapply Forall_impl; [exact Hl|]. intros p Hp. cbn. case_decide as Hf; [done|].
  case_decide; [|done]. unfold pair_ok in *. cbn. by rewrite Hf in Hp.
Qed.

Lemma ok_promote m now seen l :
  Forall (pair_ok m now) l → Forall (pair_ok m now) (promote_frozen seen l).
Proof.
  intros Hl. revert seen. induction Hl as [|p l Hp _ IH]; intros seen; cbn; [constructor|].
  case_decide as Hf; [by constructor|]. case_decide; constructor; auto.
  unfold pair_ok in *. cbn. by rewrite Hf in Hp.
Qed.

Lemma ok_stuck m now l :
  Forall (pair_ok m now) l → Forall (pair_ok m now) (unfreeze_stuck_pairs l).
Proof. intros. unfold unfreeze_stuck_pairs. case_decide; [done | by apply ok_promote]. Qed.

Lemma ok_alter m now l i f :
  Forall (pair_ok m now) l → (∀ p, l !! i = Some p → pair_ok m now (f p)) →
  Forall (pair_ok m now) (alter f i l).
Proof.
  intros Hl Hf. apply Forall_lookup. intros j q. rewrite list_lookup_alter.
  case_decide as Hij; [subst j|]; intros Hq.
  - apply fmap_Some in Hq as (p & Hp & ->). by apply Hf.
  - by apply (Forall_lookup_1 _ _ _ _ Hl Hq).
Qed.

(** A pending list has an active pair after the stuck pairs were promoted. *)
Lemma stuck_active l : Exists pending l → Exists active (unfreeze_stuck_pairs l).
Proof.
  intros Hp. unfold unfreeze_stuck_pairs. case_decide as Ha; [done|].
  induction l as [|p l IH]; [by apply Exists_nil in Hp|]. cbn.
  case_decide as Hf.
  - apply Exists_cons_tl. apply IH; [|by intros ?; apply Ha, Exists_cons_tl].
    apply Exists_cons in Hp as [[?|?]|?]; [done| |done]. by destruct Ha; apply Exists_cons_hd.
  - rewrite decide_False by apply not_elem_of_nil. apply Exists_cons_hd. by left.
Qed.

(** * One tick *)

Definition bump (now : Z) (p : CheckPair) : CheckPair :=
  p <| cp_retries := u8 (cp_retries p + 1) |> <| cp_txn_send_us := now |>.

(** What [send_check] does to the list. *)
Definition sent_list (m now : Z) (i : nat) (p : CheckPair) (l : list CheckPair) : list CheckPair :=
  if decide (m ≤ cp_retries p)
  then unfreeze_siblings (c_foundation (cp_local p)) (c_foundation (cp_remote p))
         (alter (set_cp_state PFailed) i l)
  else alter (bump now) i l.

Definition with_list (l : list CheckPair) (s : IceSession) : IceSession := s <| s_check_list := l |>.

(** What the loops of a tick rely on and establish. *)
Definition list_ok (s : IceSession) : Prop :=
  1 ≤ max_retries s ∧ 0 ≤ s_now_us s ∧ Forall (pair_ok (max_retries s) (s_now_us s)) (s_check_list s).

Record loop_step (s s' : IceSession) : Prop := {
  ls_rest : ∃ l, eps_only (with_list l s) s';
  ls_list : list_ok s → advanced (max_retries s) (s_check_list s) (s_check_list s') ∧ list_ok s';
}.

Lemma with_list_step s l s' :
  eps_only (with_list l s) s' →
  (list_ok s → advanced (max_retries s) (s_check_list s) l
             ∧ Forall (pair_ok (max_retries s) (s_now_us s)) l) →
  loop_step s s'.
Proof.
  intros Hs Hl. split; [by exists l|]. intros Hok. destruct (Hl Hok) as [Ha Hf].
  destruct Hs as (e & n & d & ->). destruct Hok as (? & ? & _). by split_and!.
Qed.

Lemma eps_only_with_list s s' l l' :
  eps_only (with_list l s) s' → eps_only (with_list l' s) (with_list l' s').
Proof. intros (e & n & d & ->). exists e, n, d. by destruct s. Qed.

#[export] Instance loop_step_po : PreOrder loop_step.
Proof.
  split.
  - intros s. apply (with_list_step s (s_check_list s)).
    + by destruct s.
    + intros (_ & _ & Hf). split; [reflexivity | done].
  - intros s1 s2 s3 [(l & H12) Hl1] [(l' & H23) Hl2].
    destruct H12 as (e & n & d & ->). destruct H23 as (e' & n' & d' & ->). split.
    + exists l'. exists e', n', d'. by destruct s1.
    + intros Hok. destruct (Hl1 Hok) as [Ha1 Hok2]. destruct (Hl2 Hok2) as [Ha2 Hok3].
      split; [|done]. etrans; [exact Ha1 | exact Ha2].
Qed.

Section tick.
Context `{InetOps} `{Hmac} `{SessionEnv}.

Lemma send_check_final s i p :
  s_check_list s !! i = Some p →
  eps_only (with_list (sent_list (max_retries s) (s_now_us s) i p (s_check_list s)) s)
    (final (send_check i) s).
Proof.
  intros Hp. unfold send_check, sent_list. rewrite final_get, Hp. case_decide.
  - unfold set_pair, set_check_list. rewrite final_modify. reflexivity.
  - unfold set_pair, set_check_list. rewrite final_modify.
    match goal with |- eps_only ?a (final ?t ?b) =>
      change b with a; apply (transmit_check_frame p _ a) end.
Qed.

Lemma sent_list_ok s i p l :
  list_ok s → s_check_list s !! i = Some p → cp_state p = PInProgress →
  l = sent_list (max_retries s) (s_now_us s) i p (s_check_list s) →
  advanced (max_retries s) (s_check_list s) l
  ∧ Forall (pair_ok (max_retries s) (s_now_us s)) l
  ∧ ∃ p', l !! i = Some p' ∧ pair_work (max_retries s) p' < pair_work (max_retries s) p.
Proof.
  intros (Hm & Hn & Hl) Hp Hst ->. set (m := max_retries s) in *.
  pose proof (Forall_lookup_1 _ _ _ _ Hl Hp) as Hpo. unfold pair_ok in Hpo. rewrite Hst in Hpo.
  assert (m < 256) as Hm8 by (subst m; unfold max_retries; pose proof (u8_range (max_check_retries (cfg s))); unfold_ints; lia).
  assert (pair_work m p = m - cp_retries p + 1) as Hw by (unfold pair_work; by rewrite Hst).
  unfold sent_list. case_decide as Hr.
  - assert (advanced m (s_check_list s) (alter (set_cp_state PFailed) i (s_check_list s))) as Ha.
    { apply advanced_alter. intros q Hq. rewrite Hp in Hq. simplify_eq. right. rewrite Hw. cbn. lia. }
    assert (alter (set_cp_state PFailed) i (s_check_list s) !! i = Some (set_cp_state PFailed p)) as Hi
      by (by rewrite list_lookup_alter_eq, Hp).
    split_and!.
    + etrans; [exact Ha | apply advanced_unfreeze].
    + apply ok_unfreeze, ok_alter; [done|]. by intros q Hq.
    + destruct (advanced_lookup m _ _ _ _ (advanced_unfreeze m (c_foundation (cp_local p))
        (c_foundation (cp_remote p)) _) Hi) as (p' & Hp' & Hlt).
      exists p'. split; [done|]. rewrite Hw. destruct Hlt as [->|Hlt]; cbn in *; lia.
  - assert (cp_retries (bump (s_now_us s) p) = cp_retries p + 1) as Hb
      by (cbn; apply u8_id; unfold_ints; lia).
    assert (pair_work m (bump (s_now_us s) p) < pair_work m p) as Hlt.
    { rewrite Hw. unfold pair_work. change (cp_state (bump _ p)) with (cp_state p).
      rewrite Hst, Hb. lia. }
    split_and!.
    + apply advanced_alter. intros q Hq. rewrite Hp in Hq. simplify_eq. by right.
    + apply ok_alter; [done|]. intros q Hq. rewrite Hp in Hq. simplify_eq. unfold pair_ok.
      change (cp_state (bump _ q)) with (cp_state q). rewrite Hst, Hb. cbn. lia.
    + exists (bump (s_now_us s) p). split; [|done]. by rewrite list_lookup_alter_eq, Hp.
Qed.

(** The longest wait between two transmissions of a check. *)
Definition rto_bound (s : IceSession) : Z :=
  foldr Z.max (shl64 (base_rto_us s) (max_check_retries (cfg s) - 1))
    (shl64 (base_rto_us s) <$> [0; 1; 2; 3; 4; 5]).

Lemma rto_bound_final s : shl64 (base_rto_us s) (max_check_retries (cfg s) - 1) ≤ rto_bound s.
Proof. unfold rto_bound. cbn [fmap list_fmap foldr]. lia. Qed.

Lemma rto_bound_retry s r : 0 ≤ r → shl64 (base_rto_us s) (Z.min r 5) ≤ rto_bound s.
Proof.
  intros Hr. assert (Z.min r 5 ∈ [0; 1; 2; 3; 4; 5]) as Hin
    by (rewrite !elem_of_cons; lia).
  unfold rto_bound. revert Hin. generalize (Z.min r 5). intros k Hk.
  cbn [fmap list_fmap foldr]. rewrite !elem_of_cons in Hk.
  destruct Hk as [->|[->|[->|[->|[->|[->|[]%not_elem_of_nil]]]]]]; lia.
Qed.

(** A pair in progress is retransmitted, failed, or left until its time is up. *)
Lemma retransmit_final s i p :
  s_check_list s !! i = Some p → cp_state p = PInProgress →
  eps_only (with_list (sent_list (max_retries s) (s_now_us s) i p (s_check_list s)) s)
    (final (retransmit_one i) s)
  ∨ final (retransmit_one i) s = s
    ∧ (0 ≤ cp_retries p → u64 (s_now_us s - cp_txn_send_us p) < rto_bound s).
Proof.
  intros Hp Hst. unfold retransmit_one. rewrite final_get, Hp.
  rewrite decide_False by (intros Hne; by apply Hne). case_decide as Hr.
  - case_match eqn:Hc.
    + right. split; [done|]. intros _. apply andb_prop in Hc as [_ Hc%bool_decide_eq_true].
      pose proof (rto_bound_final s). lia.
    + left. unfold sent_list. rewrite decide_True by done.
      unfold set_pair, set_check_list. rewrite final_modify. reflexivity.
  - case_match eqn:Hc.
    + right. split; [done|]. intros Hr0. apply andb_prop in Hc as [_ Hc%bool_decide_eq_true].
      pose proof (rto_bound_retry s _ Hr0). lia.
    + left. by apply send_check_final.
Qed.

Lemma retransmit_one_step i : keeps loop_step (retransmit_one i).
Proof.
  intros s. destruct (s_check_list s !! i) as [p|] eqn:Hp.
  - destruct (decide (cp_state p = PInProgress)) as [Hst|Hst].
    + destruct (retransmit_final s i p Hp Hst) as [Hf|[-> _]]; [|reflexivity].
      eapply with_list_step; [exact Hf|]. intros Hok.
      destruct (sent_list_ok s i p _ Hok Hp Hst eq_refl) as (? & ? & _). done.
    + unfold retransmit_one. rewrite final_get, Hp, decide_True by done. reflexivity.
  - unfold retransmit_one. rewrite final_get, Hp. reflexivity.
Qed.

Lemma retransmit_one_strict s i p :
  list_ok s → s_check_list s !! i = Some p → cp_state p = PInProgress →
  cp_txn_send_us p + rto_bound s ≤ s_now_us s < 2 ^ 64 →
  ∃ p', s_check_list (final (retransmit_one i) s) !! i = Some p'
    ∧ pair_work (max_retries s) p' < pair_work (max_retries s) p.
Proof.
  intros Hok Hp Hst Ht. destruct (retransmit_final s i p Hp Hst) as [Hf|[_ Hf]].
  - destruct (sent_list_ok s i p _ Hok Hp Hst eq_refl) as (_ & _ & p' & Hp' & Hlt).
    exists p'. destruct Hf as (e & n & d & ->). done.
  - exfalso. destruct Hok as (_ & Hn & Hl).
    pose proof (Forall_lookup_1 _ _ _ _ Hl Hp) as Hpo. unfold pair_ok in Hpo. rewrite Hst in Hpo.
    specialize (Hf ltac:(lia)). rewrite u64_id in Hf; [lia|].
    unfold_ints. lia.
Qed.

(** ** Promotion *)

Definition start_check (i : nat) : session unit :=
  set_pair i (set_cp_state PInProgress) ;; send_check i.

Lemma start_check_step s i p :
  s_check_list s !! i = Some p → cp_state p = PWaiting →
  loop_step s (final (start_check i) s)
  ∧ (list_ok s → ∃ p', s_check_list (final (start_check i) s) !! i = Some p'
      ∧ pair_work (max_retries s) p' < pair_work (max_retries s) p).
Proof.
  intros Hp Hst. unfold start_check, set_pair, set_check_list. rewrite final_modify.
  set (p1 := set_cp_state PInProgress p).
  set (s1 := s <| s_check_list := alter (set_cp_state PInProgress) i (s_check_list s) |>).
  assert (s_check_list s1 !! i = Some p1) as Hp1 by (cbn; by rewrite list_lookup_alter_eq, Hp).
  pose proof (send_check_final s1 i p1 Hp1) as Hf.
  set (l2 := sent_list (max_retries s1) (s_now_us s1) i p1 (s_check_list s1)) in *.
  assert (list_ok s → list_ok s1 ∧ advanced (max_retries s) (s_check_list s) (s_check_list s1)
          ∧ pair_work (max_retries s) p1 < pair_work (max_retries s) p) as Hok.
  { intros (Hm & Hn & Hl). pose proof (Forall_lookup_1 _ _ _ _ Hl Hp) as Hpo.
    unfold pair_ok in Hpo. rewrite Hst in Hpo.
    assert (pair_work (max_retries s) p1 < pair_work (max_retries s) p) as Hlt
      by (unfold pair_work; rewrite Hst; cbn; lia).
    split_and!; [| |done].
    - split_and!; [done | done |].
      change (Forall (pair_ok (max_retries s) (s_now_us s)) (s_check_list s1)).
      apply ok_alter; [done|]. intros q Hq.
      rewrite Hp in Hq. simplify_eq. unfold pair_ok. cbn. destruct Hpo as [-> ->]. lia.
    - apply advanced_alter. intros q Hq. rewrite Hp in Hq. simplify_eq. by right. }
  split.
  - apply (with_list_step s l2).
    + destruct Hf as (e & n & d & ->). exists e, n, d. by destruct s.
    + intros Hs. destruct (Hok Hs) as (Hs1 & Ha & _).
      destruct (sent_list_ok s1 i p1 l2 Hs1 Hp1 eq_refl eq_refl) as (Ha2 & Hf2 & _).
      split; [|done]. etrans; [exact Ha | exact Ha2].
  - intros Hs. destruct (Hok Hs) as (Hs1 & _ & Hlt).
    destruct (sent_list_ok s1 i p1 l2 Hs1 Hp1 eq_refl eq_refl) as (_ & _ & p' & Hp' & Hlt2).
    exists p'. split; [by destruct Hf as (e & n & d & ->)|]. 
    change (max_retries s1) with (max_retries s) in Hlt2. lia.
Qed.

Lemma promote_loop_step idxs : keeps loop_step (promote_loop idxs).
Proof.
  induction idxs as [|i idxs IH]; cbn [promote_loop]; [apply keeps_skip, _|].
  intros s. rewrite final_get. case_decide; [reflexivity|].
  destruct (s_check_list s !! i) as [p|] eqn:Hp; [|reflexivity].
  rewrite final_bind. etrans; [|apply IH].
  case_match eqn:Hc; [|reflexivity].
  apply andb_prop in Hc as [Hst%bool_decide_eq_true _].
  exact (proj1 (start_check_step s i p Hp Hst)).
Qed.

(** With nothing in progress, a waiting pair of the list is started. *)
Lemma promote_loop_strict s idxs :
  list_ok s → in_progress_count (s_check_list s) = 0%nat →
  (∃ i p, i ∈ idxs ∧ s_check_list s !! i = Some p ∧ cp_state p = PWaiting) →
  Forall (λ i, (i < length (s_check_list s))%nat) idxs →
  work (max_retries s) (s_check_list (final (promote_loop idxs) s))
  < work (max_retries s) (s_check_list s).
Proof.
  induction idxs as [|i idxs IH]; intros Hok Hc (j & p & Hj & Hp & Hst) Hlen.
  - by apply not_elem_of_nil in Hj.
  - apply Forall_cons_1 in Hlen as [Hi Hlen].
    cbn [promote_loop]. rewrite final_get, Hc.
    rewrite decide_False by (unfold kCheckConcurrencyCap; lia).
    destruct (lookup_lt_is_Some_2 _ _ Hi) as [q Hq]. rewrite Hq, final_bind.
    destruct (decide (cp_state q = PWaiting)) as [Hqst|Hqst].
    + rewrite (bool_decide_true _ Hqst). cbn [andb].
      assert (cp_retries q < max_retries s) as Hr.
      { destruct Hok as (? & ? & Hl). pose proof (Forall_lookup_1 _ _ _ _ Hl Hq) as Hpo.
        unfold pair_ok in Hpo. rewrite Hqst in Hpo. lia. }
      rewrite (bool_decide_true _ Hr). fold (start_check i).
      destruct (start_check_step s i q Hq Hqst) as [[(l & Hs1) Hl1] Hw].
      destruct (Hl1 Hok) as [Ha1 Hok1]. destruct (Hw Hok) as (q' & Hq' & Hlt).
      set (s1 := final (start_check i) s) in *.
      destruct (promote_loop_step idxs s1) as [_ Hl2]. destruct (Hl2 Hok1) as [Ha2 _].
      assert (max_retries s1 = max_retries s) as Hm by (by destruct Hs1 as (? & ? & ? & ->)).
      rewrite Hm in Ha2. apply advanced_work in Ha2.
      pose proof (advanced_strict _ _ _ _ _ _ Ha1 Hq Hq' Hlt). lia.
    + rewrite (bool_decide_false _ Hqst). cbn [andb]. change (final skip s) with s.
      apply IH; [done | done | | done]. exists j, p. split_and!; try done.
      apply elem_of_cons in Hj as [->|]; [congruence | done].
Qed.

(** ** The retransmission loop *)

Lemma loop_step_reads s s' :
  loop_step s s' →
  max_retries s' = max_retries s ∧ rto_bound s' = rto_bound s ∧ s_now_us s' = s_now_us s
  ∧ s_fixed s' = s_fixed s ∧ s_state s' = s_state s
  ∧ s_nomination_wait_armed s' = s_nomination_wait_armed s.
Proof. intros [(l & e & n & d & ->) _]. done. Qed.

(** The pair's timer has run out. *)
Definition due (s : IceSession) (p : CheckPair) : Prop :=
  cp_state p = PInProgress → cp_txn_send_us p + rto_bound s ≤ s_now_us s < 2 ^ 64.

Lemma retransmit_loop_strict idxs s i p0 p :
  list_ok s → s_check_list s !! i = Some p → i ∈ idxs →
  cp_state p0 = PInProgress → due s p0 →
  p = p0 ∨ pair_work (max_retries s) p < pair_work (max_retries s) p0 →
  ∃ p', s_check_list (final (for_each retransmit_one idxs) s) !! i = Some p'
    ∧ pair_work (max_retries s) p' < pair_work (max_retries s) p0.
Proof.
  revert s p. induction idxs as [|j idxs IH]; intros s p Hok Hp Hi Hst Hdue Hw.
  { by apply not_elem_of_nil in Hi. }
  rewrite final_for_each_cons. pose proof (retransmit_one_step j s) as Hs.
  destruct (loop_step_reads _ _ Hs) as (Hm & Hb & Hn & _).
  destruct (ls_list _ _ Hs Hok) as [Ha Hok1]. set (s1 := final (retransmit_one j) s) in *.
  destruct (advanced_lookup _ _ _ _ _ Ha Hp) as (p1 & Hp1 & Hlt1).
  assert (∀ q, s_check_list s1 !! i = Some q →
    pair_work (max_retries s) q < pair_work (max_retries s) p0 →
    ∃ p', s_check_list (final (for_each retransmit_one idxs) s1) !! i = Some p'
      ∧ pair_work (max_retries s) p' < pair_work (max_retries s) p0) as Hdone.
  { intros q Hq Hlt. pose proof (keeps_for_each loop_step retransmit_one idxs
      retransmit_one_step s1) as Hs2.
    destruct (ls_list _ _ Hs2 Hok1) as [Ha2 _]. rewrite Hm in Ha2.
    destruct (advanced_lookup _ _ _ _ _ Ha2 Hq) as (q' & Hq' & Hlt').
    exists q'. split; [done|]. destruct Hlt' as [->|]; lia. }
  destruct Hw as [->|Hw]; [|apply (Hdone p1 Hp1); destruct Hlt1 as [->|]; lia].
  apply elem_of_cons in Hi as [->|Hi].
  - destruct (retransmit_one_strict s j p0 Hok Hp Hst (Hdue Hst)) as (q & Hq & Hlt).
    by apply (Hdone q).
  - rewrite <- Hm in Hlt1 |- *. apply (IH s1 p1); try done.
    unfold due. by rewrite Hb, Hn.
Qed.

Lemma retransmit_loop_idle idxs s :
  in_progress_count (s_check_list s) = 0%nat → final (for_each retransmit_one idxs) s = s.
Proof.
  intros Hc. induction idxs as [|j idxs IH]; [done|]. rewrite final_for_each_cons.
  replace (final (retransmit_one j) s) with s; [done|].
  unfold retransmit_one. rewrite final_get.
  destruct (s_check_list s !! j) as [p|] eqn:Hp; [|done].
  rewrite decide_True; [done|]. intros Hst. unfold in_progress_count in Hc.
  apply length_zero_iff_nil in Hc. eapply (not_elem_of_nil p). rewrite <- Hc.
  apply list_elem_of_filter. split; [done|]. by apply list_elem_of_lookup_2 in Hp.
Qed.

Lemma no_progress_count l : ¬ Exists (λ p, cp_state p = PInProgress) l → in_progress_count l = 0%nat.
Proof.
  intros Hn. unfold in_progress_count. induction l as [|p l IH]; [done|].
  rewrite filter_cons_False; [apply IH|].
  - intros ?. by apply Hn, Exists_cons_tl.
  - intros ?. by apply Hn, Exists_cons_hd.
Qed.

Lemma promote_frozen_none seen l :
  ¬ Exists (λ p, cp_state p = PFrozen) l → promote_frozen seen l = l.
Proof.
  intros Hn. induction l as [|p l IH]; [done|]. cbn.
  rewrite decide_True by (intros ?; by apply Hn, Exists_cons_hd).
  f_equal. apply IH. intros ?. by apply Hn, Exists_cons_tl.
Qed.

(** ** A whole tick *)

(** The list after the first two loops of a tick. *)
Definition tick_retransmit (s : IceSession) : IceSession :=
  final (for_each retransmit_one (seq 0 (length (s_check_list s))))
    (with_list (unfreeze_stuck_pairs (s_check_list s)) s).
Definition tick_promote (s : IceSession) : IceSession :=
  final (promote_loop (seq 0 (length (s_check_list (tick_retransmit s))))) (tick_retransmit s).

Lemma unfreeze_stuck_step s : loop_step s (with_list (unfreeze_stuck_pairs (s_check_list s)) s).
Proof.
  apply (with_list_step s (unfreeze_stuck_pairs (s_check_list s))); [reflexivity|].
  intros (? & ? & Hl). split; [apply advanced_stuck | by apply ok_stuck].
Qed.

Lemma tick_retransmit_step s : loop_step s (tick_retransmit s).
Proof.
  etrans; [apply unfreeze_stuck_step|].
  exact (keeps_for_each loop_step retransmit_one _ retransmit_one_step _).
Qed.

Lemma tick_promote_step s : loop_step s (tick_promote s).
Proof. etrans; [apply tick_retransmit_step | apply promote_loop_step]. Qed.

(** Without pending pairs the loops change nothing. *)
Lemma tick_idle s : ¬ Exists pending (s_check_list s) → tick_retransmit s = s.
Proof.
  intros Hn. unfold tick_retransmit.
  assert (unfreeze_stuck_pairs (s_check_list s) = s_check_list s) as ->.
  { unfold unfreeze_stuck_pairs. case_decide; [done|]. apply promote_frozen_none.
    intros He. apply Hn. eapply Exists_impl; [exact He|]. by left. }
  replace (with_list (s_check_list s) s) with s by (by destruct s).
  apply retransmit_loop_idle, no_progress_count.
  intros He. apply Hn. eapply Exists_impl; [exact He|]. intros p Hp. by right; right.
Qed.

Lemma length_advanced m l l' : advanced m l l' → length l' = length l.
Proof. intros Ha. symmetry. by apply (Forall2_length _ _ _ Ha). Qed.

Lemma stuck_in_progress l p :
  p ∈ unfreeze_stuck_pairs l → cp_state p = PInProgress → p ∈ l.
Proof.
  unfold unfreeze_stuck_pairs. case_decide; [done|]. generalize (@nil bytes).
  induction l as [|q l IH]; intros seen Hp Hst; [by apply not_elem_of_nil in Hp|].
  cbn in Hp. apply elem_of_cons. assert (¬ Exists active l) as Hn
    by (intros ?; by apply H2, Exists_cons_tl).
  repeat case_decide; apply elem_of_cons in Hp as [->|Hp]; eauto. done.
Qed.

(** With pending pairs some pair advances. *)
Lemma tick_advances s :
  list_ok s → Forall (due s) (s_check_list s) → Exists pending (s_check_list s) →
  work (max_retries s) (s_check_list (tick_promote s)) < work (max_retries s) (s_check_list s).
Proof.
  intros Hok Hdue Hpend. apply stuck_active in Hpend as Hact.
  pose proof (unfreeze_stuck_step s) as H1'. destruct (ls_list _ _ H1' Hok) as [Ha1 Hok1].
  set (s1 := with_list (unfreeze_stuck_pairs (s_check_list s)) s) in *.
  pose proof (advanced_work _ _ _ Ha1) as Hw1.
  assert (length (s_check_list s1) = length (s_check_list s)) as Hlen by apply (length_advanced _ _ _ Ha1).
  destruct (ls_list _ _ (tick_retransmit_step s) Hok) as [_ Hok2].
  destruct (loop_step_reads _ _ (tick_retransmit_step s)) as (Hm2 & _).
  destruct (decide (Exists (λ p, cp_state p = PInProgress) (s_check_list s1))) as [Hp|Hp].
  - apply Exists_exists in Hp as (p & Hin & Hst).
    assert (due s1 p) as Hd1.
    { apply (Forall_forall (due s) (s_check_list s)); [done|].
      by apply (stuck_in_progress (s_check_list s)). }
    apply list_elem_of_lookup in Hin as (i & Hi).
    destruct (retransmit_loop_strict (seq 0 (length (s_check_list s))) s1 i p p)
      as (p' & Hp' & Hlt); try done; [|by left|].
    { apply elem_of_seq. apply lookup_lt_Some in Hi. lia. }
    pose proof (keeps_for_each loop_step retransmit_one (seq 0 (length (s_check_list s)))
      retransmit_one_step s1) as H2'.
    destruct (ls_list _ _ H2' Hok1) as [Ha2 _].
    pose proof (advanced_strict _ _ _ _ _ _ Ha2 Hi Hp' Hlt) as Hw2.
    pose proof (promote_loop_step (seq 0 (length (s_check_list (tick_retransmit s))))
      (tick_retransmit s)) as H3'.
    destruct (ls_list _ _ H3' Hok2) as [Ha3 _]. rewrite Hm2 in Ha3. apply advanced_work in Ha3.
    fold (tick_promote s) in Ha3. change (max_retries s1) with (max_retries s) in Hw2.
    unfold tick_retransmit in Ha3. fold s1 in Ha3. lia.
  - assert (tick_retransmit s = s1) as Hr
      by (unfold tick_retransmit; fold s1; by apply retransmit_loop_idle, no_progress_count).
    apply Exists_exists in Hact as (p & Hin & [Hst|Hst]).
    + unfold tick_promote. rewrite Hr.
      apply list_elem_of_lookup in Hin as (i & Hi).
      assert (work (max_retries s1) (s_check_list (final (promote_loop (seq 0 (length (s_check_list s1)))) s1))
              < work (max_retries s1) (s_check_list s1)) as Hlt.
      { apply promote_loop_strict; [done | by apply no_progress_count | |].
        - exists i, p. split_and!; [|done|done]. apply elem_of_seq. apply lookup_lt_Some in Hi. cbn in *. lia.
        - apply Forall_forall. intros j [_ Hj]%elem_of_seq. lia. }
      change (max_retries s1) with (max_retries s) in Hlt. lia.
    + destruct Hp. apply Exists_exists. by exists p.
Qed.

(** No check of the list has been answered. *)
Definition unanswered (s : IceSession) : Prop := Forall (λ p, cp_valid p = false) (s_check_list s).

Definition same_valid (s s' : IceSession) : Prop :=
  cp_valid <$> s_check_list s' = cp_valid <$> s_check_list s.
#[local] Instance same_valid_po : PreOrder same_valid.
Proof. split; unfold same_valid; [done|intros x y z; congruence]. Qed.

Lemma same_valid_unanswered s s' : same_valid s s' → unanswered s → unanswered s'.
Proof.
  unfold same_valid, unanswered. intros E Hu.
  assert (Forall (λ b, b = false) (cp_valid <$> s_check_list s')) as Hf by (rewrite E; by apply Forall_fmap).
  by apply Forall_fmap in Hf.
Qed.

Lemma eps_only_valid {A} (m : session A) : keeps eps_only m → keeps same_valid m.
Proof. intros Hm s. destruct (Hm s) as (e & n & d & ->). done. Qed.

Lemma alter_valid f i (l : list CheckPair) :
  (∀ p, cp_valid (f p) = cp_valid p) → cp_valid <$> alter f i l = cp_valid <$> l.
Proof. intros Hf. revert i. induction l as [|p l IH]; intros [|i]; [done..|cbn; by rewrite Hf|cbn; by rewrite IH]. Qed.

Lemma unfreeze_valid lf rf l : cp_valid <$> unfreeze_siblings lf rf l = cp_valid <$> l.
Proof.
  unfold unfreeze_siblings. case_decide; [done|]. rewrite <- list_fmap_compose.
  apply list_fmap_ext. intros i p _. cbn. by repeat case_decide.
Qed.

Lemma stuck_valid l : cp_valid <$> unfreeze_stuck_pairs l = cp_valid <$> l.
Proof.
  unfold unfreeze_stuck_pairs. case_decide; [done|]. generalize (@nil bytes).
  clear. induction l as [|p l IH]; intros seen; [done|]. cbn. repeat case_decide; cbn; by rewrite IH.
Qed.

Lemma send_check_valid i : keeps same_valid (send_check i).
Proof.
  unfold send_check, set_pair, set_check_list. pose proof (λ p msg, eps_only_valid _ (transmit_check_frame p msg)).
  keeps_auto ltac:(intros ?; unfold same_valid; cbn; first [apply unfreeze_valid | by apply alter_valid]).
Qed.
#[local] Hint Resolve send_check_valid : ice.

Lemma retransmit_valid i : keeps same_valid (retransmit_one i).
Proof.
  unfold retransmit_one, set_pair, set_check_list.
  keeps_auto ltac:(intros ?; unfold same_valid; cbn; first [apply unfreeze_valid | by apply alter_valid]).
Qed.

Lemma promote_valid l : keeps same_valid (promote_loop l).
Proof.
  induction l as [|i l IH]; cbn [promote_loop]; unfold set_pair, set_check_list;
    keeps_auto ltac:(intros ?; unfold same_valid; cbn; by apply alter_valid).
Qed.

Lemma tick_loops_valid s : same_valid s (tick_promote s).
Proof.
  unfold tick_promote. etrans; [|apply promote_valid]. unfold tick_retransmit.
  etrans; [|apply (keeps_for_each same_valid retransmit_one _ retransmit_valid)]. apply stuck_valid.
Qed.

(** [m] ends with the session failed and reports it. *)
Definition fails (m : session unit) (s : IceSession) : Prop :=
  s_state (final m s) = Failed ∧ EFailed ∈ outputs m s.

Lemma run_next_check_final s :
  s_state s = Checking → unanswered s →
  (Exists pending (s_check_list (tick_retransmit s)) →
   ∃ g, final run_next_check s = (tick_promote s) <| s_gens := g |>)
  ∧ (¬ Exists pending (s_check_list (tick_retransmit s)) → fails run_next_check s).
Proof.
  intros Hst Hu. unfold fails, run_next_check.
  rewrite final_get, outputs_get, decide_False by (intros Hn; by apply Hn).
  unfold set_check_list. rewrite final_modify, outputs_modify.
  fold (with_list (unfreeze_stuck_pairs (s_check_list s)) s).
  rewrite final_bind, outputs_bind. fold (tick_retransmit s).
  rewrite final_get, outputs_get, final_bind, outputs_bind. fold (tick_promote s). split; intros Hp.
  - rewrite (bool_decide_true _ Hp). cbn [negb].
    unfold set_gens. destruct (f_timer_ctx _); [rewrite final_modify; by eexists|].
    exists (s_gens (tick_promote s)). by destruct (tick_promote s).
  - rewrite (bool_decide_false _ Hp). cbn [negb].
    destruct (loop_step_reads _ _ (tick_promote_step s)) as (_ & _ & _ & _ & Hs3 & _).
    pose proof (same_valid_unanswered _ _ (tick_loops_valid s) Hu) as Hu3.
    unfold checks_exhausted. rewrite final_get, outputs_get, !decide_False by congruence.
    rewrite (bool_decide_false (Exists _ _)), andb_false_r.
    + split; [done|]. rewrite !elem_of_app. right; right. cbn. by left.
    + intros (p & Hin & Hv)%Exists_exists. eapply Forall_forall in Hu3; [|exact Hin]. cbn in Hu3. congruence.
Qed.

(** The clock moves to [t] and the check timer fires. *)
Definition check_tick (t : Z) : session unit :=
  modify (λ s, s <| s_now_us := t |>) ;; run_next_check.

(** Every tick comes at least [gap] after the one before. *)
Fixpoint spaced (gap now : Z) (times : list Z) : Prop :=
  match times with
  | [] => True
  | t :: times => now + gap ≤ t < 2 ^ 64 ∧ spaced gap t times
  end.

Lemma work_nonneg m now l : Forall (pair_ok m now) l → 1 ≤ m → 0 ≤ work m l.
Proof.
  intros Hl Hm. induction Hl as [|p l Hp _ IH]; cbn; [lia|].
  assert (0 ≤ pair_work m p); [|lia]. unfold pair_ok, pair_work in *. destruct (cp_state p); lia.
Qed.

(** Pairs whose work did not change did not change. *)
Lemma advanced_same m l l' : advanced m l l' → work m l ≤ work m l' → l' = l.
Proof.
  induction 1 as [|p p' l l' Hp Ha IH]; cbn; [done|]. intros Hw.
  apply advanced_work in Ha as Hl. destruct Hp as [-> |Hp]; [|lia]. f_equal. apply IH. lia.
Qed.

(** The session is checking, unanswered, with the settings of [s0]. *)
Record running (s0 s : IceSession) : Prop := {
  rn_state : s_state s = Checking;
  rn_ok : list_ok s;
  rn_unanswered : unanswered s;
  rn_fixed : s_fixed s = s_fixed s0;
}.

Definition work_of (s : IceSession) : Z := work (max_retries s) (s_check_list s).

(** One tick fails the session or advances its list; when every pair under way is due,
    by at least one step. *)
Lemma check_tick_step s0 s t :
  running s0 s → s_now_us s ≤ t < 2 ^ 64 →
  let s' := final (check_tick t) s in
  fails (check_tick t) s
  ∨ running s0 s' ∧ s_now_us s' = t ∧ advanced (max_retries s) (s_check_list s) (s_check_list s')
    ∧ (Forall (λ p, cp_state p = PInProgress → cp_txn_send_us p + rto_bound s ≤ t) (s_check_list s) →
       work_of s' < work_of s).
Proof.
  intros [Hst (Hm & Hn & Hl) Hu Hfx] Ht s'. unfold s', fails, check_tick.
  rewrite final_modify, outputs_modify. set (s1 := s <| s_now_us := t |>).
  assert (list_ok s1) as Hok1.
  { split_and!; [done | cbn; lia |]. eapply Forall_impl; [exact Hl|]. intros p Hp.
    change (pair_ok (max_retries s) t p). unfold pair_ok in *.
    destruct (cp_state p); try done. lia. }
  destruct (run_next_check_final s1 Hst Hu) as [Hp Hnp].
  destruct (decide (Exists pending (s_check_list (tick_retransmit s1)))) as [He|He];
    [right | left; by apply Hnp].
  destruct (Hp He) as [g ->].
  destruct (loop_step_reads _ _ (tick_promote_step s1)) as (Hm3 & _ & Hn3 & Hf3 & Hs3 & _).
  destruct (ls_list _ _ (tick_promote_step s1) Hok1) as [Ha3 Hok3].
  assert (Exists pending (s_check_list s1)) as He1.
  { destruct (decide (Exists pending (s_check_list s1))); [done|]. by rewrite tick_idle in He. }
  split_and!; [split | done | exact Ha3 |].
  - by rewrite <- Hst.
  - exact Hok3.
  - exact (same_valid_unanswered _ _ (tick_loops_valid s1) Hu).
  - by rewrite <- Hfx.
  - intros Hdue. unfold work_of.
    change (work (max_retries (tick_promote s1)) (s_check_list (tick_promote s1)) <
      work (max_retries s1) (s_check_list s1)). rewrite Hm3. apply tick_advances; [done| |done].
    eapply Forall_impl; [exact Hdue|]. intros p Hpd Hps.
    change (rto_bound s1) with (rto_bound s). change (s_now_us s1) with t. specialize (Hpd Hps). lia.
Qed.

Lemma work_bound m now l :
  Forall (pair_ok m now) l → 1 ≤ m → work m l ≤ Z.of_nat (length l) * (m + 3).
Proof.
  intros Hl Hm. induction Hl as [|p l Hp _ IH]; cbn [work length]; [lia|].
  assert (pair_work m p ≤ m + 3); [|lia]. unfold pair_ok, pair_work in *. destruct (cp_state p); lia.
Qed.


Lemma failed_stays times s :
  s_state s = Failed → s_state (final (for_each check_tick times) s) = Failed.
Proof.
  revert s. induction times as [|u times IH]; intros s Hf; [done|].
  rewrite final_for_each_cons. apply IH. unfold check_tick, run_next_check.
  rewrite final_modify, final_get, decide_True; [done|]. cbn. by rewrite Hf.
Qed.

Lemma fails_app l1 l2 s : fails (for_each check_tick l1) s → fails (for_each check_tick (l1 ++ l2)) s.
Proof.
  intros [Hf Ho]. unfold fails. rewrite final_for_each_app, outputs_for_each_app.
  split; [by apply failed_stays | apply elem_of_app; by left].
Qed.

Lemma fails_first t times s : fails (check_tick t) s → fails (for_each check_tick (t :: times)) s.
Proof.
  intros [Hf Ho]. unfold fails. rewrite final_for_each_cons, outputs_for_each_cons.
  split; [by apply failed_stays | apply elem_of_app; by left].
Qed.

Lemma fails_later t times s :
  fails (for_each check_tick times) (final (check_tick t) s) → fails (for_each check_tick (t :: times)) s.
Proof.
  intros [Hf Ho]. unfold fails. rewrite final_for_each_cons, outputs_for_each_cons.
  split; [done|]. apply elem_of_app. by right.
Qed.

Lemma running_reads s0 s s' : running s0 s → running s0 s' →
  max_retries s' = max_retries s ∧ rto_bound s' = rto_bound s.
Proof.
  intros [_ _ _ E] [_ _ _ E']. unfold max_retries, rto_bound, base_rto_us, cfg. by rewrite E, E'.
Qed.

(** The time of the last tick. *)
Definition end_of (now : Z) (times : list Z) : Z := foldl (λ _ t, t) now times.

Lemma spaced_app gap now l1 l2 :
  spaced gap now (l1 ++ l2) → spaced gap now l1 ∧ spaced gap (end_of now l1) l2.
Proof. revert now. induction l1 as [|t l1 IH]; intros now; cbn; [done|]. intros [Ht Hs]. by apply IH in Hs as []. Qed.

Lemma ticks_monotone s0 gap times s :
  running s0 s → 0 ≤ gap → spaced gap (s_now_us s) times →
  let s' := final (for_each check_tick times) s in
  fails (for_each check_tick times) s
  ∨ running s0 s' ∧ work_of s' ≤ work_of s ∧ s_now_us s' = end_of (s_now_us s) times.
Proof.
  intros Hrun Hg. revert s Hrun. induction times as [|t times IH]; intros s Hrun Hsp s'; [by right|].
  destruct Hsp as [Ht Hsp].
  destruct (check_tick_step s0 s t Hrun) as [Hf|(Hrun1 & Hn1 & Ha & _)]; [lia|left; by apply fails_first|].
  unfold s'. rewrite final_for_each_cons. set (s1 := final (check_tick t) s) in *.
  destruct (running_reads _ _ _ Hrun Hrun1) as [Em _].
  destruct (IH s1) as [Hf|(Hr & Hw & Hn)]; [done|by rewrite Hn1|left; by apply fails_later|].
  right. split_and!; [done| |by rewrite Hn, Hn1].
  apply advanced_work in Ha. unfold work_of in *. rewrite Em in Hw. lia.
Qed.

(** Ticks that cover the longest timeout of everything sent until [base] fail the session
    or leave less work. *)
Lemma ticks_progress s0 gap base times s :
  running s0 s → 0 ≤ gap → spaced gap (s_now_us s) times → times ≠ [] →
  Forall (λ p, cp_state p = PInProgress → cp_txn_send_us p ≤ base) (s_check_list s) →
  base + rto_bound s ≤ s_now_us s + gap * Z.of_nat (length times) →
  let s' := final (for_each check_tick times) s in
  fails (for_each check_tick times) s
  ∨ running s0 s' ∧ work_of s' < work_of s ∧ s_now_us s' = end_of (s_now_us s) times.
Proof.
  intros Hrun Hg. revert s Hrun. induction times as [|t times IH]; intros s Hrun Hsp Hne Hb Hlen s'; [done|].
  destruct Hsp as [Ht Hsp].
  destruct (check_tick_step s0 s t Hrun) as [Hf|(Hrun1 & Hn1 & Ha & Hw)]; [lia|left; by apply fails_first|].
  unfold s'. rewrite final_for_each_cons. set (s1 := final (check_tick t) s) in *.
  destruct (running_reads _ _ _ Hrun Hrun1) as [Em Er]. rewrite <- Hn1 in Hsp.
  change (end_of (s_now_us s) (t :: times)) with (end_of t times).
  destruct (decide (work_of s1 < work_of s)) as [Hlt|Hge].
  { destruct (ticks_monotone s0 gap times s1 Hrun1 Hg Hsp) as [Hf|(Hr & Hw' & Hn)];
      [left; by apply fails_later|]. right. split_and!; [done|lia|by rewrite Hn, Hn1]. }
  assert (s_check_list s1 = s_check_list s) as El.
  { apply (advanced_same (max_retries s)); [done|]. unfold work_of in Hge. rewrite Em in Hge. lia. }
  destruct times as [|u times].
  { exfalso. apply Hge, Hw. eapply Forall_impl; [exact Hb|]. intros p Hp Hps. specialize (Hp Hps).
    cbn [length] in Hlen. lia. }
  destruct (IH s1) as [Hf|(Hr & Hw' & Hn)]; [done|done|done|by rewrite El| |left; by apply fails_later|].
  - rewrite Er, Hn1. cbn [length] in *. lia.
  - right. split_and!; [done| |by rewrite Hn, Hn1]. unfold work_of in *. rewrite Em, El in Hw'. lia.
Qed.

(** The ticks of the pacing timer in the longest wait between two transmissions. *)
Definition ticks_per_step (s : IceSession) : Z := 5 * 2 ^ Z.max 5 (max_check_retries (cfg s) - 1).

Lemma shl64_bound x n k : 0 ≤ x → n ≤ k → 0 ≤ k → shl64 x n ≤ x * 2 ^ k.
Proof.
  intros Hx Hn Hk. unfold shl64, u64. etrans; [apply Z.mod_le; [by apply Z.shiftl_nonneg|lia]|].
  destruct (decide (0 ≤ n)).
  - rewrite Z.shiftl_mul_pow2 by done. apply Z.mul_le_mono_nonneg_l; [done|]. apply Z.pow_le_mono_r; lia.
  - rewrite Z.shiftl_div_pow2 by lia. pose proof (Z.pow_pos_nonneg 2 (- n)). pose proof (Z.pow_pos_nonneg 2 k).
    assert (x / 2 ^ (- n) ≤ x) by (apply Z.div_le_upper_bound; nia). nia.
Qed.

Lemma rto_bound_ticks s : 0 ≤ check_interval_ms (cfg s) →
  0 ≤ rto_bound s ≤ check_interval_ms (cfg s) * 1000 * ticks_per_step s.
Proof.
  intros Hi. set (k := Z.max 5 (max_check_retries (cfg s) - 1)).
  assert (0 ≤ base_rto_us s ≤ check_interval_ms (cfg s) * 5 * 1000) as Hb.
  { unfold base_rto_us, u64. split; [apply Z.mod_pos_bound; lia|apply Z.mod_le; lia]. }
  assert (∀ n, n ≤ k → shl64 (base_rto_us s) n ≤ check_interval_ms (cfg s) * 1000 * ticks_per_step s) as Hn.
  { intros n Hn. etrans; [apply (shl64_bound _ n k); lia|]. unfold ticks_per_step. fold k.
    pose proof (Z.pow_pos_nonneg 2 k). nia. }
  unfold rto_bound. cbn [fmap list_fmap foldr]. split.
  - assert (0 ≤ shl64 (base_rto_us s) 0) by (unfold shl64, u64; apply Z.mod_pos_bound; lia). lia.
  - repeat apply Z.max_lub; apply Hn; lia.
Qed.

(** Enough ticks for the work fail the session. *)
Lemma ticks_fail s0 w times s :
  running s0 s → 0 ≤ check_interval_ms (cfg s0) → work_of s < Z.of_nat w →
  spaced (check_interval_ms (cfg s0) * 1000) (s_now_us s) times →
  Z.of_nat w * ticks_per_step s0 ≤ Z.of_nat (length times) →
  fails (for_each check_tick times) s.
Proof.
  intros Hrun Hi. revert s times Hrun. induction w as [|w IH]; intros s times Hrun Hw Hsp Hlen.
  { exfalso. destruct Hrun as [_ (Hm & _ & Hl) _ _]. pose proof (work_nonneg _ _ _ Hl Hm).
    unfold work_of in Hw. lia. }
  assert (cfg s = cfg s0) as Ec by (unfold cfg; by rewrite (rn_fixed _ _ Hrun)).
  assert (0 < ticks_per_step s0) as Hk
    by (unfold ticks_per_step; pose proof (Z.pow_pos_nonneg 2 (Z.max 5 (max_check_retries (cfg s0) - 1))); lia).
  set (k := Z.to_nat (ticks_per_step s0)). rewrite <- (take_drop k times) in *.
  apply spaced_app in Hsp as [Hs1 Hs2].
  assert (length (take k times) = k ∧ length (drop k times) = length times - k)%nat as [L1 L2].
  { rewrite length_take, length_drop. rewrite length_app, length_take, length_drop in Hlen. lia. }
  destruct (ticks_progress s0 (check_interval_ms (cfg s0) * 1000) (s_now_us s) (take k times) s)
    as [Hf|(Hr & Hw' & Hn)]; [done|lia|done|intros E; by rewrite E in L1; cbn in L1; lia| | |by apply fails_app|].
  - destruct Hrun as [_ (_ & _ & Hl) _ _]. eapply Forall_impl; [exact Hl|]. intros p Hp Hps.
    unfold pair_ok in Hp. rewrite Hps in Hp. lia.
  - rewrite L1. pose proof (rto_bound_ticks s). rewrite Ec in *. unfold ticks_per_step in *. rewrite Ec in *.
    unfold k. rewrite Z2Nat.id by lia. lia.
  - destruct (IH (final (for_each check_tick (take k times)) s) (drop k times)) as [Hf Ho].
    + done.
    + lia.
    + by rewrite Hn.
    + rewrite L2. rewrite length_app, L1, L2 in Hlen. lia.
    + unfold fails. rewrite final_for_each_app, outputs_for_each_app.
      split; [done | apply elem_of_app; by right].
Qed.

(** C10 (checking terminates): a session that is checking and gets no answers gives up.
    With [n] pairs and [m] transmissions each, the ticks of the pacing timer -- each at
    least the configured interval after the one before -- bring every pair to an end:
    after [(n * (m + 3) + 1) * 5 * 2 ^ max 5 (m - 1)] of them at the latest, the session
    has failed and reported it.  No pair stays frozen, waiting or in progress for ever. *)
Theorem checks_terminate s times :
  s_state s = Checking → list_ok s → unanswered s → 0 ≤ check_interval_ms (cfg s) →
  spaced (check_interval_ms (cfg s) * 1000) (s_now_us s) times →
  (Z.of_nat (length (s_check_list s)) * (max_retries s + 3) + 1) * ticks_per_step s
    ≤ Z.of_nat (length times) →
  s_state (final (for_each check_tick times) s) = Failed
  ∧ EFailed ∈ outputs (for_each check_tick times) s.
Proof.
  intros Hst Hok Hu Hi Hsp Hlen. pose proof Hok as (Hm & _ & Hl). pose proof (work_bound _ _ _ Hl Hm) as Hw.
  apply (ticks_fail s (Z.to_nat (Z.of_nat (length (s_check_list s)) * (max_retries s + 3) + 1)));
    [by split|done|unfold work_of; lia|done|by rewrite Z2Nat.id by lia].
Qed.
End tick.

Definition udp_host : Candidate := example_host <| c_transport := Udp |>.

(** A session checking one waiting pair. *)
Definition checking_example : IceSession :=
  (new_session (SessionRef.fixed default_config 5) true (str "abcdefgh") (str "secret") 1)
    <| s_state := Checking |>
    <| s_check_list := [set_cp_state PWaiting (new_pair udp_host udp_host true (replicate 12 7))] |>.

(** A timer that fires every [gap]. *)
Definition regular (gap now : Z) (n : nat) : list Z := (λ i, now + gap * Z.of_nat i) <$> seq 1 n.

Lemma spaced_regular gap now n :
  0 ≤ gap → 0 ≤ now → now + gap * Z.of_nat n < 2 ^ 64 → spaced gap now (regular gap now n).
Proof.
  intros Hg Hn Hm. unfold regular. assert (∀ k j, (j + k ≤ n)%nat →
    spaced gap (now + gap * Z.of_nat j) ((λ i, now + gap * Z.of_nat i) <$> seq (S j) k)) as Hs.
  { induction k as [|k IH]; intros j Hj; cbn; [done|]. split; [nia|]. apply (IH (S j)). lia. }
  specialize (Hs n 0%nat ltac:(lia)). by rewrite Z.mul_0_r, Z.add_0_r in Hs.
Qed.

(** The pacing timer of the default configuration, for one pair: 50 ms, 1280 ticks. *)
Lemma checks_terminate_witness :
  let run := final (for_each (check_tick (H := InetRef.ops) (H0 := HmacRef.ops)
    (H1 := SessionRef.env)) (regular (check_interval_ms (cfg checking_example) * 1000)
      (s_now_us checking_example) 1280)) checking_example in
  s_state run = Failed.
Proof.
  apply (checks_terminate (H := InetRef.ops) (H0 := HmacRef.ops) (H1 := SessionRef.env));
    [reflexivity | | by repeat constructor | vm_compute; discriminate | | vm_compute; discriminate].
  - split_and!; [vm_compute; discriminate | vm_compute; discriminate |].
    constructor; [vm_compute; split; reflexivity | constructor].
  - apply spaced_regular; vm_compute; first [discriminate | reflexivity].
Defined.
