(* ===== verification/CheckBuild.v ===== *)
(** What [build_check_list] builds: exactly the compatible candidate pairs and those of
    the predicted ports, by decreasing priority, the first of every foundation pair
    waiting and the others frozen. *)

From stdpp Require Import gmap.
From S2P Require Import Prelude Bytes Inet Candidate Framing Stun Turn PathMtu SessionState.
From S2P Require Import Delivery CheckList CheckLoop.

(** * Pairing *)

(** Which candidates RFC 8445 6.1.2.2 and RFC 6544 6.2 pair: of one address family, with
    transports that can meet, and with addresses: a local mDNS candidate stands for an
    address the agent hides, a remote one is paired only once its name is resolved. *)
Definition compatible (l r : Candidate) : Prop :=
  c_type l ≠ HostMdns ∧ (c_type r = HostMdns → c_hostname r = [])
  ∧ c_family l = c_family r
  ∧ (c_transport l, c_transport r)
      ∈ [(Udp, Udp); (TcpActive, TcpPassive); (TcpPassive, TcpActive);
         (TcpSimultaneousOpen, TcpSimultaneousOpen)].

#[global] Instance compatible_dec l r : Decision (compatible l r).
Proof. unfold compatible. apply _. Defined.

Lemma pairable_compatible l r : pairable l r = bool_decide (compatible l r).
Proof.
  set (P := (c_transport l, c_transport r) ∈ [(Udp, Udp); (TcpActive, TcpPassive);
    (TcpPassive, TcpActive); (TcpSimultaneousOpen, TcpSimultaneousOpen)]).
  assert (bool_decide P = (bool_decide (c_transport l = Udp) && bool_decide (c_transport r = Udp))
      || tcp_transport_pairs (c_transport l) (c_transport r)) as Ht
    by (unfold P; by destruct (c_transport l), (c_transport r)).
  apply eq_true_iff_eq. unfold pairable. rewrite <- Ht, !andb_true_iff, !negb_true_iff.
  rewrite andb_false_iff, negb_false_iff, !bool_decide_eq_true, !bool_decide_eq_false.
  change (compatible l r) with (c_type l ≠ HostMdns ∧ (c_type r = HostMdns → c_hostname r = [])
    ∧ c_family l = c_family r ∧ P).
  destruct (decide (c_type r = HostMdns)); tauto.
Qed.

(** The ports a symmetric NAT may use next: [n] steps of [stride] from [port], as far as
    there are ports. *)
Definition predicted_ports (port stride : Z) (n : nat) : list Z :=
  filter (λ p, p ≤ 65535) ((λ k, port + stride * Z.of_nat k) <$> seq 1 n).

(** The pairs of two candidates, but for transaction ids and states: the candidates
    themselves and, for a server-reflexive remote candidate, its predicted ports, each
    with a foundation of its own and one below in priority. *)
Definition expected_pair (controlling : bool) (l r : Candidate) : CheckPair :=
  mkPair l r (pair_priority (c_priority l) (c_priority r) controlling) 0 PFrozen false false false
    false [] 0 (c_transport l).
Definition predicted_pair (p : CheckPair) (port : Z) : CheckPair :=
  p <| cp_remote := (cp_remote p) <| c_port := port |>
         <| c_foundation := c_foundation (cp_remote p) ++ str ":p" ++ to_string port |> |>
    <| cp_priority := Z.max 0 (cp_priority p - 1) |>.
Definition expected_pairs (controlling : bool) (stride : Z) (n : nat) (l r : Candidate)
    : list CheckPair :=
  if decide (compatible l r) then
    let p := expected_pair controlling l r in
    p :: (if decide (c_type r = Srflx)
          then predicted_pair p <$> predicted_ports (c_port r) stride n else [])
  else [].

(** A pair without its transaction id and state. *)
Definition blank (p : CheckPair) : CheckPair := p <| cp_txn_id := [] |> <| cp_state := PFrozen |>.

(** Pairing changes the check list and draws transaction ids. *)
Definition list_only (s s' : IceSession) : Prop :=
  ∃ l d, s' = (s <| s_check_list := l |>) <| s_draws := d |>.

#[export] Instance list_only_po : PreOrder list_only.
Proof.
  split; [intros s; exists (s_check_list s), (s_draws s); by destruct s|].
  intros s1 s2 s3 (l1 & d1 & ->) (l2 & d2 & ->). by exists l2, d2.
Qed.

(** The list of [s'] is that of [s] with [new], but for transaction ids and states. *)
Definition extends (new : list CheckPair) (s s' : IceSession) : Prop :=
  list_only s s' ∧ blank <$> s_check_list s' = (blank <$> s_check_list s) ++ new.

Lemma extends_nil s : extends [] s s.
Proof. split; [done|]. by rewrite app_nil_r. Qed.

Lemma extends_app n1 n2 s1 s2 s3 : extends n1 s1 s2 → extends n2 s2 s3 → extends (n1 ++ n2) s1 s3.
Proof. intros [H1 E1] [H2 E2]. split; [by etrans|]. by rewrite E2, E1, app_assoc. Qed.

Section build.
Context `{InetOps} `{SessionEnv}.

Lemma txn_extends s : extends [] s (final generate_txn_id s).
Proof. split; [by exists (s_check_list s), (S (s_draws s)); destruct s|]. by rewrite app_nil_r. Qed.

Lemma push_extends p s : extends [blank p] s (final (push_pair p) s).
Proof. split; [by exists (s_check_list s ++ [p]), (s_draws s); destruct s|]. cbn. by rewrite fmap_app. Qed.

(** A stride is positive and attempts are few: the arithmetic does not wrap. *)
Lemma predict_extends n k stride pair s :
  is_u16 (c_port (cp_remote pair)) → 0 < stride < 65536 → (k + n ≤ 65)%nat →
  extends (predicted_pair (blank pair) <$> filter (λ p, p ≤ 65535)
             ((λ j, c_port (cp_remote pair) + stride * Z.of_nat j) <$> seq k n))
    s (final (predict_pairs n (Z.of_nat k) stride pair) s).
Proof.
  intros Hp Hs. revert k s. induction n as [|n IH]; intros k s Hk; [apply extends_nil|].
  cbn [predict_pairs seq fmap list_fmap]. cbv zeta.
  rewrite (u32_id (stride * _)), u32_id by (unfold_ints; nia). case_decide as Hport.
  - rewrite filter_cons_False by lia.
    assert (∀ l : list Z, Forall (λ p, 65535 < p) l → filter (λ p, p ≤ 65535) l = []) as Hnone.
    { induction 1; [done|]. by rewrite filter_cons_False by lia. }
    rewrite Hnone; [apply extends_nil|]. apply Forall_fmap, Forall_seq. intros j Hj. cbn. nia.
  - rewrite filter_cons_True by lia. rewrite fmap_cons, final_bind, final_bind.
    set (s1 := final generate_txn_id s).
    match goal with |- context [final (push_pair ?q) s1] =>
      pose proof (push_extends q s1) as H2; set (s2 := final (push_pair q) s1) in * end.
    replace (Z.of_nat k + 1) with (Z.of_nat (S k)) by lia.
    apply (extends_app [] _ s s1 _ (txn_extends s)).
    match goal with |- extends (?x :: ?l) _ _ => change (x :: l) with ([x] ++ l) end.
    apply (extends_app [_] _ s1 s2); [|apply IH; lia].
    match type of H2 with extends [?x] _ _ => replace (predicted_pair (blank pair) _) with x; [exact H2|] end.
    unfold predicted_pair, blank. cbn. f_equal. case_decide; lia.
Qed.
(** What pairing relies on: ports and the stride are 16-bit, attempts at most 64. *)
Definition prediction_ok (stride : Z) (n : nat) (rs : list Candidate) : Prop :=
  (n = 0%nat ∨ 0 < stride < 65536) ∧ (n ≤ 64)%nat ∧ Forall (λ r, is_u16 (c_port r)) rs.

Lemma add_pair_extends s stride n l r : prediction_ok stride n [r] →
  extends (expected_pairs (s_controlling s) stride n l r) s (final (add_pair stride n l r) s).
Proof.
  intros (Hst & Hn & [Hr _]%Forall_cons_1). unfold add_pair, expected_pairs.
  rewrite pairable_compatible. destruct (decide (compatible l r)) as [Hc|Hc].
  2: { rewrite bool_decide_false by done. apply extends_nil. }
  rewrite bool_decide_true by done. cbn [negb]. rewrite final_get, final_bind.
  apply (extends_app [] _ s _ _ (txn_extends s)). set (s1 := final generate_txn_id s).
  set (pair := new_pair l r (s_controlling s) _). rewrite final_bind. cbv zeta.
  apply (extends_app [_] _ s1 _ _ (push_extends pair s1)). set (s2 := final (push_pair pair) s1).
  destruct n as [|n].
  { cbn. by destruct (decide (c_type r = Srflx)); apply extends_nil. }
  rewrite (bool_decide_true (0 < S n)%nat) by lia. cbn [andb].
  destruct (decide (c_type r = Srflx)) as [Hx|Hx];
    [rewrite bool_decide_true by done | rewrite bool_decide_false by done; apply extends_nil].
  destruct Hst as [|Hst]; [done|]. apply (predict_extends (S n) 1 stride pair s2); [exact Hr|done|lia].
Qed.

(** A loop whose iterations extend the list by [f x]. *)
Lemma for_each_extends {A} (m : A → session unit) (f : A → list CheckPair) l s :
  (∀ x s', x ∈ l → list_only s s' → extends (f x) s' (final (m x) s')) →
  extends (mbind f l) s (final (for_each m l) s).
Proof.
  revert s. induction l as [|x l IH]; intros s Hm; [apply extends_nil|].
  rewrite final_for_each_cons, bind_cons.
  assert (extends (f x) s (final (m x) s)) as H1 by (apply Hm; [by left|done]).
  eapply extends_app; [exact H1|]. apply IH. intros y s' Hy Hs'. apply Hm; [by right|].
  etrans; [apply H1|done].
Qed.

Lemma pairing_extends s stride n ls rs : prediction_ok stride n rs →
  extends (l ← ls; r ← rs; expected_pairs (s_controlling s) stride n l r) s
    (final (for_each (λ l, for_each (add_pair stride n l) rs) ls) s).
Proof.
  intros (Hst & Hn & Hr). apply for_each_extends. intros l s1 _ (? & ? & ->).
  apply for_each_extends. intros r s2 Hin (l2 & d2 & ->).
  match goal with |- extends _ ?x _ => apply (add_pair_extends x stride n l r) end.
  split_and!; [done..|]. constructor; [by eapply Forall_forall in Hr|done].
Qed.

(** * States *)

(** In [assign_states] the first pair of each unseen key waits, the others freeze. *)
Lemma assign_states_spec seen l :
  let l' := assign_states seen l in
  Forall2 (λ p p', ∃ st, p' = set_cp_state st p ∧ (st = PWaiting ∨ st = PFrozen)) l l'
  ∧ (∀ k, k ∈ seen → length (filter (λ p, fnd_key p = k ∧ cp_state p = PWaiting) l') = 0%nat)
  ∧ (∀ k, k ∉ seen → Exists (λ p, fnd_key p = k) l →
       length (filter (λ p, fnd_key p = k ∧ cp_state p = PWaiting) l') = 1%nat).
Proof.
  revert seen. induction l as [|p l IH]; intros seen l'.
  - split_and!; [constructor | done | by intros k _ ?%Exists_nil].
  - unfold l'. cbn [assign_states]. case_decide as Hin.
    + destruct (IH seen) as (H1 & H2 & H3). split_and!.
      * constructor; [by exists PFrozen; auto | done].
      * intros k Hk. rewrite filter_cons_False by (by intros [_ [=]]). by apply H2.
      * intros k Hk He. rewrite filter_cons_False by (by intros [_ [=]]). apply H3; [done|].
        apply Exists_cons in He as [<-|]; done.
    + destruct (IH (fnd_key p :: seen)) as (H1 & H2 & H3).
      change (fnd_key (set_cp_state PWaiting p)) with (fnd_key p). split_and!.
      * constructor; [by exists PWaiting; auto | done].
      * intros k Hk. rewrite filter_cons_False; [apply H2; by right|].
        intros [Hk' _]. change (fnd_key p = k) in Hk'. by subst k.
      * intros k Hk He. destruct (decide (fnd_key p = k)) as [<-|Hne].
        -- rewrite filter_cons_True by done. cbn [length]. f_equal. apply H2. by left.
        -- rewrite filter_cons_False by (by intros [? _]). apply H3.
           ++ intros [->|?]%elem_of_cons; done.
           ++ apply Exists_cons in He as [?|]; done.
Qed.

Lemma by_priority_sorted l :
  StronglySorted (λ a b, cp_priority b ≤ cp_priority a) (std_sort by_priority l).
Proof.
  apply (StronglySorted_impl (not_after by_priority)).
  - intros a b. unfold not_after, by_priority. rewrite bool_decide_eq_false. lia.
  - apply std_sort_sorted; intros *; unfold by_priority;
      rewrite ?bool_decide_eq_true, ?bool_decide_eq_false; lia.
Qed.

Lemma sorted_states (l l' : list CheckPair) :
  Forall2 (λ p p', ∃ st, p' = set_cp_state st p ∧ (st = PWaiting ∨ st = PFrozen)) l l' →
  StronglySorted (λ a b, cp_priority b ≤ cp_priority a) l →
  StronglySorted (λ a b, cp_priority b ≤ cp_priority a) l'.
Proof.
  induction 1 as [|p p' l l' (st & -> & _) Hl IH]; intros Hs; [constructor|].
  apply StronglySorted_cons in Hs as [Hp Hs]. apply StronglySorted_cons. split; [|by apply IH].
  clear -Hp Hl. induction Hl as [|q q' l l' (st' & -> & _) _ IH]; constructor;
    apply Forall_cons_1 in Hp as [? ?]; auto.
Qed.

(** The session after pairing, before sorting. *)
Definition paired_session (s : IceSession) : IceSession :=
  let s1 := (s <| s_check_list := [] |>)
              <| s_local_candidates := with_foundation <$> s_local_candidates s |>
              <| s_remote_candidates := with_foundation <$> s_remote_candidates s |> in
  final (for_each (λ l, for_each (add_pair (prediction_stride (s <| s_check_list := [] |>))
                                   (prediction_attempts (s <| s_check_list := [] |>)) l)
           (s_remote_candidates s1)) (s_local_candidates s1)) s1.

Lemma build_check_list_final s :
  final build_check_list s
  = (paired_session s)
      <| s_check_list :=
           assign_initial_pair_states (std_sort by_priority (s_check_list (paired_session s))) |>
      <| s_current_check := 0%nat |>.
Proof.
  unfold build_check_list. rewrite final_bind. change (final (emit ?e) s) with s.
  unfold set_check_list. rewrite final_modify, final_get, final_bind, final_modify, final_get.
  rewrite final_bind.
  match goal with |- context [final (for_each ?f ?l) ?s1] =>
    change (final (for_each f l) s1) with (paired_session s) end.
  rewrite !final_modify. by destruct (paired_session s).
Qed.

Lemma pairing_only stride n ls rs :
  keeps list_only (for_each (λ l, for_each (add_pair stride n l) rs) ls).
Proof.
  assert (∀ n k p, keeps list_only (predict_pairs n k stride p)) as Hp.
  { clear n. induction n as [|n IH]; intros k p; cbn [predict_pairs];
      unfold push_pair, set_check_list, generate_txn_id;
      keeps_auto ltac:(first [apply IH | intros ?; by do 2 eexists]). }
  unfold add_pair, push_pair, set_check_list, generate_txn_id.
  keeps_auto ltac:(first [apply Hp | intros ?; by do 2 eexists]).
Qed.

(** Pairing works on the session with its foundations, and leaves everything but the
    check list as it is. *)
Lemma paired_session_only s :
  list_only ((s <| s_local_candidates := with_foundation <$> s_local_candidates s |>)
               <| s_remote_candidates := with_foundation <$> s_remote_candidates s |>)
    (paired_session s).
Proof.
  unfold paired_session. cbv zeta.
  match goal with |- list_only _ (final (for_each (λ l, for_each (add_pair ?st ?n l) ?rs) ?ls) ?s1) =>
    destruct (pairing_only st n ls rs s1) as (l & d & ->) end.
  by exists l, d.
Qed.

(** The built list against the list before sorting. *)
Lemma built_from s :
  ∃ l1, s_check_list (final build_check_list s) = assign_states [] l1
    ∧ l1 = std_sort by_priority (s_check_list (paired_session s)).
Proof. rewrite build_check_list_final. by eexists. Qed.

(** The pairs of a fresh list have not been checked. *)
Lemma built_pairs s :
  Forall (λ p, cp_state p = PWaiting ∨ cp_state p = PFrozen)
    (s_check_list (final build_check_list s)).
Proof.
  destruct (built_from s) as (l1 & -> & _). destruct (assign_states_spec [] l1) as (H2 & _).
  apply Forall_forall. intros p Hin. apply list_elem_of_lookup in Hin as (i & Hi).
  destruct (Forall2_lookup_r _ _ _ _ _ H2 Hi) as (q & Hq & st & -> & Hst).
  by destruct Hst as [->| ->]; auto.
Qed.

(** Whether the peer said that it is behind a symmetric NAT (bit 17 of the flags of its
    signal) and this agent is to predict ports, and the stride then: its own, or 1. *)
Definition predicted_stride (s : IceSession) : option Z :=
  if Z.testbit (s_peer_signal_flags s) 17 && symmetric_port_prediction_enabled (cfg s)
  then Some (if decide (symmetric_stride (s_gather s) = 0) then 1 else symmetric_stride (s_gather s))
  else None.

Lemma flag_bit f : bool_decide (Z.land f ICE_SIGNAL_FLAG_SYMMETRIC = 0) = negb (Z.testbit f 17).
Proof.
  change ICE_SIGNAL_FLAG_SYMMETRIC with (2 ^ 17). destruct (Z.testbit f 17) eqn:E; cbn.
  - apply bool_decide_false. intros Hz. assert (Z.testbit (Z.land f (2 ^ 17)) 17 = true) as Ht
      by (by rewrite Z.land_spec, E). by rewrite Hz, Z.bits_0 in Ht.
  - apply bool_decide_true, Z.bits_inj'. intros n Hn. rewrite Z.land_spec, Z.bits_0, Z.pow2_bits_eqb by lia.
    destruct (17 =? n) eqn:En; [|by rewrite andb_false_r]. apply Z.eqb_eq in En as <-. by rewrite E.
Qed.

Lemma prediction_predicted s :
  prediction_stride s = default 0 (predicted_stride s)
  ∧ (is_u16 (symmetric_stride (s_gather s)) → prediction_attempts s
     = match predicted_stride s with
       | Some _ => Z.to_nat (symmetric_port_prediction_attempts (cfg s))
       | None => 0%nat
       end).
Proof.
  assert (prediction_stride s = default 0 (predicted_stride s)) as E.
  { unfold prediction_stride, predicted_stride. rewrite flag_bit.
    destruct (Z.testbit _ _), (symmetric_port_prediction_enabled _); cbn; try done.
    repeat case_decide; lia. }
  split; [done|]. intros Hs. unfold prediction_attempts. rewrite E. unfold predicted_stride.
  destruct (Z.testbit _ 17 && _); cbn; [|done].
  rewrite (bool_decide_true (_ ≠ 0)) by (case_decide; lia). cbn [andb].
  destruct (bool_decide (0 < _)) eqn:Ea; [done|]. apply bool_decide_eq_false in Ea. lia.
Qed.

(** The pairs before sorting. *)
Lemma paired_session_pairs s :
  Forall (λ r, is_u16 (c_port r)) (s_remote_candidates s) → is_u16 (symmetric_stride (s_gather s)) →
  symmetric_port_prediction_attempts (cfg s) ≤ 64 →
  blank <$> s_check_list (paired_session s)
  = (l ← with_foundation <$> s_local_candidates s; r ← with_foundation <$> s_remote_candidates s;
     match predicted_stride s with
     | Some stride => expected_pairs (s_controlling s) stride
                        (Z.to_nat (symmetric_port_prediction_attempts (cfg s))) l r
     | None => expected_pairs (s_controlling s) 0 0 l r
     end).
Proof.
  intros Hr Hs Hn. destruct (prediction_predicted (s <| s_check_list := [] |>)) as [E1 E2].
  specialize (E2 Hs). unfold paired_session. rewrite E1, E2.
  change (predicted_stride (s <| s_check_list := [] |>)) with (predicted_stride s).
  change (cfg (s <| s_check_list := [] |>)) with (cfg s).
  match goal with |- context [final (for_each (λ l, for_each (add_pair ?st ?n l) ?rs) ?ls) ?s1] =>
    destruct (pairing_extends s1 st n ls rs) as [_ ->] end.
  - cbn. unfold predicted_stride. destruct (_ && _) eqn:Ep; cbn.
    + split_and!; [right; case_decide; unfold_ints; lia|lia|].
      apply Forall_fmap. eapply Forall_impl; [exact Hr|]. intros r Hrp. cbn. unfold with_foundation. by case_decide.
    + split_and!; [by left|lia|].
      apply Forall_fmap. eapply Forall_impl; [exact Hr|]. intros r Hrp. cbn. unfold with_foundation. by case_decide.
  - cbn. by destruct (predicted_stride s).
Qed.

(** C11 (the check list): but for transaction ids and states, [build_check_list] makes
    exactly these pairs, each once: every pair of a local and a remote candidate that are
    compatible -- one address family, transports that can meet, resolved names --; and,
    when the peer announced a symmetric NAT and port prediction is enabled, for each
    such pair with a server-reflexive remote candidate, the configured number of
    further ports, a stride apart, as far as there are ports.  They are ordered by
    decreasing priority, and for every pair of foundations in the list exactly one pair
    waits and the others are frozen. *)
Theorem build_check_list_spec s :
  Forall (λ r, is_u16 (c_port r)) (s_remote_candidates s) → is_u16 (symmetric_stride (s_gather s)) →
  symmetric_port_prediction_attempts (cfg s) ≤ 64 →
  let cl := s_check_list (final build_check_list s) in
  let ls := with_foundation <$> s_local_candidates s in
  let rs := with_foundation <$> s_remote_candidates s in
  let pairs l r :=
    match predicted_stride s with
    | Some stride => expected_pairs (s_controlling s) stride
                       (Z.to_nat (symmetric_port_prediction_attempts (cfg s))) l r
    | None => expected_pairs (s_controlling s) 0 0 l r
    end in
  blank <$> cl ≡ₚ (l ← ls; r ← rs; pairs l r)
  ∧ Forall (λ p, cp_state p = PWaiting ∨ cp_state p = PFrozen) cl
  ∧ StronglySorted (λ a b, cp_priority b ≤ cp_priority a) cl
  ∧ Forall (λ p, length (filter (λ q, fnd_key q = fnd_key p ∧ cp_state q = PWaiting) cl) = 1%nat) cl.
Proof.
  intros Hr Hs Hn cl ls rs pairs. pose proof (built_pairs s) as Hpairs. unfold cl.
  destruct (built_from s) as (l1 & Hcl & Hl1). rewrite Hcl in *.
  destruct (assign_states_spec [] l1) as (H2 & _ & Hw). split_and!; [|exact Hpairs| |].
  - assert (blank <$> assign_states [] l1 = blank <$> l1) as ->.
    { clear -H2. induction H2 as [|p p' l l' (st & -> & _) _ IH]; [done|]. rewrite !fmap_cons, IH. by f_equal. }
    rewrite Hl1, std_sort_perm. by rewrite paired_session_pairs.
  - eapply sorted_states; [exact H2 | rewrite Hl1; apply by_priority_sorted].
  - apply Forall_forall. intros p Hp. apply Hw; [apply not_elem_of_nil|].
    apply list_elem_of_lookup in Hp as (i & Hi).
    destruct (Forall2_lookup_r _ _ _ _ _ H2 Hi) as (q & Hq & st & -> & _).
    apply Exists_exists. exists q. split; [by apply list_elem_of_lookup_2 in Hq | done].
Qed.

(** Pairs that were never sent. *)
Definition unsent (p : CheckPair) : Prop := cp_retries p = 0 ∧ cp_txn_send_us p = 0.
Definition adds_unsent (s s' : IceSession) : Prop :=
  Forall unsent (s_check_list s) → Forall unsent (s_check_list s').
#[local] Instance adds_unsent_po : PreOrder adds_unsent.
Proof. split; unfold adds_unsent; [intros s; tauto|intros x y z; tauto]. Qed.

Lemma push_unsent p : unsent p → keeps adds_unsent (push_pair p).
Proof. intros Hp s Hs. apply Forall_app. split; [done|]. by constructor. Qed.

#[local] Hint Extern 1 (keeps adds_unsent (push_pair _)) => by apply push_unsent : ice.

Lemma predict_unsent n k stride p : unsent p → keeps adds_unsent (predict_pairs n k stride p).
Proof.
  intros Hp. revert k. induction n as [|n IH]; intros k; cbn [predict_pairs]; unfold generate_txn_id;
    keeps_auto ltac:(by intros ? ?).
Qed.
#[local] Hint Extern 1 (keeps adds_unsent (predict_pairs _ _ _ _)) => by apply predict_unsent : ice.

Lemma pairing_unsent stride n ls rs :
  keeps adds_unsent (for_each (λ l, for_each (add_pair stride n l) rs) ls).
Proof. unfold add_pair, generate_txn_id. keeps_auto ltac:(by intros ? ?). Qed.

(** The list [build_check_list] leaves is one the check loop terminates on. *)
Lemma built_list_ok s :
  1 ≤ max_retries s → 0 ≤ s_now_us s → list_ok (final build_check_list s).
Proof.
  intros Hm Hn. pose proof (built_pairs s) as Hf.
  assert (Forall unsent (s_check_list (paired_session s))) as Hu
    by (unfold paired_session; apply pairing_unsent; constructor).
  destruct (built_from s) as (l1 & Hcl & Hl1). destruct (assign_states_spec [] l1) as (H2 & _).
  assert (max_retries (final build_check_list s) = max_retries s
    ∧ s_now_us (final build_check_list s) = s_now_us s) as [Hm' Hn'].
  { rewrite build_check_list_final. by destruct (paired_session_only s) as (l & d & ->). }
  split_and!; [by rewrite Hm' | by rewrite Hn' |]. rewrite Hcl in *.
  apply Forall_forall. intros p Hp. pose proof (proj1 (Forall_forall _ _) Hf p Hp) as Hst.
  apply list_elem_of_lookup in Hp as (i & Hi).
  destruct (Forall2_lookup_r _ _ _ _ _ H2 Hi) as (q & Hq & st & -> & _).
  assert (unsent q) as [Hq1 Hq2].
  { apply (proj1 (Forall_forall _ _) Hu). rewrite <- (std_sort_perm by_priority), <- Hl1.
    by apply list_elem_of_lookup_2 in Hq. }
  unfold pair_ok. by destruct Hst as [-> | ->].
Qed.
End build.

(** * An instance *)

(** A peer behind a symmetric NAT: a host address, a mapped address one port below the
    last, and an IPv6 address the agent has no counterpart for. *)
Module BuildRef.
Definition local : Candidate := example_host <| c_transport := Udp |>.
Definition remotes : list Candidate :=
  [local <| c_port := 6000 |>; local <| c_type := Srflx |> <| c_port := 65534 |>;
   local <| c_family := IPv6 |>].
Definition session : IceSession :=
  (new_session (SessionRef.fixed (default_config <| symmetric_port_prediction_enabled := true |>
     <| symmetric_port_prediction_attempts := 4 |>) 5) true (str "abcdefgh") (str "secret") 1)
    <| s_peer_signal_flags := 2 ^ 17 |> <| s_local_candidates := [local] |>
    <| s_remote_candidates := remotes |>.
End BuildRef.

Lemma build_check_list_spec_witness :
  let cl := s_check_list (final (build_check_list (H := InetRef.ops) (H0 := SessionRef.env)) BuildRef.session) in
  (λ p, c_port (cp_remote p)) <$> cl ≡ₚ [6000; 65534; 65535].
Proof.
  intros cl. destruct (build_check_list_spec (H := InetRef.ops) (H0 := SessionRef.env) BuildRef.session)
    as [Hp _]; [repeat constructor; by vm_compute | by compute | by compute |].
  apply (fmap_Permutation (λ p, c_port (cp_remote p))) in Hp.
  rewrite <- list_fmap_compose in Hp. exact Hp.
Defined.
