(* ===== verification/CheckBounds.v ===== *)
(** How many checks are under way at once: the pacing of [run_next_check] respects
    [kCheckConcurrencyCap]. *)

From stdpp Require Import gmap.
From S2P Require Import Prelude Bytes Inet Candidate Framing Stun Turn PathMtu SessionState.
From S2P Require Import Delivery CheckList CheckLoop CheckBuild.

(** The number of pairs in progress did not grow. *)
Definition no_more (s s' : IceSession) : Prop :=
  (in_progress_count (s_check_list s') ≤ in_progress_count (s_check_list s))%nat.
#[export] Instance no_more_po : PreOrder no_more.
Proof. split; unfold no_more; [intros s; lia|intros x y z; lia]. Qed.

Lemma count_cons p l : in_progress_count (p :: l)
  = ((if decide (cp_state p = PInProgress) then 1 else 0) + in_progress_count l)%nat.
Proof. unfold in_progress_count. rewrite filter_cons. by case_decide. Qed.

(** An update of pairs that starts none. *)
Lemma count_map (f : CheckPair → CheckPair) l :
  (∀ p, cp_state (f p) = PInProgress → cp_state p = PInProgress) →
  (in_progress_count (f <$> l) ≤ in_progress_count l)%nat.
Proof.
  intros Hf. induction l as [|p l IH]; [done|]. rewrite fmap_cons, !count_cons.
  specialize (Hf p). repeat case_decide; (lia || tauto).
Qed.

Lemma count_alter f i l p : l !! i = Some p →
  (in_progress_count (alter f i l) + (if decide (cp_state p = PInProgress) then 1 else 0)
   = in_progress_count l + (if decide (cp_state (f p) = PInProgress) then 1 else 0))%nat.
Proof.
  revert i. induction l as [|q l IH]; intros [|i] Hi; simplify_eq/=.
  - rewrite !count_cons. repeat case_decide; lia.
  - rewrite !count_cons. specialize (IH i Hi). repeat case_decide; lia.
Qed.

Lemma count_alter_none f i l : (∀ p, cp_state (f p) = PInProgress → cp_state p = PInProgress) →
  (in_progress_count (alter f i l) ≤ in_progress_count l)%nat.
Proof.
  intros Hf. destruct (l !! i) as [p|] eqn:Hi.
  - pose proof (count_alter f i l p Hi). specialize (Hf p). repeat case_decide; (lia || tauto).
  - apply Nat.eq_le_incl. f_equal. apply list_eq. intros j. rewrite list_lookup_alter.
    case_decide; [|done]. subst j. by rewrite Hi.
Qed.

Lemma count_unfreeze lf rf l :
  (in_progress_count (unfreeze_siblings lf rf l) ≤ in_progress_count l)%nat.
Proof.
  unfold unfreeze_siblings. case_decide; [done|]. apply count_map. intros p. by repeat case_decide.
Qed.

Lemma count_stuck l : (in_progress_count (unfreeze_stuck_pairs l) ≤ in_progress_count l)%nat.
Proof.
  unfold unfreeze_stuck_pairs. case_decide as Hn; [done|]. clear Hn. generalize (@nil bytes).
  induction l as [|p l IH]; intros seen; [done|]. cbn [promote_frozen].
  case_decide as Hf; [|case_decide]; rewrite !count_cons.
  - specialize (IH seen). lia.
  - specialize (IH seen). lia.
  - specialize (IH (fnd_key p :: seen)). rewrite decide_False by done. lia.
Qed.

Section bounds.
Context `{InetOps} `{Hmac} `{SessionEnv}.

Lemma send_check_no_more i : keeps no_more (send_check i).
Proof.
  intros s. unfold send_check. rewrite final_get. destruct (s_check_list s !! i) as [p|]; [|reflexivity].
  case_decide; rewrite final_bind.
  - unfold no_more. cbn. etrans; [apply count_unfreeze|]. by apply count_alter_none.
  - unfold no_more. destruct (transmit_check_frame p (build (add_fingerprint (add_integrity
      (remote_pwd (s_creds s)) (check_request s p)))) (final (set_pair i (λ p, p
        <| cp_retries := u8 (cp_retries p + 1) |> <| cp_txn_send_us := s_now_us s |>)) s))
      as (e & n & d & ->). cbn. by apply count_alter_none.
Qed.

Lemma retransmit_no_more i : keeps no_more (retransmit_one i).
Proof.
  intros s. unfold retransmit_one. rewrite final_get.
  destruct (s_check_list s !! i) as [p|]; [|reflexivity]. cbv zeta.
  repeat case_match; try reflexivity; try apply send_check_no_more.
  rewrite final_bind. unfold no_more. cbn. etrans; [apply count_unfreeze|]. by apply count_alter_none.
Qed.

(** Starting a waiting pair adds one. *)
Lemma start_count i s p : s_check_list s !! i = Some p → cp_state p = PWaiting →
  (in_progress_count (s_check_list (final (set_pair i (set_cp_state PInProgress) ;; send_check i) s))
   ≤ S (in_progress_count (s_check_list s)))%nat.
Proof.
  intros Hi Hw. rewrite final_bind. etrans; [apply send_check_no_more|].
  change (s_check_list (final (set_pair i ?f) s)) with (alter f i (s_check_list s)).
  pose proof (count_alter (set_cp_state PInProgress) i _ p Hi) as Ha.
  rewrite Hw in Ha. rewrite decide_False, decide_True in Ha by done. lia.
Qed.

(** Promotion stops at the cap. *)
Lemma promote_loop_cap idxs s :
  let n := in_progress_count (s_check_list s) in
  (in_progress_count (s_check_list (final (promote_loop idxs) s)) ≤ n `max` kCheckConcurrencyCap)%nat.
Proof.
  revert s. induction idxs as [|i idxs IH]; intros s n; cbn [promote_loop]; [apply Nat.le_max_l|].
  rewrite final_get. case_decide as Hc; [apply Nat.le_max_l|]. unfold n in *.
  destruct (s_check_list s !! i) as [p|] eqn:Hi; [|apply Nat.le_max_l]. rewrite final_bind.
  etrans; [apply IH|]. apply Nat.max_lub; [|apply Nat.le_max_r].
  destruct (bool_decide_reflect (cp_state p = PWaiting)) as [Hw|]; cbn [andb]; [|apply Nat.le_max_l].
  case_match; [|apply Nat.le_max_l]. pose proof (start_count i s p Hi Hw). lia.
Qed.

Lemma exhausted_same : keeps no_more checks_exhausted.
Proof.
  unfold checks_exhausted, fail_session, set_state, set_gens. 
  keeps_auto ltac:(intros ?; unfold no_more; reflexivity).
Qed.

Lemma run_next_check_cap s :
  let n := in_progress_count (s_check_list s) in
  (in_progress_count (s_check_list (final run_next_check s)) ≤ n `max` kCheckConcurrencyCap)%nat.
Proof.
  intros n. unfold run_next_check. rewrite final_get. case_decide; [apply Nat.le_max_l|].
  rewrite final_bind. set (s1 := final (set_check_list _) s). rewrite final_bind.
  set (s2 := final (for_each _ _) s1). rewrite final_get, final_bind.
  assert (no_more s s2) as Hr.
  { etrans; [|apply (keeps_for_each no_more); intros; apply retransmit_no_more].
    unfold no_more. cbn. apply count_stuck. }
  pose proof (promote_loop_cap (seq 0 (length (s_check_list s2))) s2) as Hp. cbv zeta in Hp.
  set (s3 := final (promote_loop _) s2) in *. unfold no_more in Hr. unfold n.
  assert (no_more s3 (final (if negb (bool_decide (Exists pending (s_check_list s2))) then checks_exhausted
    else if f_timer_ctx (s_fixed s2)
         then set_gens (λ g, g <| check_gen := S (check_gen (s_gens s2)) |>) ;;
              emit (ETimer TmCheck (check_interval_ms (cfg s2)) (S (check_gen (s_gens s2))))
         else skip) s3)) as He.
  { case_match; [apply exhausted_same|].
    case_match; [rewrite final_bind|]; unfold no_more; reflexivity. }
  unfold no_more in He. lia.
Qed.

(** The burst starts at most one pair of each family. *)
Lemma begin_loop_cap idxs b4 b6 s :
  (in_progress_count (s_check_list (final (begin_loop idxs b4 b6) s))
   ≤ in_progress_count (s_check_list s) + ((if b4 then 0 else 1) + (if b6 then 0 else 1)))%nat.
Proof.
  revert b4 b6 s. induction idxs as [|i idxs IH]; intros b4 b6 s; cbn [begin_loop]; [apply Nat.le_add_r|].
  case_match; [apply Nat.le_add_r|]. rewrite final_get.
  destruct (s_check_list s !! i) as [p|] eqn:Hi; [|apply Nat.le_add_r].
  destruct (decide (cp_state p ≠ PWaiting)) as [|Hw]; [apply IH|]. apply dec_stable in Hw.
  pose proof (start_count i s p Hi Hw) as Hs.
  rewrite final_bind in Hs.
  destruct (_ && negb b4) eqn:E4; [|destruct (_ && negb b6) eqn:E6; [|apply IH]];
    rewrite !final_bind; (etrans; [apply IH|]); destruct b4, b6;
    rewrite ?andb_false_r in *; simplify_eq; cbv beta iota; lia.
Qed.

(** * The length of the list *)

(** [m] adds at most [k] pairs. *)
Definition adds_at_most (k : nat) (m : session unit) : Prop :=
  ∀ s, (length (s_check_list (final m s)) ≤ k + length (s_check_list s))%nat.

Lemma adds_for_each {A} k (f : A → session unit) l :
  (∀ a, adds_at_most k (f a)) → adds_at_most (length l * k) (for_each f l).
Proof.
  intros Hf. induction l as [|a l IH]; intros s; [done|]. rewrite final_for_each_cons. cbn [length].
  specialize (IH (final (f a) s)). specialize (Hf a s). lia.
Qed.

Lemma predict_adds n k stride pair : adds_at_most n (predict_pairs n k stride pair).
Proof.
  revert k. induction n as [|n IH]; intros k s; cbn [predict_pairs]; [done|]. cbv zeta.
  case_decide; [apply Nat.le_add_l|]. rewrite !final_bind. etrans; [apply IH|].
  cbn. rewrite length_app. cbn. lia.
Qed.

Lemma add_pair_adds stride n l r : adds_at_most (S n) (add_pair stride n l r).
Proof.
  intros s. unfold add_pair. destruct (negb _); [apply Nat.le_add_l|].
  rewrite final_get, final_bind. set (s1 := final generate_txn_id s). rewrite final_bind.
  set (pair := new_pair l r _ _). set (s2 := final (push_pair pair) s1).
  assert (length (s_check_list s2) = S (length (s_check_list s))) as Hs2
    by (cbn; rewrite length_app; cbn; lia).
  destruct (_ && _).
  - pose proof (predict_adds n 1 stride pair s2). lia.
  - change (final skip s2) with s2. lia.
Qed.

Lemma built_length s :
  (length (s_check_list (final build_check_list s))
   ≤ length (s_local_candidates s) * (length (s_remote_candidates s) * S (prediction_attempts s)))%nat.
Proof.
  rewrite build_check_list_final. cbn.
  destruct (assign_states_spec [] (std_sort by_priority (s_check_list (paired_session s)))) as (H2 & _).
  apply Forall2_length in H2. unfold assign_initial_pair_states. rewrite <- H2, std_sort_perm.
  unfold paired_session. etrans.
  - apply (adds_for_each (length (with_foundation <$> s_remote_candidates s) * S (prediction_attempts s))).
    intros l. apply adds_for_each. intros r. apply add_pair_adds.
  - cbn. rewrite !length_fmap. lia.
Qed.

Lemma built_none_started s : in_progress_count (s_check_list (final build_check_list s)) = 0%nat.
Proof.
  pose proof (built_pairs s) as Hb. unfold in_progress_count.
  induction Hb as [|p l Hp _ IH]; [done|]. rewrite filter_cons_False; [done|].
  by destruct Hp as [-> | ->].
Qed.

(** The checks under way in a session. *)
Definition under_way (s : IceSession) : nat := in_progress_count (s_check_list s).

(** C12 (bounded checking): the check list is at most as long as the candidates and the
    configured port predictions allow; a fresh list is checked with at most
    [kCheckConcurrencyCap] checks under way, and a tick of the pacing timer never
    raises the number of checks under way above that cap. *)
Theorem checks_bounded s :
  (length (s_check_list (final build_check_list s))
     ≤ length (s_local_candidates s) * (length (s_remote_candidates s) * S (prediction_attempts s))
   ∧ under_way (final (build_check_list ;; begin_checks) s) ≤ kCheckConcurrencyCap
   ∧ under_way (final run_next_check s) ≤ under_way s `max` kCheckConcurrencyCap)%nat.
Proof.
  split_and!; [apply built_length | | apply run_next_check_cap].
  unfold under_way. rewrite final_bind. pose proof (built_none_started s) as H0'.
  set (s1 := final build_check_list s) in *. unfold begin_checks. rewrite final_get.
  destruct (lite_mode _); [change (final skip s1) with s1; lia|]. rewrite final_bind.
  etrans; [apply run_next_check_cap|]. apply Nat.max_lub; [|done].
  etrans; [apply begin_loop_cap|]. rewrite H0'. unfold kCheckConcurrencyCap. lia.
Qed.
End bounds.
