(* ===== verification/Gather.v ===== *)
(** Gathering (src/session.cpp): host, port-mapped, server-reflexive and relay
    candidates, the TURN attempts with their backups, and the end of gathering. *)

From stdpp Require Import gmap.
From S2P Require Import Prelude Bytes Inet Candidate MdnsCodec Mdns DnsExt Framing Stun Turn PathMtu.
From S2P Require Import SessionState Delivery CheckList.

(** [Candidate c{}]: every member zero. *)
Definition zero_candidate : Candidate :=
  mkCandidate (type_of_byte 0) (family_of_byte 0) 0 0 (replicate 16 0) [] Udp [].

Definition push_local (c : Candidate) : session unit :=
  emit ELock ;;
  modify (λ s, s <| s_local_candidates := s_local_candidates s ++ [c] |>) ;;
  emit EUnlock.

(** Add a candidate the filter lets through. *)
Definition push_allowed (type : CandidateType) (c : Candidate) : session unit :=
  s ← get;
  if candidate_allowed type (c_family c) (candidate_filter_flags (cfg s))
  then push_local c else skip.

(** The candidate of one interface address. *)
Definition host_candidate (port : Z) (ifa : ifaddrs) : option Candidate :=
  match ifa_address ifa with
  | IfaNone => None
  | addr =>
      if ifa_loopback ifa || negb (ifa_up ifa) then None else
      let c := zero_candidate <| c_type := Host |> <| c_port := port |> in
      match addr with
      | IfaV4 a => Some (c <| c_family := IPv4 |> <| c_addr := a ++ replicate 12 0 |>
                           <| c_priority := compute_priority Host 65535 1 |>)
      | IfaV6 a =>
          if in6_is_linklocal a then None
          else Some (c <| c_family := IPv6 |> <| c_addr := a |>
                       <| c_priority := compute_priority Host 65534 1 |>)
      | _ => None
      end
  end.

(** The TCP variants of the UDP host candidates. *)
Definition tcp_variants (c : Candidate) : list Candidate :=
  if decide (c_type c = Host ∧ c_transport c = Udp)
  then [c <| c_transport := TcpActive |>; c <| c_transport := TcpPassive |>;
        c <| c_transport := TcpSimultaneousOpen |>]
  else [].

Definition gather_tcp_host_candidates : session unit :=
  s ← get;
  if negb (tcp_candidates_enabled (cfg s)) then skip else
  if negb (f_carrier_tcp (s_fixed s)) then skip else
  if decide (local_port (s_gather s) = 0) then skip else
  emit ELock ;;
  modify (λ s, s <| s_local_candidates :=
    s_local_candidates s ++ mbind tcp_variants (s_local_candidates s) |>) ;;
  emit EUnlock.

Section gather.
Context `{InetOps} `{Hmac} `{SessionEnv}.

Definition gather_host_candidates : session unit :=
  s ← get;
  (if f_carrier (s_fixed s) && negb (carrier_initialized (s_gather s))
   then set_gather (λ g, g <| local_port := env_listen_port |> <| carrier_initialized := true |>)
   else skip) ;;
  s ← get;
  if decide (local_port (s_gather s) = 0) then skip else
  if mdns_obfuscate_host_candidates (cfg s) && f_mdns (s_fixed s) then
    modify (λ s, s <| s_draws := S (s_draws s) |>) ;;
    let hostname := generate_uuid_v4 (env_uuid (s_draws s)) ++ str ".local" in
    set_gather (λ g, g <| mdns_local_hostname := hostname |>) ;;
    emit (EMdnsRegister hostname) ;;
    push_allowed Host (zero_candidate <| c_type := HostMdns |> <| c_family := IPv4 |>
      <| c_port := local_port (s_gather s) |> <| c_priority := compute_priority HostMdns 65535 1 |>
      <| c_hostname := hostname |>)
  else
    match env_ifaddrs with
    | None => skip
    | Some ifas =>
        for_each (push_allowed Host) (omap (host_candidate (local_port (s_gather s))) ifas) ;;
        gather_tcp_host_candidates
    end.

Definition gather_portmap : session unit :=
  s ← get;
  let flags := candidate_filter_flags (cfg s) in
  if negb (f_portmap (s_fixed s)) then skip else
  if decide (local_port (s_gather s) = 0) then skip else
  if decide (Z.land flags kCandidateFilterHostOnly ≠ 0) then skip else
  if decide (Z.land flags kCandidateFilterRelayOnly ≠ 0) then skip else
  if negb env_portmap_supported then skip else
  match env_portmap (local_port (s_gather s)) with
  | None => skip
  | Some mapping =>
      let ext_ip := mp_ext_ip mapping in
      if decide (mp_ext_port mapping = 0) then skip else
      if decide (ext_ip = []) then skip else
      let c := set_address ext_ip
        (zero_candidate <| c_type := Srflx |> <| c_port := mp_ext_port mapping |>) in
      if decide (c_family c ≠ IPv4 ∧ c_family c ≠ IPv6) then skip else
      if negb (candidate_allowed (c_type c) (c_family c) flags) then skip else
      push_local (c <| c_priority := compute_priority Srflx 65534 2 |>
        <| c_foundation := compute_foundation Srflx ext_ip (str "portmap") (c_transport c) |>) ;;
      set_gather (λ g, g <| portmap_mapping := Some mapping |>)
  end.

Definition release_portmap_mapping : session unit :=
  s ← get;
  if negb (f_portmap (s_fixed s)) then skip else
  match portmap_mapping (s_gather s) with
  | None => skip
  | Some m =>
      set_gather (λ g, g <| portmap_mapping := None |>) ;;
      emit (EPortmapRelease (mp_protocol m) (mp_int_port m))
  end.

Definition split_stun_host_port (server : bytes) : option (bytes * Z) :=
  if decide (server = []) then None else
  match find_char CH_COLON server with
  | None => Some (server, 3478)
  | Some _ =>
      match env_parse_uri (str "stun://" ++ server) with
      | None => None
      | Some (host, port) => if decide (host = [] ∨ port = 0) then None else Some (host, port)
      end
  end.

Definition on_gathering_complete : session unit :=
  set_gather (λ g, g <| pending_stun_probes := [] |>) ;;
  set_gens (λ g, g <| gather_gen := S (gather_gen g) |>) ;;
  s ← get;
  (if decide (s_state s = Gathering) then
     if decide (s_remote_candidates s ≠ []) then
       set_state Checking ;; build_check_list ;; begin_checks
     else set_state WaitingRemote
   else skip) ;;
  announce_gathered.

(** A detached timer that ends gathering. *)
Definition arm_gather_timer (ms : Z) : session unit :=
  s ← get;
  if negb (f_timer_ctx (s_fixed s)) then skip else
  let gen := S (gather_gen (s_gens s)) in
  set_gens (λ g, g <| gather_gen := gen |>) ;;
  emit (ETimer TmGather ms gen).

Definition on_gather_timer (gen : nat) : session unit :=
  s ← get;
  if decide (gather_gen (s_gens s) ≠ gen) then skip else
  set_gather (λ g, g <| pending_stun_probes := [] |>) ;;
  on_gathering_complete.

(** One server of the probe loops; [tcp] picks the carrier. *)
Definition stun_probe (tcp : bool) (server : bytes) : session unit :=
  match split_stun_host_port server with
  | None => skip
  | Some (host, port) =>
      cid ← (if tcp then ensure_remote_tcp_cid host port else ensure_remote_cid host port);
      if decide (cid = 0) then skip else
      txn ← generate_txn_id;
      let msg := build (new_builder STUN_BINDING_REQUEST txn) in
      set_gather (λ g, g <| pending_stun_probes := pending_stun_probes g ++ [txn] |>) ;;
      s ← get;
      if tcp then
        if f_carrier_tcp (s_fixed s) then emit (ESendTcp cid (frame_tcp_stun msg)) else skip
      else if f_carrier (s_fixed s) then emit (ESend cid msg) else skip
  end.

Definition start_multi_stun_probes : session unit :=
  set_gather (λ g, g <| pending_stun_probes := [] |>) ;;
  s ← get;
  for_each (stun_probe false) (stun_servers (cfg s)) ;;
  s ← get;
  if decide (pending_stun_probes (s_gather s) = []) then on_gathering_complete
  else arm_gather_timer (session_timeout_s (cfg s) * 1000).

Definition gather_tcp_server_reflexive : session unit :=
  s ← get;
  if negb (tcp_candidates_enabled (cfg s)) then skip else
  if negb (f_carrier_tcp (s_fixed s)) then skip else
  for_each (stun_probe true) (stun_servers (cfg s)).

(** The posted half of [gather] when there are STUN servers. *)
Definition on_stun_probes : session unit :=
  start_multi_stun_probes ;; gather_tcp_server_reflexive.

(** [std::find] and [erase] of one element. *)
Fixpoint erase_first (x : bytes) (l : list bytes) : list bytes :=
  match l with
  | [] => []
  | y :: l => if decide (y = x) then l else y :: erase_first x l
  end.

(** The server-reflexive candidate of a mapped address. *)
Definition srflx_candidate (mapped : MappedAddress) (src_transport : TransportType) : Candidate :=
  let c := zero_candidate <| c_type := Srflx |>
    <| c_priority := compute_priority Srflx 65535 1 |>
    <| c_transport := if transport_is_tcp src_transport then TcpActive else Udp |>
    <| c_port := ma_port mapped |> in
  match inet_pton4 (ma_ip mapped) with
  | Some a => c <| c_family := IPv4 |> <| c_addr := a ++ replicate 12 0 |>
  | None => c <| c_family := IPv6 |> <| c_addr := default (replicate 16 0) (inet_pton6 (ma_ip mapped)) |>
  end.

(** Symmetric-NAT detection: the first observed port, then the distance to a
    different one. *)
Definition observe_srflx_port (port : Z) (g : GatherState) : GatherState :=
  if negb (have_first_srflx_port g) then
    g <| first_observed_srflx_port := port |> <| have_first_srflx_port := true |>
  else if bool_decide (port ≠ first_observed_srflx_port g) && bool_decide (symmetric_stride g = 0) then
    let stride := u16 (Z.abs (port - first_observed_srflx_port g)) in
    if decide (stride > 0) then g <| symmetric_stride := stride |> else g
  else g.

Definition handle_gather_response (msg : StunMessage) (src_transport : TransportType) : session unit :=
  s ← get;
  if decide (txn_id msg ∉ pending_stun_probes (s_gather s)) then skip else
  match xor_mapped msg with
  | None => skip
  | Some mapped =>
      set_gather (λ g, g <| pending_stun_probes := erase_first (txn_id msg) (pending_stun_probes g) |>) ;;
      let c := srflx_candidate mapped src_transport in
      (if symmetric_port_prediction_enabled (cfg s)
       then set_gather (observe_srflx_port (c_port c)) else skip) ;;
      s ← get;
      (if negb (bool_decide (Exists (λ e, c_type e = Srflx
            ∧ transport_is_tcp (c_transport e) = transport_is_tcp (c_transport c))
            (s_local_candidates s)))
       then push_allowed (c_type c) c else skip) ;;
      s ← get;
      if stun_gathered (s_gather s) then skip else
      set_gens (λ g, g <| gather_gen := S (gather_gen g) |>) ;;
      set_gather (λ g, g <| stun_gathered := true |>) ;;
      if turn_gathering (s_gather s) then arm_gather_timer 500 else on_gathering_complete
  end.

(** * Relay candidates *)

(** The TURN client for a server: the dialled connection, [None] when there is none. *)
Definition build_turn_client (c : TurnConfig) (forwards : bool) : session (option TurnHandle) :=
  s ← get;
  let want_tls := tc_tls_transport c && f_carrier_tls (s_fixed s) in
  let want_tcp := negb want_tls && tc_tcp_transport c && f_carrier_tcp (s_fixed s) in
  let handle carrier cid := mkTurnHandle carrier cid forwards false false (mkMapped [] 0) in
  if want_tls || want_tcp then
    r ← dial (if want_tls then str "tls://" ++ endpoint_text (tc_server c) (tc_port c)
              else endpoint_uri_tcp (tc_server c) (tc_port c));
    mret (handle (if want_tls then CarrierTls else CarrierTcp) <$> r)
  else if negb (f_carrier (s_fixed s)) then mret None
  else
    cid ← ensure_remote_cid (tc_server c) (tc_port c);
    mret (if decide (cid = 0) then None else Some (handle CarrierUdp cid)).

(** Gathering ends with TURN when STUN is done or absent. *)
Definition relay_gathered : session unit :=
  set_gather (λ g, g <| turn_gathering := false |>) ;;
  s ← get;
  if stun_gathered (s_gather s) || bool_decide (stun_servers (cfg s) = []) then
    set_gens (λ g, g <| gather_gen := S (gather_gen g) |>) ;;
    on_gathering_complete
  else skip.

Definition next_attempt : session unit :=
  set_relay (λ r, r <| turn_attempt_idx := S (turn_attempt_idx r) |>).

Definition try_next_turn_attempt : session unit :=
  set_gens (λ g, g <| turn_allocate_gen := S (turn_allocate_gen g) |>) ;;
  s ← get;
  (if decide (s_turn s ≠ None) then emit ETurnClose ;; modify (λ s, s <| s_turn := None |>)
   else skip) ;;
  match r_turn_servers (s_relay s) !! turn_attempt_idx (s_relay s) with
  | None => relay_gathered
  | Some c =>
      if decide (tc_server c = []) then next_attempt ;; emit EPostTurnAttempt else
      let c := if prefer_turn_tcp (cfg s)
               then mkTurnConfig (tc_server c) (tc_port c) (tc_username c) (tc_password c) true
                      (tc_tls_transport c) (tc_requested_transport c)
               else c in
      client ← build_turn_client c true;
      match client with
      | None => next_attempt ;; emit EPostTurnAttempt
      | Some t =>
          modify (λ s, s <| s_turn := Some t |>) ;;
          emit (ETurnAllocate t c) ;;
          s ← get;
          if negb (f_timer_ctx (s_fixed s)) then skip else
          let timeout_s := if decide (0 < turn_allocate_timeout_s (cfg s))
                           then turn_allocate_timeout_s (cfg s) else 5 in
          let gen := S (turn_allocate_gen (s_gens s)) in
          set_gens (λ g, g <| turn_allocate_gen := gen |>) ;;
          emit (ETimer TmTurnAllocate (timeout_s * 1000) gen)
      end
  end.

Definition turn_is_allocated (s : IceSession) : bool :=
  match s_turn s with Some t => th_allocated t | None => false end.

Definition on_turn_allocate_timer (gen : nat) : session unit :=
  s ← get;
  if decide (turn_allocate_gen (s_gens s) ≠ gen) then skip else
  if turn_is_allocated s then skip else
  next_attempt ;; try_next_turn_attempt.

Definition gather_relay : session unit :=
  s ← get;
  if decide (Z.land (candidate_filter_flags (cfg s)) kCandidateFilterHostOnly ≠ 0) then skip else
  (if decide (r_turn_servers (s_relay s) = [] ∧ tc_server (r_turn (s_relay s)) ≠ [])
   then set_relay (λ r, r <| r_turn_servers := [r_turn r] |>) else skip) ;;
  s ← get;
  if decide (r_turn_servers (s_relay s) = []) then skip else
  set_gather (λ g, g <| turn_gathering := true |>) ;;
  set_relay (λ r, r <| turn_attempt_idx := 0%nat |>) ;;
  try_next_turn_attempt.

Definition gather : session unit :=
  set_state Gathering ;;
  gather_host_candidates ;;
  gather_portmap ;;
  gather_relay ;;
  s ← get;
  if decide (stun_servers (cfg s) = []) then
    if turn_gathering (s_gather s) then skip else on_gathering_complete
  else emit EPostStunProbes.

(** The relay candidate of a relayed address. *)
Definition relay_candidate (ip : bytes) (port : Z) : Candidate :=
  (set_address ip (zero_candidate <| c_type := Relay |> <| c_port := port |>))
    <| c_priority := compute_priority Relay 65535 1 |>.

Definition arm_backup_timer : session unit :=
  s ← get;
  if negb (f_timer_ctx (s_fixed s)) then skip else
  let gen := S (turn_backup_gen (s_gens s)) in
  set_gens (λ g, g <| turn_backup_gen := gen |>) ;;
  emit (ETimer TmTurnBackup (turn_backup_interval_s (cfg s) * 1000) gen).

Definition rebuild_and_check : session unit :=
  build_check_list ;;
  modify (λ s, s <| s_current_check := 0%nat |>) ;;
  run_next_check.

(** The posted half of the allocation callback of the primary client. *)
Definition on_turn_allocated (relay_ip : bytes) (relay_port : Z) : session unit :=
  let c := relay_candidate relay_ip relay_port in
  set_gens (λ g, g <| turn_allocate_gen := S (turn_allocate_gen g) |>) ;;
  s ← get;
  if negb (candidate_allowed (c_type c) (c_family c) (candidate_filter_flags (cfg s))) then skip else
  push_local c ;;
  (if decide (s_turn s ≠ None)
   then for_each (λ rc, emit (ETurnPermission (address_str rc))) (s_remote_candidates s)
   else skip) ;;
  set_relay (λ r, r <| turn_backups := drop (S (turn_attempt_idx r)) (r_turn_servers r) |>) ;;
  s ← get;
  (if bool_decide (turn_backups (s_relay s) ≠ []) && bool_decide (0 < turn_backup_interval_s (cfg s))
   then set_relay (λ r, r <| turn_backup_probe_idx := 0%nat |>) ;; arm_backup_timer
   else skip) ;;
  relay_gathered ;;
  s ← get;
  if bool_decide (s_remote_candidates s ≠ []) && bool_decide (s_state s = Checking) then
    rebuild_and_check ;;
    (* [controlling_] is read again after the check *)
    s ← get;
    if s_controlling s then skip else announce_gathered
  else skip.

Definition on_turn_backup_tick : session unit :=
  s ← get;
  let r := s_relay s in
  if bool_decide (turn_backups r = []) || bool_decide (turn_backup_interval_s (cfg s) ≤ 0) then skip else
  if decide (s_state s = Failed) then skip else
  (if decide (s_turn_backup_probe s ≠ None)
   then emit ETurnBackupClose ;; modify (λ s, s <| s_turn_backup_probe := None |>) else skip) ;;
  let idx := if decide (length (turn_backups r) ≤ turn_backup_probe_idx r)%nat then 0%nat
             else turn_backup_probe_idx r in
  match turn_backups r !! idx with
  | None => skip
  | Some probe_cfg =>
      set_relay (λ r, r <| turn_backup_probe_idx := S idx |>) ;;
      arm_backup_timer ;;
      client ← build_turn_client probe_cfg false;
      modify (λ s, s <| s_turn_backup_probe := client |>) ;;
      match client with
      | None => skip
      | Some t => emit (ETurnBackupAllocate t probe_cfg)
      end
  end.

Definition on_turn_backup_timer (gen : nat) : session unit :=
  s ← get;
  if decide (turn_backup_gen (s_gens s) ≠ gen) then skip else on_turn_backup_tick.

Definition promote_turn_backup (client : TurnHandle) (new_cfg : TurnConfig) : session unit :=
  s ← get;
  set_relay (λ r, r <| turn_last_failover := Some (s_now_us s) |>) ;;
  (if decide (s_turn s ≠ None) then emit ETurnClose else skip) ;;
  emit ELock ;;
  modify (λ s, s <| s_local_candidates := filter (λ c, c_type c ≠ Relay) (s_local_candidates s) |>) ;;
  emit EUnlock ;;
  modify (λ s, s <| s_turn := Some client |>) ;;
  emit ETurnPromote ;;
  set_relay (λ r, r <| r_turn := new_cfg |>) ;;
  push_allowed Relay (relay_candidate (ma_ip (th_relayed client)) (ma_port (th_relayed client))) ;;
  s ← get;
  if bool_decide (s_remote_candidates s ≠ []) && bool_decide (s_state s = Checking)
  then rebuild_and_check
  else if decide (s_state s = Connected) then set_state Checking ;; rebuild_and_check
  else skip.

(** The posted half of the allocation callback of a backup probe. *)
Definition on_backup_allocated (probe_cfg : TurnConfig) : session unit :=
  s ← get;
  match s_turn_backup_probe s with
  | None => skip
  | Some probe =>
      let primary_healthy := match s_turn s with Some t => th_healthy t | None => false end in
      let min_s := turn_failover_min_interval_s (cfg s) in
      let since_s := match turn_last_failover (s_relay s) with
                     | None => min_s
                     | Some t => (s_now_us s - t) / 1000000
                     end in
      modify (λ s, s <| s_turn_backup_probe := None |>) ;;
      if primary_healthy || bool_decide (since_s < min_s) then emit ETurnBackupClose
      else promote_turn_backup probe probe_cfg
  end.
End gather.
