(* ===== verification/Session.v ===== *)
(** The session's life (src/session.cpp): remote candidates and trickle, inbound
    packets, check responses and nomination, consent keepalives, path MTU probes,
    restart and close. *)

From stdpp Require Import gmap.
From S2P Require Import Prelude Bytes Inet Candidate MdnsCodec Mdns Framing Stun Turn PathMtu.
From S2P Require Import SessionState Delivery CheckList Gather.

Definition local_signal_flags (s : IceSession) : Z :=
  Z.lor (if lite_mode (cfg s) then ICE_SIGNAL_FLAG_LITE else 0)
        (if decide (symmetric_stride (s_gather s) ≠ 0) then ICE_SIGNAL_FLAG_SYMMETRIC else 0).

(** The valid pair of highest priority, the first of them, by index. *)
Fixpoint best_valid (l : list CheckPair) (i : nat) (best : option (nat * Z)) : option (nat * Z) :=
  match l with
  | [] => best
  | p :: l =>
      best_valid l (S i)
        (if cp_valid p then
           match best with
           | Some (_, prio) => if decide (cp_priority p > prio) then Some (i, cp_priority p) else best
           | None => Some (i, cp_priority p)
           end
         else best)
  end.

Section session.
Context `{InetOps} `{Hmac} `{SessionEnv}.

(** * Restart and close *)

Definition bump_all_gens (g : Gens) : Gens :=
  g <| check_gen := S (check_gen g) |> <| keepalive_gen := S (keepalive_gen g) |>
    <| gather_gen := S (gather_gen g) |> <| turn_allocate_gen := S (turn_allocate_gen g) |>
    <| turn_backup_gen := S (turn_backup_gen g) |>
    <| nomination_wait_gen := S (nomination_wait_gen g) |>.

(** [TurnClient::close] as the session sees it. *)
Definition closed_handle (t : TurnHandle) : TurnHandle :=
  t <| th_allocated := false |> <| th_healthy := false |>.

Definition close_turn_clients : session unit :=
  s ← get;
  (if decide (s_turn s ≠ None) then emit ETurnClose else skip) ;;
  (if decide (s_turn_backup_probe s ≠ None) then emit ETurnBackupClose else skip) ;;
  modify (λ s, s <| s_turn := closed_handle <$> s_turn s |>
                 <| s_turn_backup_probe := closed_handle <$> s_turn_backup_probe s |>).

Definition unregister_mdns : session unit :=
  s ← get;
  if f_mdns (s_fixed s) && negb (bool_decide (mdns_local_hostname (s_gather s) = [])) then
    emit (EMdnsUnregister (mdns_local_hostname (s_gather s))) ;;
    set_gather (λ g, g <| mdns_local_hostname := [] |>)
  else skip.

Definition restart : session unit :=
  s ← get;
  if decide (s_state s = Failed) then skip else
  set_gens bump_all_gens ;;
  modify (λ s, s <| s_nomination_wait_armed := false |>) ;;
  close_turn_clients ;;
  modify (λ s, s <| s_turn := None |> <| s_turn_backup_probe := None |>) ;;
  set_relay (λ r, r <| turn_backups := [] |> <| turn_attempt_idx := 0%nat |>
                    <| turn_backup_probe_idx := 0%nat |> <| turn_last_failover := None |>) ;;
  emit ELock ;;
  ufrag ← generate_ufrag;
  pwd ← generate_pwd;
  modify (λ s, s <| s_creds := mkCreds ufrag pwd [] [] |> <| s_local_candidates := [] |>) ;;
  emit EUnlock ;;
  unregister_mdns ;;
  modify (λ s, s <| s_remote_candidates := [] |> <| s_check_list := [] |>
    <| s_current_check := 0%nat |> <| s_nominee_selected := false |>
    <| s_remote_end_of_candidates := false |> <| s_peer_signal_flags := 0 |>) ;;
  set_consent (λ c, c <| consent_missed := 0 |> <| consent_recovery_attempts := 0 |>) ;;
  set_gather (λ g, g <| pending_stun_probes := [] |> <| gathered_signal_fired := false |>
    <| stun_gathered := false |> <| turn_gathering := false |> <| symmetric_stride := 0 |>
    <| first_observed_srflx_port := 0 |> <| have_first_srflx_port := false |>) ;;
  set_nom (λ n, n <| nominated_cid := 0 |> <| nominated_ip := [] |> <| nominated_port := 0 |>
                  <| uses_relay := false |>) ;;
  tear_down_cids ;;
  set_gather (λ g, g <| carrier_initialized := false |> <| local_port := 0 |>) ;;
  set_state New ;;
  gather.

Definition close : session unit :=
  set_state Failed ;;
  set_gens bump_all_gens ;;
  modify (λ s, s <| s_nomination_wait_armed := false |>) ;;
  close_turn_clients ;;
  unregister_mdns ;;
  release_portmap_mapping ;;
  tear_down_cids ;;
  set_nom (λ n, n <| nominated_cid := 0 |>).

(** The destructor: like [close], on the calling thread, and the tables die with the
    object. *)
Definition destroy : session unit :=
  set_state Failed ;;
  set_gens (λ g, bump_all_gens g <| pmtu_probe_gen := S (pmtu_probe_gen g) |>) ;;
  close_turn_clients ;;
  unregister_mdns ;;
  release_portmap_mapping ;;
  s ← get;
  (if f_carrier (s_fixed s)
   then for_each (λ x, emit (EDisconnect (x.1))) (map_to_list (cid_to_endpoint_udp (s_eps s)))
   else skip) ;;
  if f_carrier_tcp (s_fixed s)
  then for_each (λ x, emit (EDisconnectTcp (x.1))) (map_to_list (cid_to_endpoint_tcp (s_eps s)))
  else skip.

(** * Consent and path MTU *)

(** The body of [notify_consent_loss_for_test]; the clock is in microseconds. *)
Definition notify_consent_loss : session bool :=
  s ← get;
  let c := s_consent s in
  if auto_restart_on_consent_loss (cfg s)
     && bool_decide (auto_restart_attempts c < u32 (auto_restart_max_attempts (cfg s))) then
    let backed_off := match auto_restart_last c with
                      | None => true
                      | Some t => bool_decide (auto_restart_backoff_ms (cfg s) * 1000 ≤ s_now_us s - t)
                      end in
    if backed_off then
      set_consent (λ c, c <| auto_restart_attempts := u32 (auto_restart_attempts c + 1) |>
        <| auto_restart_last := Some (s_now_us s) |> <| consent_missed := 0 |>) ;;
      emit (EAutoRestart (u32 (auto_restart_attempts c + 1))
              (u32 (auto_restart_max_attempts (cfg s)))) ;;
      restart ;;
      mret true
    else set_consent (λ c, c <| consent_missed := 0 |>) ;; mret true
  else fail_session ;; mret false.

(** The keepalive request: a bare Binding request. *)
Definition keepalive_request (txn : bytes) : bytes := build (new_builder STUN_BINDING_REQUEST txn).

Definition on_keepalive : session unit :=
  s ← get;
  if decide (s_state s ≠ Connected) then skip else
  if lite_mode (cfg s) then skip else
  let missed := u32 (consent_missed (s_consent s) + 1) in
  set_consent (λ c, c <| consent_missed := missed |>) ;;
  if decide (u32 (consent_max_failures (cfg s)) ≤ missed) then
    if decide (consent_recovery_attempts (s_consent s) < u32 (consent_max_recovery (cfg s))) then
      set_consent (λ c, c <| consent_recovery_attempts := u32 (consent_recovery_attempts c + 1) |>
                          <| consent_missed := 0 |>) ;;
      set_state Checking ;;
      build_check_list ;;
      begin_checks
    else notify_consent_loss ;; skip
  else
    (if decide (nominated_cid (s_nom s) = 0) then skip else
     txn ← generate_txn_id;
     let msg := keepalive_request txn in
     if transport_is_tcp (nominated_transport (s_nom s)) then
       if f_carrier_tcp (s_fixed s)
       then emit (ESendTcp (nominated_cid (s_nom s)) (frame_tcp_stun msg)) else skip
     else if f_carrier (s_fixed s) then emit (ESend (nominated_cid (s_nom s)) msg) else skip) ;;
    if f_timer_ctx (s_fixed s) then
      s ← get;
      let gen := S (keepalive_gen (s_gens s)) in
      set_gens (λ g, g <| keepalive_gen := gen |>) ;;
      emit (ETimer TmKeepalive (keepalive_interval_s (cfg s) * 1000) gen)
    else skip.

Definition start_keepalive : session unit := on_keepalive.

Definition on_keepalive_timer (gen : nat) : session unit :=
  s ← get;
  if decide (keepalive_gen (s_gens s) ≠ gen) then skip else on_keepalive.

(** The probe request for a target size. *)
Definition pmtu_request (s : IceSession) (txn : bytes) (target : Z) : bytes :=
  let b := add_priority 0
    (add_username (remote_ufrag (s_creds s) ++ str ":" ++ local_ufrag (s_creds s))
       (new_builder STUN_BINDING_REQUEST txn)) in
  let b := if s_controlling s then add_ice_controlling (f_tiebreaker (s_fixed s)) b
           else add_ice_controlled (f_tiebreaker (s_fixed s)) b in
  build (add_fingerprint (add_integrity (remote_pwd (s_creds s))
    (add_padding_to (Z.to_nat target) b))).

Definition start_path_mtu_probe : session unit :=
  s ← get;
  match pmtu_probe (s_pmtu s) with
  | None => skip
  | Some probe =>
      if decide (s_state s ≠ Connected) then skip else
      if pmtu_inflight (s_pmtu s) then skip else
      match next_probe_size probe with
      | None => set_pmtu (λ p, p <| effective_mtu_ := u32 (effective_ probe) |>)
      | Some next =>
          let cid := nominated_cid (s_nom s) in
          if bool_decide (cid = 0) || negb (f_carrier (s_fixed s)) then skip else
          txn ← generate_txn_id;
          set_pmtu (λ p, p <| pmtu_inflight_txn := txn |> <| pmtu_inflight := true |>) ;;
          emit (ESend cid (pmtu_request s txn next)) ;;
          if f_timer_ctx (s_fixed s) then
            let gen := S (pmtu_probe_gen (s_gens s)) in
            set_gens (λ g, g <| pmtu_probe_gen := gen |>) ;;
            emit (ETimer TmPmtu (pmtu_probe_timeout_ms (cfg s)) gen)
          else skip
      end
  end.

(** After an outcome: publish the MTU, and probe on unless the search is complete. *)
Definition pmtu_outcome (f : PathMtuProbe → PathMtuProbe) (probe : PathMtuProbe) : session unit :=
  let probe := f probe in
  set_pmtu (λ p, p <| pmtu_probe := Some probe |> <| effective_mtu_ := u32 (effective_ probe) |>) ;;
  if is_complete probe then skip else start_path_mtu_probe.

Definition on_path_mtu_probe_timeout : session unit :=
  s ← get;
  match pmtu_probe (s_pmtu s) with
  | Some probe =>
      if negb (pmtu_inflight (s_pmtu s)) then skip else
      set_pmtu (λ p, p <| pmtu_inflight := false |>) ;;
      pmtu_outcome on_probe_loss probe
  | None => skip
  end.

Definition on_pmtu_timer (gen : nat) : session unit :=
  s ← get;
  if decide (pmtu_probe_gen (s_gens s) ≠ gen) then skip else on_path_mtu_probe_timeout.

(** * Nomination *)

Definition on_nominated (ip : bytes) (port : Z) (relay : bool) (cid : Z) (transport : TransportType)
    : session unit :=
  set_gens (λ g, g <| check_gen := S (check_gen g) |>
                   <| nomination_wait_gen := S (nomination_wait_gen g) |>) ;;
  modify (λ s, s <| s_nomination_wait_armed := false |>) ;;
  set_state Connected ;;
  set_consent (λ _, mkConsent 0 0 0 None) ;;
  set_nom (λ n, mkNominated ip port relay (nominated_local_type n) (nominated_remote_type n) cid
                  transport) ;;
  s ← get;
  (if relay && bool_decide (s_turn s ≠ None) then emit (ETurnBind ip port) else skip) ;;
  flush_pending_app_data ;;
  emit (EConnected ip port) ;;
  start_keepalive ;;
  s ← get;
  if pmtu_active_probing (cfg s) && bool_decide (pmtu_probe (s_pmtu s) = None) then
    set_pmtu (λ p, p <| pmtu_probe := Some (new_probe (path_mtu (cfg s)) (pmtu_search_steps (cfg s))) |>) ;;
    start_path_mtu_probe
  else skip.

(** Select the best valid pair and send its nominating check. *)
Definition nominate_best : session unit :=
  s ← get;
  match best_valid (s_check_list s) 0 None with
  | None => skip
  | Some (i, _) =>
      modify (λ s, s <| s_nominee_selected := true |>) ;;
      set_pair i (λ p, p <| cp_nominee_check_sent := true |>) ;;
      send_check i
  end.

(** The index of the first pair with a transaction id. *)
Definition find_txn (txn : bytes) (l : list CheckPair) : option (nat * CheckPair) :=
  list_find (λ p, cp_txn_id p = txn) l.

(** The round-trip estimate after an answer to [p]. *)
Definition rtt_sample (s : IceSession) (p : CheckPair) : Z :=
  if decide (cp_txn_send_us p = 0) then s_rtt_ewma_us s else
  let sample := u64 (s_now_us s - cp_txn_send_us p) in
  if decide (s_rtt_ewma_us s = 0) then sample else u64 (s_rtt_ewma_us s * 7 + sample) / 8.

(** A peer-reflexive local candidate, when the mapped address is a new one. *)
Definition learn_prflx (msg : StunMessage) (p : CheckPair) : session unit :=
  match xor_mapped msg with
  | None => skip
  | Some mapped =>
      if decide (ma_ip mapped ≠ address_str (cp_local p) ∨ ma_port mapped ≠ c_port (cp_local p)) then
        push_local ((set_address (ma_ip mapped) (zero_candidate <| c_type := Prflx |>))
          <| c_port := ma_port mapped |> <| c_priority := compute_priority Prflx 65535 1 |>)
      else skip
  end.

(** The controlling side after a check succeeded. *)
Definition controlling_success (p : CheckPair) : session unit :=
  s ← get;
  let ip := address_str (cp_remote p) in
  let port := c_port (cp_remote p) in
  if aggressive_nomination (cfg s) || cp_nominee_check_sent p then
    let nom_relay := bool_decide (c_type (cp_local p) = Relay)
                     || bool_decide (c_type (cp_remote p) = Relay) in
    let nom_via_turn := bool_decide (c_type (cp_local p) = Relay)
                        && bool_decide (cp_transport_type p = Udp) && turn_is_allocated s in
    cid ← (if transport_is_tcp (cp_transport_type p) then ensure_remote_tcp_cid ip port
           else if nom_via_turn then relay_cid_for_endpoint ip port
           else ensure_remote_cid ip port);
    on_nominated ip port nom_relay cid (cp_transport_type p)
  else if negb (s_nominee_selected s) && negb (cp_valid p) then nominate_best
  else skip.

Definition handle_check_response (msg : StunMessage) : session unit :=
  s ← get;
  if decide (s_state s ≠ Checking) then skip else
  match find_txn (txn_id msg) (s_check_list s) with
  | None => skip
  | Some (i, p) =>
      modify (λ s, s <| s_rtt_ewma_us := rtt_sample s p |>) ;;
      set_nom (λ n, n <| nominated_local_type := c_type (cp_local p) |>
                      <| nominated_remote_type := c_type (cp_remote p) |>) ;;
      learn_prflx msg p ;;
      set_pair i (λ p, p <| cp_valid := true |> <| cp_state := PSucceeded |>) ;;
      set_check_list
        (unfreeze_siblings (c_foundation (cp_local p)) (c_foundation (cp_remote p))) ;;
      s ← get;
      if negb (s_controlling s) && cp_pending_nomination p then
        set_pair i (λ p, p <| cp_pending_nomination := false |>) ;;
        let n := s_pending_nom s in
        on_nominated (pending_nom_ip n) (pending_nom_port n) (pending_nom_relay n)
          (pending_nom_cid n) (pending_nom_tx n)
      else if s_controlling s then controlling_success p
      else skip
  end.

(** * Binding requests *)

(** Send an answer where the request came from. *)
Definition answer (cid : Z) (from_tcp : bool) (resp : bytes) : session unit :=
  s ← get;
  if from_tcp then
    if f_carrier_tcp (s_fixed s) then emit (ESendTcp cid (frame_tcp_stun resp)) else skip
  else if bool_decide (s_turn s ≠ None) && bool_decide (cid ∈ relay_cids (s_eps s)) then
    match cid_to_endpoint_udp (s_eps s) !! cid with
    | Some ep => if decide (ep_ip ep = []) then skip else emit (ETurnSend (ep_ip ep) (ep_port ep) resp)
    | None => skip
    end
  else if f_carrier (s_fixed s) then emit (ESend cid resp) else skip.

Definition maybe_trigger_check_from_peer (peer_ip : bytes) (peer_port : Z) : session unit :=
  s ← get;
  if bool_decide (peer_ip = []) || bool_decide (s_local_candidates s = []) then skip else
  if lite_mode (cfg s) then skip else
  if bool_decide (Exists (λ p, address_str (cp_remote p) = peer_ip ∧ c_port (cp_remote p) = peer_port)
       (s_check_list s)) then skip else
  let remote := (set_address peer_ip zero_candidate) <| c_port := peer_port |>
    <| c_type := Prflx |> <| c_priority := compute_priority Prflx 65535 1 |> in
  match list_find (λ l, c_family l = c_family remote) (s_local_candidates s) with
  | None => skip
  | Some (_, local) =>
      txn ← generate_txn_id;
      let local' := with_foundation local in
      let remote' := with_foundation remote in
      let pending := negb (s_controlling s)
        && negb (bool_decide (pending_nom_ip (s_pending_nom s) = []))
        && bool_decide (address_str remote' = pending_nom_ip (s_pending_nom s))
        && bool_decide (c_port remote' = pending_nom_port (s_pending_nom s)) in
      push_pair (mkPair local' remote'
        (pair_priority (c_priority local') (c_priority remote') (s_controlling s)) 0 PInProgress
        false false true pending txn 0 Udp) ;;
      if decide (s_state s = Checking ∨ s_state s = Connected)
      then send_check (length (s_check_list s)) else skip
  end.

(** USE-CANDIDATE on the controlled side. *)
Definition on_use_candidate (cid : Z) (from_tcp : bool) (peer_ip : bytes) (peer_port : Z)
    : session unit :=
  s ← get;
  let nom_tx := if from_tcp then TcpActive else Udp in
  let nom_relay := negb from_tcp && bool_decide (cid ∈ relay_cids (s_eps s)) in
  let nom_pair := list_find (λ p, address_str (cp_remote p) = peer_ip
      ∧ c_port (cp_remote p) = peer_port ∧ cp_transport_type p = nom_tx) (s_check_list s) in
  let defer := modify (λ s, s <| s_pending_nom :=
    mkPendingNom peer_ip peer_port nom_relay cid nom_tx |>) ;; run_next_check in
  match nom_pair with
  | Some (i, p) =>
      if decide (cp_state p = PSucceeded) then on_nominated peer_ip peer_port nom_relay cid nom_tx
      else
        (if decide (cp_state p = PFrozen) then set_pair i (set_cp_state PWaiting) else skip) ;;
        set_pair i (λ p, p <| cp_pending_nomination := true |>) ;;
        defer
  | None => defer
  end.

Definition binding_answer (type : Z) (txn : bytes) (attrs : StunBuilder → StunBuilder) (pwd : bytes)
    : bytes :=
  build (add_fingerprint (add_integrity pwd (attrs (new_builder type txn)))).

(** [handle_binding_request] once the roles are settled: the success answer, the
    peer's nomination and a triggered check. *)
Definition accept_request (parsed : StunMessage) (cid : Z) (from_tcp : bool) : session unit :=
  s ← get;
  answer cid from_tcp
    (binding_answer STUN_BINDING_RESPONSE (txn_id parsed) id (local_pwd (s_creds s))) ;;
  s ← get;
  let ep := (if from_tcp then cid_to_endpoint_tcp (s_eps s) else cid_to_endpoint_udp (s_eps s)) !! cid in
  let peer_ip := match ep with Some e => ep_ip e | None => [] end in
  let peer_port := match ep with Some e => ep_port e | None => 0 end in
  (if use_candidate parsed && negb (s_controlling s) && negb (bool_decide (peer_ip = []))
   then on_use_candidate cid from_tcp peer_ip peer_port else skip) ;;
  maybe_trigger_check_from_peer peer_ip peer_port.

Definition handle_binding_request (parsed : StunMessage) (cid : Z) (from_tcp : bool) : session unit :=
  s ← get;
  let sender_controlling := bool_decide (is_Some (ice_controlling parsed)) in
  let sender_controlled := bool_decide (is_Some (ice_controlled parsed)) in
  let sender_tb := default (default 0 (ice_controlled parsed)) (ice_controlling parsed) in
  let same_role := (sender_controlling && s_controlling s)
                   || (sender_controlled && negb (s_controlling s)) in
  if same_role then
    we_switched ← handle_role_conflict sender_controlling sender_tb;
    if we_switched : bool then accept_request parsed cid from_tcp else
    answer cid from_tcp (binding_answer STUN_BINDING_ERROR (txn_id parsed)
      (add_error_code 487 kStunErrorReasonRoleConflict) (local_pwd (s_creds s)))
  else accept_request parsed cid from_tcp.

(** * Inbound packets *)

(** [verify_integrity]; an access outside the packet reads as a mismatch. *)
Definition integrity_ok (data key : bytes) : bool := default false (verify_integrity data key).

(** A Binding error response that verified. *)
Definition on_binding_error (parsed : StunMessage) : session unit :=
  if decide (error_code parsed = Some 487) then
    modify (λ s, s <| s_controlling := negb (s_controlling s) |>) ;;
    rebuild_if_checking
  else
    s ← get;
    match find_txn (txn_id parsed) (s_check_list s) with
    | None => skip
    | Some (i, p) =>
        set_pair i (set_cp_state PFailed) ;;
        set_check_list
          (unfreeze_siblings (c_foundation (cp_local p)) (c_foundation (cp_remote p)))
    end.

(** A Binding success response that verified; [st] is the state on arrival. *)
Definition on_binding_response (st : SessionState) (parsed : StunMessage) : session unit :=
  s ← get;
  if pmtu_inflight (s_pmtu s) && bool_decide (txn_id parsed = pmtu_inflight_txn (s_pmtu s)) then
    set_pmtu (λ p, p <| pmtu_inflight := false |>) ;;
    set_gens (λ g, g <| pmtu_probe_gen := S (pmtu_probe_gen g) |>) ;;
    match pmtu_probe (s_pmtu s) with
    | Some probe => pmtu_outcome on_probe_ack probe
    | None => skip
    end ;;
    set_consent (λ c, c <| consent_missed := 0 |>)
  else if decide (st = Connected) then set_consent (λ c, c <| consent_missed := 0 |>)
  else handle_check_response parsed.

Definition on_stun (cid : Z) (data : bytes) (from_tcp : bool) (parsed : StunMessage) : session unit :=
  s ← get;
  if bool_decide (msg_type parsed = STUN_BINDING_RESPONSE)
     && bool_decide (txn_id parsed ∈ pending_stun_probes (s_gather s)) then
    handle_gather_response parsed
      (match (if from_tcp then cid_to_endpoint_tcp (s_eps s) else cid_to_endpoint_udp (s_eps s)) !! cid with
       | Some e => ep_transport e
       | None => Udp
       end)
  else
    let is_response := bool_decide (msg_type parsed = STUN_BINDING_RESPONSE)
                       || bool_decide (msg_type parsed = STUN_BINDING_ERROR) in
    let key := if is_response then remote_pwd (s_creds s) else local_pwd (s_creds s) in
    if negb (has_integrity parsed) || negb (integrity_ok data key) then skip else
    if decide (msg_type parsed = STUN_BINDING_ERROR) then on_binding_error parsed else
    if decide (msg_type parsed = STUN_BINDING_RESPONSE) then on_binding_response (s_state s) parsed else
    if decide (msg_type parsed = STUN_BINDING_REQUEST) then handle_binding_request parsed cid from_tcp
    else skip.

(** The client a connection belongs to. *)
Definition is_server_cid (t : option TurnHandle) (cid : Z) : bool :=
  match t with
  | Some t => negb (bool_decide (th_server_cid t = 0)) && bool_decide (cid = th_server_cid t)
  | None => false
  end.

Definition on_carrier_data (cid : Z) (data : bytes) (from_tcp : bool) : session unit :=
  touch ;;
  s ← get;
  if is_server_cid (s_turn s) cid then emit (ETurnInbound data) else
  if is_server_cid (s_turn_backup_probe s) cid then emit (ETurnBackupInbound data) else
  match parsed_stun data with
  | Some parsed => on_stun cid data from_tcp parsed
  | None =>
      if decide (s_state s = Connected) then
        if ordered_delivery (cfg s) && negb from_tcp then deliver_in_order data
        else emit (EData data)
      else skip
  end.

(** [while (buf.size() >= 2)]: one iteration per whole frame; [fuel] frames at most. *)
Fixpoint tcp_frames (fuel : nat) (cid : Z) : session unit :=
  match fuel with
  | O => skip
  | S fuel =>
      s ← get;
      match try_take_stream_frame (default [] (tcp_rx_buffers (s_eps s) !! cid)) with
      | None => skip
      | Some (frame, rest) =>
          set_eps (λ e, e <| tcp_rx_buffers := <[cid := rest]> (tcp_rx_buffers e) |>) ;;
          on_carrier_data cid frame true ;;
          tcp_frames fuel cid
      end
  end.

Definition on_tcp_carrier_data (cid : Z) (data : bytes) : session unit :=
  set_eps (λ e, e <| tcp_connect_timers := tcp_connect_timers e ∖ {[cid]} |>
    <| tcp_rx_buffers := <[cid := default [] (tcp_rx_buffers e !! cid) ++ data]> (tcp_rx_buffers e) |>) ;;
  s ← get;
  tcp_frames (length (default [] (tcp_rx_buffers (s_eps s) !! cid))) cid.

(** One pair of the loop of [on_tcp_connect_timeout]. *)
Definition fail_tcp_pair (ep : EndpointInfo) (i : nat) : session unit :=
  s ← get;
  match s_check_list s !! i with
  | None => skip
  | Some p =>
      if bool_decide (cp_state p = PInProgress) && transport_is_tcp (cp_transport_type p)
         && bool_decide (address_str (cp_remote p) = ep_ip ep)
         && bool_decide (c_port (cp_remote p) = ep_port ep) then
        set_pair i (set_cp_state PFailed) ;;
        set_check_list
          (unfreeze_siblings (c_foundation (cp_local p)) (c_foundation (cp_remote p)))
      else skip
  end.

Definition on_tcp_connect_timeout (cid : Z) : session unit :=
  set_eps (λ e, e <| tcp_connect_timers := tcp_connect_timers e ∖ {[cid]} |>) ;;
  s ← get;
  match cid_to_endpoint_tcp (s_eps s) !! cid with
  | None => skip
  | Some ep =>
      if negb (transport_is_tcp (ep_transport ep)) then skip else
      (if f_carrier_tcp (s_fixed s) then emit (EDisconnectTcp cid) else skip) ;;
      set_eps (λ e, e <| cid_to_endpoint_tcp := delete cid (cid_to_endpoint_tcp e) |>
                      <| tcp_rx_buffers := delete cid (tcp_rx_buffers e) |>) ;;
      for_each (fail_tcp_pair ep) (seq 0 (length (s_check_list s)))
  end.

(** Relayed data: STUN goes through the packet handler, posted to the strand, under the
    relay's id. *)
Definition is_stun_header (data : bytes) : bool :=
  bool_decide (20 ≤ length data)%nat
  && match data !! 0%nat with Some b => bool_decide (Z.land b 0xC0 = 0) | None => false end
  && bool_decide (slice data 4 4 = [0x21; 0x12; 0xA4; 0x42]).

Definition on_turn_data (ip : bytes) (port : Z) (data : bytes) : session unit :=
  touch ;;
  s ← get;
  if is_stun_header data then emit (EPostRelayed ip port data)
  else if ordered_delivery (cfg s) then deliver_in_order data
  else emit (EData data).

Definition on_relayed (ip : bytes) (port : Z) (data : bytes) : session unit :=
  cid ← relay_cid_for_endpoint ip port;
  on_carrier_data cid data false.

(** * Remote candidates *)

(** One-shot queries for the unresolved mDNS candidates, by position. *)
Definition resolve_remote_mdns_candidates : session unit :=
  s ← get;
  if negb (f_mdns (s_fixed s)) then skip else
  let timeout := if decide (0 < mdns_resolve_timeout_ms (cfg s))
                 then mdns_resolve_timeout_ms (cfg s) else 5000 in
  for_each (λ x, emit (EMdnsResolve (x.1) (c_hostname (x.2)) timeout))
    (filter (λ x, c_type (x.2) = HostMdns ∧ c_hostname (x.2) ≠ []
                  ∧ is_mdns_local_name (c_hostname (x.2)) = true)
       (imap pair (s_remote_candidates s))).

(** The candidates a resolution yields: the slot rewritten and the extra addresses. *)
Definition resolved_slot (slot : Candidate) (ip : bytes) : Candidate :=
  (set_address ip (slot <| c_type := Host |> <| c_hostname := [] |>))
    <| c_priority := compute_priority Host 65535 1 |>.
Definition extra_candidate (port : Z) (ip : bytes) : Candidate :=
  set_address ip (zero_candidate <| c_type := Host |> <| c_port := port |>
    <| c_priority := compute_priority Host 65535 1 |>).

(** [append_extra] for the further addresses.  Its port is read from [slot], a reference
    into the vector it appends to: once a [push_back] has moved the vector, the reference
    dangles and what is read is whatever is there. *)
Fixpoint append_extras (moved : bool) (port : Z) (ips : list bytes) : session unit :=
  match ips with
  | [] => skip
  | ip :: ips =>
      s ← get;
      let n := length (s_remote_candidates s) in
      (if moved then emit EStaleRead else skip) ;;
      modify (λ s, s <| s_remote_candidates := s_remote_candidates s
        ++ [extra_candidate (if moved then env_stale_port (s_now_us s) n else port) ip] |>) ;;
      append_extras (moved || env_moves (s_now_us s) n) port ips
  end.

Definition on_mdns_resolved (idx : nat) (hostname : bytes) (r : MdnsResolveResult) : session unit :=
  s ← get;
  if decide (s_state s = Failed) then skip else
  match s_remote_candidates s !! idx with
  | None => skip
  | Some slot =>
      if decide (c_type slot ≠ HostMdns ∨ c_hostname slot ≠ hostname) then skip else
      if negb (rr_resolved r) || (bool_decide (rr_ipv4 r = []) && bool_decide (rr_ipv6 r = [])) then
        modify (λ s, s <| s_remote_candidates :=
          <[idx := slot <| c_hostname := [] |> <| c_type := Host |>]> (s_remote_candidates s) |>)
      else
        let first_ipv4 := default [] (head (rr_ipv4 r)) in
        let first_ipv6 := default [] (head (rr_ipv6 r)) in
        let no_ipv4 := bool_decide (first_ipv4 = []) in
        let extra := tail (rr_ipv4 r) ++ (if no_ipv4 then tail (rr_ipv6 r) else rr_ipv6 r) in
        modify (λ s, s <| s_remote_candidates :=
          <[idx := resolved_slot slot (if no_ipv4 then first_ipv6 else first_ipv4)]>
            (s_remote_candidates s) |>) ;;
        append_extras false (c_port slot) extra ;;
        s ← get;
        if decide (s_state s = WaitingRemote ∨ s_state s = Gathering) then
          if decide (s_local_candidates s = []) then skip else
          set_state Checking ;; build_check_list ;; begin_checks
        else if decide (s_state s = Checking) then rebuild_and_check
        else skip
  end.

Definition set_remote (ufrag pwd : bytes) (candidates : list Candidate) : session unit :=
  modify (λ s, s <| s_creds := (s_creds s) <| remote_ufrag := ufrag |> <| remote_pwd := pwd |> |>
                 <| s_remote_candidates := candidates |>) ;;
  touch ;;
  s ← get;
  (if bool_decide (s_state s = WaitingRemote ∨ s_state s = Gathering)
      && negb (bool_decide (s_local_candidates s = []))
   then set_state Checking ;; build_check_list ;; begin_checks else skip) ;;
  resolve_remote_mdns_candidates.

(** A candidate not yet known: same address, port, type and transport. *)
Definition same_candidate (c e : Candidate) : Prop :=
  address_str e = address_str c ∧ c_port e = c_port c ∧ c_type e = c_type c
  ∧ c_transport e = c_transport c.
#[global] Instance same_candidate_dec c e : Decision (same_candidate c e).
Proof. unfold same_candidate. apply _. Defined.

Definition add_one_remote (c : Candidate) : session unit :=
  s ← get;
  if decide (Exists (same_candidate c) (s_remote_candidates s)) then skip else
  (if turn_is_allocated s then emit (ETurnPermission (address_str c)) else skip) ;;
  modify (λ s, s <| s_remote_candidates := s_remote_candidates s ++ [c] |>).

Definition add_remote_candidates (ufrag pwd : bytes) (cands : list Candidate) (eoc : bool)
    : session unit :=
  s ← get;
  (if bool_decide (remote_ufrag (s_creds s) ≠ []) && bool_decide (remote_ufrag (s_creds s) ≠ ufrag)
   then modify (λ s, s <| s_remote_candidates := [] |> <| s_check_list := [] |>
                       <| s_current_check := 0%nat |>)
   else skip) ;;
  modify (λ s, s <| s_creds := (s_creds s) <| remote_ufrag := ufrag |> <| remote_pwd := pwd |> |>) ;;
  (if eoc then
     modify (λ s, s <| s_remote_end_of_candidates := true |>) ;;
     s ← get;
     if s_controlling s && negb (aggressive_nomination (cfg s)) && negb (s_nominee_selected s)
     then nominate_best else skip
   else skip) ;;
  for_each add_one_remote cands ;;
  s ← get;
  if decide (s_remote_candidates s = []) then skip else
  if decide (s_state s = WaitingRemote ∨ s_state s = Gathering) then
    if decide (s_local_candidates s = []) then skip else
    (if s_controlling s then skip
     else set_gather (λ g, g <| gathered_signal_fired := true |>) ;; announce_gathered) ;;
    set_state Checking ;;
    build_check_list ;;
    begin_checks
  else
    (if decide (s_state s = Checking) then rebuild_and_check else skip) ;;
    resolve_remote_mdns_candidates.

Definition set_peer_signal_flags (flags : Z) : session unit :=
  s ← get;
  modify (λ s, s <| s_peer_signal_flags := flags |>) ;;
  if bool_decide (Z.land (Z.lxor (s_peer_signal_flags s) flags) ICE_SIGNAL_FLAG_SYMMETRIC ≠ 0)
  then rebuild_if_checking else skip.

(** * Metrics *)

Record NominationMetrics := mkMetrics {
  nm_rtt_us : Z; nm_local_type : CandidateType; nm_remote_type : CandidateType;
  nm_transport : TransportType; nm_uses_relay : bool; nm_nominated : bool;
}.

Definition nomination_metrics (s : IceSession) : NominationMetrics :=
  if decide (s_state s ≠ Connected) then mkMetrics 0 Host Host Udp false false else
  mkMetrics (s_rtt_ewma_us s) (nominated_local_type (s_nom s)) (nominated_remote_type (s_nom s))
    (nominated_transport (s_nom s)) (uses_relay (s_nom s)) true.

Record CandidateCounts := mkCounts {
  local_host : nat; local_srflx : nat; local_relay : nat; local_prflx : nat;
  remote_host : nat; remote_srflx : nat; remote_relay : nat; remote_prflx : nat;
}.

Definition count_type (f : CandidateType → bool) (l : list Candidate) : nat :=
  length (List.filter (λ c, f (c_type c)) l).
Definition is_host (t : CandidateType) : bool := match t with Host | HostMdns => true | _ => false end.
Definition is_srflx (t : CandidateType) : bool := match t with Srflx => true | _ => false end.
Definition is_relay (t : CandidateType) : bool := match t with Relay => true | _ => false end.
Definition is_prflx (t : CandidateType) : bool := match t with Prflx => true | _ => false end.

Definition candidate_counts (s : IceSession) : CandidateCounts :=
  let l := s_local_candidates s in
  let r := s_remote_candidates s in
  mkCounts (count_type is_host l) (count_type is_srflx l) (count_type is_relay l) (count_type is_prflx l)
           (count_type is_host r) (count_type is_srflx r) (count_type is_relay r) (count_type is_prflx r).

(** * Everything that can happen to a session *)

Inductive session_input :=
  | IGather
  | ISetRemote (ufrag pwd : bytes) (cands : list Candidate)
  | IAddRemote (ufrag pwd : bytes) (cands : list Candidate) (eoc : bool)
  | IPeerFlags (flags : Z)
  | ISend (data : bytes)
  | ICarrierData (cid : Z) (data : bytes)
  | ITcpData (cid : Z) (data : bytes)
  | ITcpConnectTimeout (cid : Z)
  | IMdnsResolved (idx : nat) (hostname : bytes) (r : MdnsResolveResult)
  | IStunProbes
  | ITurnAttempt
  | ITurnAllocated (ip : bytes) (port : Z)
  | IBackupAllocated (probe_cfg : TurnConfig)
  | ITurnData (ip : bytes) (port : Z) (data : bytes)
  | IRelayed (ip : bytes) (port : Z) (data : bytes)
  | ITurnState (allocated healthy : bool) (relayed : MappedAddress)  (* of the TURN client *)
  | IBackupState (allocated healthy : bool) (relayed : MappedAddress)
  | ITimer (k : timer_kind) (gen : nat)
  | IRestart
  | IClose.

(** What a TURN client has become, as the session sees it. *)
Definition turn_progress (allocated healthy : bool) (relayed : MappedAddress) (t : TurnHandle)
    : TurnHandle :=
  t <| th_allocated := allocated |> <| th_healthy := healthy |> <| th_relayed := relayed |>.

Definition session_handle (i : session_input) : session unit :=
  match i with
  | IGather => gather
  | ISetRemote u p cs => set_remote u p cs
  | IAddRemote u p cs eoc => add_remote_candidates u p cs eoc
  | IPeerFlags f => set_peer_signal_flags f
  | ISend d => send d
  | ICarrierData cid d => on_carrier_data cid d false
  | ITcpData cid d => on_tcp_carrier_data cid d
  | ITcpConnectTimeout cid =>               (* unless the timer was cancelled *)
      s ← get;
      if decide (cid ∈ tcp_connect_timers (s_eps s)) then on_tcp_connect_timeout cid else skip
  | IMdnsResolved i h r => on_mdns_resolved i h r
  | IStunProbes => on_stun_probes
  | ITurnAttempt => try_next_turn_attempt
  | ITurnAllocated ip port => on_turn_allocated ip port
  | IBackupAllocated c => on_backup_allocated c
  | ITurnData ip port d => on_turn_data ip port d
  | IRelayed ip port d => on_relayed ip port d
  | ITurnState al he re => modify (λ s, s <| s_turn := turn_progress al he re <$> s_turn s |>)
  | IBackupState al he re =>
      modify (λ s, s <| s_turn_backup_probe := turn_progress al he re <$> s_turn_backup_probe s |>)
  | ITimer TmCheck gen => on_check_timer gen
  | ITimer TmKeepalive gen => on_keepalive_timer gen
  | ITimer TmNominationWait gen => on_nomination_wait gen
  | ITimer TmPmtu gen => on_pmtu_timer gen
  | ITimer TmGather gen => on_gather_timer gen
  | ITimer TmTurnAllocate gen => on_turn_allocate_timer gen
  | ITimer TmTurnBackup gen => on_turn_backup_timer gen
  | IRestart => restart
  | IClose => close
  end.

(** Inputs arrive with the time. *)
Definition session_run (ins : list (Z * session_input)) : session unit :=
  for_each (λ x, modify (λ s, s <| s_now_us := x.1 |>) ;; session_handle (x.2)) ins.
End session.

(** Every candidate of a known type is counted once. *)
Definition known_type (t : CandidateType) : bool := match t with OtherType _ => false | _ => true end.

Lemma candidate_counts_total s :
  let c := candidate_counts s in
  (local_host c + local_srflx c + local_relay c + local_prflx c
   = count_type known_type (s_local_candidates s))%nat
  ∧ (remote_host c + remote_srflx c + remote_relay c + remote_prflx c
     = count_type known_type (s_remote_candidates s))%nat.
Proof.
  assert (∀ l, (count_type is_host l + count_type is_srflx l
    + count_type is_relay l + count_type is_prflx l = count_type known_type l)%nat) as Hl; [|split; apply Hl].
  unfold count_type. induction l as [|c l IH]; [done|].
  cbn [List.filter]. destruct (c_type c); cbn; lia.
Qed.
