(* ===== verification/Exchange.v ===== *)
(** Messages between two sessions: a check request is understood and answered by the
    peer, the answer by the sender; nomination; role conflicts; keepalives. *)

From stdpp Require Import gmap.
From S2P Require Import Prelude Bytes Inet Candidate MdnsCodec Mdns Framing Stun Turn PathMtu.
From S2P Require Import SessionState Delivery CheckList Gather Session.

(** * Protected messages *)

(** The message a parser makes of a protected one. *)
Definition protected_view `{InetOps} (b : StunBuilder) (l : list (Z * bytes)) : StunMessage :=
  (apply_tlvs l (empty_message (msg_type_ b) (txn_id_ b)))
    <| has_integrity := true |> <| has_fingerprint := true |>.

(** Room for MESSAGE-INTEGRITY and FINGERPRINT. *)
Definition fits (b : StunBuilder) : Prop :=
  length (txn_id_ b) = 12%nat ∧ is_u16 (msg_type_ b)
  ∧ is_u16 (Z.of_nat (length (attrs_ b) + 32)).

Section protected.
Context `{InetOps} `{HmacLaws}.

(** A message closed with [add_integrity key] and [add_fingerprint] verifies under
    [key] and parses to its attributes. *)
Lemma protected_spec b l key :
  represents b l → Forall tlv_ok l → Forall not_integrity l → fits b →
  let raw := build (add_fingerprint (add_integrity key b)) in
  integrity_ok raw key = true ∧ parsed_stun raw = Some (protected_view b l).
Proof.
  intros Hr Hl Hn (Htx & Hty & Hlen) raw.
  set (v := hmac_sha1 key (message b 24)).
  assert (length v = 20%nat) as Hv by apply hmac_length.
  set (fp := write32 (Z.lxor (stun_crc32 (message (add_integrity key b) 8)) 0x5354554E)).
  set (l2 := [(STUN_ATTR_FINGERPRINT, fp)]).
  set (b2 := add_fingerprint (add_integrity key b)).
  assert (represents b2 (l ++ (STUN_ATTR_MESSAGE_INTEGRITY, v) :: l2)) as Hr2.
  { rewrite cons_middle, app_assoc.
    exact (represents_add_attr (add_integrity key b) _ STUN_ATTR_FINGERPRINT fp
             (represents_add_attr b l STUN_ATTR_MESSAGE_INTEGRITY v Hr)). }
  assert (length (attrs_ b2) = length (attrs_ b) + 32)%nat as Hlen2.
  { rewrite Hr2, Hr. unfold l2, encode_tlvs. rewrite bind_app, bind_cons, !length_app, bind_singleton.
    rewrite !length_encode_tlv. cbn [snd]. rewrite Hv. unfold fp. rewrite length_write32. reflexivity. }
  split.
  - unfold integrity_ok, raw. fold b2.
    rewrite (verify_integrity_spec b2 l v l2) by (done || by rewrite Hlen2).
    rewrite bool_decide_true; [done|]. subst v. f_equal. unfold message. simpl. by rewrite <- Hr.
  - unfold parsed_stun, raw. fold b2. rewrite <- (app_nil_r (build b2)), (parse_message b2 _ [] Hr2).
    + cbn [default]. unfold protected_view, apply_tlvs, l2. by rewrite foldl_app.
    + apply Forall_app. split; [done|].
      apply Forall_cons_2; [|apply Forall_cons_2; [|apply Forall_nil_2]];
        (split; [by compute|cbn [snd]]).
      * rewrite Hv. by compute.
      * unfold fp. rewrite length_write32. by compute.
    + by rewrite Hlen2.
    + done.
    + done.
Qed.
End protected.

(** * Frames *)

(** What a session is to its peer: role, credentials and TURN clients. *)
Definition same_party (s s' : IceSession) : Prop :=
  s_fixed s' = s_fixed s ∧ s_controlling s' = s_controlling s ∧ s_creds s' = s_creds s
  ∧ s_turn s' = s_turn s ∧ s_turn_backup_probe s' = s_turn_backup_probe s.

(** The same role, whatever else happens. *)
Definition same_role (s s' : IceSession) : Prop :=
  s_fixed s' = s_fixed s ∧ s_controlling s' = s_controlling s.

#[export] Instance same_party_po : PreOrder same_party.
Proof. split; [intros s; done|]. intros x y z. unfold same_party. intuition congruence. Qed.
#[export] Instance same_role_po : PreOrder same_role.
Proof. split; [intros s; done|]. intros x y z. unfold same_role. intuition congruence. Qed.

Lemma same_party_role {A} (m : session A) : keeps same_party m → keeps same_role m.
Proof. intros Hm s. destruct (Hm s) as (? & ? & _). by split. Qed.

Lemma eps_only_party {A} (m : session A) : keeps eps_only m → keeps same_party m.
Proof. intros Hm s. destruct (Hm s) as (e & n & d & ->). done. Qed.

Ltac frame_auto := keeps_auto ltac:(intros ?; repeat split; reflexivity).

Section frames.
Context `{InetOps} `{Hmac} `{SessionEnv}.

Lemma ensure_remote_cid_party ip port : keeps same_party (ensure_remote_cid ip port).
Proof. apply eps_only_party, ensure_remote_cid_frame. Qed.
Lemma ensure_remote_tcp_cid_party ip port : keeps same_party (ensure_remote_tcp_cid ip port).
Proof. apply eps_only_party, ensure_remote_tcp_cid_frame. Qed.
Lemma relay_cid_party ip port : keeps same_party (relay_cid_for_endpoint ip port).
Proof. apply eps_only_party, relay_cid_for_endpoint_frame. Qed.
Lemma transmit_check_party p msg : keeps same_party (transmit_check p msg).
Proof. apply eps_only_party, transmit_check_frame. Qed.
Lemma txn_party : keeps same_party generate_txn_id.
Proof. unfold generate_txn_id. frame_auto. Qed.
Lemma set_check_list_party f : keeps same_party (set_check_list f).
Proof. unfold set_check_list. frame_auto. Qed.
Lemma set_pair_party i f : keeps same_party (set_pair i f).
Proof. apply set_check_list_party. Qed.
#[local] Hint Resolve ensure_remote_cid_party ensure_remote_tcp_cid_party relay_cid_party
  transmit_check_party txn_party set_check_list_party set_pair_party : ice.

Lemma send_check_party i : keeps same_party (send_check i).
Proof. unfold send_check. frame_auto. Qed.
#[local] Hint Resolve send_check_party : ice.

Lemma retransmit_party i : keeps same_party (retransmit_one i).
Proof. unfold retransmit_one. frame_auto. Qed.
Lemma promote_party idxs : keeps same_party (promote_loop idxs).
Proof. induction idxs as [|i idxs IH]; cbn [promote_loop]; frame_auto. Qed.
Lemma begin_loop_party idxs b4 b6 : keeps same_party (begin_loop idxs b4 b6).
Proof. revert b4 b6. induction idxs as [|i idxs IH]; intros; cbn [begin_loop]; frame_auto. Qed.
#[local] Hint Resolve retransmit_party promote_party begin_loop_party : ice.

Lemma run_next_check_party : keeps same_party run_next_check.
Proof. unfold run_next_check, checks_exhausted, fail_session, set_state, set_gens. frame_auto. Qed.
#[local] Hint Resolve run_next_check_party : ice.

Lemma begin_checks_party : keeps same_party begin_checks.
Proof. unfold begin_checks. frame_auto. Qed.

Lemma predict_party n k stride pair : keeps same_party (predict_pairs n k stride pair).
Proof. revert k. induction n as [|n IH]; intros; cbn [predict_pairs]; unfold push_pair; frame_auto. Qed.
#[local] Hint Resolve predict_party : ice.

Lemma build_check_list_party : keeps same_party build_check_list.
Proof. unfold build_check_list, assign_local_foundations, add_pair, push_pair. frame_auto. Qed.
#[local] Hint Resolve build_check_list_party begin_checks_party : ice.

Lemma rebuild_party : keeps same_party rebuild_if_checking.
Proof. unfold rebuild_if_checking. frame_auto. Qed.
Lemma answer_party cid tcp resp : keeps same_party (answer cid tcp resp).
Proof. unfold answer. frame_auto. Qed.
Lemma trigger_party ip port : keeps same_party (maybe_trigger_check_from_peer ip port).
Proof. unfold maybe_trigger_check_from_peer, push_pair. frame_auto. Qed.
End frames.

#[export] Hint Resolve ensure_remote_cid_party ensure_remote_tcp_cid_party relay_cid_party
  transmit_check_party txn_party set_check_list_party set_pair_party send_check_party
  run_next_check_party begin_checks_party build_check_list_party rebuild_party answer_party
  trigger_party : ice.
#[export] Hint Extern 2 (keeps same_role _) => apply same_party_role; solve [auto with ice] : ice.

(** Gathering, nomination and everything they start leave the role alone. *)
Section role_frames.
Context `{InetOps} `{Hmac} `{SessionEnv}.

Lemma push_allowed_role ty c : keeps same_role (push_allowed ty c).
Proof. unfold push_allowed, push_local. frame_auto. Qed.
#[local] Hint Resolve push_allowed_role : ice.
Lemma gathering_complete_role : keeps same_role on_gathering_complete.
Proof. unfold on_gathering_complete, set_gather, set_gens, set_state. frame_auto. Qed.
#[local] Hint Resolve gathering_complete_role : ice.
Lemma gather_relay_role : keeps same_role gather_relay.
Proof.
  unfold gather_relay, try_next_turn_attempt, relay_gathered, next_attempt, build_turn_client, dial,
    set_relay, set_gather, set_gens.
  frame_auto.
Qed.
#[local] Hint Resolve gather_relay_role : ice.
Lemma gather_role : keeps same_role gather.
Proof.
  unfold gather, gather_host_candidates, gather_tcp_host_candidates, gather_portmap, push_local,
    set_gather, set_state.
  frame_auto.
Qed.
#[local] Hint Resolve gather_role : ice.
Lemma restart_role : keeps same_role restart.
Proof.
  unfold restart, close_turn_clients, unregister_mdns, generate_ufrag, generate_pwd, random_string,
    tear_down_cids, set_gens, set_relay, set_consent, set_gather, set_nom, set_eps, set_state.
  frame_auto.
Qed.
#[local] Hint Resolve restart_role : ice.
Lemma keepalive_role : keeps same_role on_keepalive.
Proof.
  unfold on_keepalive, notify_consent_loss, fail_session, set_consent, set_state, set_gens.
  frame_auto.
Qed.
#[local] Hint Resolve keepalive_role : ice.
Lemma send_on_strand_role buf : keeps same_role (send_on_strand buf).
Proof. unfold send_on_strand, set_ordered, set_nom. frame_auto. Qed.
#[local] Hint Resolve send_on_strand_role : ice.
Lemma flush_loop_role n : keeps same_role (flush_loop n).
Proof. induction n as [|n IH]; cbn [flush_loop]; frame_auto. Qed.
#[local] Hint Resolve flush_loop_role : ice.
Lemma flush_role : keeps same_role flush_pending_app_data.
Proof. unfold flush_pending_app_data. frame_auto. Qed.
#[local] Hint Resolve flush_role : ice.
Lemma nominated_role ip port relay cid tx : keeps same_role (on_nominated ip port relay cid tx).
Proof.
  unfold on_nominated, start_keepalive, start_path_mtu_probe, set_gens, set_state, set_consent,
    set_nom, set_pmtu.
  frame_auto.
Qed.
#[local] Hint Resolve nominated_role : ice.
Lemma use_candidate_role cid tcp ip port : keeps same_role (on_use_candidate cid tcp ip port).
Proof. unfold on_use_candidate. frame_auto. Qed.
End role_frames.
#[export] Hint Resolve nominated_role use_candidate_role : ice.

(** * A check request at the peer *)

Definition nominates (s : IceSession) (p : CheckPair) : bool :=
  s_controlling s && (aggressive_nomination (cfg s) || cp_nominee_check_sent p).

Definition check_username (s : IceSession) : bytes :=
  remote_ufrag (s_creds s) ++ str ":" ++ local_ufrag (s_creds s).

Definition check_tlvs (s : IceSession) (p : CheckPair) : list (Z * bytes) :=
  [(STUN_ATTR_USERNAME, check_username s); (STUN_ATTR_PRIORITY, write32 (c_priority (cp_local p)))]
  ++ [(if s_controlling s then STUN_ATTR_ICE_CONTROLLING else STUN_ATTR_ICE_CONTROLLED,
       write64 (f_tiebreaker (s_fixed s)))]
  ++ (if nominates s p then [(STUN_ATTR_USE_CANDIDATE, [])] else []).

(** The peer's view of the request. *)
Definition request_view (s : IceSession) (p : CheckPair) : StunMessage :=
  let tb := Some (f_tiebreaker (s_fixed s)) in
  mkStun STUN_BINDING_REQUEST (cp_txn_id p) None None None (Some (c_priority (cp_local p))) None None
    (Some (check_username s)) None None None [] (nominates s p)
    (if s_controlling s then tb else None) (if s_controlling s then None else tb) true true.

Definition request_bytes `{Hmac} (s : IceSession) (p : CheckPair) : bytes :=
  build (add_fingerprint (add_integrity (remote_pwd (s_creds s)) (check_request s p))).

(** Fields of the widths the source gives them, and user fragments of signalling
    size. *)
Definition request_ok (s : IceSession) (p : CheckPair) : Prop :=
  length (cp_txn_id p) = 12%nat ∧ is_u64 (f_tiebreaker (s_fixed s))
  ∧ is_u32 (c_priority (cp_local p))
  ∧ Z.of_nat (length (check_username s)) ≤ 65000.

Lemma check_represents s p : represents (check_request s p) (check_tlvs s p).
Proof.
  unfold check_request, check_tlvs, nominates.
  set (b := add_priority _ _).
  assert (represents b [(STUN_ATTR_USERNAME, check_username s);
                        (STUN_ATTR_PRIORITY, write32 (c_priority (cp_local p)))]) as Hb.
  { exact (represents_add_attr _ [_] _ _ (represents_add_attr _ [] _ _ (represents_new _ _))). }
  destruct (s_controlling s); [destruct (_ || _)|]; rewrite ?app_nil_r, ?app_assoc;
    by repeat apply represents_add_attr.
Qed.

Lemma check_tlvs_ok s p : request_ok s p →
  Forall tlv_ok (check_tlvs s p) ∧ Forall not_integrity (check_tlvs s p)
  ∧ fits (check_request s p).
Proof.
  intros (Htx & _ & _ & Hu). split_and!.
  - unfold check_tlvs. destruct (s_controlling s), (nominates s p); cbn [app];
      repeat (apply Forall_cons; split); try apply Forall_nil_2;
      (split; [by compute|cbn [snd]; rewrite ?length_write32, ?length_write64, ?length_nil;
        unfold_ints; lia]).
  - unfold check_tlvs, not_integrity. by destruct (s_controlling s), (nominates s p);
      cbn [app]; repeat (apply Forall_cons; split); try apply Forall_nil_2.
  - assert (txn_id_ (check_request s p) = cp_txn_id p
      ∧ msg_type_ (check_request s p) = STUN_BINDING_REQUEST) as [Ht Hm]
      by (unfold check_request; destruct (s_controlling s); [destruct (_ || _)|]; done).
    split_and!; [by rewrite Ht|by rewrite Hm|].
    rewrite (check_represents s p). unfold check_tlvs, encode_tlvs.
    rewrite !bind_app, bind_cons, !bind_singleton, !length_app, !length_encode_tlv.
    cbn [snd]. rewrite length_write32, length_write64.
    pose proof (align4_lt (4 + length (check_username s))) as Hlt.
    change (align4 (4 + 4)) with 8%nat. change (align4 (4 + 8)) with 12%nat.
    destruct (nominates s p); [change (length (_ ≫= encode_tlv)) with 4%nat|
      change (length (_ ≫= encode_tlv)) with 0%nat]; unfold_ints; lia.
Qed.

Section check.
Context `{InetOps} `{HmacLaws}.

Lemma attr_priority v m : is_u32 v →
  attr_effect STUN_ATTR_PRIORITY (write32 v) m = m <| priority := Some v |>.
Proof.
  intros Hv. unfold attr_effect, parse_attr. cbn -[write32 read32].
  rewrite <- (app_nil_r (write32 v)), read32_write32, u32_id by done. by rewrite length_app, length_write32.
Qed.
Lemma attr_controlling v m : is_u64 v →
  attr_effect STUN_ATTR_ICE_CONTROLLING (write64 v) m = m <| ice_controlling := Some v |>.
Proof.
  intros Hv. unfold attr_effect, parse_attr. cbn -[write64 read64].
  rewrite <- (app_nil_r (write64 v)), read64_write64 by done. by rewrite length_app, length_write64.
Qed.
Lemma attr_controlled v m : is_u64 v →
  attr_effect STUN_ATTR_ICE_CONTROLLED (write64 v) m = m <| ice_controlled := Some v |>.
Proof.
  intros Hv. unfold attr_effect, parse_attr. cbn -[write64 read64].
  rewrite <- (app_nil_r (write64 v)), read64_write64 by done. by rewrite length_app, length_write64.
Qed.

(** The peer whose password the request is made with accepts it. *)
Lemma check_understood s p : request_ok s p →
  integrity_ok (request_bytes s p) (remote_pwd (s_creds s)) = true
  ∧ parsed_stun (request_bytes s p) = Some (request_view s p).
Proof.
  intros Hok. destruct (check_tlvs_ok s p Hok) as (Hl & Hn & Hf).
  destruct (protected_spec _ _ (remote_pwd (s_creds s)) (check_represents s p) Hl Hn Hf) as [Hi Hp].
  split; [exact Hi|]. unfold request_bytes. rewrite Hp. f_equal.
  destruct Hok as (_ & Htb & Hpr & _).
  unfold protected_view, check_tlvs, apply_tlvs, request_view. rewrite !foldl_app. cbn [foldl fst snd].
  rewrite attr_priority by done. unfold check_request, nominates.
  destruct (s_controlling s); cbn [andb]; rewrite ?attr_controlling, ?attr_controlled by done;
    [destruct (_ || _)|]; reflexivity.
Qed.

(** * Answers at the sender *)

Definition success_view (txn : bytes) : StunMessage :=
  (empty_message STUN_BINDING_RESPONSE txn) <| has_integrity := true |> <| has_fingerprint := true |>.
Definition conflict_view (txn : bytes) : StunMessage :=
  (empty_message STUN_BINDING_ERROR txn)
    <| error_code := Some 487 |> <| has_integrity := true |> <| has_fingerprint := true |>.

Definition success_bytes (txn pwd : bytes) : bytes := binding_answer STUN_BINDING_RESPONSE txn id pwd.
Definition conflict_bytes (txn pwd : bytes) : bytes :=
  binding_answer STUN_BINDING_ERROR txn (add_error_code 487 kStunErrorReasonRoleConflict) pwd.

Lemma success_understood txn pwd : length txn = 12%nat →
  integrity_ok (success_bytes txn pwd) pwd = true
  ∧ parsed_stun (success_bytes txn pwd) = Some (success_view txn).
Proof.
  intros Htx.
  apply (protected_spec (new_builder STUN_BINDING_RESPONSE txn) [] pwd (represents_new _ _));
    [apply Forall_nil_2|apply Forall_nil_2|]. split_and!; [done|by compute..].
Qed.

Lemma conflict_understood txn pwd : length txn = 12%nat →
  integrity_ok (conflict_bytes txn pwd) pwd = true
  ∧ parsed_stun (conflict_bytes txn pwd) = Some (conflict_view txn).
Proof.
  intros Htx.
  set (v := [0; 0; u8 (487 / 100); u8 (487 mod 100)] ++ kStunErrorReasonRoleConflict).
  apply (protected_spec _ [(STUN_ATTR_ERROR_CODE, v)] pwd
           (represents_add_attr _ [] _ v (represents_new STUN_BINDING_ERROR txn)));
    [apply Forall_cons; split; [split; by compute|apply Forall_nil_2]|
     apply Forall_cons; split; [by compute|apply Forall_nil_2]|].
  split_and!; [done|by compute..].
Qed.
End check.

(** * Dispatch *)

(** A connection that is not one to a TURN server. *)
Definition plain_cid (s : IceSession) (cid : Z) : Prop :=
  is_server_cid (s_turn s) cid = false ∧ is_server_cid (s_turn_backup_probe s) cid = false.

Definition touched (s : IceSession) : IceSession := s <| s_last_activity := s_now_us s |>.

(** A's messages to B are protected with B's password, and the other way round. *)
Definition keyed (a b : IceSession) : Prop := remote_pwd (s_creds a) = local_pwd (s_creds b).

Section dispatch.
Context `{InetOps} `{HmacLaws} `{SessionEnv}.

Lemma run_stun s cid data tcp m : plain_cid s cid → parsed_stun data = Some m →
  run (on_carrier_data cid data tcp) s = run (on_stun cid data tcp m) (touched s).
Proof.
  intros [Ht Hb] Hm. unfold on_carrier_data, touch. rewrite run_modify, run_get. fold (touched s).
  change (s_turn (touched s)) with (s_turn s).
  change (s_turn_backup_probe (touched s)) with (s_turn_backup_probe s).
  by rewrite Ht, Hb, Hm.
Qed.

(** A check request of [a] at [b]. *)
Lemma run_request a b p cid : request_ok a p → keyed a b → plain_cid b cid →
  run (on_carrier_data cid (request_bytes a p) false) b
  = run (handle_binding_request (request_view a p) cid false) (touched b).
Proof.
  intros Hok Hk Hc. destruct (check_understood a p Hok) as [Hi Hp].
  rewrite (run_stun _ _ _ _ _ Hc Hp). unfold on_stun. rewrite run_get.
  change (local_pwd (s_creds (touched b))) with (local_pwd (s_creds b)). rewrite <- Hk.
  change (bool_decide (msg_type (request_view a p) = STUN_BINDING_RESPONSE)) with false.
  change (bool_decide (msg_type (request_view a p) = STUN_BINDING_ERROR)) with false. cbn [andb orb]. by rewrite Hi.
Qed.

(** The answers of [b] at [a]. *)
Lemma run_conflict a b txn cid : length txn = 12%nat → keyed a b → plain_cid a cid →
  run (on_carrier_data cid (conflict_bytes txn (local_pwd (s_creds b))) false) a
  = run (on_binding_error (conflict_view txn)) (touched a).
Proof.
  intros Htx Hk Hc. destruct (conflict_understood txn (local_pwd (s_creds b)) Htx) as [Hi Hp].
  rewrite (run_stun _ _ _ _ _ Hc Hp). unfold on_stun. rewrite run_get.
  change (remote_pwd (s_creds (touched a))) with (remote_pwd (s_creds a)). rewrite Hk.
  change (bool_decide (msg_type (conflict_view txn) = STUN_BINDING_RESPONSE)) with false.
  change (bool_decide (msg_type (conflict_view txn) = STUN_BINDING_ERROR)) with true.
  cbn [andb orb]. by rewrite Hi.
Qed.

Lemma run_success a b txn cid : length txn = 12%nat → keyed a b → plain_cid a cid →
  txn ∉ pending_stun_probes (s_gather a) →
  run (on_carrier_data cid (success_bytes txn (local_pwd (s_creds b))) false) a
  = run (on_binding_response (s_state a) (success_view txn)) (touched a).
Proof.
  intros Htx Hk Hc Hq. destruct (success_understood txn (local_pwd (s_creds b)) Htx) as [Hi Hp].
  rewrite (run_stun _ _ _ _ _ Hc Hp). unfold on_stun. rewrite run_get.
  change (remote_pwd (s_creds (touched a))) with (remote_pwd (s_creds a)). rewrite Hk.
  change (pending_stun_probes (s_gather (touched a))) with (pending_stun_probes (s_gather a)).
  change (txn_id (success_view txn)) with txn. rewrite (bool_decide_false (txn ∈ _)) by done.
  change (bool_decide (msg_type (success_view txn) = STUN_BINDING_RESPONSE)) with true.
  cbn [andb orb]. by rewrite Hi.
Qed.

(** The same, on states and outputs. *)
Lemma run_success_at a b txn cid : length txn = 12%nat → keyed a b → plain_cid a cid →
  txn ∉ pending_stun_probes (s_gather a) →
  let m := on_carrier_data cid (success_bytes txn (local_pwd (s_creds b))) false in
  let m' := on_binding_response (s_state a) (success_view txn) in
  final m a = final m' (touched a) ∧ outputs m a = outputs m' (touched a).
Proof. intros Htx Hk Hc Hq m m'. unfold final, outputs, exec, m. by rewrite run_success. Qed.

(** C37 (keepalives are ignored): the consent request [on_keepalive] sends has no
    MESSAGE-INTEGRITY, and any session drops it without an answer: only its activity
    time changes. *)
Theorem keepalive_unanswered s cid tcp txn :
  length txn = 12%nat → plain_cid s cid →
  exec (on_carrier_data cid (keepalive_request txn) tcp) s = (touched s, []).
Proof.
  intros Htx Hc. unfold exec.
  assert (parsed_stun (keepalive_request txn) = Some (empty_message STUN_BINDING_REQUEST txn)) as Hp.
  { unfold parsed_stun, keepalive_request. rewrite <- (app_nil_r (build _)).
    by rewrite (parse_message _ [] [] (represents_new STUN_BINDING_REQUEST txn)). }
  by rewrite (run_stun _ _ _ _ _ Hc Hp).
Qed.
End dispatch.

(** * Role conflicts *)

Abbreviation tiebreaker s := (f_tiebreaker (s_fixed s)).

(** A UDP connection of the session's carrier, neither TURN's nor relayed. *)
Definition direct_cid (s : IceSession) (cid : Z) : Prop :=
  plain_cid s cid ∧ f_carrier (s_fixed s) = true ∧ cid ∉ relay_cids (s_eps s).

Section roles.
Context `{InetOps} `{HmacLaws} `{SessionEnv}.

Lemma run_answer s cid resp : f_carrier (s_fixed s) = true → cid ∉ relay_cids (s_eps s) →
  run (answer cid false resp) s = (tt, s, [ESend cid resp]).
Proof.
  intros Hc Hr. unfold answer. rewrite run_get, (bool_decide_false (cid ∈ _)), andb_false_r by done.
  by rewrite Hc.
Qed.

(** The two outcomes of [handle_role_conflict] for a request of the same role. *)
Lemma role_conflict_lost s c tb : s_controlling s = c → tiebreaker s < tb →
  run (handle_role_conflict c tb) s
  = run (rebuild_if_checking ;; mret true) (s <| s_controlling := negb c |>).
Proof.
  intros <- Ht. unfold handle_role_conflict. rewrite run_get, eqb_reflx. cbn [negb].
  rewrite decide_False by lia. by rewrite run_modify.
Qed.

Lemma role_conflict_won s c tb : tb ≤ tiebreaker s →
  run (handle_role_conflict c tb) s = (false, s, []).
Proof.
  intros Ht. unfold handle_role_conflict. rewrite run_get.
  destruct (negb _); [done|]. by rewrite decide_True.
Qed.

Lemma view_role a p :
  bool_decide (is_Some (ice_controlling (request_view a p))) = s_controlling a
  ∧ bool_decide (is_Some (ice_controlled (request_view a p))) = negb (s_controlling a)
  ∧ default (default 0 (ice_controlled (request_view a p))) (ice_controlling (request_view a p))
    = tiebreaker a.
Proof. unfold request_view. simpl. by destruct (s_controlling a). Qed.

(** A request of the opposite role is accepted. *)
Lemma run_request_accepted a b p cid : request_ok a p → keyed a b → plain_cid b cid →
  s_controlling b = negb (s_controlling a) →
  let m := on_carrier_data cid (request_bytes a p) false in
  let m' := accept_request (request_view a p) cid false in
  final m b = final m' (touched b) ∧ outputs m b = outputs m' (touched b).
Proof.
  intros Hok Hk Hc Hr m m'. unfold final, outputs, exec, m. rewrite run_request by done.
  unfold handle_binding_request. rewrite run_get.
  change (s_controlling (touched b)) with (s_controlling b).
  destruct (view_role a p) as (-> & -> & _). rewrite Hr.
  replace (_ || _) with false by (by destruct (s_controlling a)). split; reflexivity.
Qed.

(** A request of this side's own role, with the smaller tiebreaker: 487. *)
Lemma conflict_won_run a b p cid : direct_cid b cid →
  s_controlling b = s_controlling a → tiebreaker a ≤ tiebreaker b →
  exec (handle_binding_request (request_view a p) cid false) b
  = (b, [ESend cid (conflict_bytes (cp_txn_id p) (local_pwd (s_creds b)))]).
Proof.
  intros (_ & Hf & Hr) Hc Ht. unfold exec, handle_binding_request. rewrite run_get.
  destruct (view_role a p) as (-> & -> & ->). rewrite Hc.
  replace (_ || _) with true by (by destruct (s_controlling a)). cbv zeta.
  rewrite run_bind, role_conflict_won by done. by rewrite run_answer.
Qed.

Lemma accept_role m cid : keeps same_role (accept_request m cid false).
Proof. unfold accept_request. frame_auto. Qed.

(** With the larger one: this side switches and accepts the request. *)
Lemma conflict_lost_final a b p cid :
  s_controlling b = s_controlling a → tiebreaker b < tiebreaker a →
  final (handle_binding_request (request_view a p) cid false) b
  = final (accept_request (request_view a p) cid false)
      (final rebuild_if_checking (b <| s_controlling := negb (s_controlling a) |>)).
Proof.
  intros Hc Ht. unfold handle_binding_request. rewrite final_get.
  destruct (view_role a p) as (-> & -> & ->). rewrite Hc.
  replace (_ || _) with true by (by destruct (s_controlling a)). cbv zeta.
  unfold final at 1, exec. rewrite run_bind, role_conflict_lost, run_bind by done.
  unfold final, exec. destruct (run rebuild_if_checking _) as [[[] s1] o1]. cbn -[accept_request].
  by destruct (run (accept_request _ _ _) s1) as [[[] s2] o2].
Qed.

Lemma conflict_lost_role a b p cid :
  s_controlling b = s_controlling a → tiebreaker b < tiebreaker a →
  s_controlling (final (handle_binding_request (request_view a p) cid false) b)
  = negb (s_controlling a).
Proof.
  intros Hc Ht. rewrite conflict_lost_final by done.
  destruct (accept_role (request_view a p) cid (final rebuild_if_checking
    (b <| s_controlling := negb (s_controlling a) |>))) as [_ ->].
  by destruct (rebuild_party (b <| s_controlling := negb (s_controlling a) |>)) as (_ & -> & _).
Qed.

(** The 487 at its addressee: the role flips. *)
Lemma conflict_answer_role s b txn cid : length txn = 12%nat → keyed s b → plain_cid s cid →
  s_controlling (final (on_carrier_data cid (conflict_bytes txn (local_pwd (s_creds b))) false) s)
  = negb (s_controlling s).
Proof.
  intros Htx Hk Hc. unfold final, exec. rewrite run_conflict by done.
  change (s_controlling (final (on_binding_error (conflict_view txn)) (touched s))
          = negb (s_controlling s)).
  unfold on_binding_error. cbn [decide]. rewrite decide_True by done. rewrite final_modify.
  by destruct (rebuild_party ((touched s) <| s_controlling := negb (s_controlling (touched s)) |>))
    as (_ & -> & _).
Qed.

(** C14 (role conflicts are resolved): two agents hold the same role.  One check of
    [a], answered by [b], leaves them with opposite roles: either [b] has the smaller
    tiebreaker and switches, or its only reaction is a 487 answer, on which [a]
    switches. *)
Theorem role_conflict_resolved a b p cid cid' :
  request_ok a p → keyed a b → direct_cid b cid → plain_cid a cid' →
  s_controlling a = s_controlling b → tiebreaker a ≠ tiebreaker b →
  let (b', out) := exec (on_carrier_data cid (request_bytes a p) false) b in
  if decide (tiebreaker b < tiebreaker a) then s_controlling b' = negb (s_controlling a)
  else s_controlling b' = s_controlling b
    ∧ ∃ err, out = [ESend cid err]
      ∧ s_controlling (final (on_carrier_data cid' err false) a) = negb (s_controlling b').
Proof.
  intros Hok Hk Hd Hc Hrole Htb. destruct Hd as (Hp & Hd). unfold exec.
  rewrite run_request by done.
  change (let (b', out) := exec (handle_binding_request (request_view a p) cid false) (touched b) in
    if decide (tiebreaker b < tiebreaker a) then s_controlling b' = negb (s_controlling a)
    else s_controlling b' = s_controlling b
    ∧ ∃ err, out = [ESend cid err]
      ∧ s_controlling (final (on_carrier_data cid' err false) a) = negb (s_controlling b')).
  case_decide as Hlt.
  - pose proof (conflict_lost_role a (touched b) p cid (eq_sym Hrole) Hlt) as E.
    unfold final in E. by destruct (exec _ _) as [b' out].
  - rewrite (conflict_won_run a (touched b)) by (done || (unfold touched; cbn; lia)).
    split; [done|]. eexists; split; [done|].
    change (s_creds (touched b)) with (s_creds b).
    rewrite conflict_answer_role by (done || apply Hok). by rewrite Hrole.
Qed.

(** A request without USE-CANDIDATE leaves the party alone. *)
Lemma accept_party m cid : use_candidate m = false → keeps same_party (accept_request m cid false).
Proof. intros Hm. unfold accept_request. rewrite Hm. cbn [andb]. frame_auto. Qed.

Lemma conflict_lost_party a b p cid : nominates a p = false →
  s_controlling b = s_controlling a → tiebreaker b < tiebreaker a →
  same_party (b <| s_controlling := negb (s_controlling a) |>)
    (final (handle_binding_request (request_view a p) cid false) b).
Proof.
  intros Hn Hc Ht. rewrite conflict_lost_final by done. etrans; [apply rebuild_party|].
  by apply accept_party.
Qed.

(** C38 (crossing checks keep the conflict): two agents hold the same role and the
    check of each is under way when the other's arrives.  The loser [b] switches on
    [a]'s check and back on the 487 that answers its own: the roles are equal again. *)
Theorem role_conflict_crossing a b p q cid cid' :
  request_ok a p → request_ok b q → keyed a b → keyed b a →
  plain_cid b cid → direct_cid a cid' →
  s_controlling a = s_controlling b → tiebreaker b < tiebreaker a → nominates a p = false →
  let b1 := final (on_carrier_data cid (request_bytes a p) false) b in
  let (a1, out) := exec (on_carrier_data cid' (request_bytes b q) false) a in
  s_controlling b1 = negb (s_controlling a)
  ∧ ∃ err, out = [ESend cid' err]
    ∧ s_controlling (final (on_carrier_data cid err false) b1) = s_controlling a1.
Proof.
  intros Hp Hq Hab Hba Hb Ha Hrole Htb Hn b1.
  assert (same_party (b <| s_controlling := negb (s_controlling a) |>) b1) as (_ & Hc1 & Hcr & Ht1 & Ht2).
  { unfold b1, final, exec. rewrite run_request by done.
    exact (conflict_lost_party a (touched b) p cid Hn (eq_sym Hrole) Htb). }
  change (s_controlling b1 = negb (s_controlling a)) in Hc1.
  change (s_creds b1 = s_creds b) in Hcr. change (s_turn b1 = s_turn b) in Ht1.
  change (s_turn_backup_probe b1 = s_turn_backup_probe b) in Ht2.
  assert (exec (on_carrier_data cid' (request_bytes b q) false) a
    = (touched a, [ESend cid' (conflict_bytes (cp_txn_id q) (local_pwd (s_creds a)))])) as ->.
  { unfold exec. rewrite run_request by (done || apply Ha).
    apply (conflict_won_run b (touched a)); [exact Ha|exact Hrole|].
    change (tiebreaker b ≤ tiebreaker a). lia. }
  split; [done|]. eexists; split; [done|].
  rewrite conflict_answer_role.
  - by rewrite Hc1, negb_involutive.
  - apply Hq.
  - unfold keyed. by rewrite Hcr.
  - unfold plain_cid. by rewrite Ht1, Ht2.
Qed.
End roles.

(** * Two agents, for the witnesses *)

Module ExchangeRef.
Definition host : Candidate := example_host <| c_transport := Udp |>.
Definition alice_creds : Creds := mkCreds (str "alice") (str "secret") (str "bob") (str "hidden").
Definition bob_creds : Creds := mkCreds (str "bob") (str "hidden") (str "alice") (str "secret").
Definition pair_of (txn : Z) (nominee : bool) : CheckPair :=
  (new_pair host host true (replicate 12 txn))
    <| cp_state := PInProgress |> <| cp_nominee_check_sent := nominee |>.
Definition agent (controlling : bool) (tb : Z) (c : Creds) (p : CheckPair) : IceSession :=
  (new_session (SessionRef.fixed default_config tb) controlling [] [] 1)
    <| s_creds := c |> <| s_state := Checking |> <| s_check_list := [p] |>.
Definition alice : IceSession := agent true 9 alice_creds (pair_of 1 false).
Definition bob : IceSession := agent true 5 bob_creds (pair_of 2 false).
End ExchangeRef.

Lemma keepalive_unanswered_witness :
  exec (on_carrier_data (H := InetRef.ops) (H0 := HmacRef.ops) (H1 := SessionRef.env) 3
    (keepalive_request (replicate 12 1)) false) ExchangeRef.bob = (touched ExchangeRef.bob, []).
Proof.
  apply (keepalive_unanswered (H := InetRef.ops) (H0 := HmacRef.ops) (H2 := SessionRef.env));
    [reflexivity|split; reflexivity].
Defined.

Lemma role_conflict_resolved_witness :
  s_controlling (final (on_carrier_data (H := InetRef.ops) (H0 := HmacRef.ops) (H1 := SessionRef.env)
    3 (request_bytes (H := HmacRef.ops) ExchangeRef.alice (ExchangeRef.pair_of 1 false)) false)
    ExchangeRef.bob) = false.
Proof.
  pose proof (role_conflict_resolved (H := InetRef.ops) (H0 := HmacRef.ops) (H1 := HmacRef.laws)
    (H2 := SessionRef.env) ExchangeRef.alice ExchangeRef.bob (ExchangeRef.pair_of 1 false) 3 4) as Hw.
  unfold final. destruct (exec _ _) as [b out]. cbn in Hw. apply Hw.
  - by vm_compute.
  - reflexivity.
  - by vm_compute.
  - by vm_compute.
  - reflexivity.
  - discriminate.
Defined.

Lemma role_conflict_crossing_witness :
  let b1 := final (on_carrier_data (H := InetRef.ops) (H0 := HmacRef.ops) (H1 := SessionRef.env) 3
    (request_bytes (H := HmacRef.ops) ExchangeRef.alice (ExchangeRef.pair_of 1 false)) false)
    ExchangeRef.bob in
  let (a1, out) := exec (on_carrier_data (H := InetRef.ops) (H0 := HmacRef.ops) (H1 := SessionRef.env) 4
    (request_bytes (H := HmacRef.ops) ExchangeRef.bob (ExchangeRef.pair_of 2 false)) false)
    ExchangeRef.alice in
  s_controlling b1 = false
  ∧ ∃ err, out = [ESend 4 err]
    ∧ s_controlling (final (on_carrier_data (H := InetRef.ops) (H0 := HmacRef.ops)
        (H1 := SessionRef.env) 3 err false) b1) = s_controlling a1.
Proof.
  apply (role_conflict_crossing (H := InetRef.ops) (H0 := HmacRef.ops) (H1 := HmacRef.laws)
    (H2 := SessionRef.env) ExchangeRef.alice ExchangeRef.bob (ExchangeRef.pair_of 1 false)
    (ExchangeRef.pair_of 2 false) 3 4).
  - by vm_compute.
  - by vm_compute.
  - reflexivity.
  - reflexivity.
  - by vm_compute.
  - by vm_compute.
  - reflexivity.
  - reflexivity.
  - reflexivity.
Defined.
