(* ===== verification/Nomination.v ===== *)
(** From a nominating check to a connected pair of sessions and the data parked for it,
    and from missed keepalives out of it. *)

From stdpp Require Import gmap.
From S2P Require Import Prelude Bytes Inet Candidate MdnsCodec Mdns Framing Stun Turn PathMtu.
From S2P Require Import SessionState Delivery CheckList Gather Session Exchange.

(** * Staying connected *)

(** State, configuration and consent are as they were. *)
Definition same_standing (s s' : IceSession) : Prop :=
  s_state s' = s_state s ∧ s_fixed s' = s_fixed s ∧ s_consent s' = s_consent s.
#[export] Instance same_standing_po : PreOrder same_standing.
Proof. split; [intros s; done|]. intros x y z. unfold same_standing. intuition congruence. Qed.

Lemma eps_only_standing {A} (m : session A) : keeps eps_only m → keeps same_standing m.
Proof. intros Hm s. destruct (Hm s) as (e & n & d & ->). done. Qed.
#[export] Hint Extern 2 (keeps same_standing _) =>
  apply eps_only_standing; solve [auto with ice] : ice.

(** The first keepalive cannot be the last one the configuration tolerates. *)
Definition tolerant (s : IceSession) : Prop := 1 < u32 (consent_max_failures (cfg s)).

Section nominated.
Context `{InetOps} `{Hmac} `{SessionEnv}.

Lemma txn_standing : keeps same_standing generate_txn_id.
Proof. unfold generate_txn_id. frame_auto. Qed.
#[local] Hint Resolve txn_standing : ice.
Lemma send_on_strand_standing buf : keeps same_standing (send_on_strand buf).
Proof. unfold send_on_strand, set_ordered, set_nom. frame_auto. Qed.
#[local] Hint Resolve send_on_strand_standing : ice.
Lemma flush_loop_standing n : keeps same_standing (flush_loop n).
Proof. induction n as [|n IH]; cbn [flush_loop]; frame_auto. Qed.
#[local] Hint Resolve flush_loop_standing : ice.
Lemma flush_standing : keeps same_standing flush_pending_app_data.
Proof. unfold flush_pending_app_data. frame_auto. Qed.
Lemma probe_standing : keeps same_standing start_path_mtu_probe.
Proof. unfold start_path_mtu_probe, set_pmtu, set_gens. frame_auto. Qed.
#[local] Hint Resolve flush_standing probe_standing : ice.

(** A keepalive tick below the limit. *)
Lemma keepalive_ok s :
  u32 (consent_missed (s_consent s) + 1) < u32 (consent_max_failures (cfg s)) →
  s_state (final on_keepalive s) = s_state s ∧ s_fixed (final on_keepalive s) = s_fixed s.
Proof.
  intros Hm. unfold on_keepalive. rewrite final_get.
  case_decide; [done|]. destruct (lite_mode _); [done|].
  unfold set_consent. rewrite final_modify. cbv zeta. rewrite decide_False by lia.
  match goal with |- s_state (final ?m ?s1) = _ ∧ _ => assert (keeps same_standing m) as Hk end.
  { unfold set_gens. frame_auto. }
  match type of Hk with keeps _ ?m =>
    match goal with |- s_state (final m ?s1) = _ ∧ _ => destruct (Hk s1) as (-> & -> & _) end end.
  done.
Qed.

(** [on_nominated] connects and reports it. *)
Lemma on_nominated_connects ip port relay cid tx s : tolerant s →
  s_state (final (on_nominated ip port relay cid tx) s) = Connected
  ∧ EConnected ip port ∈ outputs (on_nominated ip port relay cid tx) s.
Proof.
  intros Ht. unfold on_nominated, set_gens, set_state, set_consent, set_nom.
  rewrite !final_modify, !outputs_modify.
  match goal with |- s_state (final _ ?x) = _ ∧ _ => set (s1 := x) end.
  rewrite final_get, outputs_get.
  assert (s_state s1 = Connected ∧ s_fixed s1 = s_fixed s ∧ consent_missed (s_consent s1) = 0)
    as (Hs & Hf & Hc) by done.
  clearbody s1. split.
  - assert (∀ m : session unit, keeps same_standing m →
      s_state (final m s1) = Connected ∧ s_fixed (final m s1) = s_fixed s
      ∧ consent_missed (s_consent (final m s1)) = 0) as Hkeep.
    { intros m Hm. destruct (Hm s1) as (-> & -> & ->). done. }
    rewrite final_bind. match goal with |- s_state (final _ (final ?m s1)) = _ =>
      destruct (Hkeep m) as (Hs' & Hf' & Hc'); [frame_auto|];
      revert Hs' Hf' Hc'; generalize (final m s1) end.
    clear dependent s1. intros s1 Hs Hf Hc.
    rewrite final_bind. destruct (flush_standing s1) as (Es & Ef & Ec).
    rewrite final_bind, (final_bind start_keepalive).
    set (s2 := final flush_pending_app_data s1) in *.
    change (final (emit (EConnected ip port)) s2) with s2.
    destruct (keepalive_ok s2) as [Hk _].
    { rewrite Ec, Ef, Hc, Hf. exact Ht. }
    unfold start_keepalive. rewrite final_get.
    match goal with |- s_state (final ?m _) = _ => assert (keeps same_standing m) as Hm end.
    { unfold set_pmtu. frame_auto. }
    destruct (Hm (final on_keepalive s2)) as (-> & _). congruence.
  - rewrite !outputs_bind. rewrite !elem_of_app. right; right; left. by left.
Qed.

(** A keepalive tick below the limit parks and flushes nothing. *)
Lemma keepalive_parked s :
  u32 (consent_missed (s_consent s) + 1) < u32 (consent_max_failures (cfg s)) →
  same_parked s (final on_keepalive s).
Proof.
  intros Hm. unfold on_keepalive. rewrite final_get.
  case_decide; [done|]. destruct (lite_mode _); [done|].
  unfold set_consent. rewrite final_modify. cbv zeta. rewrite decide_False by lia.
  match goal with |- same_parked _ (final ?m ?s1) => assert (keeps same_parked m) as Hk end.
  { unfold set_gens, generate_txn_id. keeps_auto ltac:(done). }
  etrans; [|apply Hk]. done.
Qed.

(** The end of [on_nominated], on a session that is set up for its path. *)
Lemma nominated_flushes s1 ip port (bind : bool) : 
  path_open s1 → is_u32 (send_data_seq (s_ordered s1)) → consent_missed (s_consent s1) = 0 → tolerant s1 →
  let m := (if bind then emit (ETurnBind ip port) else skip) ;;
    flush_pending_app_data ;;
    emit (EConnected ip port) ;;
    start_keepalive ;;
    s ← get;
    if pmtu_active_probing (cfg s) && bool_decide (pmtu_probe (s_pmtu s) = None) then
      set_pmtu (λ p, p <| pmtu_probe := Some (new_probe (path_mtu (cfg s)) (pmtu_search_steps (cfg s))) |>) ;;
      start_path_mtu_probe
    else skip in
  (∃ rest, outputs m s1 = (if bind then [ETurnBind ip port] else [])
     ++ imap (λ i d, path_event s1 (path_frame s1 i d)) (s_pending_app_data s1)
     ++ EConnected ip port :: rest)
  ∧ s_pending_app_data (final m s1) = [].
Proof.
  intros Hp Hq Hc Ht m. destruct (flush_path s1 Hp Hq) as [Hfo Hff].
  unfold m. rewrite outputs_bind, final_bind.
  assert (∀ b : bool, outputs (if b then emit (ETurnBind ip port) else skip) s1
      = (if b then [ETurnBind ip port] else [])
    ∧ final (if b then emit (ETurnBind ip port) else skip) s1 = s1) as Hb by (by intros []).
  destruct (Hb bind) as [-> ->]. rewrite outputs_bind, final_bind, Hfo.
  destruct (flush_standing s1) as (Es & Ef & Ec). unfold tolerant, cfg in *.
  set (s2 := final flush_pending_app_data s1) in *. clearbody s2.
  rewrite outputs_bind, final_bind. change (outputs (emit _) s2) with [EConnected ip port].
  change (final (emit (EConnected ip port)) s2) with s2. split; [by eexists|].
  rewrite final_bind. pose proof (keepalive_parked s2) as Hk. unfold same_parked, cfg in Hk.
  rewrite Ec, Ef, Hc, Hff in Hk. specialize (Hk Ht). unfold start_keepalive.
  revert Hk. generalize (final on_keepalive s2). intros s3 Hk. rewrite final_get.
  match goal with |- s_pending_app_data (final ?n s3) = _ => assert (keeps same_parked n) as Hn end.
  { unfold start_path_mtu_probe, generate_txn_id, set_gens, set_pmtu. keeps_auto ltac:(done). }
  by rewrite (Hn s3).
Qed.

(** C23 (parked data): what the application sends before the session is connected does
    not go out but is kept, the [kPendingAppDataMaxFrames] most recent frames of it.
    When a pair is nominated -- a relayed one, or one whose connection and carrier are
    there -- all of it goes out on the nominated path, through the relay, over TCP or
    over UDP, in the order it was sent, with consecutive sequence numbers where delivery
    is ordered, before the connection is reported; and nothing stays parked. *)
Theorem parked_data_flushed s ds ip port relay cid tx :
  s_state s ≠ Connected → s_pending_app_data s = [] → is_u32 (send_data_seq (s_ordered s)) →
  tolerant s →
  let via_relay := relay && bool_decide (s_turn s ≠ None) in
  let tcp := transport_is_tcp tx in
  (via_relay = false →
     cid ≠ 0 ∧ (if tcp then f_carrier_tcp (s_fixed s) else f_carrier (s_fixed s)) = true) →
  let frame i d :=
    if ordered_delivery (cfg s) && negb tcp
    then write32 (u32 (send_data_seq (s_ordered s) + Z.of_nat i)) ++ d else d in
  let transmit out :=
    if via_relay then ETurnSend ip port out
    else if tcp then ESendTcp cid (frame_tcp_stun out) else ESend cid out in
  let parked := final (for_each send ds) s in
  outputs (for_each send ds) s = []
  ∧ (∃ rest, outputs (on_nominated ip port relay cid tx) parked
     = (if via_relay then [ETurnBind ip port] else [])
       ++ imap (λ i d, transmit (frame i d)) (last_n kPendingAppDataMaxFrames ds)
       ++ EConnected ip port :: rest)
  ∧ s_pending_app_data (final (on_nominated ip port relay cid tx) parked) = [].
Proof.
  intros Hst He Hq Ht via_relay tcp Hpath frame transmit parked.
  destruct (send_all_parked s ds Hst) as [Ho Hpend].
  { rewrite He. unfold kPendingAppDataMaxFrames. cbn. lia. }
  split; [done|]. rewrite He, app_nil_l in Hpend. fold parked in Hpend.
  destruct (parked_frame s ds Hst) as (t & l & Hf). fold parked in Hf.
  unfold on_nominated, set_gens, set_state, set_consent, set_nom. rewrite !outputs_modify, !final_modify.
  match goal with |- (∃ _, outputs _ ?x = _) ∧ _ => set (s1 := x) end. rewrite outputs_get, final_get.
  assert (s_turn s1 = s_turn s ∧ s_fixed s1 = s_fixed s ∧ s_ordered s1 = s_ordered s
    ∧ s_pending_app_data s1 = last_n kPendingAppDataMaxFrames ds
    ∧ consent_missed (s_consent s1) = 0
    ∧ ∃ lt rt, s_nom s1 = mkNominated ip port relay lt rt cid tx)
    as (E1 & E2 & E3 & E4 & E5 & lt & rt & E6).
  { unfold s1. rewrite <- Hpend, Hf. split_and!; try done. by do 2 eexists. }
  clearbody s1. assert (relayed s1 = via_relay) as Er by (unfold relayed; by rewrite E1, E6).
  destruct (nominated_flushes s1 ip port via_relay) as [[rest Hr] Hz].
  - unfold path_open. by rewrite Er, E2, E6.
  - by rewrite E3.
  - done.
  - unfold tolerant, cfg. by rewrite E2.
  - rewrite E1. fold via_relay. split; [|exact Hz]. exists rest. rewrite Hr, E4. do 2 f_equal.
    apply imap_ext. intros i d _. cbn. unfold path_event, path_frame, numbered, cfg.
    by rewrite Er, E2, E3, E6.
Qed.
End nominated.

(** * The nomination exchange *)

(** [s] waits for the answer to its check of [p], at index [i]. *)
Record awaiting (s : IceSession) (i : nat) (p : CheckPair) : Prop := {
  aw_checking : s_state s = Checking;
  aw_found : find_txn (cp_txn_id p) (s_check_list s) = Some (i, p);
  aw_not_gathering : cp_txn_id p ∉ pending_stun_probes (s_gather s);
  aw_no_probe : pmtu_inflight (s_pmtu s) = false;
}.

(** [s] has a verified UDP pair towards the endpoint behind [cid]. *)
Definition verified_peer `{InetOps} (s : IceSession) (cid : Z) (ep : EndpointInfo) : Prop :=
  cid_to_endpoint_udp (s_eps s) !! cid = Some ep ∧ ep_ip ep ≠ []
  ∧ ∃ j q, list_find (λ p, address_str (cp_remote p) = ep_ip ep
      ∧ c_port (cp_remote p) = ep_port ep ∧ cp_transport_type p = Udp) (s_check_list s) = Some (j, q)
    ∧ cp_state q = PSucceeded.

Section exchange.
Context `{InetOps} `{HmacLaws} `{SessionEnv}.

(** The controlling side on the success answer to a nominating check. *)
Lemma controlling_connects s p : nominates s p = true → tolerant s →
  s_state (final (controlling_success p) s) = Connected
  ∧ EConnected (address_str (cp_remote p)) (c_port (cp_remote p)) ∈ outputs (controlling_success p) s.
Proof.
  intros Hn Ht. unfold nominates in Hn. apply andb_true_iff in Hn as [_ Hn].
  unfold controlling_success. rewrite final_get, outputs_get, Hn. cbv zeta.
  match goal with |- s_state (final (?m ≫= _) s) = _ ∧ _ =>
    assert (keeps same_standing m) as Hm by frame_auto; destruct (Hm s) as (_ & Hf & _);
    rewrite final_bind, outputs_bind; revert Hf; generalize (final m s) end.
  intros s1 Hf. assert (tolerant s1) as Ht1 by (unfold tolerant; by rewrite Hf).
  split; [|apply elem_of_app; right]; by apply on_nominated_connects.
Qed.

Lemma check_answered_connects a i p : awaiting a i p → nominates a p = true → tolerant a →
  s_state (final (on_binding_response Checking (success_view (cp_txn_id p))) a) = Connected
  ∧ EConnected (address_str (cp_remote p)) (c_port (cp_remote p))
    ∈ outputs (on_binding_response Checking (success_view (cp_txn_id p))) a.
Proof.
  intros [Hs Hi Hg Hp] Hn Ht. unfold on_binding_response. rewrite final_get, outputs_get, Hp.
  cbn [andb]. rewrite decide_False by done.
  unfold handle_check_response. rewrite final_get, outputs_get, decide_False by (intros E; by apply E).
  change (txn_id (success_view (cp_txn_id p))) with (cp_txn_id p). rewrite Hi.
  unfold set_nom, set_pair, set_check_list. rewrite !final_modify, !outputs_modify.
  unfold learn_prflx. change (xor_mapped (success_view (cp_txn_id p))) with (@None MappedAddress).
  cbv iota. unfold skip. rewrite final_bind, outputs_bind.
  match goal with |- context [final (mret tt) ?x] => set (s1 := x) end.
  change (final (mret tt) s1) with s1. change (outputs (mret tt) s1) with (@nil session_event).
  cbn [app run mret eff_ret fst snd]. rewrite !final_modify, !outputs_modify, final_get, outputs_get.
  match goal with |- context [s_controlling ?x] => set (s2 := x) end.
  assert (s_controlling s2 = s_controlling a) as -> by done.
  assert (s_controlling a = true) as Hc by (by apply andb_true_iff in Hn as [? _]).
  rewrite Hc. cbn [negb andb]. apply controlling_connects; [|exact Ht].
  unfold nominates. change (s_controlling s2) with (s_controlling a).
  change (cfg s2) with (cfg a). exact Hn.
Qed.

Lemma use_candidate_nominates b cid ep : cid ∉ relay_cids (s_eps b) → verified_peer b cid ep →
  final (on_use_candidate cid false (ep_ip ep) (ep_port ep)) b
    = final (on_nominated (ep_ip ep) (ep_port ep) false cid Udp) b
  ∧ outputs (on_use_candidate cid false (ep_ip ep) (ep_port ep)) b
    = outputs (on_nominated (ep_ip ep) (ep_port ep) false cid Udp) b.
Proof.
  intros Hr (_ & _ & j & q & Hfind & Hq). unfold on_use_candidate. rewrite final_get, outputs_get.
  cbv zeta. rewrite Hfind, decide_True by done. rewrite (bool_decide_false (cid ∈ _)) by done.
  split; reflexivity.
Qed.

#[local] Hint Resolve transmit_check_frame : ice.
Lemma send_check_standing i : keeps same_standing (send_check i).
Proof. unfold send_check, set_pair, set_check_list. frame_auto. Qed.
#[local] Hint Resolve send_check_standing txn_standing : ice.
Lemma trigger_standing ip port : keeps same_standing (maybe_trigger_check_from_peer ip port).
Proof. unfold maybe_trigger_check_from_peer, push_pair, set_check_list. frame_auto. Qed.

(** The controlled side on a nominating check of a verified pair. *)
Lemma use_candidate_connects b m cid ep : use_candidate m = true → s_controlling b = false →
  direct_cid b cid → verified_peer b cid ep → tolerant b →
  ∃ rest, outputs (accept_request m cid false) b
    = ESend cid (success_bytes (txn_id m) (local_pwd (s_creds b))) :: rest
  ∧ EConnected (ep_ip ep) (ep_port ep) ∈ rest
  ∧ s_state (final (accept_request m cid false) b) = Connected.
Proof.
  intros Hm Hc (_ & Hf & Hr) Hv Ht.
  destruct (on_nominated_connects (ep_ip ep) (ep_port ep) false cid Udp b Ht) as [Hs Hin].
  unfold accept_request. rewrite final_get, outputs_get, final_bind, outputs_bind.
  fold (success_bytes (txn_id m) (local_pwd (s_creds b))).
  set (resp := success_bytes (txn_id m) (local_pwd (s_creds b))).
  assert (exec (answer cid false resp) b = (b, [ESend cid resp])) as E
    by (unfold exec; by rewrite run_answer).
  replace (final (answer cid false resp) b) with b by (unfold final; by rewrite E).
  replace (outputs (answer cid false resp) b) with [ESend cid resp] by (unfold outputs; by rewrite E).
  cbn [app].
  rewrite final_get, outputs_get. cbv zeta. pose proof Hv as (He & Hne & _).
  rewrite He, Hm, Hc, bool_decide_false by done. cbn [negb andb].
  eexists; split; [reflexivity|]. rewrite outputs_bind, final_bind, elem_of_app.
  destruct (use_candidate_nominates b cid ep Hr Hv) as [Ef Eo]. split.
  - left. rewrite Eo. exact Hin.
  - destruct (trigger_standing (ep_ip ep) (ep_port ep)
      (final (on_use_candidate cid false (ep_ip ep) (ep_port ep)) b)) as (-> & _).
    rewrite Ef. exact Hs.
Qed.

(** C3 (a nominating check connects both sides): [a] is controlling and sends the
    nominating check of a pair, [b] is controlled and has verified the path.  [b]
    answers with a success response and connects; on that response [a] connects. *)
Theorem nomination_connects a b i p cid cid' ep :
  request_ok a p → keyed a b → direct_cid b cid → plain_cid a cid' →
  nominates a p = true → s_controlling b = false →
  awaiting a i p → verified_peer b cid ep → tolerant a → tolerant b →
  let (b', out) := exec (on_carrier_data cid (request_bytes a p) false) b in
  ∃ resp rest, out = ESend cid resp :: rest
  ∧ s_state b' = Connected ∧ EConnected (ep_ip ep) (ep_port ep) ∈ rest
  ∧ let (a', out') := exec (on_carrier_data cid' resp false) a in
    s_state a' = Connected
    ∧ EConnected (address_str (cp_remote p)) (c_port (cp_remote p)) ∈ out'.
Proof.
  intros Hok Hk Hd Hc Hn Hb Ha Hv Hta Htb.
  rewrite (surjective_pairing (exec (on_carrier_data _ _ _) b)).
  change (exec ?m ?s).1 with (final m s). change (exec ?m ?s).2 with (outputs m s).
  destruct (run_request_accepted a b p cid Hok Hk (proj1 Hd)) as [-> ->].
  { rewrite Hb. by apply andb_true_iff in Hn as [-> _]. }
  destruct (use_candidate_connects (touched b) (request_view a p) cid ep) as (rest & Ho & Hin & Hs);
    [exact Hn|exact Hb|exact Hd|exact Hv|exact Htb|].
  exists (success_bytes (cp_txn_id p) (local_pwd (s_creds b))), rest.
  split; [exact Ho|]. split; [exact Hs|]. split; [exact Hin|].
  rewrite (surjective_pairing (exec _ a)).
  change (exec ?m ?s).1 with (final m s). change (exec ?m ?s).2 with (outputs m s).
  destruct (run_success_at a b (cp_txn_id p) cid') as [-> ->];
    [apply Hok|exact Hk|exact Hc|apply Ha|].
  rewrite (aw_checking _ _ _ Ha).
  apply (check_answered_connects (touched a) i p); [destruct Ha; by split|exact Hn|exact Hta].
Qed.
End exchange.

(** * Consent *)

(** Once off the air, a session does not come back by itself. *)
Definition off_air (s s' : IceSession) : Prop := s_state s ≠ Connected → s_state s' ≠ Connected.
#[export] Instance off_air_po : PreOrder off_air.
Proof. split; unfold off_air; [intros s; done|]. intros x y z. auto. Qed.

Ltac off_auto := keeps_auto ltac:(intros ?; unfold off_air; done).

Lemma standing_off {A} (m : session A) : keeps same_standing m → keeps off_air m.
Proof. intros Hm s Hs. by destruct (Hm s) as (-> & _). Qed.
#[export] Hint Extern 3 (keeps off_air _) => apply standing_off; solve [auto with ice] : ice.

Section consent.
Context `{InetOps} `{Hmac} `{SessionEnv}.
#[local] Hint Resolve txn_standing send_check_standing : ice.

Lemma set_list_off f : keeps off_air (set_check_list f).
Proof. unfold set_check_list. off_auto. Qed.
#[local] Hint Resolve set_list_off : ice.
Lemma retransmit_off i : keeps off_air (retransmit_one i).
Proof. unfold retransmit_one, set_pair. off_auto. Qed.
Lemma promote_off idxs : keeps off_air (promote_loop idxs).
Proof. induction idxs as [|i idxs IH]; cbn [promote_loop]; unfold set_pair; off_auto. Qed.
Lemma begin_loop_off idxs b4 b6 : keeps off_air (begin_loop idxs b4 b6).
Proof.
  revert b4 b6. induction idxs as [|i idxs IH]; intros; cbn [begin_loop]; unfold set_pair; off_auto.
Qed.
#[local] Hint Resolve retransmit_off promote_off begin_loop_off : ice.
Lemma run_next_check_off : keeps off_air run_next_check.
Proof. unfold run_next_check, checks_exhausted, fail_session, set_state, set_gens. off_auto. Qed.
#[local] Hint Resolve run_next_check_off : ice.
Lemma begin_checks_off : keeps off_air begin_checks.
Proof. unfold begin_checks. off_auto. Qed.
Lemma predict_off n k stride pair : keeps off_air (predict_pairs n k stride pair).
Proof. revert k. induction n as [|n IH]; intros; cbn [predict_pairs]; unfold push_pair; off_auto. Qed.
#[local] Hint Resolve predict_off : ice.
Lemma build_check_list_off : keeps off_air build_check_list.
Proof. unfold build_check_list, assign_local_foundations, add_pair, push_pair. off_auto. Qed.
#[local] Hint Resolve build_check_list_off begin_checks_off : ice.
Lemma gathering_complete_off : keeps off_air on_gathering_complete.
Proof. unfold on_gathering_complete, set_gather, set_gens, set_state. off_auto. Qed.
#[local] Hint Resolve gathering_complete_off : ice.
Lemma gather_relay_off : keeps off_air gather_relay.
Proof.
  unfold gather_relay, try_next_turn_attempt, relay_gathered, next_attempt, build_turn_client, dial,
    set_relay, set_gather, set_gens.
  off_auto.
Qed.
#[local] Hint Resolve gather_relay_off : ice.
Lemma push_allowed_off ty c : keeps off_air (push_allowed ty c).
Proof. unfold push_allowed, push_local. off_auto. Qed.
#[local] Hint Resolve push_allowed_off : ice.

(** [leaves m]: whatever the state, [m] ends off the air. *)
Definition leaves {A} (m : session A) : Prop := ∀ s, s_state (final m s) ≠ Connected.

Lemma leaves_bind {A B} (m : session A) (f : A → session B) : (∀ a, leaves (f a)) → leaves (m ≫= f).
Proof. intros Hf s. rewrite final_bind. apply Hf. Qed.
Lemma leaves_set {A} st (m : unit → session A) : st ≠ Connected → keeps off_air (m tt) →
  leaves (set_state st ≫= m).
Proof. intros Hst Hm s. unfold set_state. rewrite final_modify. by apply Hm. Qed.

Lemma gather_leaves : leaves gather.
Proof.
  apply leaves_set; [done|].
  unfold gather_host_candidates, gather_tcp_host_candidates, gather_portmap, push_local, set_gather.
  off_auto.
Qed.
Lemma restart_leaves s : s_state s = Connected → s_state (final restart s) ≠ Connected.
Proof.
  intros Hs. unfold restart. rewrite final_get, decide_False by congruence.
  match goal with |- s_state (final ?m _) ≠ _ => enough (leaves m) as Hl by apply Hl end.
  repeat match goal with |- leaves (_ ≫= _) => apply leaves_bind; intros ? end.
  apply gather_leaves.
Qed.

(** A connected session that expects answers to its keepalives, none being due to an
    earlier restart: [on_nominated] resets the restart clock. *)
Definition listening (s : IceSession) : Prop :=
  s_state s = Connected ∧ lite_mode (cfg s) = false ∧ auto_restart_last (s_consent s) = None.

(** A tick at the limit. *)
Lemma keepalive_last s : listening s →
  u32 (consent_max_failures (cfg s)) ≤ u32 (consent_missed (s_consent s) + 1) →
  s_state (final on_keepalive s) ≠ Connected.
Proof.
  intros (Hs & Hl & Ha) Hm. unfold on_keepalive.
  rewrite final_get, decide_False, Hl by (intros E; by apply E). cbv zeta.
  unfold set_consent. rewrite final_modify, decide_True by done.
  case_decide.
  - rewrite final_modify.
    apply leaves_set; [done|]. off_auto.
  - set (s1 := s <| s_consent := _ |>). rewrite final_bind.
    change (final skip ?x) with x.
    unfold notify_consent_loss. rewrite final_get. cbv zeta.
    change (auto_restart_last (s_consent s1)) with (auto_restart_last (s_consent s)). rewrite Ha.
    case_match; [|by rewrite final_bind].
    unfold set_consent. rewrite final_modify, final_bind, final_bind.
    change (final (mret true) ?x) with x.
    apply restart_leaves. exact Hs.
Qed.

(** A tick below the limit. *)
Lemma keepalive_counts s : listening s →
  u32 (consent_missed (s_consent s) + 1) < u32 (consent_max_failures (cfg s)) →
  listening (final on_keepalive s) ∧ s_fixed (final on_keepalive s) = s_fixed s
  ∧ consent_missed (s_consent (final on_keepalive s)) = u32 (consent_missed (s_consent s) + 1).
Proof.
  intros (Hs & Hl & Ha) Hm. unfold on_keepalive.
  rewrite final_get, decide_False, Hl by (intros E; by apply E). cbv zeta.
  unfold set_consent. rewrite final_modify, decide_False by lia.
  match goal with |- listening (final ?m ?s1) ∧ _ =>
    assert (keeps same_standing m) as Hk by (unfold set_gens; frame_auto);
    destruct (Hk s1) as (E1 & E2 & E3) end.
  unfold listening. rewrite E1, E2, E3. done.
Qed.

Lemma keepalives_count s n : listening s → consent_missed (s_consent s) = 0 →
  Z.of_nat n < u32 (consent_max_failures (cfg s)) →
  let s' := Nat.iter n (final on_keepalive) s in
  listening s' ∧ s_fixed s' = s_fixed s ∧ consent_missed (s_consent s') = Z.of_nat n.
Proof.
  intros Hs H0' . induction n as [|n IH]; intros Hn; [done|].
  destruct IH as (Hl & Hf & Hm); [lia|]. cbv zeta. rewrite Nat.iter_succ.
  pose proof (u32_range (consent_max_failures (cfg s))) as Hr.
  assert (u32 (Z.of_nat n + 1) = Z.of_nat (S n)) as Eu by (rewrite u32_id; unfold_ints; lia).
  destruct (keepalive_counts _ Hl) as (Hl' & Hf' & Hm').
  { rewrite Hm, Hf, Eu. done. }
  split; [done|]. rewrite Hf', Hm', Hm, Eu. done.
Qed.

(** C15 (consent expires): a connected session that hears nothing stays connected for
    [consent_max_failures] keepalive ticks and is no longer connected after the last
    of them. *)
Theorem consent_expires s : listening s → consent_missed (s_consent s) = 0 →
  0 < u32 (consent_max_failures (cfg s)) →
  let limit := Z.to_nat (u32 (consent_max_failures (cfg s))) in
  (∀ n, (n < limit)%nat → s_state (Nat.iter n (final on_keepalive) s) = Connected)
  ∧ s_state (Nat.iter limit (final on_keepalive) s) ≠ Connected.
Proof.
  intros Hs H0' Hpos limit. split.
  - intros n Hn. by destruct (keepalives_count s n Hs H0') as ((-> & _) & _); [lia|].
  - destruct limit as [|n] eqn:El; [lia|]. rewrite Nat.iter_succ.
    destruct (keepalives_count s n Hs H0') as (Hl & Hf & Hm); [lia|].
    pose proof (u32_range (consent_max_failures (cfg s))) as Hr.
    apply keepalive_last; [done|]. rewrite Hf, Hm, (u32_id (Z.of_nat n + 1)); unfold_ints; lia.
Qed.
End consent.

(** * Witnesses *)

Module NominationRef.
Import ExchangeRef.
Definition nominee : CheckPair := pair_of 1 true.
Definition a : IceSession := agent true 9 alice_creds nominee.
(** [b] has verified the path to [a] over connection 3. *)
Definition ep `{InetOps} : EndpointInfo := mkEndpoint (address_str host) (c_port host) Udp.
Definition b `{InetOps} : IceSession :=
  (agent false 5 bob_creds ((pair_of 2 false) <| cp_state := PSucceeded |> <| cp_valid := true |>))
    <| s_eps := mkEndpoints ∅ {[3 := ep]} ∅ ∅ ∅ 0xC000000000000000 ∅ ∅ |>.
Definition connected : IceSession := a <| s_state := Connected |>.
End NominationRef.

Lemma nomination_connects_witness :
  let (b', out) := exec (on_carrier_data (H := InetRef.ops) (H0 := HmacRef.ops) (H1 := SessionRef.env)
    3 (request_bytes (H := HmacRef.ops) NominationRef.a NominationRef.nominee) false)
    (NominationRef.b (H := InetRef.ops)) in
  ∃ resp rest, out = ESend 3 resp :: rest ∧ s_state b' = Connected
  ∧ EConnected (ep_ip (NominationRef.ep (H := InetRef.ops)))
      (ep_port (NominationRef.ep (H := InetRef.ops))) ∈ rest
  ∧ let (a', out') := exec (on_carrier_data (H := InetRef.ops) (H0 := HmacRef.ops)
      (H1 := SessionRef.env) 4 resp false) NominationRef.a in
    s_state a' = Connected
    ∧ EConnected (address_str (H := InetRef.ops) (cp_remote NominationRef.nominee))
        (c_port (cp_remote NominationRef.nominee)) ∈ out'.
Proof.
  apply (nomination_connects (H := InetRef.ops) (H0 := HmacRef.ops) (H1 := HmacRef.laws)
    (H2 := SessionRef.env) NominationRef.a NominationRef.b 0 NominationRef.nominee 3 4 NominationRef.ep).
  - by vm_compute.
  - reflexivity.
  - by vm_compute.
  - by vm_compute.
  - reflexivity.
  - reflexivity.
  - split; [reflexivity|reflexivity|apply not_elem_of_nil|reflexivity].
  - split; [reflexivity|]. split; [by vm_compute|]. eexists _, _. split; vm_compute; reflexivity.
  - reflexivity.
  - reflexivity.
Defined.

(** Three frames parked, then the pair of connection 3 is nominated; delivery is ordered. *)
Lemma parked_data_flushed_witness :
  let s := SessionRef.ordered_new in
  let parked := final (for_each (send (H := SessionRef.env)) [str "a"; str "b"; str "c"]) s in
  ∃ rest, outputs (on_nominated (H0 := HmacRef.ops) (H := InetRef.ops) (H1 := SessionRef.env)
      (str "10.0.0.2") 9 false 3 Udp) parked
    = [ESend 3 (write32 0 ++ str "a"); ESend 3 (write32 1 ++ str "b"); ESend 3 (write32 2 ++ str "c");
       EConnected (str "10.0.0.2") 9] ++ rest.
Proof.
  intros s parked.
  destruct (parked_data_flushed (H := InetRef.ops) (H0 := HmacRef.ops) (H1 := SessionRef.env)
    s [str "a"; str "b"; str "c"] (str "10.0.0.2") 9 false 3 Udp) as (_ & [rest Hr] & _);
    [done | done | by compute | by vm_compute | by intros _ |].
  exists rest. exact Hr.
Defined.

Lemma consent_expires_witness :
  s_state (Nat.iter 3 (final (on_keepalive (H := InetRef.ops) (H0 := HmacRef.ops)
    (H1 := SessionRef.env))) NominationRef.connected) ≠ Connected.
Proof.
  apply (consent_expires (H := InetRef.ops) (H0 := HmacRef.ops) (H1 := SessionRef.env)
    NominationRef.connected); [by split_and!|reflexivity|reflexivity].
Defined.
