(* ===== verification/Lifecycle.v ===== *)
(** How sessions probe, gather and end: the size of path MTU probes, the
    server-reflexive phase, and the finality of [close]. *)

From stdpp Require Import gmap.
From S2P Require Import Prelude Bytes Inet Candidate MdnsCodec Mdns Framing Stun Turn PathMtu.
From S2P Require Import SessionState Delivery CheckList Gather Session Exchange Nomination.

(** * Path MTU probes on the wire *)

(** The probe before padding. *)
Definition probe_builder (s : IceSession) (txn : bytes) : StunBuilder :=
  let b := add_priority 0 (add_username (check_username s) (new_builder STUN_BINDING_REQUEST txn)) in
  if s_controlling s then add_ice_controlling (f_tiebreaker (s_fixed s)) b
  else add_ice_controlled (f_tiebreaker (s_fixed s)) b.

Lemma probe_represents s txn : represents (probe_builder s txn)
  [(STUN_ATTR_USERNAME, check_username s); (STUN_ATTR_PRIORITY, write32 0);
   (if s_controlling s then STUN_ATTR_ICE_CONTROLLING else STUN_ATTR_ICE_CONTROLLED,
    write64 (f_tiebreaker (s_fixed s)))].
Proof.
  unfold probe_builder. destruct (s_controlling s);
    exact (represents_add_attr _ [_; _] _ _ (represents_add_attr _ [_] _ _
      (represents_add_attr _ [] _ _ (represents_new _ _)))).
Qed.

Lemma padding_txn n b : txn_id_ (add_padding_to n b) = txn_id_ b.
Proof. unfold add_padding_to. cbv zeta. by repeat case_match. Qed.

(** Probes are larger than what they probe: a probe for a path MTU of [target]
    bytes, a multiple of four the bare request is below, is a datagram payload of
    [target + 32] bytes: padding is computed before MESSAGE-INTEGRITY and FINGERPRINT
    are added. *)
Theorem pmtu_probe_oversize `{HmacLaws} s txn target :
  length txn = 12%nat → target mod 4 = 0 →
  Z.of_nat (length (build (probe_builder s txn))) < target ≤ 65535 →
  Z.of_nat (length (pmtu_request s txn target)) = target + 32.
Proof.
  intros Htx Hmod Hlt. unfold pmtu_request.
  change (if s_controlling s then _ else _) with (probe_builder s txn).
  set (b := probe_builder s txn) in *.
  assert (txn_id_ b = txn) as Eb by (unfold b, probe_builder; by destruct (s_controlling s)).
  set (b1 := add_padding_to (Z.to_nat target) b).
  assert (length (txn_id_ b1) = 12%nat) as H1 by (unfold b1; by rewrite padding_txn, Eb).
  assert (length (build b1) = Z.to_nat target) as H2.
  { unfold b1. rewrite (add_padding_size b _ _ (probe_represents s txn)) by (by rewrite Eb).
    assert (Z.to_nat target mod 4 = 0)%nat as -> by dm_lia.
    rewrite decide_True by lia. lia. }
  unfold build in H2. rewrite (length_message b1 0 H1) in H2.
  assert (length (attrs_ b1) mod 4 = 0)%nat as H3 by dm_lia.
  unfold add_fingerprint, add_integrity, add_attr_u32, build. rewrite length_message by done.
  rewrite length_add_attr, length_add_attr, hmac_length, length_write32; [|done|].
  - change (align4 (4 + 4)) with 8%nat. change (align4 (4 + 20)) with 24%nat. lia.
  - rewrite length_add_attr, hmac_length by done. change (align4 (4 + 20)) with 24%nat. dm_lia.
Qed.

(** * After close *)

(** A closed session: [Failed], no peer connections, [d] connections dialled so far, and
    the relay attempts and nomination waits of the generations before [g] are void. *)
Record dead (g : Gens) (d : nat) (s : IceSession) : Prop := {
  dead_state : s_state s = Failed;
  dead_udp : cid_to_endpoint_udp (s_eps s) = ∅;
  dead_tcp : cid_to_endpoint_tcp (s_eps s) = ∅;
  dead_gen : (turn_allocate_gen g ≤ turn_allocate_gen (s_gens s)
              ∧ nomination_wait_gen g ≤ nomination_wait_gen (s_gens s))%nat;
  dead_dials : s_dials s = d;
}.

(** A Binding success or error response, by its message type. *)
Definition binding_reply (d : bytes) : Prop :=
  read16 d 0 = Some STUN_BINDING_RESPONSE ∨ read16 d 0 = Some STUN_BINDING_ERROR.

(** What a closed session may still do: answer a Binding request, announce its candidates
    when a STUN server answers a probe sent before, hand what a TURN
    server sent to its client, release what it holds, and arm timers that find it
    closed. *)
Definition quiet (e : session_event) : Prop :=
  match e with
  | ESend _ d => binding_reply d
  | ESendTcp _ d => ∃ r, d = frame_tcp_stun r ∧ binding_reply r
  | ETurnInbound _ | ETurnBackupInbound _ | ETurnClose | ETurnBackupClose
  | EDisconnect _ | EDisconnectTcp _ | EMdnsUnregister _ | EPortmapRelease _ _
  | EGathered _ | EMdnsResolve _ _ _ | ETimer _ _ _ | ELock | EUnlock => True
  | _ => False
  end.

(** Decompose a handler; what it reads is a closed session. *)
Ltac safe_auto :=
  repeat match goal with
    | |- ∀ _, _ => intro
    | |- safe _ _ (get ≫= _) => apply safe_get; intros ? []
    | |- safe _ _ (_ ≫= _) => apply safe_bind
    | |- safe _ _ skip => apply safe_skip
    | |- safe _ _ (mret _) => apply safe_ret
    | |- safe _ _ (emit _) => apply safe_emit; exact I
    | |- safe _ _ announce_gathered => unfold announce_gathered
    | |- safe _ _ (for_each _ _) => apply safe_for_each
    | |- safe _ _ (modify _) => apply safe_modify; intros ? []; split; cbn; (assumption || reflexivity || lia)
    | |- safe _ _ (let _ := _ in _) => cbv zeta
    | |- _ => solve [auto with ice]
    | E : s_state ?s = Failed |- context [s_state ?s] => rewrite E
    | |- context [bool_decide (Failed = ?st1 ∨ Failed = ?st2)] =>
        rewrite (bool_decide_false (Failed = st1 ∨ Failed = st2)) by (by intros [|]); cbn [andb]
    | |- context [bool_decide (Failed = ?st)] =>
        rewrite (bool_decide_false (Failed = st)) by done; cbn [andb]
    | |- safe _ _ (if decide (Failed = Failed) then _ else _) => rewrite decide_True by done
    | |- safe _ _ (if decide (Failed = _) then _ else _) => rewrite decide_False by done
    | |- safe _ _ (if decide (Failed ≠ _) then _ else _) => rewrite decide_True by done
    | |- _ => case_match
    end.

Section closed.
Context `{InetOps} `{Hmac} `{SessionEnv} (g : Gens) (d : nat).

Lemma rebuild_safe : safe (dead g d) quiet rebuild_if_checking.
Proof. unfold rebuild_if_checking. safe_auto. Qed.
#[local] Hint Resolve rebuild_safe : ice.

Lemma gathering_complete_safe : safe (dead g d) quiet on_gathering_complete.
Proof. unfold on_gathering_complete, set_gather, set_gens. safe_auto. Qed.
#[local] Hint Resolve gathering_complete_safe : ice.

Lemma gather_response_safe msg tx : safe (dead g d) quiet (handle_gather_response msg tx).
Proof.
  unfold handle_gather_response, push_allowed, push_local, arm_gather_timer, set_gather, set_gens.
  safe_auto.
Qed.
#[local] Hint Resolve gather_response_safe : ice.

Lemma set_pair_safe i f : safe (dead g d) quiet (set_pair i f).
Proof. unfold set_pair, set_check_list. safe_auto. Qed.
Lemma set_list_safe f : safe (dead g d) quiet (set_check_list f).
Proof. unfold set_check_list. safe_auto. Qed.

Lemma success_reply txn pwd : binding_reply (binding_answer STUN_BINDING_RESPONSE txn id pwd).
Proof. left. unfold binding_answer, build, message. by rewrite read16_write16. Qed.
Lemma conflict_reply txn pwd : binding_reply (binding_answer STUN_BINDING_ERROR txn
  (add_error_code 487 kStunErrorReasonRoleConflict) pwd).
Proof. right. unfold binding_answer, build, message. by rewrite read16_write16. Qed.

Lemma answer_safe cid tcp resp : binding_reply resp → safe (dead g d) quiet (answer cid tcp resp).
Proof.
  intros Hr. unfold answer. apply safe_get. intros s [_ Hu _ _ _]. rewrite Hu, lookup_empty.
  repeat case_match; try (by apply safe_skip); apply safe_emit; cbn; eauto.
Qed.
Lemma probe_safe : safe (dead g d) quiet start_path_mtu_probe.
Proof. unfold start_path_mtu_probe. safe_auto. Qed.
#[local] Hint Resolve set_pair_safe set_list_safe answer_safe probe_safe success_reply conflict_reply : ice.

Lemma pmtu_outcome_safe f probe : safe (dead g d) quiet (pmtu_outcome f probe).
Proof. unfold pmtu_outcome, set_pmtu. safe_auto. Qed.
#[local] Hint Resolve pmtu_outcome_safe : ice.

(** Without an endpoint behind the connection there is no nomination. *)
Lemma accept_safe m cid tcp : safe (dead g d) quiet (accept_request m cid tcp).
Proof.
  unfold accept_request. apply safe_get. intros s0 _. apply safe_bind; [apply answer_safe, success_reply|].
  intros _. apply safe_get. intros s [Hs Hu Ht _ _]. rewrite Hu, Ht.
  replace ((if tcp then ∅ else ∅ : gmap Z EndpointInfo) !! cid) with (@None EndpointInfo)
    by (destruct tcp; by rewrite lookup_empty).
  cbv zeta. rewrite (bool_decide_true ([] = [])), andb_false_r by done.
  apply safe_bind; [apply safe_skip|]. intros _.
  unfold maybe_trigger_check_from_peer. apply safe_get. intros s1 _. apply safe_skip.
Qed.
#[local] Hint Resolve accept_safe : ice.

Lemma request_safe m cid tcp : safe (dead g d) quiet (handle_binding_request m cid tcp).
Proof. unfold handle_binding_request, handle_role_conflict. safe_auto. Qed.
Lemma error_safe m : safe (dead g d) quiet (on_binding_error m).
Proof. unfold on_binding_error. safe_auto. Qed.
Lemma response_safe st m : st ≠ Checking → safe (dead g d) quiet (on_binding_response st m).
Proof.
  intros Hst. unfold on_binding_response, handle_check_response, set_pmtu, set_gens, set_consent.
  safe_auto.
Qed.
#[local] Hint Resolve request_safe error_safe response_safe : ice.

Lemma stun_safe cid data tcp m : safe (dead g d) quiet (on_stun cid data tcp m).
Proof.
  unfold on_stun. apply safe_get. intros s [Hs _ _ _].
  assert (safe (dead g d) quiet (on_binding_response (s_state s) m)) by (apply response_safe; congruence).
  cbv zeta. repeat case_match; auto using safe_skip with ice.
Qed.
#[local] Hint Resolve stun_safe : ice.

Lemma carrier_data_safe cid data tcp : safe (dead g d) quiet (on_carrier_data cid data tcp).
Proof. unfold on_carrier_data, touch. safe_auto. Qed.
#[local] Hint Resolve carrier_data_safe : ice.
Lemma tcp_frames_safe n cid : safe (dead g d) quiet (tcp_frames n cid).
Proof. induction n as [|n IH]; cbn [tcp_frames]; unfold set_eps; safe_auto. Qed.
#[local] Hint Resolve tcp_frames_safe : ice.
Lemma tcp_data_safe cid data : safe (dead g d) quiet (on_tcp_carrier_data cid data).
Proof. unfold on_tcp_carrier_data, set_eps. safe_auto. Qed.
#[local] Hint Resolve tcp_data_safe : ice.

Lemma tcp_timeout_safe cid : safe (dead g d) quiet (on_tcp_connect_timeout cid).
Proof.
  unfold on_tcp_connect_timeout, set_eps. apply safe_bind; [safe_auto|]. intros _.
  apply safe_get. intros s [_ _ Ht _]. rewrite Ht, lookup_empty. apply safe_skip.
Qed.
Lemma resolve_safe : safe (dead g d) quiet resolve_remote_mdns_candidates.
Proof. unfold resolve_remote_mdns_candidates. safe_auto. Qed.
#[local] Hint Resolve tcp_timeout_safe resolve_safe : ice.

Lemma close_safe : safe (dead g d) quiet close.
Proof.
  unfold close, close_turn_clients, unregister_mdns, release_portmap_mapping, tear_down_cids,
    set_state, set_gens, set_gather, set_eps, set_nom.
  safe_auto.
Qed.
#[local] Hint Resolve close_safe : ice.

(** What can still reach a closed session: everything but a new [gather], further
    signalling of candidates, the callbacks and posted work of TURN and STUN gathering,
    and the two timers [close] disarms by a new generation. *)
Definition after_close (i : session_input) : Prop :=
  match i with
  | IGather | IAddRemote _ _ _ _ | IStunProbes | ITurnAttempt | ITurnAllocated _ _
  | IBackupAllocated _ | ITurnData _ _ _ | IRelayed _ _ _ => False
  | ITimer TmTurnAllocate gen => (gen < turn_allocate_gen g)%nat
  | ITimer TmNominationWait gen => (gen < nomination_wait_gen g)%nat
  | _ => True
  end.

Lemma turn_allocate_safe gen : (gen < turn_allocate_gen g)%nat → safe (dead g d) quiet (on_turn_allocate_timer gen).
Proof.
  intros Hg. unfold on_turn_allocate_timer. apply safe_get. intros s [_ _ _ Hg' _].
  rewrite decide_True by lia. apply safe_skip.
Qed.
Lemma nomination_wait_safe gen :
  (gen < nomination_wait_gen g)%nat → safe (dead g d) quiet (on_nomination_wait gen).
Proof.
  intros Hg. unfold on_nomination_wait. apply safe_get. intros s [_ _ _ Hg' _].
  rewrite decide_True by lia. apply safe_skip.
Qed.

Lemma timer_safe k gen : after_close (ITimer k gen) → safe (dead g d) quiet (session_handle (ITimer k gen)).
Proof.
  destruct k; cbn; intros Ha; try (by apply turn_allocate_safe); try (by apply nomination_wait_safe);
    unfold on_check_timer, run_next_check, on_keepalive_timer, on_keepalive, on_pmtu_timer, on_path_mtu_probe_timeout, on_gather_timer, on_turn_backup_timer,
      on_turn_backup_tick, set_state, set_pmtu, set_gather; safe_auto.
Qed.

Lemma handle_safe i : after_close i → safe (dead g d) quiet (session_handle i).
Proof.
  destruct i; cbn [after_close session_handle]; intros Ha; try done;
    try (by apply timer_safe); try solve [auto with ice];
    unfold set_remote, set_peer_signal_flags, send, on_mdns_resolved, restart, touch; safe_auto.
Qed.
End closed.

Lemma run_safe `{InetOps} `{Hmac} `{SessionEnv} g d ins : Forall (λ x, after_close g x.2) ins →
  safe (dead g d) quiet (session_run ins).
Proof.
  intros Hi. unfold session_run. induction Hi as [|x ins Hx Hi IH]; cbn [for_each]; [apply safe_skip|].
  apply safe_bind; [|done]. apply safe_bind; [safe_auto|]. intros _. by apply handle_safe.
Qed.

(** [ends P m]: [m] establishes [P], whatever the state. *)
Definition ends (P : IceSession → Prop) {A} (m : session A) : Prop := ∀ s, P (final m s).
Lemma ends_bind P {A B} (m : session A) (f : A → session B) :
  (∀ a, ends P (f a)) → ends P (m ≫= f).
Proof. intros Hf s. rewrite final_bind. apply Hf. Qed.

Definition no_endpoints (s : IceSession) : Prop :=
  cid_to_endpoint_udp (s_eps s) = ∅ ∧ cid_to_endpoint_tcp (s_eps s) = ∅.

Lemma tear_down_ends `{SessionEnv} : ends no_endpoints tear_down_cids.
Proof.
  unfold tear_down_cids. repeat (apply ends_bind; intros ?). intros s. by split.
Qed.

Lemma tear_down_standing `{SessionEnv} : keeps same_standing tear_down_cids.
Proof. unfold tear_down_cids, set_eps. frame_auto. Qed.

Section close.
Context `{InetOps} `{Hmac} `{SessionEnv}.

Lemma close_no_endpoints : ends no_endpoints close.
Proof.
  unfold close. do 6 (apply ends_bind; intros ?). intros s. rewrite final_bind.
  apply tear_down_ends.
Qed.

Lemma close_failed : ends (λ s, s_state s = Failed) close.
Proof.
  intros s. unfold close, set_state. rewrite final_modify.
  match goal with |- s_state (final ?m ?x) = _ =>
    assert (keeps same_standing m) as Hm; [|by rewrite (proj1 (Hm x))] end.
  unfold release_portmap_mapping, unregister_mdns, close_turn_clients, set_gens, set_gather, set_nom.
  pose proof tear_down_standing. frame_auto.
Qed.

(** [close] makes any session a closed one. *)
Lemma close_dead s : dead (s_gens (final close s)) (s_dials (final close s)) (final close s).
Proof. destruct (close_no_endpoints s). by split; [apply close_failed|..]. Qed.
End close.


(** * The server-reflexive phase *)

(** The gather state is untouched and gathering does not resume. *)
Definition past_gathering (s s' : IceSession) : Prop :=
  s_gather s' = s_gather s ∧ (s_state s ≠ Gathering → s_state s' ≠ Gathering).
#[export] Instance past_gathering_po : PreOrder past_gathering.
Proof.
  split; unfold past_gathering; [intros s; done|]. intros x y z [E1 E2] [E3 E4]. split; [congruence|auto].
Qed.
Lemma eps_only_past {A} (m : session A) : keeps eps_only m → keeps past_gathering m.
Proof. intros Hm s. destruct (Hm s) as (e & n & d & ->). done. Qed.
#[export] Hint Extern 2 (keeps past_gathering _) =>
  apply eps_only_past; solve [auto with ice] : ice.

Ltac past_auto := keeps_auto ltac:(intros ?; by split).

Section srflx.
Context `{InetOps} `{Hmac} `{SessionEnv}.
#[local] Hint Resolve transmit_check_frame : ice.

Lemma set_list_past f : keeps past_gathering (set_check_list f).
Proof. unfold set_check_list. past_auto. Qed.
Lemma txn_past : keeps past_gathering generate_txn_id.
Proof. unfold generate_txn_id. past_auto. Qed.
#[local] Hint Resolve set_list_past txn_past : ice.
Lemma send_check_past i : keeps past_gathering (send_check i).
Proof. unfold send_check, set_pair. past_auto. Qed.
#[local] Hint Resolve send_check_past : ice.
Lemma retransmit_past i : keeps past_gathering (retransmit_one i).
Proof. unfold retransmit_one, set_pair. past_auto. Qed.
Lemma promote_past idxs : keeps past_gathering (promote_loop idxs).
Proof. induction idxs as [|i idxs IH]; cbn [promote_loop]; unfold set_pair; past_auto. Qed.
Lemma begin_loop_past idxs b4 b6 : keeps past_gathering (begin_loop idxs b4 b6).
Proof.
  revert b4 b6. induction idxs as [|i idxs IH]; intros; cbn [begin_loop]; unfold set_pair; past_auto.
Qed.
#[local] Hint Resolve retransmit_past promote_past begin_loop_past : ice.
Lemma begin_checks_past : keeps past_gathering begin_checks.
Proof.
  unfold begin_checks, run_next_check, checks_exhausted, fail_session, set_state, set_gens. past_auto.
Qed.
Lemma predict_past n k stride pair : keeps past_gathering (predict_pairs n k stride pair).
Proof. revert k. induction n as [|n IH]; intros; cbn [predict_pairs]; unfold push_pair; past_auto. Qed.
#[local] Hint Resolve predict_past : ice.
Lemma build_check_list_past : keeps past_gathering build_check_list.
Proof. unfold build_check_list, assign_local_foundations, add_pair, push_pair. past_auto. Qed.
#[local] Hint Resolve begin_checks_past build_check_list_past : ice.

(** The end of gathering: no probe is pending, the session has moved on and says so. *)
Lemma gathering_completes s :
  let s' := final on_gathering_complete s in
  s_gather s' = (s_gather s) <| pending_stun_probes := [] |>
  ∧ s_state s' ≠ Gathering ∧ EGathered s' ∈ outputs on_gathering_complete s.
Proof.
  unfold on_gathering_complete, set_gather, set_gens.
  rewrite !final_modify, !outputs_modify, final_get, outputs_get, final_bind, outputs_bind.
  match goal with |- context [final announce_gathered (final ?m ?x)] => set (s1 := x); set (c := m) end.
  change (final announce_gathered (final c s1)) with (final c s1).
  assert (s_gather (final c s1) = s_gather s1 ∧ s_state (final c s1) ≠ Gathering) as [E1 E2].
  { unfold c. case_decide as Hs; [|done]. case_decide.
    - unfold set_state. rewrite final_modify.
      match goal with |- s_gather (final ?m ?x) = _ ∧ _ =>
        assert (keeps past_gathering m) as Hm by past_auto; destruct (Hm x) as [-> Hx] end.
      split; [done|by apply Hx].
    - done. }
  split; [exact E1|]. split; [done|]. apply elem_of_app. right. by left.
Qed.

(** Observing the first port records no stride. *)
Lemma observe_first port g : have_first_srflx_port g = false →
  symmetric_stride (observe_srflx_port port g) = symmetric_stride g.
Proof. intros Hg. unfold observe_srflx_port. by rewrite Hg. Qed.

Lemma push_allowed_past ty c : keeps past_gathering (push_allowed ty c).
Proof. unfold push_allowed, push_local. past_auto. Qed.
#[local] Hint Resolve push_allowed_past : ice.

(** The first STUN answer ends the reflexive phase: with no TURN allocation under
    way, the first answer of a STUN server ends gathering and is announced; it clears
    the pending probes, so that every further answer is ignored and no port stride, the
    mark of a symmetric NAT, is ever recorded. *)
Theorem first_srflx_completes s msg mapped tx :
  txn_id msg ∈ pending_stun_probes (s_gather s) → xor_mapped msg = Some mapped →
  stun_gathered (s_gather s) = false → turn_gathering (s_gather s) = false →
  have_first_srflx_port (s_gather s) = false →
  let s' := final (handle_gather_response msg tx) s in
  s_state s' ≠ Gathering ∧ EGathered s' ∈ outputs (handle_gather_response msg tx) s
  ∧ symmetric_stride (s_gather s') = symmetric_stride (s_gather s)
  ∧ ∀ msg' tx', exec (handle_gather_response msg' tx') s' = (s', []).
Proof.
  intros Hin Hx Hsg Htg Hf s'.
  assert (s_state s' ≠ Gathering ∧ EGathered s' ∈ outputs (handle_gather_response msg tx) s
    ∧ symmetric_stride (s_gather s') = symmetric_stride (s_gather s)
    ∧ pending_stun_probes (s_gather s') = []) as (H2 & H3 & H4 & H5).
  { unfold s', handle_gather_response, set_gather, set_gens.
    rewrite final_get, outputs_get, decide_False, Hx by (intros E; by apply E).
    rewrite final_modify, outputs_modify. cbv zeta. rewrite final_bind, outputs_bind.
    match goal with |- context [final ?m (s <| s_gather := ?g |>)] =>
      set (s1 := final m (s <| s_gather := g |>));
      assert (symmetric_stride (s_gather s1) = symmetric_stride (s_gather s)
        ∧ stun_gathered (s_gather s1) = false ∧ turn_gathering (s_gather s1) = false) as (K1 & K2 & K3) end.
    { unfold s1. destruct (symmetric_port_prediction_enabled _); [|done].
      split_and!; cbn [final]; unfold observe_srflx_port; cbn; by rewrite ?Hf. }
    clearbody s1. rewrite final_get, outputs_get, final_bind, outputs_bind.
    match goal with |- context [final ?m s1] =>
      assert (keeps past_gathering m) as Hm by past_auto; destruct (Hm s1) as [Eg _];
      set (s2 := final m s1) in * end.
    clearbody s2. rewrite final_get, outputs_get, Eg, K2, !final_modify, !outputs_modify, K3.
    match goal with |- context [final on_gathering_complete ?x] =>
      destruct (gathering_completes x) as (Q1 & Q2 & Q3) end.
    split; [exact Q2|]. split; [rewrite !elem_of_app; auto|]. rewrite Q1. by cbn; rewrite Eg. }
  split_and!; [done..|]. intros msg' tx'. unfold exec, handle_gather_response.
  rewrite run_get, decide_True; [done|]. rewrite H5. apply not_elem_of_nil.
Qed.
End srflx.

(** * Witnesses *)

Lemma pmtu_probe_oversize_witness :
  Z.of_nat (length (pmtu_request (H0 := HmacRef.ops) ExchangeRef.alice (replicate 12 1) 1280)) = 1312.
Proof.
  apply (pmtu_probe_oversize (H := HmacRef.ops) (H0 := HmacRef.laws) ExchangeRef.alice (replicate 12 1) 1280);
    [reflexivity|reflexivity|by vm_compute].
Defined.


(** Two servers probed, the first answers. *)
Definition probing : IceSession := ExchangeRef.alice <| s_state := Gathering |>
  <| s_gather := mkGather 40000 true [replicate 12 1; replicate 12 2] [] false false false 0 0 false None |>.
Definition mapped_answer : StunMessage :=
  (empty_message STUN_BINDING_RESPONSE (replicate 12 1))
    <| xor_mapped := Some (mkMapped (str "198.51.100.7") 41000) |>.

Lemma first_srflx_completes_witness :
  s_state (final (handle_gather_response (H := InetRef.ops) (H0 := HmacRef.ops)
    (H1 := SessionRef.env) mapped_answer Udp) probing) ≠ Gathering.
Proof.
  apply (first_srflx_completes (H := InetRef.ops) (H0 := HmacRef.ops) (H1 := SessionRef.env)
    probing mapped_answer (mkMapped (str "198.51.100.7") 41000) Udp);
    [by left|reflexivity|reflexivity|reflexivity|reflexivity].
Defined.
