(* ===== verification/Recovery.v ===== *)
(** Consent recovery under regular nomination: the checks run again, but the pair that
    was nominated before the loss is the last one this agent ever nominates. *)

From stdpp Require Import gmap.
From S2P Require Import Prelude Bytes Inet Candidate MdnsCodec Mdns Framing Stun Turn PathMtu.
From S2P Require Import SessionState Delivery CheckList Gather Session Exchange Nomination Lifecycle.

Definition unsent (p : CheckPair) : Prop := cp_nominee_check_sent p = false.

(** A controlling agent under regular nomination that has used its nomination: no pair
    of its check list is the nominee. *)
Record spent (s : IceSession) : Prop := {
  sp_state : s_state s ≠ Connected;
  sp_controlling : s_controlling s = true;
  sp_regular : aggressive_nomination (cfg s) = false;
  sp_selected : s_nominee_selected s = true;
  sp_unsent : Forall unsent (s_check_list s);
}.

(** No connection is reported. *)
Definition no_connect (e : session_event) : Prop :=
  match e with EConnected _ _ => False | _ => True end.

Abbreviation idle m := (safe spent no_connect m).

Ltac idle_auto :=
  repeat match goal with
    | |- ∀ _, _ => intro
    | |- safe _ _ (get ≫= _) => apply safe_get; intros ? []
    | |- safe _ _ (_ ≫= _) => apply safe_bind
    | |- safe _ _ skip => apply safe_skip
    | |- safe _ _ (mret _) => apply safe_ret
    | |- safe _ _ (emit _) => apply safe_emit; exact I
    | |- safe _ _ announce_gathered => unfold announce_gathered
    | |- safe _ _ (for_each _ _) => apply safe_for_each
    | |- safe _ _ (modify _) => apply safe_modify; intros ? []; split; cbn; (assumption || done)
    | |- safe _ _ (let _ := _ in _) => cbv zeta
    | |- _ => solve [auto with ice]
    | |- _ => case_match
    end.

(** Updates of the list that select no nominee. *)
Definition keeps_unsent (f : list CheckPair → list CheckPair) : Prop :=
  ∀ l, Forall unsent l → Forall unsent (f l).

Lemma unsent_alter f i : (∀ p, unsent p → unsent (f p)) → keeps_unsent (alter f i).
Proof. intros Hf l Hl. apply Forall_alter; [done|]. auto. Qed.
Lemma unsent_unfreeze lf rf : keeps_unsent (unfreeze_siblings lf rf).
Proof.
  intros l Hl. unfold unfreeze_siblings. case_decide; [done|]. apply Forall_fmap.
  eapply Forall_impl; [exact Hl|]. intros p Hp. cbn. by repeat case_decide.
Qed.
Lemma unsent_promote seen : keeps_unsent (promote_frozen seen).
Proof.
  intros l Hl. revert seen. induction Hl as [|p l Hp Hl IH]; intros seen; [constructor|].
  cbn [promote_frozen]. repeat case_decide; by constructor.
Qed.
Lemma unsent_stuck : keeps_unsent unfreeze_stuck_pairs.
Proof. intros l Hl. unfold unfreeze_stuck_pairs. case_decide; [done|]. by apply unsent_promote. Qed.
Lemma unsent_snoc p : unsent p → keeps_unsent (λ l, l ++ [p]).
Proof. intros Hp l Hl. apply Forall_app. by repeat constructor. Qed.
Lemma unsent_sort : keeps_unsent (std_sort by_priority).
Proof. intros l Hl. by rewrite std_sort_perm. Qed.
Lemma unsent_assign : keeps_unsent assign_initial_pair_states.
Proof.
  unfold assign_initial_pair_states. generalize (@nil bytes). intros seen l Hl. revert seen.
  induction Hl as [|p l Hp Hl IH]; intros seen; [constructor|].
  cbn [assign_states]. case_decide; by constructor.
Qed.
#[export] Hint Resolve unsent_unfreeze unsent_stuck unsent_sort unsent_assign : ice.

Lemma idle_set_list f : keeps_unsent f → idle (set_check_list f).
Proof. intros Hf. apply safe_modify. intros s []. split; cbn; [done..|by apply Hf]. Qed.
Lemma idle_set_pair i f : (∀ p, unsent p → unsent (f p)) → idle (set_pair i f).
Proof. intros Hf. by apply idle_set_list, unsent_alter. Qed.
#[export] Hint Extern 1 (safe spent no_connect (set_pair _ _)) => apply idle_set_pair; intros ?; done : ice.
#[export] Hint Resolve idle_set_list : ice.

Section idle.
Context `{InetOps} `{Hmac} `{SessionEnv}.

Lemma idle_txn : idle generate_txn_id.
Proof. unfold generate_txn_id. idle_auto. Qed.
#[local] Hint Resolve idle_txn : ice.
Lemma idle_transmit p msg : idle (transmit_check p msg).
Proof.
  unfold transmit_check, tcp_check_cid, arm_tcp_so_connect, ensure_remote_cid, ensure_remote_tcp_cid,
    relay_cid_for_endpoint, dial, set_eps.
  idle_auto.
Qed.
#[local] Hint Resolve idle_transmit : ice.
Lemma idle_send_check i : idle (send_check i).
Proof. unfold send_check. idle_auto. Qed.
#[local] Hint Resolve idle_send_check : ice.
Lemma idle_retransmit i : idle (retransmit_one i).
Proof. unfold retransmit_one. idle_auto. Qed.
Lemma idle_promote idxs : idle (promote_loop idxs).
Proof. induction idxs as [|i idxs IH]; cbn [promote_loop]; idle_auto. Qed.
Lemma idle_begin_loop idxs b4 b6 : idle (begin_loop idxs b4 b6).
Proof. revert b4 b6. induction idxs as [|i idxs IH]; intros; cbn [begin_loop]; idle_auto. Qed.
#[local] Hint Resolve idle_retransmit idle_promote idle_begin_loop : ice.
Lemma idle_run_next_check : idle run_next_check.
Proof. unfold run_next_check, checks_exhausted, fail_session, set_state, set_gens. idle_auto. Qed.
#[local] Hint Resolve idle_run_next_check : ice.
Lemma idle_begin_checks : idle begin_checks.
Proof. unfold begin_checks. idle_auto. Qed.
#[local] Hint Resolve idle_begin_checks : ice.

Lemma idle_push p : unsent p → idle (push_pair p).
Proof. intros Hp. apply idle_set_list. by apply unsent_snoc. Qed.
Lemma idle_predict n k stride p : unsent p → idle (predict_pairs n k stride p).
Proof.
  intros Hp. revert k. induction n as [|n IH]; intros k; cbn [predict_pairs]; [apply safe_skip|].
  cbv zeta. case_decide; [apply safe_skip|].
  apply safe_bind; [auto with ice|]. intros txn. by apply safe_bind; [apply idle_push|].
Qed.
Lemma idle_add_pair stride n l r : idle (add_pair stride n l r).
Proof.
  unfold add_pair. destruct (negb _); [apply safe_skip|]. apply safe_get. intros s _.
  apply safe_bind; [auto with ice|]. intros txn. cbv zeta.
  apply safe_bind; [by apply idle_push|]. intros _.
  case_match; [by apply idle_predict|apply safe_skip].
Qed.
#[local] Hint Resolve idle_add_pair : ice.

Lemma keeps_unsent_nil : keeps_unsent (λ _, []).
Proof. intros l _. constructor. Qed.
#[local] Hint Resolve keeps_unsent_nil : ice.

Lemma idle_build : idle build_check_list.
Proof. unfold build_check_list, assign_local_foundations. idle_auto. Qed.
#[local] Hint Resolve idle_build : ice.
Lemma idle_rebuild : idle rebuild_and_check.
Proof. unfold rebuild_and_check. idle_auto. Qed.
Lemma idle_resolve : idle resolve_remote_mdns_candidates.
Proof. unfold resolve_remote_mdns_candidates. idle_auto. Qed.
#[local] Hint Resolve idle_rebuild idle_resolve : ice.

(** A success answer verifies its pair and no more. *)
Lemma idle_answer msg : idle (handle_check_response msg).
Proof.
  unfold handle_check_response. apply safe_get. intros s [_ Hc Hr Hsel Hu].
  case_decide; [apply safe_skip|].
  destruct (find_txn _ _) as [[i p]|] eqn:Ef; [|apply safe_skip].
  assert (unsent p) as Hp.
  { apply list_find_Some in Ef as (Hi & _). by eapply Forall_lookup_1. }
  assert (idle (controlling_success p)) as Hcs.
  { unfold controlling_success. apply safe_get. intros s1 [_ _ Hr1 Hsel1 _].
    rewrite Hr1, Hp, Hsel1. apply safe_skip. }
  unfold learn_prflx, push_local, set_nom. apply safe_bind; [idle_auto|]. intros _.
  apply safe_bind; [idle_auto|]. intros _. apply safe_bind; [idle_auto|]. intros _.
  apply safe_bind; [idle_auto|]. intros _. apply safe_bind; [idle_auto|]. intros _.
  apply safe_get. intros s2 [_ Hc2 _ _ _]. by rewrite Hc2.
Qed.

(** Further candidates, the end of them included, are paired and checked. *)
Lemma idle_trickle ufrag pwd cands eoc : idle (add_remote_candidates ufrag pwd cands eoc).
Proof.
  unfold add_remote_candidates. apply safe_get. intros s _.
  apply safe_bind; [idle_auto|]. intros _. apply safe_bind; [idle_auto|]. intros _.
  apply safe_bind.
  { destruct eoc; [|apply safe_skip]. apply safe_bind; [idle_auto|]. intros _.
    apply safe_get. intros s1 [_ _ _ Hsel _]. rewrite Hsel, andb_false_r. apply safe_skip. }
  intros _. unfold add_one_remote, set_gather, set_state. idle_auto.
Qed.

(** What drives the checks of a recovering agent. *)
Inductive recovery_input :=
  | RTimer (gen : nat)
  | RAnswer (msg : StunMessage)
  | RTrickle (ufrag pwd : bytes) (cands : list Candidate) (eoc : bool).

Definition recovery_handle (i : recovery_input) : session unit :=
  match i with
  | RTimer gen => on_check_timer gen
  | RAnswer msg => handle_check_response msg
  | RTrickle u p cs eoc => add_remote_candidates u p cs eoc
  end.

Lemma idle_handle i : idle (recovery_handle i).
Proof.
  destruct i; cbn [recovery_handle]; [|apply idle_answer|apply idle_trickle].
  unfold on_check_timer. idle_auto.
Qed.

(** A connected controlling agent under regular nomination whose next keepalive tick
    starts a recovery. *)
Record losing_consent (s : IceSession) : Prop := {
  lc_state : s_state s = Connected;
  lc_full : lite_mode (cfg s) = false;
  lc_controlling : s_controlling s = true;
  lc_regular : aggressive_nomination (cfg s) = false;
  lc_selected : s_nominee_selected s = true;
  lc_limit : u32 (consent_max_failures (cfg s)) ≤ u32 (consent_missed (s_consent s) + 1);
  lc_recovery : consent_recovery_attempts (s_consent s) < u32 (consent_max_recovery (cfg s));
}.

Lemma recovery_spent s : losing_consent s → spent (final on_keepalive s).
Proof.
  intros [Hs Hl Hc Hr Hsel Hlim Hrec]. unfold on_keepalive.
  rewrite final_get, decide_False, Hl by (intros E; by apply E). cbv zeta.
  unfold set_consent. rewrite final_modify, decide_True, decide_True, final_modify by done.
  unfold set_state. rewrite final_modify, final_bind. apply idle_begin_checks.
  unfold build_check_list. rewrite final_bind, final_bind. change (final (emit ELock) ?x) with x.
  match goal with |- spent (final ?m ?x) => assert (idle m) as Hm; [|apply (Hm x)] end.
  - unfold assign_local_foundations. idle_auto.
  - split; [done..|constructor].
Qed.

(** C36 (recovery never nominates again): under regular nomination a controlling agent
    that lost consent re-runs its checks, but whatever they yield, answers to every
    check and further candidates included, it never nominates a pair: it is never
    connected again. *)
Theorem recovery_never_nominates s ins : losing_consent s →
  let s1 := final on_keepalive s in
  s_state (final (for_each recovery_handle ins) s1) ≠ Connected
  ∧ Forall no_connect (outputs (for_each recovery_handle ins) s1).
Proof.
  intros Hs s1. destruct (safe_for_each _ _ recovery_handle ins idle_handle s1) as [H2 H3].
  - by apply recovery_spent.
  - split; [apply H2|done].
Qed.
End idle.

(** * Witness *)

Definition losing : IceSession := NominationRef.connected
  <| s_nominee_selected := true |> <| s_consent := mkConsent 2 0 0 None |>.

Lemma recovery_never_nominates_witness :
  s_state (final (for_each (recovery_handle (H := InetRef.ops) (H0 := HmacRef.ops)
    (H1 := SessionRef.env)) [RAnswer (success_view (replicate 12 1)); RTimer 1])
    (final (on_keepalive (H := InetRef.ops) (H0 := HmacRef.ops) (H1 := SessionRef.env)) losing))
  ≠ Connected.
Proof.
  apply (recovery_never_nominates (H := InetRef.ops) (H0 := HmacRef.ops) (H1 := SessionRef.env) losing).
  by split.
Defined.
