(* ===== verification/LinkConfig.v ===== *)
(** The configuration of the link (src/link_ice.cpp, [IceLink::apply_config]): the
    [ice.*] keys of the host, with their ranges, become the [IceConfig] every new
    session gets.

    The host's configuration, the DNS extension and the URI parser of the SDK are
    parameters, collected in [HostConfig].  The theorems: whatever the host answers,
    the result is in range; and a reload forgets what the topology had set. *)

From S2P Require Import Prelude Bytes Inet Candidate Stun Turn DnsExt SessionState.

#[global] Instance TurnConfig_eta : Eta TurnConfig := λ t,
  mkTurnConfig (tc_server t) (tc_port t) (tc_username t) (tc_password t) (tc_tcp_transport t)
    (tc_tls_transport t) (tc_requested_transport t).

(** What [apply_config] asks of the host: the [gn_config_get_*] accessors ([None]
    when the result is not [GN_OK] or the value is null), the [gn.dns] extension with
    the size of its table and the record type of SRV, and the URI functions of the SDK. *)
Record HostConfig := mkHostConfig {
  config_int64 : bytes → option Z;
  config_bool : bytes → option bool;
  config_string : bytes → option bytes;
  config_array_size : bytes → option nat;
  config_array_string : bytes → nat → option bytes;
  config_array_int64 : bytes → nat → option Z;
  config_dns : option gn_dns_api;
  config_dns_size : nat;                     (* [sizeof(gn_dns_api_t)] *)
  config_rr_srv : Z;
  uri_has_control_bytes : bytes → bool;
  sdk_parse_uri : bytes → option (bytes * Z);
}.

Definition kDefaultStunServers : list bytes := [str "stun.l.google.com:19302"].

(** * The entries *)

Section config.
Context (h : HostConfig).

Definition service_uri (raw : bytes) : option ServiceUri :=
  parse_service_uri (uri_has_control_bytes h) (sdk_parse_uri h) raw.

(** [dns_ext->resolve_service], when the service URI of scheme [scheme] has no port
    and there is a DNS extension. *)
Definition srv_lookup (scheme : bytes) (raw : bytes) (max : Z) : option (list ResolvedSrv) :=
  svc ← service_uri raw;
  resolve ← dns_query (config_dns_size h) (config_dns h);
  if decide (uri_scheme svc = scheme ∧ uri_port svc = 0)
  then Some (resolve_service (config_rr_srv h) resolve scheme (str "udp") (uri_host svc) max)
  else None.

(** The address of a service URI that has a port. *)
Definition service_address (scheme : bytes) (raw : bytes) : option (bytes * Z) :=
  svc ← service_uri raw;
  if decide (uri_scheme svc = scheme ∧ uri_port svc ≠ 0)
  then Some (uri_host svc, uri_port svc) else None.

(** What [push_stun] appends. *)
Definition push_stun (raw : bytes) : list bytes :=
  match srv_lookup (str "stun") raw 16 with
  | Some ((_ :: _) as srv) => (λ r, endpoint_text (srv_target r) (srv_port r)) <$> srv
  | _ =>
      match service_address (str "stun") raw with
      | Some (host, port) => [endpoint_text host port]
      | None => [raw]
      end
  end.

Definition bare_turn (server : bytes) : TurnConfig :=
  mkTurnConfig server 3478 [] [] false false REQUESTED_TRANSPORT_UDP.

(** The port is stored in a [uint16_t]. *)
Definition turn_at (server : bytes) (port : Z) : TurnConfig := (bare_turn server) <| tc_port := u16 port |>.

Definition parse_turn_entry (raw : bytes) : option TurnConfig :=
  if decide (raw = []) then None else
  match srv_lookup (str "turn") raw 1 with
  | Some [] => None
  | Some (r :: _) => Some (turn_at (srv_target r) (srv_port r))
  | None =>
      match service_address (str "turn") raw with
      | Some (host, port) => Some (turn_at host port)
      | None =>
          if uri_has_control_bytes h raw then None else
          match find_char CH_COLON raw with
          | None => Some (bare_turn raw)
          | Some _ =>
              match sdk_parse_uri h raw with
              | None => None
              | Some (host, port) =>
                  if decide (host = [] ∨ port = 0) then None else Some (turn_at host port)
              end
          end
      end
  end.

(** The strings of an array; elements that cannot be read are skipped. *)
Definition array_strings (key : bytes) (n : nat) : list bytes :=
  omap (config_array_string h key) (seq 0 n).

Definition apply_stun_servers (cfg : IceConfig) : IceConfig :=
  match config_array_size h (str "ice.stun_servers") with
  | Some n => cfg <| stun_servers := array_strings (str "ice.stun_servers") n ≫= push_stun |>
  | None => cfg
  end.

Definition apply_turn_servers (cfg : IceConfig) : IceConfig :=
  let raw := match config_array_size h (str "ice.turn_servers") with
             | Some n => array_strings (str "ice.turn_servers") n
             | None => option_list (config_string h (str "ice.turn_servers"))
             end in
  let cfg := cfg <| turn_servers := turn_servers cfg ++ omap parse_turn_entry raw |> in
  match turn_servers cfg with
  | [] => cfg
  | t :: _ => cfg <| cfg_turn := t |>
  end.

(** * The knobs *)

Definition apply_to_all_turns (setter : TurnConfig → TurnConfig) (cfg : IceConfig) : IceConfig :=
  cfg <| cfg_turn := setter (cfg_turn cfg) |> <| turn_servers := setter <$> turn_servers cfg |>.

(** An integer key is used when it lies in [lo..hi]. *)
Definition int_knob (key : string) (lo hi : Z) (set : Z → IceConfig → IceConfig) (cfg : IceConfig)
    : IceConfig :=
  match config_int64 h (str key) with
  | Some v => if decide (lo ≤ v ≤ hi) then set v cfg else cfg
  | None => cfg
  end.

Definition flag_knob (key : string) (set : bool → IceConfig → IceConfig) (cfg : IceConfig)
    : IceConfig :=
  match config_int64 h (str key) with
  | Some v => set (bool_decide (v ≠ 0)) cfg
  | None => cfg
  end.

Definition string_knob (key : string) (set : bytes → IceConfig → IceConfig) (cfg : IceConfig)
    : IceConfig :=
  match config_string h (str key) with Some s => set s cfg | None => cfg end.

Definition apply_turn_credentials (cfg : IceConfig) : IceConfig :=
  let cfg := string_knob "ice.turn_username"
               (λ u, apply_to_all_turns (λ t, t <| tc_username := u |>)) cfg in
  string_knob "ice.turn_password" (λ p, apply_to_all_turns (λ t, t <| tc_password := p |>)) cfg.

Definition apply_pacing (cfg : IceConfig) : IceConfig :=
  let cfg := int_knob "ice.session_timeout_s" 1 3599 (λ v c, c <| session_timeout_s := v |>) cfg in
  let cfg := int_knob "ice.keepalive_interval_s" 1 3599 (λ v c, c <| keepalive_interval_s := v |>) cfg in
  let cfg := int_knob "ice.consent_max_failures" 1 99 (λ v c, c <| consent_max_failures := v |>) cfg in
  let cfg := int_knob "ice.consent_max_recovery" 0 10 (λ v c, c <| consent_max_recovery := v |>) cfg in
  let cfg := int_knob "ice.check_interval_ms" 1 59999 (λ v c, c <| check_interval_ms := v |>) cfg in
  let cfg := int_knob "ice.max_check_retries" 1 16 (λ v c, c <| max_check_retries := v |>) cfg in
  int_knob "ice.nomination_wait_ms" 0 10000 (λ v c, c <| nomination_wait_ms := v |>) cfg.

(** The link's MTU follows the key; without it the configuration follows the link. *)
Definition applied_mtu (mtu : Z) : Z :=
  match config_int64 h (str "ice.path_mtu") with
  | Some v => if decide (576 ≤ v ≤ 65507) then v else mtu
  | None => mtu
  end.

Definition apply_modes (cfg : IceConfig) : IceConfig :=
  let cfg := flag_knob "ice.aggressive_nomination" (λ b c, c <| aggressive_nomination := b |>) cfg in
  let cfg := flag_knob "ice.lite_mode" (λ b c, c <| lite_mode := b |>) cfg in
  let cfg := flag_knob "ice.reactive_interface_change"
               (λ b c, c <| reactive_interface_change := b |>) cfg in
  let cfg := flag_knob "ice.symmetric_port_prediction_enabled"
               (λ b c, c <| symmetric_port_prediction_enabled := b |>) cfg in
  int_knob "ice.symmetric_port_prediction_attempts" 0 64
    (λ v c, c <| symmetric_port_prediction_attempts := v |>) cfg.

Definition filter_flag (tok : bytes) : Z :=
  if decide (tok = str "exclude-ipv4") then kCandidateFilterExcludeIpv4
  else if decide (tok = str "exclude-ipv6") then kCandidateFilterExcludeIpv6
  else if decide (tok = str "relay-only") then kCandidateFilterRelayOnly
  else if decide (tok = str "host-only") then kCandidateFilterHostOnly
  else 0.

Definition apply_filters (cfg : IceConfig) : IceConfig :=
  match config_array_size h (str "ice.candidate_filters") with
  | Some n =>
      foldl (λ c tok, c <| candidate_filter_flags := Z.lor (candidate_filter_flags c) (filter_flag tok) |>)
        cfg (array_strings (str "ice.candidate_filters") n)
  | None => cfg
  end.

(** [ice.turn_requested_transport]: a string, else an integer. *)
Definition requested_transport : option Z :=
  match config_string h (str "ice.turn_requested_transport") with
  | Some s =>
      Some (if decide (s = str "tcp" ∨ s = str "TCP" ∨ s = str "6") then REQUESTED_TRANSPORT_TCP
            else REQUESTED_TRANSPORT_UDP)
  | None =>
      v ← config_int64 h (str "ice.turn_requested_transport");
      Some (if decide (v = REQUESTED_TRANSPORT_TCP) then REQUESTED_TRANSPORT_TCP
            else REQUESTED_TRANSPORT_UDP)
  end.

Definition apply_turn_transport (cfg : IceConfig) : IceConfig :=
  match config_bool h (str "ice.turn_tcp") with
  | Some b => apply_to_all_turns (λ t, t <| tc_tcp_transport := b |>) cfg
  | None => cfg
  end.

Definition apply_turn_protocol (cfg : IceConfig) : IceConfig :=
  match requested_transport with
  | Some proto => apply_to_all_turns (λ t, t <| tc_requested_transport := proto |>) cfg
  | None => cfg
  end.

Definition apply_turn_timers (cfg : IceConfig) : IceConfig :=
  let cfg := int_knob "ice.turn_allocate_timeout_s" 1 599
               (λ v c, c <| turn_allocate_timeout_s := v |>) cfg in
  let cfg := int_knob "ice.turn_backup_interval_s" 0 3599
               (λ v c, c <| turn_backup_interval_s := v |>) cfg in
  int_knob "ice.turn_failover_min_interval_s" 0 3599
    (λ v c, c <| turn_failover_min_interval_s := v |>) cfg.

Definition apply_mdns (cfg : IceConfig) : IceConfig :=
  let cfg := flag_knob "ice.mdns_obfuscate_host_candidates"
               (λ b c, c <| mdns_obfuscate_host_candidates := b |>) cfg in
  int_knob "ice.mdns_resolve_timeout_ms" 1 59999 (λ v c, c <| mdns_resolve_timeout_ms := v |>) cfg.

Definition apply_tcp_and_restart (cfg : IceConfig) : IceConfig :=
  let cfg := flag_knob "ice.tcp_candidates_enabled" (λ b c, c <| tcp_candidates_enabled := b |>) cfg in
  let cfg := int_knob "ice.tcp_so_timeout_ms" 1 599999 (λ v c, c <| tcp_so_timeout_ms := v |>) cfg in
  let cfg := flag_knob "ice.auto_restart_on_consent_loss"
               (λ b c, c <| auto_restart_on_consent_loss := b |>) cfg in
  let cfg := int_knob "ice.auto_restart_max_attempts" 0 100
               (λ v c, c <| auto_restart_max_attempts := v |>) cfg in
  int_knob "ice.auto_restart_backoff_ms" 0 599999 (λ v c, c <| auto_restart_backoff_ms := v |>) cfg.

(** The rungs in range, if there are any. *)
Definition search_steps : list Z :=
  match config_array_size h (str "ice.pmtu_search_steps") with
  | Some n =>
      filter (λ v, 576 ≤ v ≤ 65507) (omap (config_array_int64 h (str "ice.pmtu_search_steps")) (seq 0 n))
  | None => []
  end.

Definition apply_pmtu (cfg : IceConfig) : IceConfig :=
  let cfg := flag_knob "ice.pmtu_active_probing" (λ b c, c <| pmtu_active_probing := b |>) cfg in
  let cfg := int_knob "ice.pmtu_probe_timeout_ms" 1 59999
               (λ v c, c <| pmtu_probe_timeout_ms := v |>) cfg in
  let cfg := int_knob "ice.pmtu_probe_concurrency" 1 16
               (λ v c, c <| pmtu_probe_concurrency := v |>) cfg in
  match search_steps with
  | [] => cfg
  | steps => cfg <| pmtu_search_steps := steps |>
  end.

(** The configuration [apply_config] builds, from the link's MTU. *)
Definition read_config (mtu : Z) : IceConfig :=
  let cfg := default_config <| stun_servers := kDefaultStunServers |> in
  let cfg := apply_turn_credentials (apply_turn_servers (apply_stun_servers cfg)) in
  let cfg := apply_pacing cfg in
  let cfg := cfg <| path_mtu := applied_mtu mtu |> in
  let cfg := apply_turn_transport (apply_filters (apply_modes cfg)) in
  let cfg := apply_mdns (apply_turn_timers cfg) in
  let cfg := flag_knob "ice.turn_tls"
               (λ b, apply_to_all_turns (λ t, t <| tc_tls_transport := b |>)) cfg in
  apply_pmtu (apply_tcp_and_restart (apply_turn_protocol cfg)).
End config.

(** * The result is in range *)

(** The settings every TURN server shares. *)
Definition turn_settings (t : TurnConfig) : bytes * bytes * bool * bool * Z :=
  (tc_username t, tc_password t, tc_tcp_transport t, tc_tls_transport t, tc_requested_transport t).

Record config_ok (c : IceConfig) : Prop := {
  ok_timeout : 1 ≤ session_timeout_s c < 3600;
  ok_keepalive : 1 ≤ keepalive_interval_s c < 3600;
  ok_failures : 1 ≤ consent_max_failures c < 100;
  ok_recovery : 0 ≤ consent_max_recovery c ≤ 10;
  ok_interval : 1 ≤ check_interval_ms c < 60000;
  ok_retries : 1 ≤ max_check_retries c ≤ 16;
  ok_wait : 0 ≤ nomination_wait_ms c ≤ 10000;
  ok_mtu : 576 ≤ path_mtu c ≤ 65507;
  ok_attempts : 0 ≤ symmetric_port_prediction_attempts c ≤ 64;
  ok_filters : Z.land (candidate_filter_flags c) 15 = candidate_filter_flags c;
  ok_allocate : 1 ≤ turn_allocate_timeout_s c < 600;
  ok_backup : 0 ≤ turn_backup_interval_s c < 3600;
  ok_failover : 0 ≤ turn_failover_min_interval_s c < 3600;
  ok_resolve : 1 ≤ mdns_resolve_timeout_ms c < 60000;
  ok_restarts : 0 ≤ auto_restart_max_attempts c ≤ 100;
  ok_backoff : 0 ≤ auto_restart_backoff_ms c < 600000;
  ok_probe : 1 ≤ pmtu_probe_timeout_ms c < 60000;
  ok_steps : pmtu_search_steps c ≠ [] ∧ Forall (λ v, 576 ≤ v ≤ 65507) (pmtu_search_steps c);
  ok_primary : head (turn_servers c) = None ∨ head (turn_servers c) = Some (cfg_turn c);
  ok_uniform : Forall (λ t, turn_settings t = turn_settings (cfg_turn c)) (turn_servers c);
  ok_ports : Forall (λ t, is_u16 (tc_port t)) (cfg_turn c :: turn_servers c);
}.

(** One field changed: the others are untouched. *)
Ltac field_ok := intros; match goal with H : config_ok _ |- _ => destruct H end;
  split; cbn; try assumption; try lia.

Section range.
Context (h : HostConfig).

Lemma int_knob_ok key lo hi set cfg :
  (∀ v, lo ≤ v ≤ hi → config_ok cfg → config_ok (set v cfg)) → config_ok cfg →
  config_ok (int_knob h key lo hi set cfg).
Proof. intros Hs Hc. unfold int_knob. destruct (config_int64 h _); [case_decide|]; auto. Qed.

Lemma flag_knob_ok key set cfg :
  (∀ b, config_ok cfg → config_ok (set b cfg)) → config_ok cfg → config_ok (flag_knob h key set cfg).
Proof. intros Hs Hc. unfold flag_knob. destruct (config_int64 h _); auto. Qed.

Lemma string_knob_ok key set cfg :
  (∀ s, config_ok cfg → config_ok (set s cfg)) → config_ok cfg → config_ok (string_knob h key set cfg).
Proof. intros Hs Hc. unfold string_knob. destruct (config_string h _); auto. Qed.

(** A setter that changes one shared setting keeps the servers uniform. *)
Lemma apply_to_all_turns_ok setter cfg :
  (∀ t t', turn_settings t = turn_settings t' → turn_settings (setter t) = turn_settings (setter t')) →
  (∀ t, tc_port (setter t) = tc_port t) → config_ok cfg → config_ok (apply_to_all_turns setter cfg).
Proof.
  intros Hs Hp Hc. unfold apply_to_all_turns. destruct Hc. split; cbn; try assumption.
  - destruct (turn_servers cfg) as [|t l]; [by left|]. right.
    destruct ok_primary0; simplify_eq/=. done.
  - apply Forall_fmap. eapply Forall_impl; [exact ok_uniform0|]. intros t Ht. cbn. by apply Hs.
  - apply Forall_cons in ok_ports0 as [H1 H2]. constructor; [by rewrite Hp|].
    apply Forall_fmap. eapply Forall_impl; [exact H2|]. intros t Ht. cbn. by rewrite Hp.
Qed.

Ltac knobs_ok := repeat first
  [ apply int_knob_ok; [field_ok|] | apply flag_knob_ok; [field_ok|] ]; try assumption.

(** A setting shared by all servers. *)
Ltac shared_setting := apply apply_to_all_turns_ok;
  [unfold turn_settings; intros [] []; cbn; congruence | done | assumption].

Lemma apply_turn_credentials_ok cfg : config_ok cfg → config_ok (apply_turn_credentials h cfg).
Proof.
  intros Hc. unfold apply_turn_credentials.
  repeat (apply string_knob_ok; [intros; shared_setting|]). done.
Qed.

Lemma parse_turn_entry_settings raw t :
  parse_turn_entry h raw = Some t → turn_settings t = turn_settings (bare_turn []).
Proof.
  unfold parse_turn_entry. intros Ht.
  repeat (case_match; try discriminate); by simplify_eq/=.
Qed.

Lemma parse_turn_entry_port raw t : parse_turn_entry h raw = Some t → is_u16 (tc_port t).
Proof.
  unfold parse_turn_entry. intros Ht.
  repeat (case_match; try discriminate); simplify_eq/=; (by apply u16_range) || (by vm_compute).
Qed.

Lemma apply_turn_servers_ok cfg :
  turn_servers cfg = [] → cfg_turn cfg = bare_turn [] → config_ok cfg →
  config_ok (apply_turn_servers h cfg).
Proof.
  intros Hl Ht Hc. unfold apply_turn_servers. cbn. rewrite Hl. cbn.
  set (raw := match config_array_size h _ with Some n => _ | None => _ end). clearbody raw.
  assert (Forall (λ t, turn_settings t = turn_settings (bare_turn [])) (omap (parse_turn_entry h) raw)) as Hs.
  { apply Forall_forall. intros t (r & _ & Hr)%list_elem_of_omap. by eapply parse_turn_entry_settings. }
  assert (Forall (λ t, is_u16 (tc_port t)) (omap (parse_turn_entry h) raw)) as Hp.
  { apply Forall_forall. intros t (r & _ & Hr)%list_elem_of_omap. by eapply parse_turn_entry_port. }
  destruct (omap (parse_turn_entry h) raw) as [|t l]; destruct Hc; split; cbn; try assumption; auto.
  - by rewrite Hl in ok_ports0.
  - apply Forall_cons in Hs as [E Hs]. constructor; [done|]. by rewrite E.
  - apply Forall_cons in Hp as [Hp Hl']. constructor; [done|by constructor].
Qed.

Lemma apply_filters_ok cfg : config_ok cfg → config_ok (apply_filters h cfg).
Proof.
  intros Hc. unfold apply_filters. destruct (config_array_size h _); [|done].
  generalize (array_strings h (str "ice.candidate_filters") n). intros l.
  revert cfg Hc. induction l as [|tok l IH]; intros cfg Hc; [done|]. apply IH. field_ok.
  rewrite Z.land_lor_distr_l. f_equal; [assumption|].
  unfold filter_flag. by repeat case_decide.
Qed.

Lemma apply_pmtu_ok cfg : config_ok cfg → config_ok (apply_pmtu h cfg).
Proof.
  intros Hc. unfold apply_pmtu.
  assert (Forall (λ v, 576 ≤ v ≤ 65507) (search_steps h)) as Hs.
  { unfold search_steps. destruct (config_array_size h _); [|done].
    apply Forall_forall. by intros v [??]%list_elem_of_filter. }
  set (c := int_knob h "ice.pmtu_probe_concurrency" _ _ _ _).
  assert (config_ok c) as Hc'; [unfold c; knobs_ok|]. clearbody c.
  destruct (search_steps h); [done|]. field_ok. done.
Qed.

Lemma applied_mtu_range mtu : 576 ≤ mtu ≤ 65507 → 576 ≤ applied_mtu h mtu ≤ 65507.
Proof. intros ?. unfold applied_mtu. destruct (config_int64 h _); [case_decide|]; lia. Qed.

Lemma apply_turn_transport_ok cfg : config_ok cfg → config_ok (apply_turn_transport h cfg).
Proof. intros Hc. unfold apply_turn_transport. destruct (config_bool h _); [shared_setting|done]. Qed.

Lemma apply_turn_protocol_ok cfg : config_ok cfg → config_ok (apply_turn_protocol h cfg).
Proof. intros Hc. unfold apply_turn_protocol. destruct (requested_transport h); [shared_setting|done]. Qed.

Lemma initial_config_ok : config_ok (default_config <| stun_servers := kDefaultStunServers |>).
Proof.
  split; cbn; try lia; auto.
  - split; [done|]. repeat constructor; lia.
  - constructor; [by vm_compute|constructor].
Qed.

(** The configuration read is in range, and its TURN servers are uniform. *)
Lemma read_config_ok mtu : 576 ≤ mtu ≤ 65507 → config_ok (read_config h mtu).
Proof.
  intros Hm. unfold read_config. apply apply_pmtu_ok. unfold apply_tcp_and_restart. knobs_ok.
  apply apply_turn_protocol_ok, flag_knob_ok; [intros; shared_setting|].
  unfold apply_mdns, apply_turn_timers. knobs_ok.
  apply apply_turn_transport_ok, apply_filters_ok. unfold apply_modes. knobs_ok.
  apply (applied_mtu_range mtu) in Hm.
  assert (config_ok (apply_pacing h (apply_turn_credentials h (apply_turn_servers h
    (apply_stun_servers h (default_config <| stun_servers := kDefaultStunServers |>)))))) as Hp.
  { unfold apply_pacing. knobs_ok. apply apply_turn_credentials_ok.
    unfold apply_stun_servers. destruct (config_array_size h _);
      apply apply_turn_servers_ok; try done; [|apply initial_config_ok].
    pose proof initial_config_ok. by field_ok. }
  by field_ok.
Qed.

(** * A reload forgets the topology's settings *)

(** What [set_prefer_turn_tcp], [set_security_overhead] and [set_ordered_delivery] set. *)
Definition topology (c : IceConfig) : bool * Z * bool :=
  (prefer_turn_tcp c, security_overhead c, ordered_delivery c).

Lemma int_knob_topology key lo hi set cfg : (∀ v, topology (set v cfg) = topology cfg) →
  topology (int_knob h key lo hi set cfg) = topology cfg.
Proof. intros Hs. unfold int_knob. destruct (config_int64 h _); [case_decide|]; auto. Qed.

Lemma flag_knob_topology key set cfg : (∀ b, topology (set b cfg) = topology cfg) →
  topology (flag_knob h key set cfg) = topology cfg.
Proof. intros Hs. unfold flag_knob. destruct (config_int64 h _); auto. Qed.

Lemma string_knob_topology key set cfg : (∀ b, topology (set b cfg) = topology cfg) →
  topology (string_knob h key set cfg) = topology cfg.
Proof. intros Hs. unfold string_knob. destruct (config_string h _); auto. Qed.

Ltac topology_step := intros; repeat first
  [ reflexivity | rewrite int_knob_topology by done | rewrite flag_knob_topology by done
  | rewrite string_knob_topology by done | case_match ].

Lemma apply_servers_topology cfg :
  topology (apply_turn_credentials h (apply_turn_servers h (apply_stun_servers h cfg))) = topology cfg.
Proof.
  unfold apply_turn_credentials. rewrite !string_knob_topology by done.
  unfold apply_turn_servers, apply_stun_servers. topology_step.
Qed.

Lemma apply_filters_topology cfg : topology (apply_filters h cfg) = topology cfg.
Proof.
  unfold apply_filters. destruct (config_array_size h _); [|done].
  generalize (array_strings h (str "ice.candidate_filters") n). intros l.
  revert cfg. induction l as [|tok l IH]; intros cfg; [done|]. cbn. by rewrite IH.
Qed.

Lemma apply_pacing_topology cfg : topology (apply_pacing h cfg) = topology cfg.
Proof. unfold apply_pacing. topology_step. Qed.
Lemma apply_modes_topology cfg : topology (apply_modes h cfg) = topology cfg.
Proof. unfold apply_modes. topology_step. Qed.
Lemma apply_turn_transport_topology cfg : topology (apply_turn_transport h cfg) = topology cfg.
Proof. unfold apply_turn_transport. topology_step. Qed.
Lemma apply_turn_protocol_topology cfg : topology (apply_turn_protocol h cfg) = topology cfg.
Proof. unfold apply_turn_protocol. topology_step. Qed.
Lemma apply_timers_topology cfg : topology (apply_mdns h (apply_turn_timers h cfg)) = topology cfg.
Proof. unfold apply_mdns, apply_turn_timers. topology_step. Qed.
Lemma apply_tcp_topology cfg : topology (apply_tcp_and_restart h cfg) = topology cfg.
Proof. unfold apply_tcp_and_restart. topology_step. Qed.
Lemma apply_pmtu_topology cfg : topology (apply_pmtu h cfg) = topology cfg.
Proof.
  unfold apply_pmtu. destruct (search_steps h).
  - topology_step.
  - change (topology (set_field pmtu_search_steps _ ?c)) with (topology c). topology_step.
Qed.

Lemma read_config_topology mtu : topology (read_config h mtu) = (false, 0, false).
Proof.
  unfold read_config.
  rewrite apply_pmtu_topology, apply_tcp_topology, apply_turn_protocol_topology,
    flag_knob_topology, apply_timers_topology, apply_turn_transport_topology,
    apply_filters_topology, apply_modes_topology by done.
  change (topology (set_field path_mtu _ ?c)) with (topology c).
  by rewrite apply_pacing_topology, apply_servers_topology.
Qed.
End range.
