(* ===== verification/SessionInv.v ===== *)
(** The invariant of a session: what holds of its members in every state that any
    sequence of calls, packets, timers and answers can bring it to.  This file states
    it and shows that connecting, sending and checking keep it; [SessionRun] has the
    other handlers and the theorem.

    Candidates fit their wire format, pairs are of one address family and within
    their retry budget, parked data is bounded and gone once there is a path, the
    counters respect their limits, the path MTU stays in range and the connection
    tables are inverse to each other. *)

From stdpp Require Import gmap.
From S2P Require Import Prelude Bytes Inet Candidate MdnsCodec Mdns Framing Stun Turn PathMtu.
From S2P Require Import SessionState Delivery CheckList Gather Session LinkConfig.

(** * What the environment promises *)

Definition ifa_ok (i : ifaddrs) : Prop :=
  match ifa_address i with
  | IfaV4 a => length a = 4%nat ∧ bytes_ok a
  | IfaV6 a => length a = 16%nat ∧ bytes_ok a
  | _ => True
  end.

(** The first id the session makes up for a relayed endpoint. *)
Definition first_relay_cid : Z := 0xC000000000000000.

(** The scheme of a URI picks the carrier; each numbers its own connections. *)
Definition same_carrier (u u' : bytes) : Prop := take 3 u = take 3 u'.

(** Random strings have the length asked for, a carrier gives every connection a
    fresh id below the relay ids, ports are 16-bit, interface addresses have the
    size of their family. *)
Class SessionLaws `{SessionEnv} : Prop := {
  txn_length n : length (env_txn n) = 12%nat;
  string_length n len : length (env_string n len) = len;
  uuid_length n : length (env_uuid n) = 16%nat ∧ bytes_ok (env_uuid n);
  dial_fresh n n' u u' cid : same_carrier u u' →
    env_dial n u = Some cid → env_dial n' u' = Some cid → n = n';
  dial_range n u cid : env_dial n u = Some cid → 0 < cid < first_relay_cid;
  listen_port_ok : is_u16 env_listen_port;
  ifaddrs_ok l : env_ifaddrs = Some l → Forall ifa_ok l;
  portmap_ok port m : env_portmap port = Some m → is_u16 (mp_ext_port m);
  parse_uri_ok u host port : env_parse_uri u = Some (host, port) → is_u16 port;
  stale_port_ok now n : is_u16 (env_stale_port now n);
}.

(** What the C++ types promise of the arguments of a call. *)
Definition input_ok (i : session_input) : Prop :=
  match i with
  | ISetRemote _ _ cands | IAddRemote _ _ cands _ => Forall candidate_wf cands
  | ITurnAllocated _ port | ITurnData _ port _ | IRelayed _ port _ => is_u16 port
  | IBackupAllocated c => is_u16 (tc_port c)
  | ITurnState _ _ relayed | IBackupState _ _ relayed => is_u16 (ma_port relayed)
  | _ => True
  end.

(** * The invariant *)

Section invariant.
Context `{SessionEnv} (F : Fixed).

(** The transmissions a pair may have. *)
Definition budget : Z := u8 (max_check_retries (f_cfg F)).

Record pair_inv (p : CheckPair) : Prop := {
  pi_local : candidate_wf (cp_local p);
  pi_remote : candidate_wf (cp_remote p);
  pi_family : c_family (cp_local p) = c_family (cp_remote p);
  pi_priority : is_u64 (cp_priority p);
  pi_retries : 0 ≤ cp_retries p ≤ budget;
  pi_txn : length (cp_txn_id p) = 12%nat;
  pi_valid : cp_valid p = true → cp_state p = PSucceeded ∨ cp_state p = PFailed;
  pi_succeeded : cp_state p = PSucceeded → cp_valid p = true;
}.

(** Parked data is bounded, and none is left once the session is connected. *)
Definition parked_ok (st : SessionState) (l : list bytes) : Prop :=
  (length l ≤ kPendingAppDataMaxFrames)%nat ∧ (st = Connected → l = []).

Record consent_ok (c : Consent) : Prop := {
  co_missed : is_u32 (consent_missed c);
  co_recovery : 0 ≤ consent_recovery_attempts c ≤ u32 (consent_max_recovery (f_cfg F));
  co_restarts : 0 ≤ auto_restart_attempts c ≤ u32 (auto_restart_max_attempts (f_cfg F));
}.

(** The largest UDP payload. *)
Definition max_payload : Z := 65507.

Record pmtu_ok (p : Pmtu) : Prop := {
  pm_range : path_mtu (f_cfg F) ≤ effective_mtu_ p ≤ max_payload;
  pm_probe q : pmtu_probe p = Some q →
    probe_inv q ∧ base_ q = path_mtu (f_cfg F) ∧ effective_ q ≤ max_payload
    ∧ Forall (λ v, v ≤ max_payload) (steps_ q);
}.

Record gather_inv (g : GatherState) : Prop := {
  ga_port : is_u16 (local_port g);
  ga_stride : is_u16 (symmetric_stride g);
}.

Definition turn_ok (t : option TurnHandle) : Prop := ∀ h, t = Some h → is_u16 (ma_port (th_relayed h)).

(** The connection tables, while the relay ids have not wrapped around: an endpoint's
    connection leads back to the endpoint; connections are dialled ones, by the
    first [dials] calls, or relay ids, in the order they were made up. *)
Record tables_inv (dials : nat) (e : Endpoints) : Prop := {
  ta_next : next_relay_cid e = first_relay_cid + Z.of_nat (size (relay_cids e));
  ta_relay cid : cid ∈ relay_cids e → first_relay_cid ≤ cid < next_relay_cid e;
  ta_known k cid : relay_endpoint_to_cid e !! k = Some cid → cid ∈ relay_cids e;
  ta_udp cid ep : cid_to_endpoint_udp e !! cid = Some ep →
    cid ∈ relay_cids e
    ∨ ∃ n ip port, (n < dials)%nat ∧ env_dial n (endpoint_uri ip port) = Some cid;
  ta_key k cid : endpoint_to_cid e !! k = Some cid →
    ∃ ep, cid_to_endpoint_udp e !! cid = Some ep ∧ k = endpoint_key (ep_ip ep) (ep_port ep);
}.
Definition tables_ok (dials : nat) (e : Endpoints) : Prop :=
  Z.of_nat (size (relay_cids e)) < 2 ^ 62 → tables_inv dials e.

(** The ports of the endpoints. *)
Definition endpoints_ok (e : Endpoints) : Prop :=
  map_Forall (λ _ ep, is_u16 (ep_port ep)) (cid_to_endpoint_udp e)
  ∧ map_Forall (λ _ ep, is_u16 (ep_port ep)) (cid_to_endpoint_tcp e).

Definition relay_ok (r : RelayState) : Prop :=
  is_u16 (tc_port (r_turn r)) ∧ Forall (λ t, is_u16 (tc_port t)) (r_turn_servers r)
  ∧ Forall (λ t, is_u16 (tc_port t)) (turn_backups r).

(** [P] relates the state to the parked data. *)
Record session_inv (P : SessionState → list bytes → Prop) (s : IceSession) : Prop := {
  ok_fixed : s_fixed s = F;
  ok_local : Forall sendable (s_local_candidates s);
  ok_remote : Forall candidate_wf (s_remote_candidates s);
  ok_pairs : Forall pair_inv (s_check_list s);
  ok_parked : P (s_state s) (s_pending_app_data s);
  ok_consent : consent_ok (s_consent s);
  ok_pmtu : pmtu_ok (s_pmtu s);
  ok_gather : gather_inv (s_gather s);
  ok_turn : turn_ok (s_turn s);
  ok_backup : turn_ok (s_turn_backup_probe s);
  ok_tables : tables_ok (s_dials s) (s_eps s);
  ok_endpoints : endpoints_ok (s_eps s);
  ok_relay : relay_ok (s_relay s);
  ok_nominated : is_u16 (nominated_port (s_nom s));
  ok_deferred : is_u16 (pending_nom_port (s_pending_nom s));
}.

(** [leads I J m]: from a state with [I], [m] gets to one with [J]. *)
Definition leads (I J : IceSession → Prop) {A} (m : session A) : Prop := ∀ s, I s → J (final m s).
Lemma leads_bind I K J {A B} (m : session A) (f : A → session B) :
  leads I K m → (∀ a, leads K J (f a)) → leads I J (m ≫= f).
Proof. intros Hm Hf s Hs. rewrite final_bind. by apply Hf, Hm. Qed.
Lemma leads_get I J {B} (f : IceSession → session B) :
  (∀ s, I s → leads I J (f s)) → leads I J (get ≫= f).
Proof. intros Hf s Hs. rewrite final_get. by apply Hf. Qed.

(** [holds I m]: [m] keeps [I]. *)
Definition holds (I : IceSession → Prop) {A} (m : session A) : Prop := leads I I m.

Section holds.
Context (I : IceSession → Prop).

Lemma holds_bind {A B} (m : session A) (f : A → session B) :
  holds I m → (∀ a, holds I (f a)) → holds I (m ≫= f).
Proof. intros Hm Hf s Hs. rewrite final_bind. by apply Hf, Hm. Qed.
(** What [m] returns satisfies [Q]. *)
Lemma holds_bind_post {A B} (Q : A → Prop) (m : session A) (f : A → session B) :
  holds I m → (∀ s, I s → Q (run m s).1.1) → (∀ a, Q a → holds I (f a)) → holds I (m ≫= f).
Proof. intros Hm Hq Hf s Hs. rewrite final_bind. apply Hf; auto. Qed.
(** What is read satisfies the invariant. *)
Lemma holds_get {B} (f : IceSession → session B) :
  (∀ s, I s → holds I (f s)) → holds I (get ≫= f).
Proof. intros Hf s Hs. rewrite final_get. by apply Hf. Qed.
Lemma holds_ret {A} (a : A) : holds I (mret a).
Proof. by intros s. Qed.
Lemma holds_skip : holds I skip.
Proof. by intros s. Qed.
Lemma holds_emit e : holds I (emit e).
Proof. by intros s. Qed.
Lemma holds_modify (f : IceSession → IceSession) : (∀ s, I s → I (f s)) → holds I (modify f).
Proof. intros Hf s. apply Hf. Qed.
Lemma holds_for_each {A} (P : A → Prop) (f : A → session unit) l :
  Forall P l → (∀ a, P a → holds I (f a)) → holds I (for_each f l).
Proof.
  intros Hl Hf. induction Hl as [|a l Ha Hl IH]; [apply holds_skip|]. apply holds_bind; auto.
Qed.
Lemma holds_each {A} (f : A → session unit) l : (∀ a, holds I (f a)) → holds I (for_each f l).
Proof. intros Hf. apply (holds_for_each (λ _, True)); [by apply Forall_true|auto]. Qed.
End holds.
End invariant.

Abbreviation session_ok F := (session_inv F parked_ok).

(** * Candidates *)

Lemma zero_addr : length (replicate 16 0) = 16%nat ∧ bytes_ok (replicate 16 0).
Proof. split; [done|apply bytes_ok_zeros]. Qed.

Lemma addr4_ok a : length a = 4%nat → bytes_ok a →
  length (a ++ replicate 12 0) = 16%nat ∧ bytes_ok (a ++ replicate 12 0).
Proof. intros Hl Ha. rewrite length_app, Hl. auto with ice. Qed.

(** A candidate of a known type with fields in range. *)
Lemma sendable_intro c :
  type_of_byte (type_byte (c_type c)) = c_type c → 0 ≤ type_byte (c_type c) < 32 →
  (c_type c = HostMdns → c_hostname c ≠ []) →
  family_of_byte (family_byte (c_family c)) = c_family c → is_u8 (family_byte (c_family c)) →
  is_u16 (c_port c) → is_u32 (c_priority c) →
  length (c_addr c) = 16%nat ∧ bytes_ok (c_addr c) → bytes_ok (c_hostname c) → sendable c.
Proof. intros. split; [|split; [lia|done]]. split; try done. split; [done|unfold_ints; lia]. Qed.

Ltac in_range := first [done | by vm_compute | unfold_ints; lia].

Section candidates.
Context `{InetLaws}.

Lemma with_foundation_wf c : candidate_wf c → candidate_wf (with_foundation c).
Proof. intros []. unfold with_foundation. case_decide; by split. Qed.
Lemma with_foundation_sendable c : sendable c → sendable (with_foundation c).
Proof.
  intros (Hw & Ht & Hn). split; [by apply with_foundation_wf|].
  unfold with_foundation. by case_decide.
Qed.
Lemma with_foundation_family c : c_family (with_foundation c) = c_family c.
Proof. unfold with_foundation. by case_decide. Qed.

Lemma set_address_fields ip c :
  let c' := set_address ip c in
  c_type c' = c_type c ∧ c_port c' = c_port c ∧ c_priority c' = c_priority c
  ∧ c_hostname c' = c_hostname c ∧ c_transport c' = c_transport c.
Proof. unfold set_address. by repeat case_match. Qed.

Lemma set_address_addr ip c :
  length (c_addr c) = 16%nat ∧ bytes_ok (c_addr c) →
  family_of_byte (family_byte (c_family c)) = c_family c ∧ is_u8 (family_byte (c_family c)) →
  let c' := set_address ip c in
  (length (c_addr c') = 16%nat ∧ bytes_ok (c_addr c'))
  ∧ family_of_byte (family_byte (c_family c')) = c_family c' ∧ is_u8 (family_byte (c_family c')).
Proof.
  intros [Hl Ha] Hf. unfold set_address. destruct (inet_pton4 _) as [a|] eqn:E4.
  { apply pton4_size in E4 as [Hl4 Ha4]. cbn. rewrite length_app, length_drop, Hl, Hl4.
    split; [auto with ice|]. split; in_range. }
  destruct (inet_pton6 _) as [a|] eqn:E6; [|done].
  apply pton6_size in E6. split; [done|]. split; in_range.
Qed.

Lemma set_address_wf ip c : candidate_wf c → candidate_wf (set_address ip c).
Proof.
  intros []. destruct (set_address_fields ip c) as (Ht & Hp & Hr & Hh & _).
  destruct (set_address_addr ip c) as [Ha Hf]; [done..|].
  split; rewrite ?Ht, ?Hp, ?Hr, ?Hh; done.
Qed.
Lemma set_address_sendable ip c : sendable c → sendable (set_address ip c).
Proof.
  intros (Hw & Ht & Hn). destruct (set_address_fields ip c) as (Et & _ & _ & Eh & _).
  split; [by apply set_address_wf|]. by rewrite Et, Eh.
Qed.

(** A fresh candidate with a known type, a port and a priority. *)
Lemma fresh_sendable ty port prio :
  type_of_byte (type_byte ty) = ty → 0 ≤ type_byte ty < 32 → ty ≠ HostMdns →
  is_u16 port → is_u32 prio →
  sendable (zero_candidate <| c_type := ty |> <| c_port := port |> <| c_priority := prio |>).
Proof. intros. apply sendable_intro; cbn; try done; [in_range..|apply zero_addr|constructor]. Qed.

Lemma host_candidate_sendable port i c :
  is_u16 port → ifa_ok i → host_candidate port i = Some c → sendable c.
Proof.
  intros Hp Hi. unfold host_candidate, ifa_ok in *.
  repeat case_match; intros; simplify_eq/=; apply sendable_intro; cbn;
    try done; try in_range; try constructor; destruct Hi; try done; by apply addr4_ok.
Qed.

Lemma tcp_variants_sendable c : sendable c → Forall sendable (tcp_variants c).
Proof.
  intros ([] & Ht & Hn). unfold tcp_variants. case_decide; [|constructor].
  do 3 (apply Forall_cons; split; [by split|]). constructor.
Qed.

Lemma srflx_sendable a tx : is_u16 (ma_port a) → sendable (srflx_candidate a tx).
Proof.
  intros Hp. unfold srflx_candidate.
  destruct (inet_pton4 (ma_ip a)) as [x|] eqn:E4.
  - apply pton4_size in E4 as []. apply sendable_intro; cbn; try done; try in_range;
      try constructor; by apply addr4_ok.
  - apply sendable_intro; cbn; try done; try in_range; try constructor;
      destruct (inet_pton6 (ma_ip a)) as [x|] eqn:E6; cbn; try apply zero_addr;
      by apply pton6_size in E6 as [].
Qed.

Lemma relay_sendable ip port : is_u16 port → sendable (relay_candidate ip port).
Proof.
  intros Hp. unfold relay_candidate.
  set (c := zero_candidate <| c_type := Relay |> <| c_port := port |>).
  assert (sendable c) as Hc by (apply (fresh_sendable Relay port 0); in_range).
  apply (set_address_sendable ip) in Hc as (Hw & Ht & Hn).
  split; [|done]. destruct Hw. by split.
Qed.
End candidates.

(** * Connection tables *)

Section tables.
Context `{SessionLaws}.

Lemma tables_more d d' e : (d ≤ d')%nat → tables_ok d e → tables_ok d' e.
Proof.
  intros Hd Ht Hs. destruct (Ht Hs). split; try done.
  intros cid ep He. destruct (ta_udp0 cid ep He) as [|(n & ip & port & Hn & Hu)]; [by left|right].
  exists n, ip, port. split; [lia|done].
Qed.

(** A connection of the tables is not the one dialled next. *)
Lemma dialled_new d e ip port cid : tables_inv d e → env_dial d (endpoint_uri ip port) = Some cid →
  cid_to_endpoint_udp e !! cid = None.
Proof.
  intros [] Hu. destruct (cid_to_endpoint_udp e !! cid) as [ep|] eqn:E; [|done]. exfalso.
  destruct (ta_udp0 _ _ E) as [Hr|(n & ip' & port' & Hn & Hu')].
  - apply ta_relay0 in Hr. apply dial_range in Hu. lia.
  - assert (d = n) by (eapply dial_fresh; [|exact Hu|exact Hu']; done). lia.
Qed.

Lemma tables_dialled d e ip port cid : tables_ok d e → env_dial d (endpoint_uri ip port) = Some cid →
  tables_ok (S d) (e <| endpoint_to_cid := <[endpoint_key ip port := cid]> (endpoint_to_cid e) |>
    <| cid_to_endpoint_udp := <[cid := mkEndpoint ip port Udp]> (cid_to_endpoint_udp e) |>).
Proof.
  intros Ht Hu Hs. specialize (Ht Hs). pose proof (dialled_new _ _ _ _ _ Ht Hu) as Hn.
  destruct Ht. split; cbn; try done.
  - intros c ep. rewrite lookup_insert. case_decide as Hc.
    + intros _. right. exists d, ip, port. split; [lia|by subst].
    + intros He. destruct (ta_udp0 _ _ He) as [|(n & ip' & port' & ? & ?)]; [by left|].
      right. exists n, ip', port'. split; [lia|done].
  - intros k c. rewrite lookup_insert. case_decide as Hk; intros Hc.
    + simplify_eq. eexists. by rewrite lookup_insert_eq.
    + destruct (ta_key0 _ _ Hc) as (ep & He & ->). exists ep.
      rewrite lookup_insert_ne; [done|]. intros ->. congruence.
Qed.

Lemma tables_relay d e ip port : tables_ok d e →
  let cid := next_relay_cid e in
  tables_ok d (e <| next_relay_cid := u64 (next_relay_cid e + 1) |>
    <| relay_endpoint_to_cid := <[endpoint_key ip port := cid]> (relay_endpoint_to_cid e) |>
    <| relay_cids := {[cid]} ∪ relay_cids e |>
    <| cid_to_endpoint_udp := <[cid := mkEndpoint ip port Udp]> (cid_to_endpoint_udp e) |>).
Proof.
  intros Ht cid Hs. cbn in Hs.
  assert (size (relay_cids e) ≤ size ({[cid]} ∪ relay_cids e))%nat as Hle
    by (apply subseteq_size; set_solver).
  destruct (Ht ltac:(lia)).
  assert (cid ∉ relay_cids e) as Hn by (intros Hc%ta_relay0; unfold cid in Hc; lia).
  rewrite size_union, size_singleton in Hs by set_solver.
  assert (u64 (next_relay_cid e + 1) = next_relay_cid e + 1) as Hu.
  { apply u64_id. rewrite ta_next0. unfold first_relay_cid. unfold_ints. lia. }
  split; cbn; rewrite ?Hu.
  - rewrite size_union, size_singleton by set_solver. lia.
  - intros c [->%elem_of_singleton|Hc%ta_relay0]%elem_of_union; unfold cid; lia.
  - intros k c. rewrite lookup_insert. case_decide; [set_solver|]. intros Hk%ta_known0. set_solver.
  - intros c ep. rewrite lookup_insert. case_decide; [set_solver|].
    intros He. destruct (ta_udp0 _ _ He) as [|Hd]; [left; set_solver|by right].
  - intros k c Hk. destruct (ta_key0 _ _ Hk) as (ep & He & ->). exists ep.
    rewrite lookup_insert_ne; [done|]. intros Hc. rewrite Hc in Hn.
    destruct (ta_udp0 _ _ He) as [?|(n & ip' & port' & _ & Hd)]; [done|].
    apply dial_range in Hd. unfold cid in Hc. lia.
Qed.

Lemma tables_torn d e : tables_ok d e →
  tables_ok d (e <| endpoint_to_cid := ∅ |> <| cid_to_endpoint_udp := ∅ |>
                 <| cid_to_endpoint_tcp := ∅ |> <| tcp_rx_buffers := ∅ |>).
Proof. intros Ht Hs. destruct (Ht Hs). by split. Qed.
End tables.

(** * Operations on connections and data *)

Lemma final_dial `{SessionEnv} {B} u (f : option Z → session B) s :
  final (dial u ≫= f) s = final (f (env_dial (s_dials s) u)) (s <| s_dials := S (s_dials s) |>).
Proof. by rewrite final_bind. Qed.

(** The members an update leaves alone keep their part of the invariant. *)
Ltac inv_step := intros ? []; split; cbn; assumption.

Ltac holds_auto tac :=
  repeat match goal with
    | |- ∀ _, _ => intro
    | |- holds _ (get ≫= _) => apply holds_get; intros ? ?
    | |- holds _ (_ ≫= _) => apply holds_bind
    | |- holds _ (mret _) => apply holds_ret
    | |- holds _ skip => apply holds_skip
    | |- holds _ (emit _) => apply holds_emit
    | |- holds _ announce_gathered => unfold announce_gathered
    | |- holds _ (modify _) => apply holds_modify; solve [inv_step | tac]
    | |- holds _ (let _ := _ in _) => cbv zeta
    | |- _ => solve [auto with ice]
    | |- holds _ (for_each _ _) => apply holds_each
    | |- _ => case_match
    end.

Section data.
Context `{InetLaws} `{Hmac} `{SessionLaws} (F : Fixed) (P : SessionState → list bytes → Prop).
#[local] Abbreviation I := (session_inv F P).

Lemma ensure_remote_cid_inv ip port : is_u16 port → holds I (ensure_remote_cid ip port).
Proof.
  intros Hp s Hs. unfold ensure_remote_cid. rewrite final_get.
  destruct (negb _); [done|]. destruct (endpoint_to_cid _ !! _); [done|]. rewrite final_dial.
  destruct Hs. destruct (env_dial _ _) as [cid|] eqn:Ed.
  - split; cbn; try assumption; [by apply tables_dialled|].
    destruct ok_endpoints0. split; [|done]. by apply map_Forall_insert_2.
  - split; cbn; try assumption. eapply tables_more; [|done]. lia.
Qed.

Lemma relay_cid_inv ip port : is_u16 port → holds I (relay_cid_for_endpoint ip port).
Proof.
  intros Hp s Hs. unfold relay_cid_for_endpoint. rewrite final_get.
  destruct (relay_endpoint_to_cid _ !! _); [done|]. destruct Hs.
  split; cbn; try assumption; [by apply tables_relay|].
  destruct ok_endpoints0. split; [|done]. by apply map_Forall_insert_2.
Qed.

Lemma ensure_tcp_cid_inv ip port : is_u16 port → holds I (ensure_remote_tcp_cid ip port).
Proof.
  intros Hp s Hs. unfold ensure_remote_tcp_cid. rewrite final_get.
  destruct (negb _); [done|]. rewrite final_dial. destruct Hs.
  assert (tables_ok (S (s_dials s)) (s_eps s)) as Ht by (eapply tables_more; [|done]; lia).
  destruct (env_dial _ _) as [cid|]; split; cbn; try assumption.
  - intros Hz. by destruct (Ht Hz).
  - destruct ok_endpoints0. split; [done|]. by apply map_Forall_insert_2.
Qed.

Lemma dial_inv u : holds I (dial u).
Proof.
  intros s []. split; cbn; try assumption. eapply tables_more; [|done]. lia.
Qed.

Lemma tear_down_inv : holds I tear_down_cids.
Proof.
  unfold tear_down_cids, set_eps. holds_auto idtac; apply holds_modify; intros ? []; split; cbn; try assumption.
  - intros Hz. by destruct (ok_tables0 Hz).
  - by apply tables_torn.
  - split; apply map_Forall_empty.
Qed.

Lemma generate_txn_inv : holds I generate_txn_id.
Proof. unfold generate_txn_id. holds_auto idtac. Qed.
Lemma random_string_inv n : holds I (random_string n).
Proof. unfold random_string. holds_auto idtac. Qed.
Lemma set_gens_inv f : holds I (set_gens f).
Proof. unfold set_gens. holds_auto idtac. Qed.
Lemma set_ordered_inv f : holds I (set_ordered f).
Proof. unfold set_ordered. holds_auto idtac. Qed.
Lemma touch_inv : holds I touch.
Proof. unfold touch. holds_auto idtac. Qed.
Lemma set_nom_inv f : (∀ n, is_u16 (nominated_port n) → is_u16 (nominated_port (f n))) →
  holds I (set_nom f).
Proof. intros Hf. unfold set_nom. apply holds_modify. intros ? []. split; cbn; auto. Qed.
End data.

#[export] Hint Resolve ensure_remote_cid_inv relay_cid_inv ensure_tcp_cid_inv dial_inv tear_down_inv
  generate_txn_inv random_string_inv set_gens_inv set_ordered_inv touch_inv set_nom_inv : ice.

Section send.
Context `{InetLaws} `{Hmac} `{SessionLaws} (F : Fixed) (P : SessionState → list bytes → Prop).
#[local] Abbreviation I := (session_inv F P).

Lemma send_on_strand_inv buf : holds I (send_on_strand buf).
Proof.
  unfold send_on_strand. apply holds_get. intros s Hs. pose proof (ok_nominated _ _ _ Hs).
  holds_auto idtac.
Qed.

Lemma deliver_loop_inv n : holds I (deliver_loop n).
Proof. induction n as [|n IH]; cbn [deliver_loop]; holds_auto idtac. Qed.
Lemma deliver_in_order_inv raw : holds I (deliver_in_order raw).
Proof. unfold deliver_in_order, deliver_seq. pose proof deliver_loop_inv. holds_auto idtac. Qed.
End send.
#[export] Hint Resolve send_on_strand_inv deliver_in_order_inv : ice.

(** * Pairs *)

Section pairs.
Context (F : Fixed).

Lemma pair_state st p : pair_inv F p →
  (cp_valid p = true → st = PSucceeded ∨ st = PFailed) → (st = PSucceeded → cp_valid p = true) →
  pair_inv F (set_cp_state st p).
Proof. intros [] Hv Hs. by split. Qed.
Lemma pair_failed p : pair_inv F p → pair_inv F (set_cp_state PFailed p).
Proof. intros Hp. apply pair_state; auto. done. Qed.
(** A pair that is frozen or waiting is not valid. *)
Lemma pair_advance st p : pair_inv F p → cp_state p = PFrozen ∨ cp_state p = PWaiting →
  st ≠ PSucceeded → pair_inv F (set_cp_state st p).
Proof.
  intros Hp Hst Hn. apply pair_state; [done| |done].
  intros Hv. apply (pi_valid _ _ Hp) in Hv. destruct Hst, Hv; congruence.
Qed.

Lemma unfreeze_inv lf rf l : Forall (pair_inv F) l → Forall (pair_inv F) (unfreeze_siblings lf rf l).
Proof.
  intros Hl. unfold unfreeze_siblings. case_decide; [done|]. apply Forall_fmap.
  eapply Forall_impl; [exact Hl|]. intros p Hp. cbn. case_decide as Hf; [done|].
  case_decide; [|done]. apply pair_advance; [done| |done]. by left.
Qed.
Lemma promote_inv seen l : Forall (pair_inv F) l → Forall (pair_inv F) (promote_frozen seen l).
Proof.
  intros Hl. revert seen. induction Hl as [|p l Hp _ IH]; intros seen; cbn; [constructor|].
  case_decide as Hf; [by constructor|]. case_decide; constructor; auto.
  apply pair_advance; [done| |done]. by left.
Qed.
Lemma stuck_inv l : Forall (pair_inv F) l → Forall (pair_inv F) (unfreeze_stuck_pairs l).
Proof. intros. unfold unfreeze_stuck_pairs. case_decide; [done|by apply promote_inv]. Qed.
Lemma alter_inv i f l : Forall (pair_inv F) l → (∀ p, l !! i = Some p → pair_inv F (f p)) →
  Forall (pair_inv F) (alter f i l).
Proof.
  intros Hl Hf. apply Forall_lookup. intros j q. rewrite list_lookup_alter.
  case_decide as Hij; [subst j|]; intros Hq.
  - apply fmap_Some in Hq as (p & Hp & ->). by apply Hf.
  - by apply (Forall_lookup_1 _ _ _ _ Hl Hq).
Qed.

(** A list that was just built: no pair is valid. *)
Definition fresh_pairs (l : list CheckPair) : Prop := Forall (λ p, cp_valid p = false) l.

Lemma assign_inv seen l : Forall (pair_inv F) l → fresh_pairs l →
  Forall (pair_inv F) (assign_states seen l).
Proof.
  intros Hl Hf. revert seen. induction Hl as [|p l Hp _ IH]; intros seen; cbn; [constructor|].
  apply Forall_cons in Hf as [Hv Hf].
  case_decide; (constructor; [|by apply IH]); apply pair_state; try done; by rewrite Hv.
Qed.
End pairs.

Lemma pair_priority_range a b c : is_u64 (pair_priority a b c).
Proof. unfold pair_priority. apply u64_range. Qed.

(** * Building and running the check list *)

Section checks.
Context `{InetLaws} `{Hmac} `{SessionLaws} (F : Fixed).
#[local] Abbreviation OK := (session_ok F).

Lemma set_list_inv f : (∀ l, Forall (pair_inv F) l → Forall (pair_inv F) (f l)) →
  holds OK (set_check_list f).
Proof. intros Hf. unfold set_check_list. apply holds_modify. intros ? []. split; cbn; auto. Qed.
Lemma set_pair_inv i f : (∀ p, pair_inv F p → pair_inv F (f p)) → holds OK (set_pair i f).
Proof.
  intros Hf. apply set_list_inv. intros l Hl. apply alter_inv; [done|]. intros p Hp.
  apply Hf. by apply (Forall_lookup_1 _ _ _ _ Hl Hp).
Qed.
(** The pair the update meets is the one that was read. *)
Lemma set_pair_at i f s p : OK s → s_check_list s !! i = Some p → (pair_inv F p → pair_inv F (f p)) →
  OK (final (set_pair i f) s).
Proof.
  intros [] Hi Hf. split; cbn; try assumption. apply alter_inv; [done|]. intros q Hq.
  simplify_eq. apply Hf. by apply (Forall_lookup_1 _ _ _ _ ok_pairs0 Hi).
Qed.
Lemma read_pair s i p : OK s → s_check_list s !! i = Some p → pair_inv F p.
Proof. intros [] Hi. by apply (Forall_lookup_1 _ _ _ _ ok_pairs0 Hi). Qed.

Lemma unfreeze_ok lf rf : holds OK (set_check_list (unfreeze_siblings lf rf)).
Proof. apply set_list_inv. intros l. apply unfreeze_inv. Qed.
Lemma fail_pair_ok i : holds OK (set_pair i (set_cp_state PFailed)).
Proof. apply set_pair_inv. intros p. apply pair_failed. Qed.
Lemma set_state_ok st : st ≠ Connected → holds OK (set_state st).
Proof.
  intros Hst. unfold set_state. apply holds_modify. intros s []. split; cbn; try assumption.
  split; [apply ok_parked0|done].
Qed.
Lemma push_local_ok c : sendable c → holds OK (push_local c).
Proof.
  intros Hc. unfold push_local. holds_auto idtac. apply holds_modify. intros s [].
  split; cbn; try assumption. apply Forall_app_2; [done|]. by constructor.
Qed.
Lemma push_allowed_ok ty c : sendable c → holds OK (push_allowed ty c).
Proof. intros Hc. unfold push_allowed. pose proof (push_local_ok c Hc). holds_auto idtac. Qed.

(** The list under construction. *)
Definition building (s : IceSession) : Prop := OK s ∧ fresh_pairs (s_check_list s).

Lemma building_push p : pair_inv F p → cp_valid p = false → holds building (push_pair p).
Proof.
  intros Hp Hv s [[] Hf]. split; [split; cbn; try assumption|]; apply Forall_app_2; try done;
    by constructor.
Qed.
Lemma building_txn : holds building generate_txn_id.
Proof. intros s [Hs Hf]. split; [by apply generate_txn_inv|done]. Qed.

(** Continue with a fresh transaction id. *)
Lemma building_draw {B} (f : bytes → session B) :
  (∀ txn, length txn = 12%nat → holds building (f txn)) → holds building (generate_txn_id ≫= f).
Proof.
  intros Hf s Hs. rewrite final_bind. apply Hf; [apply txn_length|]. by apply building_txn.
Qed.

Lemma predict_ok n k stride p : pair_inv F p → cp_valid p = false →
  holds building (predict_pairs n k stride p).
Proof.
  intros Hp Hv. revert k. induction n as [|n IH]; intros k; cbn [predict_pairs]; [apply holds_skip|].
  case_decide as Hd; [apply holds_skip|]. apply building_draw. intros txn Ht.
  apply holds_bind; [|intros; apply IH]. apply building_push; [|done].
  destruct Hp as [? [] ? ? ? ? ? ?]. split; cbn; try done.
  - split; cbn; try done. pose proof (u32_range (c_port (cp_remote p) + u32 (stride * k))).
    unfold_ints; lia.
  - case_decide; unfold_ints; lia.
Qed.

Lemma budget_range : 0 ≤ budget F < 256.
Proof. apply u8_range. Qed.

Lemma new_pair_inv l r b txn : candidate_wf l → candidate_wf r → c_family l = c_family r →
  length txn = 12%nat → pair_inv F (new_pair l r b txn).
Proof.
  intros. pose proof budget_range. split; cbn; try done; [apply pair_priority_range|lia].
Qed.

Lemma add_pair_ok stride n l r : candidate_wf l → candidate_wf r →
  holds building (add_pair stride n l r).
Proof.
  intros Hl Hr. unfold add_pair. destruct (pairable l r) eqn:Hp; [|apply holds_skip].
  apply holds_get. intros s _. apply building_draw. intros txn Ht.
  assert (c_family l = c_family r) as Hf.
  { unfold pairable in Hp. repeat (apply andb_true_iff in Hp as [Hp ?]).
    by eapply bool_decide_eq_true_1. }
  assert (pair_inv F (new_pair l r (s_controlling s) txn)) as Hn by by apply new_pair_inv.
  apply holds_bind; [by apply building_push|]. intros _. case_match; [|apply holds_skip].
  by apply predict_ok.
Qed.

Lemma building_frame (f : IceSession → IceSession) :
  (∀ s, OK s → OK (f s)) → (∀ s, s_check_list (f s) = s_check_list s) → holds building (modify f).
Proof. intros Hf Hl s [Hs Hp]. split; [by apply Hf|]. cbn. by rewrite Hl. Qed.

(** Ordering the pairs and giving them their first states ends the construction. *)
Lemma building_done s : building s →
  OK (final (set_check_list (std_sort by_priority) ;; set_check_list assign_initial_pair_states ;;
             modify (λ s, s <| s_current_check := 0%nat |>) ;; emit EUnlock) s).
Proof.
  intros [[] Hf]. split; cbn; try assumption. apply assign_inv.
  - by rewrite std_sort_perm.
  - unfold fresh_pairs. by rewrite std_sort_perm.
Qed.

Lemma foundations_ok : holds building assign_local_foundations.
Proof.
  unfold assign_local_foundations. holds_auto idtac. apply building_frame; [|done]. intros s [].
  split; cbn; try assumption. apply Forall_fmap. eapply Forall_impl; [done|].
  intros c Hc. by apply with_foundation_sendable.
Qed.

Lemma build_ok : holds OK build_check_list.
Proof.
  unfold holds, build_check_list. apply (leads_bind _ OK); [exact (holds_emit _ _)|]. intros _.
  apply (leads_bind _ building).
  { intros s []. split; [split; cbn; try assumption; constructor|constructor]. }
  intros _. apply leads_get. intros s0 _. cbv zeta.
  apply (leads_bind _ building); [exact foundations_ok|]. intros _. apply (leads_bind _ building).
  { refine (building_frame _ _ _); [|done]. intros s []. split; cbn; try assumption.
    apply Forall_fmap. eapply Forall_impl; [done|]. intros c. apply with_foundation_wf. }
  intros _. apply leads_get. intros s [[] _]. apply (leads_bind _ building).
  { refine (holds_for_each _ sendable _ _ _ _); [done|]. intros l (Hl & _).
    apply (holds_for_each _ candidate_wf); [done|]. intros r Hr. by apply add_pair_ok. }
  intros _ s1. apply building_done.
Qed.
End checks.
#[export] Hint Resolve unfreeze_ok fail_pair_ok push_local_ok push_allowed_ok build_ok : ice.

Section running.
Context `{InetLaws} `{Hmac} `{SessionLaws} (F : Fixed).
#[local] Abbreviation OK := (session_ok F).

Lemma transmit_ok p msg : pair_inv F p → holds OK (transmit_check p msg).
Proof.
  intros Hp. assert (is_u16 (c_port (cp_remote p))) by apply Hp.
  unfold transmit_check, tcp_check_cid, arm_tcp_so_connect. holds_auto idtac.
Qed.

Lemma send_check_ok i : holds OK (send_check i).
Proof.
  intros s Hs. unfold send_check. rewrite final_get.
  destruct (s_check_list s !! i) as [p|] eqn:Hi; [|done]. pose proof (read_pair F s i p Hs Hi) as Hp.
  case_decide as Hr; rewrite final_bind.
  - apply unfreeze_ok. by apply (fail_pair_ok F i).
  - apply transmit_ok; [done|]. eapply set_pair_at; [done..|]. intros []. split; cbn; try done.
    unfold max_retries in Hr. rewrite (ok_fixed _ _ _ Hs) in Hr. fold (budget F) in Hr.
    pose proof (budget_range F). rewrite u8_id; unfold_ints; lia.
Qed.
#[local] Hint Resolve send_check_ok : ice.

(** A waiting pair is started. *)
Lemma start_pair_ok i s p : OK s → s_check_list s !! i = Some p → cp_state p = PWaiting →
  OK (final (set_pair i (set_cp_state PInProgress)) s).
Proof.
  intros Hs Hi Hw. eapply set_pair_at; [done..|]. intros Hp. by apply pair_advance; auto.
Qed.

Lemma begin_loop_ok idxs b4 b6 : holds OK (begin_loop idxs b4 b6).
Proof.
  revert b4 b6. induction idxs as [|i idxs IH]; intros b4 b6; cbn [begin_loop]; [apply holds_skip|].
  case_match; [apply holds_skip|]. intros s Hs. rewrite final_get.
  destruct (s_check_list s !! i) as [p|] eqn:Hi; [|done].
  case_decide as Hw; [by apply IH|].
  repeat case_match; try (by apply IH);
    (rewrite 2!final_bind; apply IH, send_check_ok; by eapply start_pair_ok).
Qed.

Lemma retransmit_ok i : holds OK (retransmit_one i).
Proof.
  pose proof (send_check_ok i). unfold retransmit_one. holds_auto idtac.
Qed.

Lemma promote_loop_ok idxs : holds OK (promote_loop idxs).
Proof.
  induction idxs as [|i idxs IH]; cbn [promote_loop]; [apply holds_skip|].
  intros s Hs. rewrite final_get. case_decide; [done|].
  destruct (s_check_list s !! i) as [p|] eqn:Hi; [|done]. rewrite final_bind. apply IH.
  destruct (bool_decide_reflect (cp_state p = PWaiting)); cbn [andb]; [|done].
  case_match; [|done]. rewrite final_bind. apply send_check_ok. by eapply start_pair_ok.
Qed.
#[local] Hint Resolve begin_loop_ok retransmit_ok promote_loop_ok set_state_ok : ice.

Lemma fail_session_ok : holds OK fail_session.
Proof. assert (Failed ≠ Connected) by done. unfold fail_session. holds_auto idtac. Qed.
#[local] Hint Resolve fail_session_ok : ice.
Lemma exhausted_ok : holds OK checks_exhausted.
Proof. unfold checks_exhausted. holds_auto idtac. Qed.
#[local] Hint Resolve exhausted_ok : ice.

Lemma run_next_check_ok : holds OK run_next_check.
Proof.
  assert (holds OK (set_check_list unfreeze_stuck_pairs))
    by (apply set_list_inv; intros l; apply stuck_inv).
  unfold run_next_check. holds_auto idtac.
Qed.
#[local] Hint Resolve run_next_check_ok : ice.
Lemma begin_checks_ok : holds OK begin_checks.
Proof. unfold begin_checks. holds_auto idtac. Qed.
Lemma rebuild_ok : holds OK rebuild_and_check.
Proof. unfold rebuild_and_check. holds_auto idtac. Qed.
Lemma rebuild_if_ok : holds OK rebuild_if_checking.
Proof. unfold rebuild_if_checking. holds_auto idtac. Qed.
#[local] Hint Resolve rebuild_if_ok : ice.
Lemma role_conflict_ok b t : holds OK (handle_role_conflict b t).
Proof. unfold handle_role_conflict. holds_auto idtac. Qed.
End running.
#[export] Hint Resolve send_check_ok begin_checks_ok run_next_check_ok rebuild_ok rebuild_if_ok
  role_conflict_ok fail_session_ok exhausted_ok set_state_ok : ice.
