(* ===== verification/SessionRun.v ===== *)
(** The invariant of [SessionInv] is kept by gathering, by the relays, consent,
    path MTU probes, nomination, packets and remote candidates, and so by every
    sequence of inputs. *)

From stdpp Require Import gmap.
From S2P Require Import Prelude Bytes Inet Candidate MdnsCodec Mdns Framing Stun Turn PathMtu.
From S2P Require Import SessionState Delivery CheckList Gather Session LinkConfig SessionInv.

(** * Gathering *)

(** An update of the gathering state, of the TURN client or of the server list. *)
Ltac gather_step :=
  intros ? []; split; cbn; try assumption;
  match goal with
  | H : gather_inv _ |- gather_inv _ => destruct H; split; cbn; (assumption || by vm_compute)
  | |- turn_ok None => done
  | H : relay_ok _ |- relay_ok _ => destruct H as (? & ? & ?); split_and!; cbn; (done || constructor)
  end.

(** A new client has no relayed address yet. *)
Lemma build_turn_result `{SessionEnv} c b s t : (run (build_turn_client c b) s).1.1 = Some t →
  ∃ carrier cid, t = mkTurnHandle carrier cid b false false (mkMapped [] 0).
Proof.
  unfold build_turn_client. rewrite run_get. cbv zeta. case_match.
  - rewrite run_bind. cbn. intros Ht. destruct (env_dial _ _); simplify_eq/=. by do 2 eexists.
  - case_match; [done|]. rewrite run_bind. destruct (run (ensure_remote_cid _ _) s) as [[cid s1] o].
    cbn. case_decide; intros; simplify_eq/=. by do 2 eexists.
Qed.

Section gathering.
Context `{InetLaws} `{Hmac} `{SessionLaws} (F : Fixed).
#[local] Abbreviation OK := (session_ok F).

Lemma set_gather_ok f : (∀ g, gather_inv g → gather_inv (f g)) → holds OK (set_gather f).
Proof. intros Hf. unfold set_gather. apply holds_modify. intros ? []. split; cbn; auto. Qed.

Lemma gathering_complete_ok : holds OK on_gathering_complete.
Proof.
  assert (Checking ≠ Connected) by done. assert (WaitingRemote ≠ Connected) by done.
  unfold on_gathering_complete, set_gather. holds_auto gather_step.
Qed.
#[local] Hint Resolve gathering_complete_ok : ice.
Lemma gather_timer_arm_ok ms : holds OK (arm_gather_timer ms).
Proof. unfold arm_gather_timer. holds_auto idtac. Qed.
#[local] Hint Resolve gather_timer_arm_ok : ice.
Lemma gather_timer_ok gen : holds OK (on_gather_timer gen).
Proof. unfold on_gather_timer, set_gather. holds_auto gather_step. Qed.

Lemma tcp_host_ok : holds OK gather_tcp_host_candidates.
Proof.
  unfold gather_tcp_host_candidates. holds_auto idtac. apply holds_modify. intros ? [].
  split; cbn; try assumption. apply Forall_app_2; [done|]. apply Forall_bind.
  eapply Forall_impl; [done|]. intros c. apply tcp_variants_sendable.
Qed.
#[local] Hint Resolve tcp_host_ok : ice.

Lemma uuid_name_bytes n : bytes_ok (generate_uuid_v4 (env_uuid n) ++ str ".local")
  ∧ generate_uuid_v4 (env_uuid n) ++ str ".local" ≠ [].
Proof.
  destruct (uuid_length n) as [_ Hu]. split; [|by intros [_ ?]%app_nil].
  apply bytes_ok_app; [|apply str_ok]. apply uuid_bytes_ok, uuid_text_chars in Hu.
  eapply Forall_impl; [exact Hu|]. cbn. intros c Hc. unfold_ints. lia.
Qed.

Lemma mdns_host_sendable name port : bytes_ok name → name ≠ [] → is_u16 port →
  sendable (zero_candidate <| c_type := HostMdns |> <| c_family := IPv4 |> <| c_port := port |>
    <| c_priority := compute_priority HostMdns 65535 1 |> <| c_hostname := name |>).
Proof. intros. apply sendable_intro; cbn; try done; try in_range. apply zero_addr. Qed.

Lemma gather_host_ok : holds OK gather_host_candidates.
Proof.
  unfold gather_host_candidates. apply holds_get. intros s Hs. apply holds_bind.
  { unfold set_gather. case_match; [|apply holds_skip]. apply holds_modify. intros ? [].
    split; cbn; try assumption. destruct ok_gather. split; cbn; [apply listen_port_ok|done]. }
  intros _. apply holds_get. intros s1 Hs1. pose proof (ga_port _ (ok_gather _ _ _ Hs1)) as Hp.
  case_decide; [apply holds_skip|]. case_match.
  - pose proof (uuid_name_bytes (s_draws s1)) as [Hb Hn].
    pose proof (push_allowed_ok F Host _ (mdns_host_sendable _ _ Hb Hn Hp)).
    unfold set_gather. holds_auto gather_step.
  - destruct env_ifaddrs as [l|] eqn:El; [|apply holds_skip]. apply holds_bind; [|auto with ice].
    apply (holds_for_each _ sendable); [|intros; by apply push_allowed_ok].
    apply Forall_forall. intros c (i & Hi & Hc)%list_elem_of_omap.
    apply ifaddrs_ok in El. rewrite Forall_forall in El. by eapply host_candidate_sendable; eauto.
Qed.

Lemma portmap_gather_ok : holds OK gather_portmap.
Proof.
  unfold gather_portmap. apply holds_get. intros s Hs. cbv zeta.
  do 5 (case_match; [apply holds_skip|]).
  destruct (env_portmap _) as [m|] eqn:Ep; [|apply holds_skip]. apply portmap_ok in Ep. cbv zeta.
  set (c := set_address (mp_ext_ip m) _).
  assert (sendable c) as Hc.
  { apply set_address_sendable. apply (fresh_sendable Srflx (mp_ext_port m) 0); in_range. }
  repeat (case_match; [apply holds_skip|]). apply holds_bind.
  - apply push_local_ok. destruct Hc as ([] & ? & ?). split; [|done]. by split.
  - intros _. unfold set_gather. apply holds_modify. gather_step.
Qed.

Lemma release_portmap_ok : holds OK release_portmap_mapping.
Proof. unfold release_portmap_mapping, set_gather. holds_auto gather_step. Qed.

Lemma split_stun_port server host port : split_stun_host_port server = Some (host, port) → is_u16 port.
Proof.
  unfold split_stun_host_port. case_decide; [done|]. case_match; cbn.
  - destruct (env_parse_uri _) as [[h p]|] eqn:E; [|done]. apply parse_uri_ok in E.
    case_decide; [done|]. congruence.
  - intros [= _ <-]. in_range.
Qed.

Lemma stun_probe_ok tcp server : holds OK (stun_probe tcp server).
Proof.
  unfold stun_probe. destruct (split_stun_host_port server) as [[host port]|] eqn:E; [|apply holds_skip].
  apply split_stun_port in E. unfold set_gather. holds_auto gather_step.
Qed.
#[local] Hint Resolve stun_probe_ok : ice.

Lemma stun_probes_ok : holds OK on_stun_probes.
Proof.
  unfold on_stun_probes, start_multi_stun_probes, gather_tcp_server_reflexive, set_gather.
  holds_auto gather_step.
Qed.

Lemma observe_port_ok port g : gather_inv g → gather_inv (observe_srflx_port port g).
Proof.
  intros []. unfold observe_srflx_port. repeat case_match; try done. split; [done|apply u16_range].
Qed.

Lemma gather_response_ok msg tx : ports_ok msg → holds OK (handle_gather_response msg tx).
Proof.
  intros Hm. unfold handle_gather_response. apply holds_get. intros s Hs.
  case_decide; [apply holds_skip|]. destruct (xor_mapped msg) as [a|] eqn:Ea; [|apply holds_skip].
  assert (sendable (srflx_candidate a tx)) as Hc by (apply srflx_sendable, Hm; auto).
  revert Hc. cbv zeta. generalize (srflx_candidate a tx). intros c Hc.
  pose proof (push_allowed_ok F (c_type c) c Hc).
  assert (∀ port, holds OK (set_gather (observe_srflx_port port))).
  { intros port. apply set_gather_ok, observe_port_ok. }
  assert (∀ l, holds OK (set_gather (λ g, g <| pending_stun_probes := l g |>))).
  { intros l. apply set_gather_ok. by intros g []. }
  assert (∀ b, holds OK (set_gather (λ g, g <| stun_gathered := b |>))).
  { intros l. apply set_gather_ok. by intros g []. }
  holds_auto idtac.
Qed.
End gathering.

(** * Relays *)

Section relays.
Context `{InetLaws} `{Hmac} `{SessionLaws} (F : Fixed).
#[local] Abbreviation OK := (session_ok F).
#[local] Hint Resolve gathering_complete_ok gather_timer_arm_ok : ice.

Lemma build_turn_ok c b : is_u16 (tc_port c) → holds OK (build_turn_client c b).
Proof. intros Hc. unfold build_turn_client. holds_auto idtac. Qed.

Lemma build_turn_handle c b s : turn_ok (run (build_turn_client c b) s).1.1.
Proof. intros t (carrier & cid & ->)%build_turn_result. cbn. in_range. Qed.

Lemma relay_gathered_ok : holds OK relay_gathered.
Proof.
  assert (∀ b, holds OK (set_gather (λ g, g <| turn_gathering := b |>))).
  { intros l. apply set_gather_ok. by intros g []. }
  unfold relay_gathered. holds_auto idtac.
Qed.
#[local] Hint Resolve relay_gathered_ok : ice.

Lemma set_relay_ok f : (∀ r, relay_ok r → relay_ok (f r)) → holds OK (set_relay f).
Proof. intros Hf. unfold set_relay. apply holds_modify. intros ? []. split; cbn; auto. Qed.
Lemma next_attempt_ok : holds OK next_attempt.
Proof. by apply set_relay_ok. Qed.
#[local] Hint Resolve next_attempt_ok : ice.

Lemma set_turn_ok t : turn_ok t → holds OK (modify (λ s, s <| s_turn := t |>)).
Proof. intros Ht. apply holds_modify. intros ? []. by split. Qed.
Lemma set_backup_ok t : turn_ok t → holds OK (modify (λ s, s <| s_turn_backup_probe := t |>)).
Proof. intros Ht. apply holds_modify. intros ? []. by split. Qed.
Lemma no_turn : turn_ok None.
Proof. done. Qed.
#[local] Hint Resolve set_turn_ok set_backup_ok no_turn : ice.

Lemma turn_attempt_ok : holds OK try_next_turn_attempt.
Proof.
  unfold try_next_turn_attempt. apply holds_bind; [auto with ice|]. intros _.
  apply holds_get. intros s Hs. apply holds_bind; [holds_auto idtac|]. intros _.
  destruct (_ !! _) as [c|] eqn:Hc; [|auto with ice].
  assert (is_u16 (tc_port c)) as Hp.
  { destruct (ok_relay _ _ _ Hs) as (_ & Hl & _). by apply (Forall_lookup_1 _ _ _ _ Hl Hc). }
  case_decide; [holds_auto idtac|]. cbv zeta.
  apply (holds_bind_post _ turn_ok); [|intros; apply build_turn_handle|].
  - apply build_turn_ok. by case_match.
  - intros t Ht. destruct t as [t|]; holds_auto idtac.
Qed.
#[local] Hint Resolve turn_attempt_ok : ice.

Lemma turn_allocate_timer_ok gen : holds OK (on_turn_allocate_timer gen).
Proof. unfold on_turn_allocate_timer. holds_auto idtac. Qed.

Lemma gather_relay_ok : holds OK gather_relay.
Proof.
  assert (holds OK (set_relay (λ r, r <| r_turn_servers := [r_turn r] |>))).
  { apply set_relay_ok. intros r (? & ? & ?). split_and!; [done| |done]. by constructor. }
  assert (holds OK (set_relay (λ r, r <| turn_attempt_idx := 0%nat |>))) by by apply set_relay_ok.
  assert (holds OK (set_gather (λ g, g <| turn_gathering := true |>))).
  { apply set_gather_ok. by intros g []. }
  unfold gather_relay. holds_auto idtac.
Qed.

Lemma gather_ok : holds OK gather.
Proof.
  pose proof (gather_host_ok F). pose proof (portmap_gather_ok F). pose proof gather_relay_ok.
  assert (Gathering ≠ Connected) by done. unfold gather. holds_auto idtac.
Qed.

Lemma arm_backup_ok : holds OK arm_backup_timer.
Proof. unfold arm_backup_timer. holds_auto idtac. Qed.
#[local] Hint Resolve arm_backup_ok : ice.

Lemma turn_allocated_ok ip port : is_u16 port → holds OK (on_turn_allocated ip port).
Proof.
  intros Hp. pose proof (push_local_ok F _ (relay_sendable ip port Hp)).
  assert (holds OK (set_relay (λ r, r <| turn_backups := drop (S (turn_attempt_idx r)) (r_turn_servers r) |>))).
  { apply set_relay_ok. intros r (? & ? & ?). split_and!; [done..|]. by apply Forall_drop. }
  assert (holds OK (set_relay (λ r, r <| turn_backup_probe_idx := 0%nat |>))) by by apply set_relay_ok.
  unfold on_turn_allocated. holds_auto idtac.
Qed.

Lemma backup_tick_ok : holds OK on_turn_backup_tick.
Proof.
  unfold on_turn_backup_tick. apply holds_get. intros s Hs. cbv zeta.
  case_match; [apply holds_skip|]. destruct (decide (s_state s = Failed)); [apply holds_skip|].
  apply holds_bind; [holds_auto idtac|]. intros _.
  set (idx := if decide _ then _ else _). clearbody idx.
  destruct (turn_backups (s_relay s) !! idx) as [c|] eqn:Hc; [|apply holds_skip].
  assert (is_u16 (tc_port c)) as Hp.
  { destruct (ok_relay _ _ _ Hs) as (_ & _ & Hl). by apply (Forall_lookup_1 _ _ _ _ Hl Hc). }
  apply holds_bind; [by apply set_relay_ok|]. intros _. apply holds_bind; [auto with ice|]. intros _.
  apply (holds_bind_post _ turn_ok); [by apply build_turn_ok|intros; apply build_turn_handle|].
  intros t Ht. holds_auto idtac.
Qed.
#[local] Hint Resolve backup_tick_ok : ice.
Lemma backup_timer_ok gen : holds OK (on_turn_backup_timer gen).
Proof. unfold on_turn_backup_timer. holds_auto idtac. Qed.

Lemma promote_ok t c : turn_ok (Some t) → is_u16 (tc_port c) → holds OK (promote_turn_backup t c).
Proof.
  intros Ht Hc. unfold promote_turn_backup. pose proof (Ht t eq_refl) as Hp.
  pose proof (push_allowed_ok F Relay _ (relay_sendable (ma_ip (th_relayed t)) _ Hp)).
  assert (∀ now, holds OK (set_relay (λ r, r <| turn_last_failover := now |>))).
  { intros. by apply set_relay_ok. }
  assert (holds OK (set_relay (λ r, r <| r_turn := c |>))).
  { apply set_relay_ok. by intros r (? & ? & ?). }
  assert (holds OK (modify (λ s, s <| s_local_candidates := filter (λ c, c_type c ≠ Relay) (s_local_candidates s) |>))).
  { apply holds_modify. intros ? []. split; cbn; try assumption.
    apply Forall_forall. intros x [_ Hx]%list_elem_of_filter. rewrite Forall_forall in ok_local. auto. }
  assert (Checking ≠ Connected) by done. holds_auto idtac.
Qed.

Lemma backup_allocated_ok c : is_u16 (tc_port c) → holds OK (on_backup_allocated c).
Proof.
  intros Hc. unfold on_backup_allocated. apply holds_get. intros s Hs.
  destruct (s_turn_backup_probe s) as [t|] eqn:Ht; [|apply holds_skip]. cbv zeta.
  assert (turn_ok (Some t)) as Hp by (rewrite <- Ht; apply Hs).
  pose proof (promote_ok t c Hp Hc). holds_auto idtac.
Qed.
End relays.

(** * The path MTU *)

Section mtu.
Context (F : Fixed) (Hcfg : config_ok (f_cfg F)).

(** What the invariant says of a probe. *)
Definition probe_ok (q : PathMtuProbe) : Prop :=
  probe_inv q ∧ base_ q = path_mtu (f_cfg F) ∧ effective_ q ≤ max_payload
  ∧ Forall (λ v, v ≤ max_payload) (steps_ q).

Lemma probe_ok_new : probe_ok (new_probe (path_mtu (f_cfg F)) (pmtu_search_steps (f_cfg F))).
Proof.
  destruct (ok_mtu _ Hcfg), (ok_steps _ Hcfg) as [_ Hs]. split; [apply new_probe_inv; lia|].
  assert (Forall (λ v, v ≤ max_payload) (ladder (path_mtu (f_cfg F)) (pmtu_search_steps (f_cfg F)))) as Hl.
  { apply Forall_forall. intros v Hv%ladder_in. rewrite Forall_forall in Hs. apply Hs in Hv.
    unfold max_payload. lia. }
  unfold new_probe. destruct (ladder _ _) eqn:E; cbn; rewrite ?E; unfold max_payload; auto with lia.
Qed.

(** The size under probe is below a rung of the ladder. *)
Lemma searching_current q : searching q → Forall (λ v, v ≤ max_payload) (steps_ q) →
  current_ q ≤ max_payload.
Proof.
  intros Hq Hs. rewrite Forall_forall in Hs. destruct (decide (high_ q = 0)) as [Hh|Hh].
  - by eapply Hs, list_elem_of_lookup_2, (se_ladder q Hq).
  - destruct (se_bisect q Hq Hh) as (? & _ & _ & v & Hv & ?). apply Hs in Hv. lia.
Qed.

Lemma probe_ok_outcome o q : probe_ok q → probe_ok (on_outcome q o).
Proof.
  intros (Hi & Hb & He & Hs). destruct (on_outcome_inv q o Hi) as (Hi' & _ & Hb' & Hs').
  split; [done|]. rewrite Hb', Hs'. split_and!; try done.
  destruct Hi as [Hq|Hq].
  - destruct o; cbn.
    + destruct (searching_ack q Hq) as (_ & _ & -> & _). by apply searching_current.
    + by destruct (searching_loss q Hq) as (_ & _ & -> & _).
  - destruct (completed_stuck q Hq) as [E1 E2]. destruct o; cbn; by rewrite ?E1, ?E2.
Qed.

Lemma probe_ok_range q : probe_ok q →
  path_mtu (f_cfg F) ≤ u32 (effective_ q) ≤ max_payload.
Proof.
  intros (Hi & Hb & He & _). pose proof (ok_mtu _ Hcfg). unfold max_payload in *.
  assert (base_ q ≤ effective_ q) by (destruct Hi as [Hq|Hq]; [apply (se_base _ Hq)|apply (co_effective _ Hq)]).
  rewrite u32_id; unfold_ints; lia.
Qed.
End mtu.

(** * Restart, consent and probes *)

Section life.
Context `{InetLaws} `{Hmac} `{SessionLaws} (F : Fixed) (Hcfg : config_ok (f_cfg F)).
#[local] Abbreviation OK := (session_ok F).

Lemma set_consent_ok f : (∀ c, consent_ok F c → consent_ok F (f c)) → holds OK (set_consent f).
Proof. intros Hf. unfold set_consent. apply holds_modify. intros ? []. split; cbn; auto. Qed.

(** The counters start again. *)
Lemma consent_missed_zero : holds OK (set_consent (λ c, c <| consent_missed := 0 |>)).
Proof. apply set_consent_ok. intros c []. split; cbn; try done; in_range. Qed.
Lemma consent_zero : holds OK (set_consent (λ c, c <| consent_missed := 0 |> <| consent_recovery_attempts := 0 |>)).
Proof.
  apply set_consent_ok. intros c []. split; cbn; try done.
  pose proof (u32_range (consent_max_recovery (f_cfg F))). unfold_ints; lia.
Qed.
Lemma consent_new : holds OK (set_consent (λ _, mkConsent 0 0 0 None)).
Proof.
  apply set_consent_ok. intros _ _. pose proof (u32_range (consent_max_recovery (f_cfg F))).
  pose proof (u32_range (auto_restart_max_attempts (f_cfg F))). split; cbn; unfold_ints; lia.
Qed.

Lemma unregister_ok : holds OK unregister_mdns.
Proof.
  assert (holds OK (set_gather (λ g, g <| mdns_local_hostname := [] |>))).
  { apply set_gather_ok. by intros g []. }
  unfold unregister_mdns. holds_auto idtac.
Qed.
Lemma closed_handle_ok t : turn_ok t → turn_ok (closed_handle <$> t).
Proof. intros Ht h (t' & -> & ->)%fmap_Some. exact (Ht t' eq_refl). Qed.
Lemma close_turn_ok : holds OK close_turn_clients.
Proof.
  unfold close_turn_clients. holds_auto idtac.
  apply holds_modify. intros s0 []. split; cbn; try assumption; by apply closed_handle_ok.
Qed.
#[local] Hint Resolve unregister_ok close_turn_ok consent_zero consent_missed_zero : ice.

(** The resets of [restart]. *)
Lemma restart_relay_ok : holds OK (set_relay (λ r, r <| turn_backups := [] |>
  <| turn_attempt_idx := 0%nat |> <| turn_backup_probe_idx := 0%nat |> <| turn_last_failover := None |>)).
Proof. apply set_relay_ok. intros r (? & ? & ?). split_and!; [done..|constructor]. Qed.
Lemma restart_gather_ok : holds OK (set_gather (λ g, g <| pending_stun_probes := [] |>
  <| gathered_signal_fired := false |> <| stun_gathered := false |> <| turn_gathering := false |>
  <| symmetric_stride := 0 |> <| first_observed_srflx_port := 0 |> <| have_first_srflx_port := false |>)).
Proof. apply set_gather_ok. intros g []. split; cbn; [done|in_range]. Qed.
Lemma restart_port_ok : holds OK (set_gather (λ g, g <| carrier_initialized := false |> <| local_port := 0 |>)).
Proof. apply set_gather_ok. intros g []. split; cbn; [in_range|done]. Qed.

Lemma restart_ok : holds OK restart.
Proof.
  pose proof (gather_ok F). pose proof restart_relay_ok. pose proof restart_gather_ok.
  pose proof restart_port_ok. assert (New ≠ Connected) by done.
  assert (holds OK (set_nom (λ n, n <| nominated_cid := 0 |> <| nominated_ip := [] |>
    <| nominated_port := 0 |> <| uses_relay := false |>))) by (apply set_nom_inv; intros; in_range).
  unfold restart, generate_ufrag, generate_pwd.
  holds_auto ltac:(intros ? []; split; cbn; try assumption; (done || constructor)).
Qed.

Lemma close_ok : holds OK close.
Proof.
  pose proof (release_portmap_ok F). assert (Failed ≠ Connected) by done.
  assert (holds OK (set_nom (λ n, n <| nominated_cid := 0 |>))) by by apply set_nom_inv.
  unfold close. holds_auto idtac.
Qed.
#[local] Hint Resolve restart_ok : ice.

Lemma consent_loss_ok : holds OK notify_consent_loss.
Proof.
  intros s Hs. unfold notify_consent_loss. rewrite final_get. cbv zeta.
  destruct (auto_restart_on_consent_loss _); cbn [andb]; [|rewrite final_bind; by apply fail_session_ok].
  case_bool_decide as Hlt; [|rewrite final_bind; by apply fail_session_ok].
  set (b := match auto_restart_last _ with Some _ => _ | None => _ end). destruct b.
  - rewrite final_bind. set (s1 := final _ s). assert (OK s1) as Hs1.
    { destruct Hs. split; cbn; try assumption. destruct ok_consent. rewrite ok_fixed in Hlt.
      pose proof (u32_range (auto_restart_max_attempts (f_cfg F))).
      split; cbn; try done. rewrite u32_id; unfold_ints; lia. }
    clearbody s1. revert s1 Hs1. change (holds OK (emit (EAutoRestart (u32 (auto_restart_attempts (s_consent s) + 1))
      (u32 (auto_restart_max_attempts (cfg s)))) ;; restart ;; mret true)). holds_auto idtac.
  - rewrite final_bind. by apply consent_missed_zero.
Qed.

Lemma keepalive_inv : holds OK on_keepalive.
Proof.
  intros s Hs. unfold on_keepalive. rewrite final_get. case_decide as Hc; [done|].
  destruct (lite_mode _); [done|]. cbv zeta. rewrite final_bind.
  set (missed := u32 (consent_missed (s_consent s) + 1)).
  set (s1 := final (set_consent _) s). assert (OK s1) as Hs1.
  { destruct Hs. split; cbn; try assumption. destruct ok_consent. split; cbn; try done. apply u32_range. }
  case_decide; [case_decide as Hr|].
  - rewrite final_bind. set (s2 := final _ s1). assert (OK s2) as Hs2.
    { destruct Hs1. split; cbn; try assumption. destruct ok_consent. cbn in ok_fixed.
      rewrite ok_fixed in Hr. cbn in co_recovery, co_restarts.
      pose proof (u32_range (consent_max_recovery (f_cfg F))).
      split; cbn; try done. rewrite u32_id; unfold_ints; lia. }
    clearbody s2. revert s2 Hs2. change (holds OK (set_state Checking ;; build_check_list ;; begin_checks)).
    assert (Checking ≠ Connected) by done. holds_auto idtac.
  - rewrite final_bind. by apply consent_loss_ok.
  - revert s1 Hs1. clearbody missed. intros s1 Hs1. clearbody s1. revert s1 Hs1.
    match goal with |- ∀ s, _ → OK (final ?m s) => change (holds OK m) end. holds_auto idtac.
Qed.
#[local] Hint Resolve keepalive_inv : ice.
Lemma keepalive_timer_ok gen : holds OK (on_keepalive_timer gen).
Proof. unfold on_keepalive_timer. holds_auto idtac. Qed.

Lemma set_pmtu_ok f : (∀ p, pmtu_ok F p → pmtu_ok F (f p)) → holds OK (set_pmtu f).
Proof. intros Hf. unfold set_pmtu. apply holds_modify. intros ? []. split; cbn; auto. Qed.

Lemma start_probe_ok : holds OK start_path_mtu_probe.
Proof.
  unfold start_path_mtu_probe. apply holds_get. intros s Hs.
  destruct (pmtu_probe (s_pmtu s)) as [q|] eqn:Eq; [|apply holds_skip].
  apply (pm_probe _ _ (ok_pmtu _ _ _ Hs)) in Eq.
  assert (holds OK (set_pmtu (λ p, p <| effective_mtu_ := u32 (effective_ q) |>))).
  { apply set_pmtu_ok. intros p []. split; [by apply probe_ok_range|done]. }
  assert (∀ txn, holds OK (set_pmtu (λ p, p <| pmtu_inflight_txn := txn |> <| pmtu_inflight := true |>))).
  { intros txn. apply set_pmtu_ok. by intros p []. }
  holds_auto idtac.
Qed.
#[local] Hint Resolve start_probe_ok : ice.

Lemma outcome_ok o q : probe_ok F q → holds OK (pmtu_outcome (λ p, on_outcome p o) q).
Proof.
  intros Hq%(probe_ok_outcome F o). unfold pmtu_outcome. cbv zeta.
  assert (holds OK (set_pmtu (λ p, p <| pmtu_probe := Some (on_outcome q o) |>
    <| effective_mtu_ := u32 (effective_ (on_outcome q o)) |>))).
  { apply set_pmtu_ok. intros p []. split; [by apply probe_ok_range|]. by intros q' [= <-]. }
  holds_auto idtac.
Qed.

Lemma inflight_done : holds OK (set_pmtu (λ p, p <| pmtu_inflight := false |>)).
Proof. apply set_pmtu_ok. by intros p []. Qed.
#[local] Hint Resolve inflight_done : ice.

Lemma probe_timeout_ok : holds OK on_path_mtu_probe_timeout.
Proof.
  unfold on_path_mtu_probe_timeout. apply holds_get. intros s Hs.
  destruct (pmtu_probe (s_pmtu s)) as [q|] eqn:Eq; [|apply holds_skip].
  apply (pm_probe _ _ (ok_pmtu _ _ _ Hs)) in Eq. pose proof (outcome_ok Loss q Eq). holds_auto idtac.
Qed.
#[local] Hint Resolve probe_timeout_ok : ice.
Lemma pmtu_timer_ok gen : holds OK (on_pmtu_timer gen).
Proof. unfold on_pmtu_timer. holds_auto idtac. Qed.
End life.

(** * Nomination *)

(** Parked data is bounded, whatever the state. *)
Definition bounded_only (_ : SessionState) (l : list bytes) : Prop :=
  (length l ≤ kPendingAppDataMaxFrames)%nat.

Section flush.
Context `{InetLaws} `{Hmac} `{SessionLaws} (F : Fixed).
#[local] Abbreviation OK := (session_ok F).
#[local] Abbreviation W := (session_inv F bounded_only).

Lemma ok_bounded s : OK s → W s.
Proof. intros []. split; try assumption. apply ok_parked. Qed.
Lemma bounded_flushed s : W s → s_pending_app_data s = [] → OK s.
Proof. intros [] He. split; try assumption. rewrite He. split; [cbn; lia|done]. Qed.

Lemma flush_loop_ok n s : W s →
  W (final (flush_loop n) s)
  ∧ s_pending_app_data (final (flush_loop n) s) = drop n (s_pending_app_data s).
Proof.
  revert s. induction n as [|n IH]; intros s Hs; [done|]. cbn [flush_loop]. rewrite final_get.
  destruct (s_pending_app_data s) as [|buf rest] eqn:Ep; [by split|]. rewrite final_modify, final_bind.
  set (s1 := s <| s_pending_app_data := rest |>).
  assert (W s1) as Hs1.
  { destruct Hs. split; cbn; try assumption. unfold bounded_only in *. rewrite Ep in ok_parked. cbn in *. lia. }
  destruct (IH (final (send_on_strand buf) s1)) as [Hw ->]; [by apply send_on_strand_inv|].
  split; [done|]. by rewrite (send_on_strand_parked buf s1).
Qed.

Lemma flush_ok : leads W OK flush_pending_app_data.
Proof.
  intros s Hs. unfold flush_pending_app_data. rewrite final_get.
  destruct (flush_loop_ok (length (s_pending_app_data s)) s Hs) as [Hw He].
  apply bounded_flushed; [done|]. by rewrite He, drop_all.
Qed.
End flush.

Section nomination.
Context `{InetLaws} `{Hmac} `{SessionLaws} (F : Fixed) (Hcfg : config_ok (f_cfg F)).
#[local] Abbreviation OK := (session_ok F).
#[local] Abbreviation W := (session_inv F bounded_only).

Lemma nominated_prefix ip port relay cid tx : is_u16 port →
  leads OK W (set_gens (λ g, g <| check_gen := S (check_gen g) |>
                   <| nomination_wait_gen := S (nomination_wait_gen g) |>) ;;
    modify (λ s, s <| s_nomination_wait_armed := false |>) ;;
    set_state Connected ;;
    set_consent (λ _, mkConsent 0 0 0 None) ;;
    set_nom (λ n, mkNominated ip port relay (nominated_local_type n) (nominated_remote_type n) cid tx)).
Proof.
  intros Hp s Hs%ok_bounded. destruct Hs. split; cbn; try assumption.
  pose proof (u32_range (consent_max_recovery (f_cfg F))).
  pose proof (u32_range (auto_restart_max_attempts (f_cfg F))). split; cbn; unfold_ints; lia.
Qed.

Lemma nominated_rest ip port : holds OK (emit (EConnected ip port) ;; start_keepalive ;;
  s ← get;
  if pmtu_active_probing (cfg s) && bool_decide (pmtu_probe (s_pmtu s) = None) then
    set_pmtu (λ p, p <| pmtu_probe := Some (new_probe (path_mtu (cfg s)) (pmtu_search_steps (cfg s))) |>) ;;
    start_path_mtu_probe
  else skip).
Proof.
  pose proof (keepalive_inv F). pose proof (start_probe_ok F Hcfg).
  apply holds_bind; [apply holds_emit|]. intros _. apply holds_bind; [done|]. intros _.
  apply holds_get. intros s Hs. case_match; [|apply holds_skip]. apply holds_bind; [|done].
  apply set_pmtu_ok. intros p []. split; [done|]. cbn. intros q [= <-].
  rewrite (ok_fixed _ _ _ Hs). by apply probe_ok_new.
Qed.

Lemma on_nominated_ok ip port relay cid tx : is_u16 port →
  holds OK (on_nominated ip port relay cid tx).
Proof.
  intros Hp s Hs. unfold on_nominated. pose proof (nominated_prefix ip port relay cid tx Hp s Hs) as Hw.
  rewrite final_bind. unfold set_state, set_consent, set_nom in *. rewrite !final_modify, final_get.
  set (s1 := set_field s_nom _ _) in *. change (W s1) in Hw. clearbody s1.
  rewrite final_bind. assert (W (final (if relay && bool_decide (s_turn s1 ≠ None)
    then emit (ETurnBind ip port) else skip) s1)) as Hw1 by (by case_match).
  revert Hw1. generalize (final (if relay && bool_decide (s_turn s1 ≠ None)
    then emit (ETurnBind ip port) else skip) s1). intros s2 Hs2.
  rewrite final_bind. apply nominated_rest. by apply flush_ok.
Qed.
End nomination.

(** * Packets *)

Section packets.
Context `{InetLaws} `{Hmac} `{SessionLaws} (F : Fixed) (Hcfg : config_ok (f_cfg F)).
#[local] Abbreviation OK := (session_ok F).
#[local] Hint Resolve on_nominated_ok : ice.

Lemma nominate_best_ok : holds OK nominate_best.
Proof.
  assert (∀ i, holds OK (set_pair i (λ p, p <| cp_nominee_check_sent := true |>))).
  { intros i. apply set_pair_inv. by intros p []. }
  unfold nominate_best. holds_auto idtac.
Qed.
#[local] Hint Resolve nominate_best_ok : ice.

Lemma learn_prflx_ok msg p : ports_ok msg → holds OK (learn_prflx msg p).
Proof.
  intros Hm. unfold learn_prflx. destruct (xor_mapped msg) as [a|] eqn:Ea; [|apply holds_skip].
  case_decide; [|apply holds_skip]. apply push_local_ok.
  assert (sendable (set_address (ma_ip a) (zero_candidate <| c_type := Prflx |>))) as Hc.
  { apply set_address_sendable. apply (fresh_sendable Prflx 0 0); in_range. }
  destruct Hc as ([] & ? & ?). split; [|done]. split; cbn; try done. apply Hm. auto.
Qed.

Lemma controlling_success_ok p : pair_inv F p → holds OK (controlling_success p).
Proof.
  intros Hp. assert (is_u16 (c_port (cp_remote p))) by apply Hp.
  unfold controlling_success. holds_auto idtac.
Qed.

Lemma check_response_ok msg : ports_ok msg → holds OK (handle_check_response msg).
Proof.
  intros Hm. unfold handle_check_response. apply holds_get. intros s Hs.
  case_decide; [apply holds_skip|]. unfold find_txn.
  destruct (list_find _ _) as [[i p]|] eqn:Hf; [|apply holds_skip].
  apply list_find_Some in Hf as (Hi & _). pose proof (read_pair F s i p Hs Hi) as Hp.
  pose proof (learn_prflx_ok msg p Hm). pose proof (controlling_success_ok p Hp).
  assert (holds OK (set_pair i (λ p, p <| cp_valid := true |> <| cp_state := PSucceeded |>))).
  { apply set_pair_inv. intros q []. split; cbn; auto. }
  assert (holds OK (set_pair i (λ p, p <| cp_pending_nomination := false |>))).
  { apply set_pair_inv. by intros q []. }
  assert (∀ a b, holds OK (set_nom (λ n, n <| nominated_local_type := a |> <| nominated_remote_type := b |>))).
  { intros. by apply set_nom_inv. }
  apply holds_bind; [holds_auto idtac|]. intros _. apply holds_bind; [auto|]. intros _.
  apply holds_bind; [auto|]. intros _. apply holds_bind; [auto|]. intros _.
  apply holds_bind; [auto with ice|]. intros _. apply holds_get. intros s1 Hs1.
  pose proof (ok_deferred _ _ _ Hs1). holds_auto idtac.
Qed.

Lemma answer_ok cid tcp resp : holds OK (answer cid tcp resp).
Proof. unfold answer. holds_auto idtac. Qed.
#[local] Hint Resolve answer_ok : ice.

Lemma trigger_ok ip port : is_u16 port → holds OK (maybe_trigger_check_from_peer ip port).
Proof.
  intros Hp. unfold maybe_trigger_check_from_peer. apply holds_get. intros s Hs.
  do 3 (case_match; [apply holds_skip|]). cbv zeta.
  set (remote := set_field c_priority _ _). assert (candidate_wf remote) as Hr.
  { assert (sendable (set_address ip zero_candidate)) as Hc
      by (apply set_address_sendable; apply (fresh_sendable Host 0 0); in_range).
    destruct Hc as ([] & _ & _). by split. }
  destruct (list_find _ _) as [[j local]|] eqn:Hf; [|apply holds_skip].
  apply list_find_Some in Hf as (Hj & Hfam & _).
  assert (candidate_wf local) as Hl.
  { by destruct (Forall_lookup_1 _ _ _ _ (ok_local _ _ _ Hs) Hj). }
  apply (holds_bind_post _ (λ txn, length txn = 12%nat)); [auto with ice|intros; apply txn_length|].
  intros txn Ht. apply holds_bind; [|intros _; case_decide; auto using holds_skip with ice].
  apply set_list_inv. intros l Hl'. apply Forall_app_2; [done|]. constructor; [|constructor].
  pose proof (budget_range F).
  split; cbn; try done; [by apply with_foundation_wf..| |apply pair_priority_range|lia].
  by rewrite !with_foundation_family.
Qed.

Lemma use_candidate_ok cid tcp ip port : is_u16 port → holds OK (on_use_candidate cid tcp ip port).
Proof.
  intros Hp. unfold on_use_candidate. intros s Hs. rewrite final_get. cbv zeta.
  set (tx := if tcp then TcpActive else Udp).
  set (relay := negb tcp && _).
  set (defer := modify _ ≫= _). assert (holds OK defer) as Hd.
  { unfold defer. apply holds_bind; [|auto with ice]. apply holds_modify. intros ? []. by split. }
  clearbody defer. destruct (list_find _ _) as [[i p]|] eqn:Hf; [|by apply Hd].
  apply list_find_Some in Hf as (Hi & _).
  case_decide; [by apply on_nominated_ok|]. rewrite 2!final_bind. apply Hd.
  apply set_pair_inv; [by intros q []|]. case_decide as Hz; [|done].
  eapply set_pair_at; [done..|]. intros Hq. by apply pair_advance; auto.
Qed.

Lemma accept_ok m cid tcp : holds OK (accept_request m cid tcp).
Proof.
  unfold accept_request. apply holds_get. intros s Hs. apply holds_bind; [auto with ice|]. intros _.
  apply holds_get. intros s1 Hs1. cbv zeta.
  set (ep := (if tcp then _ else _) !! cid).
  assert (is_u16 (match ep with Some e => ep_port e | None => 0 end)) as Hp.
  { destruct (ok_endpoints _ _ _ Hs1) as [Hu Ht]. destruct ep as [e|] eqn:E; [|in_range].
    unfold ep in E. destruct tcp; [apply (Ht _ _ E)|apply (Hu _ _ E)]. }
  apply holds_bind; [destruct (_ && _); [by apply use_candidate_ok|apply holds_skip]|].
  intros _. by apply trigger_ok.
Qed.
#[local] Hint Resolve accept_ok : ice.

Lemma request_ok_inv m cid tcp : holds OK (handle_binding_request m cid tcp).
Proof. unfold handle_binding_request. holds_auto idtac. Qed.

Lemma binding_error_ok m : holds OK (on_binding_error m).
Proof. unfold on_binding_error. holds_auto idtac. Qed.

Lemma binding_response_ok st m : ports_ok m → holds OK (on_binding_response st m).
Proof.
  intros Hm. unfold on_binding_response. apply holds_get. intros s Hs.
  pose proof (check_response_ok m Hm). pose proof (inflight_done F). pose proof (consent_missed_zero F).
  case_match; [|holds_auto idtac]. apply holds_bind; [done|]. intros _.
  apply holds_bind; [auto with ice|]. intros _. apply holds_bind; [|done].
  destruct (pmtu_probe (s_pmtu s)) as [q|] eqn:Eq; [|apply holds_skip].
  apply (pm_probe _ _ (ok_pmtu _ _ _ Hs)) in Eq. by apply (outcome_ok F Hcfg Ack q).
Qed.

Lemma on_stun_ok cid data tcp m : ports_ok m → holds OK (on_stun cid data tcp m).
Proof.
  intros Hm. pose proof (binding_error_ok m). pose proof (λ st, binding_response_ok st m Hm).
  pose proof (request_ok_inv m cid tcp). unfold on_stun. apply holds_get. intros s Hs.
  case_match; [by apply gather_response_ok|]. holds_auto idtac.
Qed.

Lemma carrier_data_ok cid data tcp : holds OK (on_carrier_data cid data tcp).
Proof.
  unfold on_carrier_data. apply holds_bind; [auto with ice|]. intros _. apply holds_get. intros s Hs.
  do 2 (case_match; [apply holds_emit|]). destruct (parsed_stun data) as [m|] eqn:Em; [|holds_auto idtac].
  apply on_stun_ok. by eapply parsed_stun_ports.
Qed.
#[local] Hint Resolve carrier_data_ok : ice.

(** Updates of the TCP side of the tables. *)
Lemma set_eps_ok f :
  (∀ e, endpoint_to_cid (f e) = endpoint_to_cid e ∧ cid_to_endpoint_udp (f e) = cid_to_endpoint_udp e
    ∧ relay_endpoint_to_cid (f e) = relay_endpoint_to_cid e ∧ relay_cids (f e) = relay_cids e
    ∧ next_relay_cid (f e) = next_relay_cid e ∧ cid_to_endpoint_tcp (f e) ⊆ cid_to_endpoint_tcp e) →
  holds OK (set_eps f).
Proof.
  intros Hf. unfold set_eps. apply holds_modify. intros s []. split; cbn; try assumption;
    destruct (Hf (s_eps s)) as (E1 & E2 & E3 & E4 & E5 & E6).
  - intros Hz. rewrite E4 in Hz. destruct (ok_tables Hz). by split; rewrite ?E1, ?E2, ?E3, ?E4, ?E5.
  - destruct ok_endpoints as [Hu Ht]. split; [by rewrite E2|]. intros c ep Hc.
    by eapply Ht, lookup_weaken.
Qed.

Lemma tcp_frames_ok n cid : holds OK (tcp_frames n cid).
Proof.
  assert (∀ rest, holds OK (set_eps (λ e, e <| tcp_rx_buffers := <[cid := rest]> (tcp_rx_buffers e) |>))).
  { intros. by apply set_eps_ok. }
  induction n as [|n IH]; cbn [tcp_frames]; holds_auto idtac.
Qed.
#[local] Hint Resolve tcp_frames_ok : ice.
Lemma tcp_data_ok cid data : holds OK (on_tcp_carrier_data cid data).
Proof.
  unfold on_tcp_carrier_data. apply holds_bind; [by apply set_eps_ok|]. holds_auto idtac.
Qed.

Lemma tcp_timeout_ok cid : holds OK (on_tcp_connect_timeout cid).
Proof.
  assert (∀ ep i, holds OK (fail_tcp_pair ep i)) by (unfold fail_tcp_pair; holds_auto idtac).
  unfold on_tcp_connect_timeout. apply holds_bind; [by apply set_eps_ok|]. intros _.
  apply holds_get. intros s Hs. case_match; [|apply holds_skip]. case_match; [apply holds_skip|].
  apply holds_bind; [holds_auto idtac|]. intros _. apply holds_bind; [|holds_auto idtac].
  apply set_eps_ok. intros e'. split_and!; try done. apply delete_subseteq.
Qed.

Lemma turn_data_ok ip port data : is_u16 port → holds OK (on_turn_data ip port data).
Proof. intros Hp. unfold on_turn_data. holds_auto idtac. Qed.
Lemma relayed_ok ip port data : is_u16 port → holds OK (on_relayed ip port data).
Proof. intros Hp. unfold on_relayed. holds_auto idtac. Qed.
End packets.

(** * Remote candidates and the other inputs *)

Section inputs.
Context `{InetLaws} `{Hmac} `{SessionLaws} (F : Fixed) (Hcfg : config_ok (f_cfg F)).
#[local] Abbreviation OK := (session_ok F).

Lemma resolve_ok : holds OK resolve_remote_mdns_candidates.
Proof. unfold resolve_remote_mdns_candidates. holds_auto idtac. Qed.
#[local] Hint Resolve resolve_ok : ice.

Lemma resolved_slot_wf slot ip : candidate_wf slot → candidate_wf (resolved_slot slot ip).
Proof.
  intros Hs. unfold resolved_slot.
  assert (candidate_wf (slot <| c_type := Host |> <| c_hostname := [] |>)) as Hc.
  { destruct Hs. split; cbn; try done. constructor. }
  apply (set_address_wf ip) in Hc as []. split; cbn; try done; in_range.
Qed.
Lemma extra_candidate_wf port ip : is_u16 port → candidate_wf (extra_candidate port ip).
Proof.
  intros Hp. apply set_address_wf. apply (fresh_sendable Host port); in_range.
Qed.

Lemma append_extras_ok moved port ips : is_u16 port → holds OK (append_extras moved port ips).
Proof.
  intros Hp. revert moved. induction ips as [|ip ips IH]; intros moved; cbn [append_extras]; [apply holds_skip|].
  apply holds_get. intros s Hs. apply holds_bind; [destruct moved; holds_auto idtac|]. intros _.
  apply holds_bind; [|intros _; apply IH]. apply holds_modify. intros s1 []. split; cbn; try assumption.
  apply Forall_app_2; [done|]. constructor; [|done]. apply extra_candidate_wf.
  destruct moved; [apply stale_port_ok|done].
Qed.

Lemma mdns_resolved_ok idx name r : holds OK (on_mdns_resolved idx name r).
Proof.
  unfold on_mdns_resolved. apply holds_get. intros s Hs. case_decide; [apply holds_skip|].
  destruct (s_remote_candidates s !! idx) as [slot|] eqn:Hi; [|apply holds_skip].
  pose proof (Forall_lookup_1 _ _ _ _ (ok_remote _ _ _ Hs) Hi) as Hw.
  case_decide; [apply holds_skip|]. case_match.
  - apply holds_modify. intros s1 []. split; cbn; try assumption. apply Forall_insert; [done|].
    destruct Hw. split; cbn; try done. constructor.
  - cbv zeta. apply holds_bind.
    + apply holds_modify. intros s1 []. split; cbn; try assumption.
      apply Forall_insert; [done|]. by apply resolved_slot_wf.
    + intros _. apply holds_bind; [by apply append_extras_ok, Hw|].
      intros _. assert (Checking ≠ Connected) by done. holds_auto idtac.
Qed.

Lemma set_remote_ok u p cs : Forall candidate_wf cs → holds OK (set_remote u p cs).
Proof.
  intros Hc. unfold set_remote. assert (Checking ≠ Connected) by done.
  holds_auto ltac:(intros ? []; by split).
Qed.

Lemma add_one_remote_ok c : candidate_wf c → holds OK (add_one_remote c).
Proof.
  intros Hc. unfold add_one_remote. holds_auto ltac:(intros ? []; split; cbn; try assumption;
    apply Forall_app_2; [done|by constructor]).
Qed.

Lemma add_remote_ok u p cs eoc : Forall candidate_wf cs → holds OK (add_remote_candidates u p cs eoc).
Proof.
  intros Hc. unfold add_remote_candidates. assert (Checking ≠ Connected) by done.
  assert (holds OK (for_each add_one_remote cs)).
  { apply (holds_for_each _ candidate_wf); [done|]. apply add_one_remote_ok. }
  assert (∀ b, holds OK (set_gather (λ g, g <| gathered_signal_fired := b |>))).
  { intros b. apply set_gather_ok. by intros g []. }
  pose proof (nominate_best_ok F).
  holds_auto ltac:(intros ? []; split; cbn; try assumption; constructor).
Qed.

Lemma peer_flags_ok f : holds OK (set_peer_signal_flags f).
Proof. unfold set_peer_signal_flags. holds_auto idtac. Qed.

Lemma send_ok d : holds OK (send d).
Proof.
  unfold send. apply holds_bind; [auto with ice|]. intros _ s Hs. rewrite final_get.
  case_decide as Hc; [by apply send_on_strand_inv|]. destruct Hs. split; cbn; try assumption.
  destruct ok_parked as [Hl _]. split; [|done]. rewrite length_app. cbn. unfold kPendingAppDataMaxFrames in *.
  case_decide; [|lia]. destruct (s_pending_app_data s); cbn in *; lia.
Qed.

Lemma turn_progress_ok a h r t : is_u16 (ma_port r) → turn_ok (turn_progress a h r <$> t).
Proof. intros Hr x. destruct t; [|done]. by intros [= <-]. Qed.

Lemma timers_ok k gen : holds OK (session_handle (ITimer k gen)).
Proof.
  destruct k; cbn [session_handle];
    auto using keepalive_timer_ok, pmtu_timer_ok, gather_timer_ok, turn_allocate_timer_ok, backup_timer_ok.
  - unfold on_check_timer. holds_auto idtac.
  - unfold on_nomination_wait. holds_auto idtac.
Qed.

Lemma session_handle_ok i : input_ok i → holds OK (session_handle i).
Proof.
  destruct i; try (intros _; by apply timers_ok); cbn [input_ok session_handle]; intros Hi;
    auto using gather_ok, set_remote_ok, add_remote_ok, peer_flags_ok, send_ok, carrier_data_ok,
      tcp_data_ok, mdns_resolved_ok, stun_probes_ok, turn_attempt_ok, turn_allocated_ok,
      backup_allocated_ok, turn_data_ok, relayed_ok, restart_ok, close_ok.
  - apply holds_get. intros s Hs. case_decide; [by apply tcp_timeout_ok|apply holds_skip].
  - apply holds_modify. intros s []. split; cbn; try assumption. by apply turn_progress_ok.
  - apply holds_modify. intros s []. split; cbn; try assumption. by apply turn_progress_ok.
Qed.

Lemma session_run_ok ins : Forall (λ x, input_ok x.2) ins → holds OK (session_run ins).
Proof.
  intros Hi. unfold session_run. apply (holds_for_each _ (λ x, input_ok x.2)); [done|].
  intros x Hx. apply holds_bind; [holds_auto idtac|]. intros _. by apply session_handle_ok.
Qed.

Lemma new_session_ok controlling ufrag pwd now : OK (new_session F controlling ufrag pwd now).
Proof.
  split; cbn; try done; try (by constructor).
  - split; [cbn; lia|done].
  - pose proof (u32_range (consent_max_recovery (f_cfg F))).
    pose proof (u32_range (auto_restart_max_attempts (f_cfg F))). split; cbn; unfold_ints; lia.
  - pose proof (ok_mtu _ Hcfg). split; [|done]. cbn. unfold max_payload.
    rewrite u32_id; unfold_ints; lia.
  - pose proof (ok_ports _ Hcfg) as [??]%Forall_cons. split_and!; [done..|constructor].
Qed.

(** A session after [ins]. *)
Definition session_after (controlling : bool) (ufrag pwd : bytes) (now : Z)
    (ins : list (Z * session_input)) : IceSession :=
  final (session_run ins) (new_session F controlling ufrag pwd now).

(** C13 (the session invariant): whatever a session is asked to do and whatever packets,
    timers and answers reach it, in whatever order: its local candidates can be
    signalled, its pairs join addresses of one family, stay within the budget of
    transmissions and are valid only once they succeeded, at most
    [kPendingAppDataMaxFrames] frames are parked and none when it is connected, the
    counters of consent losses respect their limits, the path MTU is between the
    configured one and the largest UDP payload, and an endpoint's connection leads
    back to the endpoint. *)
Theorem session_invariant controlling ufrag pwd now ins :
  Forall (λ x, input_ok x.2) ins →
  session_ok F (session_after controlling ufrag pwd now ins).
Proof. intros Hi. apply session_run_ok; [done|]. apply new_session_ok. Qed.
End inputs.

(** * Witness *)

Lemma session_ref_laws : SessionLaws (H := SessionRef.env).
Proof.
  split; cbn.
  - done.
  - intros n len. apply length_replicate.
  - intros n. split; [done|]. apply (Forall_replicate is_u8 16 (Z.of_nat n mod 256)). apply u8_range.
  - intros n n' _ _ cid _. repeat case_decide; intros; simplify_eq. lia.
  - intros n _ cid. case_decide; intros; simplify_eq. unfold first_relay_cid. lia.
  - in_range.
  - intros l [= <-]. constructor; [|constructor]. split; [done|]. repeat constructor; in_range.
  - done.
  - done.
  - in_range.
Qed.

(** A session that gathers, hears of two candidates, checks and loses a packet. *)
Lemma session_invariant_witness :
  session_inv (H := SessionRef.env) (SessionRef.fixed default_config 5) parked_ok
    (@session_after InetRef.ops HmacRef.ops SessionRef.env (SessionRef.fixed default_config 5) true
      (str "abcdefgh") (str "pw") 1
      [(10, IGather); (20, IAddRemote (str "peer") (str "secret") [example_host; example_mdns] true);
       (30, ISend [1; 2]); (40, ICarrierData 1 [1; 2; 3]); (5000, ITimer TmCheck 1)]).
Proof.
  apply (@session_invariant InetRef.ops InetRef.laws HmacRef.ops SessionRef.env session_ref_laws).
  - pose proof initial_config_ok as []. by split.
  - constructor; [done|]. constructor; [|by repeat constructor].
    apply (bool_decide_eq_true_1 (Forall candidate_wf [example_host; example_mdns])). by vm_compute.
Defined.
