(* ===== verification/CheckFrame.v ===== *)
(** One input of a session, and what building the check list and running checks leave
    alone (src/session.cpp): the candidates up to their foundations, what was gathered
    and the TURN clients.  Shared by the theorems on relayed candidates and on mDNS
    names. *)

From stdpp Require Import gmap.
From S2P Require Import Prelude Bytes Inet Candidate MdnsCodec Mdns Framing Stun Turn PathMtu.
From S2P Require Import SessionState Delivery CheckList Gather Session.

Section one.
Context `{InetOps} `{Hmac} `{SessionEnv}.

Lemma exec_run_one now i s : exec (session_run [(now, i)]) s = exec (session_handle i) (s <| s_now_us := now |>).
Proof.
  unfold session_run. cbn [for_each fst snd]. unfold exec. rewrite run_bind, run_modify.
  destruct (run (session_handle i) _) as [[[] s'] es]. cbn. by rewrite app_nil_r.
Qed.
Lemma outputs_run_one now i s :
  outputs (session_run [(now, i)]) s = outputs (session_handle i) (s <| s_now_us := now |>).
Proof. unfold outputs. by rewrite exec_run_one. Qed.
Lemma final_run_one now i s :
  final (session_run [(now, i)]) s = final (session_handle i) (s <| s_now_us := now |>).
Proof. unfold final. by rewrite exec_run_one. Qed.
End one.

(** The clients stay in their slots and in their state. *)
Definition calm (e : session_event) : Prop :=
  match e with
  | ETurnAllocate _ _ | ETurnBackupAllocate _ _ | ETurnPromote | ETurnClose | ETurnBackupClose
  | ETurnInbound _ | ETurnBackupInbound _ => False
  | _ => True
  end.

Lemma with_foundation_idem `{InetOps} c : with_foundation (with_foundation c) = with_foundation c.
Proof.
  unfold with_foundation. destruct (decide (c_foundation c = [])) as [Hc|Hc]; [|by rewrite decide_False].
  case_decide as Hf; [|done]. by destruct c.
Qed.

Lemma refounded `{InetOps} (l : list Candidate) : with_foundation <$> (with_foundation <$> l) = with_foundation <$> l.
Proof. rewrite <- list_fmap_compose. apply list_fmap_ext. intros. apply with_foundation_idem. Qed.

Section checking.
Context `{InetOps} `{Hmac} `{SessionEnv}.

(** Up to foundations the candidates stay, and so does what is gathered. *)
Definition founded (s : IceSession) : list Candidate := with_foundation <$> s_local_candidates s.
Definition founded_remote (s : IceSession) : list Candidate := with_foundation <$> s_remote_candidates s.
Definition checking (s : IceSession) (es : list session_event) (s' : IceSession) : Prop :=
  founded s' = founded s ∧ s_gather s' = s_gather s ∧ founded_remote s' = founded_remote s
  ∧ Forall calm es.
#[export] Instance checking_order : TraceOrder checking.
Proof.
  split; [by intros s; split_and!|]. intros s1 o1 s2 o2 s3 (?&?&?&?) (?&?&?&?).
  split_and!; [congruence..|]. by apply Forall_app.
Qed.
Ltac checks := intros; (split_and!; [reflexivity..|]); repeat constructor.
Ltac checking_auto := traces_auto checks.

Lemma set_check_list_checking f : traces checking (set_check_list f).
Proof. unfold set_check_list. checking_auto. Qed.
Lemma set_pair_checking i f : traces checking (set_pair i f).
Proof. apply set_check_list_checking. Qed.
Lemma txn_checking : traces checking generate_txn_id.
Proof. unfold generate_txn_id. checking_auto. Qed.
#[local] Hint Resolve set_check_list_checking set_pair_checking txn_checking : ice.
Lemma send_check_checking i : traces checking (send_check i).
Proof.
  unfold send_check, transmit_check, tcp_check_cid, arm_tcp_so_connect, ensure_remote_tcp_cid,
    ensure_remote_cid, relay_cid_for_endpoint, dial, set_eps. checking_auto.
Qed.
#[local] Hint Resolve send_check_checking : ice.
Lemma promote_loop_checking l : traces checking (promote_loop l).
Proof. induction l; cbn [promote_loop]; checking_auto. Qed.
Lemma begin_loop_checking l a b : traces checking (begin_loop l a b).
Proof. revert a b. induction l; intros a' b'; cbn [begin_loop]; checking_auto. Qed.
#[local] Hint Resolve promote_loop_checking begin_loop_checking : ice.
Lemma run_next_check_checking : traces checking run_next_check.
Proof.
  unfold run_next_check, retransmit_one, checks_exhausted, fail_session, set_state, set_gens. checking_auto.
Qed.
#[local] Hint Resolve run_next_check_checking : ice.
Lemma begin_checks_checking : traces checking begin_checks.
Proof. unfold begin_checks. checking_auto. Qed.
Lemma predict_checking n k st p : traces checking (predict_pairs n k st p).
Proof. revert k. induction n; intros k; cbn [predict_pairs]; unfold push_pair; checking_auto. Qed.
#[local] Hint Resolve begin_checks_checking predict_checking : ice.
Lemma build_checking : traces checking build_check_list.
Proof.
  assert (traces checking (modify (λ s, s <| s_local_candidates := with_foundation <$> s_local_candidates s |>))).
  { apply traces_modify. intros s. split_and!; [apply refounded|done|done|constructor]. }
  assert (traces checking (modify (λ s, s <| s_remote_candidates := with_foundation <$> s_remote_candidates s |>))).
  { apply traces_modify. intros s. split_and!; [done|done|apply refounded|constructor]. }
  unfold build_check_list, assign_local_foundations, add_pair, push_pair. checking_auto.
Qed.
#[local] Hint Resolve build_checking : ice.
Lemma rebuild_checking : traces checking rebuild_and_check.
Proof. unfold rebuild_and_check. checking_auto. Qed.
#[local] Hint Resolve rebuild_checking : ice.
End checking.

#[export] Hint Resolve set_check_list_checking set_pair_checking txn_checking send_check_checking
  run_next_check_checking begin_checks_checking build_checking rebuild_checking : ice.
Ltac checking_auto := traces_auto ltac:(intros; (split_and!; [reflexivity..|]); repeat constructor).
