(* ===== verification/Relay.v ===== *)
(** A session with its TURN clients (src/session.cpp with src/turn.cpp): the calls the
    session makes on [turn_] and [turn_backup_probe_], the callbacks it builds them with
    and the work they post to the strand.

    The session holds pointers to its clients, and a handler reads the clients through
    them.  A handler runs to its end; its calls on the clients then take effect in their
    order.  This is the order of the code: what a handler reads of a client after a call
    is either not changed by the call or is updated with it, as that of a closed client
    is; a packet is handed to a client by the last statement of its handler.  A client
    whose pointer was reset or replaced lives on while jobs of its connection hold it:
    its callbacks still reach the session. *)

From stdpp Require Import gmap.
From S2P Require Import Prelude Bytes Inet Candidate MdnsCodec Mdns Framing Stun Turn PathMtu.
From S2P Require Import SessionState Delivery CheckList Gather Session.

(** A client with its carrier and the callbacks it was built with: those of the primary
    client, or those of a probe of a backup server. *)
Record Client := mkClient {
  cl_id : nat;                             (* how many were built before it *)
  cl_carrier : TurnCarrier;
  cl_probe : option TurnConfig;            (* the backup server, [None] for the primary *)
  cl_turn : TurnClient;
}.
#[global] Instance Client_eta : Eta Client := λ c,
  mkClient (cl_id c) (cl_carrier c) (cl_probe c) (cl_turn c).

Record Relayed := mkRelayed {
  rl_session : IceSession;
  rl_turn : option Client;
  rl_backup : option Client;
  rl_retired : list Client;                (* clients replaced *)
  rl_built : nat;                          (* clients built so far *)
  rl_posted : list session_input;          (* the queue of the strand *)
}.
#[global] Instance Relayed_eta : Eta Relayed := λ R,
  mkRelayed (rl_session R) (rl_turn R) (rl_backup R) (rl_retired R) (rl_built R) (rl_posted R).

Inductive relay_event :=
  | RSession (e : session_event)                          (* what the session does itself *)
  | RTurnSend (c : TurnCarrier) (cid : Z) (data : bytes)  (* a client sends *)
  | RTurnTimer (id : nat) (seconds : option Z).           (* its refresh timer, [None] to cancel *)

Abbreviation relayed := (eff Relayed relay_event).

(** The transaction ids each client draws. *)
Class RelayEnv := relay_txn : nat → nat → bytes.

Inductive slot := Primary | Backup.
#[global] Instance slot_dec : EqDecision slot.
Proof. solve_decision. Defined.

Definition client (sl : slot) (R : Relayed) : option Client :=
  match sl with Primary => rl_turn R | Backup => rl_backup R end.
Definition put_client (sl : slot) (c : option Client) (R : Relayed) : Relayed :=
  match sl with Primary => R <| rl_turn := c |> | Backup => R <| rl_backup := c |> end.

(** The client of a slot is replaced or dropped. *)
Definition retire (sl : slot) (R : Relayed) : Relayed :=
  R <| rl_retired := rl_retired R ++ option_list (client sl R) |>.

(** What the session reads of a client through its pointer: [server_cid], [is_allocated],
    [is_healthy] and [relayed_address]. *)
Definition forwards (c : Client) : bool := match cl_probe c with None => true | Some _ => false end.
Definition handle_of (c : Client) : TurnHandle :=
  let t := cl_turn c in
  mkTurnHandle (cl_carrier c) (t_server_cid t) (forwards c) (t_allocated t) (is_healthy t) (t_relayed t).

(** [turn_] and [turn_backup_probe_], null or not, and the client each points to. *)
Definition pointer (sl : slot) (s : IceSession) : option TurnHandle :=
  match sl with Primary => s_turn s | Backup => s_turn_backup_probe s end.
Definition pointee (sl : slot) (R : Relayed) : option Client :=
  match pointer sl (rl_session R) with Some _ => client sl R | None => None end.

(** The session with its clients as they are. *)
Definition look (R : Relayed) : IceSession :=
  (rl_session R) <| s_turn := handle_of <$> pointee Primary R |>
                 <| s_turn_backup_probe := handle_of <$> pointee Backup R |>.

(** [turn_.reset()]: the client of a null pointer is left to the jobs that hold it. *)
Definition release (sl : slot) (R : Relayed) : Relayed :=
  match pointer sl (rl_session R) with
  | Some _ => R
  | None => put_client sl None (retire sl R)
  end.

Definition post (i : session_input) : relayed unit :=
  modify (λ R, R <| rl_posted := rl_posted R ++ [i] |>).

(** What a handler does besides calling a client. *)
Definition on_plain_event (e : session_event) : relayed unit :=
  match e with
  | EPostStunProbes => post IStunProbes
  | EPostTurnAttempt => post ITurnAttempt
  | EPostRelayed ip port data => post (IRelayed ip port data)
  | _ => emit (RSession e)
  end.

Section relayed.
Context `{InetOps} `{Hmac} `{Md5} `{SessionEnv} `{RelayEnv}.

(** A method of the session, and what becomes of its effects. *)
Definition session_do (now : Z) (i : session_input) (k : session_event → relayed unit)
    : relayed unit :=
  R ← get;
  let r := exec (session_run [(now, i)]) (look R) in
  modify (λ R, R <| rl_session := r.1 |>) ;;
  for_each k r.2.

(** The callbacks of a client: the data callback of a probe drops everything, and the
    session sets none of those for RFC 6062 connections. *)
Definition on_client_event (now : Z) (c : Client) (e : turn_event) : relayed unit :=
  match e with
  | TSend cid data => emit (RTurnSend (cl_carrier c) cid data)
  | TData ip port data =>
      match cl_probe c with
      | None => session_do now (ITurnData ip port data) on_plain_event
      | Some _ => skip
      end
  | TAllocated ip port =>
      post (match cl_probe c with None => ITurnAllocated ip port | Some cfg => IBackupAllocated cfg end)
  | TTimerSet s => emit (RTurnTimer (cl_id c) (Some s))
  | TTimerCancel => emit (RTurnTimer (cl_id c) None)
  | TConnAttempt _ _ _ | TDataConn _ _ _ _ => skip
  end.

(** A method of the client in a slot; there is no carrier factory. *)
Definition call_client (now : Z) (sl : slot) (i : turn_input) : relayed unit :=
  R ← get;
  match client sl R with
  | None => skip
  | Some c =>
      let r := exec (turn_handle (relay_txn (cl_id c)) (λ _, 0) i) (cl_turn c) in
      modify (put_client sl (Some (c <| cl_turn := r.1 |>))) ;;
      for_each (on_client_event now c) r.2
  end.

(** A job that was posted for the [n]-th client replaced. *)
Definition call_retired (now : Z) (n : nat) (i : turn_input) : relayed unit :=
  R ← get;
  match rl_retired R !! n with
  | None => skip
  | Some c =>
      let r := exec (turn_handle (relay_txn (cl_id c)) (λ _, 0) i) (cl_turn c) in
      modify (λ R, R <| rl_retired := <[n := c <| cl_turn := r.1 |>]> (rl_retired R) |>) ;;
      for_each (on_client_event now c) r.2
  end.

(** The last job of a replaced client is over: its destructor closes it. *)
Definition destroy_retired (now : Z) (n : nat) : relayed unit :=
  call_retired now n Turn.IClose ;;
  modify (λ R, R <| rl_retired := delete n (rl_retired R) |>).

(** [make_shared<TurnClient>], the slot it goes to, and [allocate]. *)
Definition build_client (now : Z) (sl : slot) (t : TurnHandle) (c : TurnConfig) : relayed unit :=
  modify (λ R, put_client sl
    (Some (mkClient (rl_built R) (th_carrier t)
             (match sl with Primary => None | Backup => Some c end)
             (new_turn true (th_server_cid t) c true)))
    ((retire sl R) <| rl_built := S (rl_built R) |>)) ;;
  call_client now sl IAllocate.

Definition on_session_event (now : Z) (e : session_event) : relayed unit :=
  match e with
  | ETurnAllocate t c => build_client now Primary t c
  | ETurnBackupAllocate t c => build_client now Backup t c
  | ETurnInbound data => call_client now Primary (IInbound data)
  | ETurnBackupInbound data => call_client now Backup (IInbound data)
  | ETurnClose => call_client now Primary Turn.IClose
  | ETurnBackupClose => call_client now Backup Turn.IClose
  | ETurnPromote => modify (λ R, (retire Primary R) <| rl_turn := rl_backup R |> <| rl_backup := None |>)
  | ETurnSend ip port data => call_client now Primary (Turn.ISend ip port data)
  | ETurnPermission ip => call_client now Primary (ICreatePermission ip)
  | ETurnBind ip port => call_client now Primary (IBindChannel ip port)
  | _ => on_plain_event e
  end.

(** * Everything that can happen *)

Inductive relay_input :=
  | RCall (i : session_input)              (* the link, the carriers, the session's timers *)
  | RStream (sl : slot) (data : bytes)     (* bytes on the TCP or TLS connection of a client *)
  | RRefresh (sl : slot) (ec : bool)       (* the refresh timer of a client *)
  | RRetiredStream (n : nat) (data : bytes)  (* the same for a client that was replaced *)
  | RRetiredRefresh (n : nat) (ec : bool)
  | RRetiredDestroyed (n : nat)
  | RPosted.                               (* the first job of the strand runs *)

Definition relay_act (now : Z) (x : relay_input) : relayed unit :=
  match x with
  | RCall i => session_do now i (on_session_event now)
  | RStream sl data => call_client now sl (IInbound data)
  | RRefresh sl ec => call_client now sl (IRefreshTimer ec)
  | RRetiredStream n data => call_retired now n (IInbound data)
  | RRetiredRefresh n ec => call_retired now n (IRefreshTimer ec)
  | RRetiredDestroyed n => destroy_retired now n
  | RPosted =>
      R ← get;
      match rl_posted R with
      | [] => skip
      | i :: posted =>
          modify (λ R, R <| rl_posted := posted |>) ;;
          session_do now i (on_session_event now)
      end
  end.

Definition relay_handle (now : Z) (x : relay_input) : relayed unit :=
  relay_act now x ;; modify (λ R, release Backup (release Primary R)).

Definition relay_run (ins : list (Z * relay_input)) : relayed unit :=
  for_each (λ x, relay_handle (x.1) (x.2)) ins.
End relayed.

Definition new_relayed (s : IceSession) : Relayed := mkRelayed s None None [] 0 [].

(** The session and its clients after [ins], from the start. *)
Definition relayed_after `{InetOps} `{Hmac} `{Md5} `{SessionEnv} `{RelayEnv} (F : Fixed)
    (controlling : bool) (ufrag pwd : bytes) (now : Z) (ins : list (Z * relay_input)) : Relayed :=
  final (relay_run ins) (new_relayed (new_session F controlling ufrag pwd now)).

Module RelayRef.
#[local] Instance txns : RelayEnv := λ k n, replicate 8 (u8 (Z.of_nat k)) ++ write32 (Z.of_nat n).
(** A session with one TURN server, reached over UDP. *)
Definition config : IceConfig := default_config <| turn_servers := [example_turn_cfg] |>.
Definition fixed : Fixed := SessionRef.fixed config 5.
(** The server's grant of a relayed address. *)
Definition grant : bytes :=
  build (add_xor_relayed_address (H := InetRef.ops) (str "192.0.2.9") 50000
    (new_builder TURN_ALLOCATE_RESPONSE (replicate 12 1))).
End RelayRef.
