(* ===== verification/RelayCalls.v ===== *)
(** The calls of a session on its TURN clients (src/session.cpp with src/turn.cpp): what
    a call does to the client and to the rest, and that a session that is closed or
    restarted gives its allocations back. *)

From stdpp Require Import gmap.
From S2P Require Import Prelude Bytes Inet Candidate MdnsCodec Mdns Framing Stun Turn PathMtu.
From S2P Require Import SessionState Delivery CheckList Gather Session Relay CheckFrame.

(** * The effects of a call *)

(** The callbacks of a client, data aside: what is sent and what is posted. *)
Definition client_sends (c : Client) (e : turn_event) : option relay_event :=
  match e with
  | TSend cid data => Some (RTurnSend (cl_carrier c) cid data)
  | TTimerSet s => Some (RTurnTimer (cl_id c) (Some s))
  | TTimerCancel => Some (RTurnTimer (cl_id c) None)
  | _ => None
  end.
Definition client_posts (c : Client) (e : turn_event) : option session_input :=
  match e with
  | TAllocated ip port =>
      Some (match cl_probe c with None => ITurnAllocated ip port | Some cfg => IBackupAllocated cfg end)
  | _ => None
  end.
Definition is_data (e : turn_event) : bool := match e with TData _ _ _ => true | _ => false end.

(** Calls other than packets, timers and [close]. *)
Definition plain_call (i : turn_input) : bool :=
  match i with IAllocate | Turn.ISend _ _ _ | IBindChannel _ _ | ICreatePermission _ => true | _ => false end.

Section calls.
Context `{InetOps} `{Hmac} `{Md5} `{SessionEnv} `{RelayEnv}.

Lemma outputs_relay_handle now x R : outputs (relay_handle now x) R = outputs (relay_act now x) R.
Proof. unfold relay_handle. rewrite outputs_bind. apply app_nil_r. Qed.
Lemma final_relay_handle now x R :
  final (relay_handle now x) R = release Backup (release Primary (final (relay_act now x) R)).
Proof. unfold relay_handle. by rewrite final_bind. Qed.

Lemma exec_session_do now i k R s' es : exec (session_run [(now, i)]) (look R) = (s', es) →
  exec (session_do now i k) R = exec (for_each k es) (R <| rl_session := s' |>).
Proof. intros He. unfold session_do. unfold exec at 1. rewrite run_get. cbv zeta. by rewrite run_modify, He. Qed.

Lemma exec_one {A} (f : A → relayed unit) a R : exec (for_each f [a]) R = exec (f a) R.
Proof.
  cbn [for_each]. unfold exec. rewrite run_bind. destruct (run (f a) R) as [[[] R'] es].
  cbn. by rewrite app_nil_r.
Qed.

Lemma exec_call_client now sl i R c t' es : client sl R = Some c →
  exec (turn_handle (relay_txn (cl_id c)) (λ _, 0) i) (cl_turn c) = (t', es) →
  exec (call_client now sl i) R
  = exec (for_each (on_client_event now c) es) (put_client sl (Some (c <| cl_turn := t' |>)) R).
Proof.
  intros Hc He. unfold call_client. unfold exec at 1. rewrite run_get, Hc. cbv zeta. by rewrite run_modify, He.
Qed.

Lemma client_events_exec now c es R : Forall (λ e, is_data e = false) es →
  exec (for_each (on_client_event now c) es) R
  = (R <| rl_posted := rl_posted R ++ omap (client_posts c) es |>, omap (client_sends c) es).
Proof.
  intros Hes. revert R. induction Hes as [|e es He _ IH]; intros R.
  { cbn. rewrite app_nil_r. by destruct R. }
  change (exec (for_each _ (e :: es)) R) with (exec (on_client_event now c e ;; for_each (on_client_event now c) es) R).
  rewrite exec_bind. destruct e; try discriminate; cbn [on_client_event];
    cbn [run emit post modify skip mret eff_ret]; rewrite IH; cbn; rewrite <- ?app_assoc; done.
Qed.

(** A call that brings no data changes the client, the queue of the strand and no more. *)
Lemma call_client_exec now sl i R c t' es : client sl R = Some c →
  exec (turn_handle (relay_txn (cl_id c)) (λ _, 0) i) (cl_turn c) = (t', es) →
  Forall (λ e, is_data e = false) es →
  exec (call_client now sl i) R
  = ((put_client sl (Some (c <| cl_turn := t' |>)) R) <| rl_posted := rl_posted R ++ omap (client_posts c) es |>,
     omap (client_sends c) es).
Proof. intros Hc He Hes. rewrite (exec_call_client _ _ _ _ _ _ _ Hc He), client_events_exec by done. by destruct sl. Qed.

(** The same for outputs. *)
Lemma session_do_outputs now i k R es : outputs (session_run [(now, i)]) (look R) = es →
  outputs (session_do now i k) R
  = outputs (for_each k es) (R <| rl_session := final (session_run [(now, i)]) (look R) |>).
Proof. intros <-. unfold outputs at 1. by rewrite (exec_session_do _ _ _ _ _ _ (surjective_pairing _)). Qed.
Lemma call_client_outputs now sl i R c e : client sl R = Some c →
  outputs (turn_handle (relay_txn (cl_id c)) (λ _, 0) i) (cl_turn c) = [e] →
  outputs (call_client now sl i) R
  = outputs (on_client_event now c e)
      (put_client sl (Some (c <| cl_turn := final (turn_handle (relay_txn (cl_id c)) (λ _, 0) i) (cl_turn c) |>)) R).
Proof.
  intros Hc He. unfold outputs at 1. rewrite (exec_call_client _ _ _ _ _ _ _ Hc (surjective_pairing _)).
  unfold outputs in He. by rewrite He, exec_one.
Qed.

(** Calls that are no packets bring no data. *)
Definition dataless (t : TurnClient) (es : list turn_event) (t' : TurnClient) : Prop :=
  Forall (λ e, is_data e = false) es.
#[local] Instance dataless_order : TraceOrder dataless.
Proof. split; [by constructor|]. intros. by apply Forall_app. Qed.
Lemma call_dataless txn fac i : plain_call i = true ∨ i = Turn.IClose → traces dataless (turn_handle txn fac i).
Proof.
  intros [Hi| ->]; [destruct i; try discriminate Hi|]; cbn [turn_handle];
    unfold allocate, send_indication, bind_channel, create_permission, Turn.close, Turn.generate_txn_id, send_to_server;
    traces_auto ltac:(intros; repeat constructor).
Qed.

(** Such a call, the client's events aside. *)
Lemma call_client_final now sl i R : plain_call i = true ∨ i = Turn.IClose →
  let R' := final (call_client now sl i) R in
  rl_session R' = rl_session R
  ∧ ∀ sl', client sl' R' = if decide (sl' = sl) then
      (λ c, c <| cl_turn := final (turn_handle (relay_txn (cl_id c)) (λ _, 0) i) (cl_turn c) |>)
        <$> client sl' R else client sl' R.
Proof.
  intros Hi. cbv zeta. destruct (client sl R) as [c|] eqn:Ec.
  - pose proof (call_dataless (relay_txn (cl_id c)) (λ _, 0) i Hi (cl_turn c)) as Hd.
    pose proof (call_client_exec now sl i R c _ _ Ec (surjective_pairing _) Hd) as Hx.
    apply (f_equal fst) in Hx. cbn [fst] in Hx. change (exec (call_client now sl i) R).1 with
      (final (call_client now sl i) R) in Hx. rewrite Hx. clear Hx Hd.
    split; [by destruct sl|]. intros sl'. case_decide as Hd; [subst sl'; rewrite Ec; by destruct sl|].
    by destruct sl, sl'.
  - unfold call_client. rewrite final_get, Ec. split; [done|]. intros sl'.
    case_decide as Hd; [subst; by rewrite Ec|done].
Qed.

(** What a handler does besides calling a client. *)
Lemma plain_event_final e R : let R' := final (on_plain_event e) R in
  rl_session R' = rl_session R ∧ (∀ sl, client sl R' = client sl R).
Proof. unfold on_plain_event, post. destruct e; (split; [done|]); by intros []. Qed.
End calls.

(** * Giving allocations back *)

Definition allocated (c : Client) : Prop := t_allocated (cl_turn c) = true.
#[global] Instance allocated_dec c : Decision (allocated c).
Proof. unfold allocated. exact _. Defined.

(** The allocations a session holds, through its pointers. *)
Definition held (R : Relayed) : list Client :=
  filter allocated (option_list (pointee Primary R) ++ option_list (pointee Backup R)).

(** A slot is empty when its pointer is null. *)
Definition tidy (R : Relayed) : Prop := ∀ sl, pointer sl (rl_session R) = None → client sl R = None.

(** What the clients send. *)
Definition turn_sent (e : relay_event) : option (TurnCarrier * Z * bytes) :=
  match e with RTurnSend c cid data => Some (c, cid, data) | _ => None end.

Section back.
Context `{InetOps} `{HmacLaws} `{Md5} `{SessionEnv} `{RelayEnv}.

(** A client can reach its server, and its credentials fit a message. *)
Definition able (c : Client) : Prop := reachable (cl_turn c) ∧ credentials_fit (cl_turn c) 28.

(** [x] gives the allocation of [c] back to its server. *)
Definition gives_back (c : Client) (x : TurnCarrier * Z * bytes) : Prop :=
  ∃ raw, x = (cl_carrier c, t_server_cid (cl_turn c), on_wire (cl_turn c) raw) ∧ gives_up (cl_turn c) raw.

Context (txn_length : ∀ k n, length (relay_txn k n) = 12%nat).

Lemma call_close now sl R c : client sl R = Some c → (allocated c → able c) →
  let step := call_client now sl Turn.IClose in
  Forall2 gives_back (filter allocated [c]) (omap turn_sent (outputs step R))
  ∧ (∃ c', client sl (final step R) = Some c' ∧ ¬ allocated c')
  ∧ (∀ sl', sl' ≠ sl → client sl' (final step R) = client sl' R) ∧ rl_session (final step R) = rl_session R.
Proof.
  intros Hc Ha. cbv zeta. unfold final, outputs. destruct (decide (allocated c)) as [Hd|Hd].
  - destruct (Ha Hd) as [Hw Hf].
    destruct (close_gives_up (relay_txn (cl_id c)) (txn_length (cl_id c)) (cl_turn c) Hw Hf Hd) as (raw & He & Hg).
    rewrite (call_client_exec now sl Turn.IClose R c _ _ Hc He) by by repeat constructor.
    rewrite filter_cons_True by done. cbn [fst snd omap list_omap client_sends turn_sent].
    split_and!.
    + constructor; [by exists raw|constructor].
    + eexists. split; [by destruct sl|]. unfold allocated. by cbn.
    + intros []; by destruct sl.
    + by destruct sl.
  - assert (exec (turn_handle (relay_txn (cl_id c)) (λ _, 0) Turn.IClose) (cl_turn c) = (cl_turn c, [TTimerCancel])) as He.
    { cbn [turn_handle]. unfold Turn.close, exec. rewrite run_bind. cbn [run emit]. rewrite run_get.
      unfold allocated in Hd. apply not_true_is_false in Hd. by rewrite Hd. }
    rewrite (call_client_exec now sl Turn.IClose R c _ _ Hc He) by by repeat constructor.
    rewrite filter_cons_False by done. cbn [fst snd omap list_omap client_sends turn_sent].
    split_and!.
    + constructor.
    + eexists. split; [by destruct sl|]. unfold allocated. by cbn.
    + intros []; by destruct sl.
    + by destruct sl.
Qed.

(** The session's calls of [close] on its clients. *)
Definition close_event (sl : slot) : session_event :=
  match sl with Primary => ETurnClose | Backup => ETurnBackupClose end.
Definition closing (sl : slot) (R : Relayed) : list session_event :=
  match pointee sl R with Some _ => [close_event sl] | None => [] end.

(** No client in a slot is allocated. *)
Definition idle (sl : slot) (R : Relayed) : Prop := ∀ c, client sl R = Some c → ¬ allocated c.

Lemma tidy_pointee sl R : tidy R → pointee sl R = client sl R.
Proof. intros Ht. unfold pointee. destruct (pointer sl _) eqn:Ep; [done|]. by rewrite Ht. Qed.

Lemma closing_one now sl R R1 : tidy R → client sl R1 = client sl R →
  Forall able (filter allocated (option_list (pointee sl R))) →
  let m := for_each (on_session_event now) (closing sl R) in
  Forall2 gives_back (filter allocated (option_list (pointee sl R))) (omap turn_sent (outputs m R1))
  ∧ idle sl (final m R1) ∧ (∀ sl', sl' ≠ sl → client sl' (final m R1) = client sl' R1)
  ∧ rl_session (final m R1) = rl_session R1.
Proof.
  intros Ht Hc Ha. cbv zeta. unfold closing. rewrite (tidy_pointee sl R Ht) in *. unfold idle.
  destruct (client sl R) as [c|].
  - change (option_list (Some c)) with [c] in *. unfold outputs, final. rewrite exec_one.
    replace (on_session_event now (close_event sl)) with (call_client now sl Turn.IClose) by by destruct sl.
    destruct (call_close now sl R1 c Hc) as (Hs & (c' & Hc' & Hn) & Ho & Hr).
    { intros Hd. rewrite filter_cons_True in Ha by done. by inversion Ha. }
    split_and!; [done| |done|done]. intros c2 Hc2. unfold final in Hc'. congruence.
  - split_and!; [constructor| |done|done]. intros c Hn. cbn in Hn. congruence.
Qed.

Lemma closing_both now R R1 : tidy R → (∀ sl, client sl R1 = client sl R) → Forall able (held R) →
  let m := for_each (on_session_event now) (closing Primary R ++ closing Backup R) in
  Forall2 gives_back (held R) (omap turn_sent (outputs m R1))
  ∧ (∀ sl, idle sl (final m R1)) ∧ rl_session (final m R1) = rl_session R1.
Proof.
  intros Ht Hc Ha. unfold held in *. rewrite filter_app in *. apply Forall_app in Ha as [Ha Hb]. cbv zeta.
  rewrite outputs_for_each_app, final_for_each_app, omap_app.
  destruct (closing_one now Primary R R1 Ht (Hc Primary) Ha) as (S1 & I1 & O1 & E1).
  set (R2 := final (for_each _ (closing Primary R)) R1) in *. clearbody R2.
  destruct (closing_one now Backup R R2 Ht) as (S2 & I2 & O2 & E2); [by rewrite O1, Hc|done|].
  split_and!; [by apply Forall2_app| |congruence].
  intros []; [|done]. intros c. rewrite O2 by done. apply I1.
Qed.

(** * What follows in [close] and [restart] *)

(** Events of the session that reach no client. *)
Definition clientless (e : session_event) : Prop :=
  match e with
  | ETurnAllocate _ _ | ETurnBackupAllocate _ _ | ETurnInbound _ | ETurnBackupInbound _ | ETurnClose
  | ETurnBackupClose | ETurnPromote | ETurnSend _ _ _ | ETurnPermission _ | ETurnBind _ _ => False
  | _ => True
  end.
(** Those that make no client allocated: no packet, no promotion. *)
Definition unallocating (e : session_event) : Prop :=
  match e with
  | ETurnInbound _ | ETurnBackupInbound _ | ETurnPromote => False
  | _ => True
  end.

Lemma clientless_events now es R : Forall clientless es →
  let m := for_each (on_session_event now) es in
  omap turn_sent (outputs m R) = [] ∧ (∀ sl, client sl (final m R) = client sl R)
  ∧ rl_session (final m R) = rl_session R.
Proof.
  intros Hes. cbv zeta. revert R. induction Hes as [|e es He _ IH]; intros R; [done|].
  rewrite outputs_for_each_cons, final_for_each_cons, omap_app.
  assert (on_session_event now e = on_plain_event e) as -> by by destruct e.
  destruct (IH (final (on_plain_event e) R)) as (-> & Hc & Hr). rewrite app_nil_r, Hr.
  destruct (plain_event_final e R) as [Hs Hp]. split_and!; [|intros sl; by rewrite Hc|done].
  unfold on_plain_event, post. by destruct e.
Qed.

Lemma call_idle now sl sl' i R : plain_call i = true ∨ i = Turn.IClose →
  idle sl R → idle sl (final (call_client now sl' i) R).
Proof.
  intros Hi Hd c Hc. destruct (call_client_final now sl' i R Hi) as [_ Hf]. rewrite Hf in Hc.
  case_decide; [|by apply Hd]. destruct (client sl R) as [c0|] eqn:E0; [|done]. injection Hc as <-.
  specialize (Hd c0 E0). unfold allocated in *. cbn [cl_turn].
  set (stays := λ t t' : TurnClient, t_allocated t' = true → t_allocated t = true).
  assert (PreOrder stays) by (unfold stays; split; [by intros ??|intros ???; auto]).
  assert (keeps stays (turn_handle (relay_txn (cl_id c0)) (λ _, 0) i)) as Hk.
  { destruct Hi as [Hi| ->]; [destruct i; try discriminate Hi|]; cbn [turn_handle];
    unfold allocate, send_indication, bind_channel, create_permission, Turn.close, Turn.generate_txn_id, send_to_server;
    unfold stays; keeps_auto done. }
  intros Ht. by apply Hd, Hk.
Qed.

Lemma build_idle now sl sl' t c R : idle sl R → idle sl (final (build_client now sl' t c) R).
Proof.
  intros Hd. unfold build_client. rewrite final_modify. apply call_idle; [by left|].
  intros c' Hc. destruct sl, sl'; cbn in Hc; try (by apply Hd); injection Hc as <-; by unfold allocated.
Qed.

Lemma unallocating_events now es R : Forall unallocating es → (∀ sl, idle sl R) →
  ∀ sl, idle sl (final (for_each (on_session_event now) es) R).
Proof.
  intros Hes. revert R. induction Hes as [|e es He _ IH]; intros R Hd; [done|].
  rewrite final_for_each_cons. apply IH. intros sl.
  assert (idle sl (final (on_plain_event e) R)) as Hp.
  { intros c. destruct (plain_event_final e R) as [_ ->]. apply Hd. }
  destruct e; try (by destruct He); cbn [on_session_event];
    (exact Hp || apply build_idle, Hd || (apply call_idle; [auto|apply Hd])).
Qed.

(** [restart] gathers again, and gathering hands no packet to a client. *)
Definition regathers (s : IceSession) (es : list session_event) (s' : IceSession) : Prop :=
  Forall unallocating es.
#[local] Instance regathers_order : TraceOrder regathers.
Proof. split; [by constructor|]. intros. by apply Forall_app. Qed.
Ltac regathers_auto := traces_auto ltac:(intros; repeat constructor).

Lemma checking_regathers {A} (m : session A) : traces checking m → traces regathers m.
Proof.
  intros Hm s. destruct (Hm s) as (_ & _ & _ & Hc). eapply Forall_impl; [exact Hc|]. by intros [].
Qed.
#[local] Hint Extern 1 (traces regathers _) => apply checking_regathers; solve [auto with ice] : ice.

Lemma complete_regathers : traces regathers on_gathering_complete.
Proof. unfold on_gathering_complete, announce_gathered, set_gather, set_gens, set_state. regathers_auto. Qed.
#[local] Hint Resolve complete_regathers : ice.
Lemma gather_regathers : traces regathers gather.
Proof.
  unfold gather, gather_host_candidates, gather_tcp_host_candidates, gather_portmap, gather_relay,
    try_next_turn_attempt, next_attempt, build_turn_client, relay_gathered, ensure_remote_cid, dial,
    push_allowed, push_local, set_gens, set_gather, set_relay, set_eps, set_state. regathers_auto.
Qed.
#[local] Hint Resolve gather_regathers : ice.

Definition apart (s : IceSession) (es : list session_event) (s' : IceSession) : Prop := Forall clientless es.
#[local] Instance apart_order : TraceOrder apart.
Proof. split; [by constructor|]. intros. by apply Forall_app. Qed.

Lemma outputs_close_turn R s : s_turn s = s_turn (look R) → s_turn_backup_probe s = s_turn_backup_probe (look R) →
  outputs close_turn_clients s = closing Primary R ++ closing Backup R.
Proof.
  intros Ht Hb. unfold close_turn_clients. rewrite outputs_get, !outputs_bind, Ht, Hb. unfold closing. cbn.
  destruct (pointee Primary R), (pointee Backup R); done.
Qed.

(** [m] closes the clients, and then its effects satisfy [T]. *)
Lemma close_turn_then (T : IceSession → list session_event → IceSession → Prop) (m : session unit) R s :
  s_turn s = s_turn (look R) → s_turn_backup_probe s = s_turn_backup_probe (look R) → traces T m →
  ∃ s0 es, outputs (close_turn_clients ;; m) s = (closing Primary R ++ closing Backup R) ++ es
    ∧ T s0 es (final (close_turn_clients ;; m) s).
Proof.
  intros Ht Hb Hm. rewrite outputs_bind, final_bind, (outputs_close_turn R) by done. do 2 eexists.
  split; [done|]. apply Hm.
Qed.

Lemma close_closes now R : ∃ es,
  outputs (session_run [(now, IClose)]) (look R) = (closing Primary R ++ closing Backup R) ++ es
  ∧ Forall clientless es.
Proof.
  rewrite outputs_run_one. cbn [session_handle]. unfold close, set_state, set_gens.
  rewrite !outputs_modify. edestruct (close_turn_then apart) as (s0 & es & He & Hes); [..|by exists es]; [done..|].
  unfold unregister_mdns, release_portmap_mapping, tear_down_cids, set_gather, set_eps, set_nom.
  traces_auto ltac:(intros; repeat constructor).
Qed.
Lemma restart_closes now R : s_state (rl_session R) ≠ Failed → ∃ es,
  outputs (session_run [(now, IRestart)]) (look R) = (closing Primary R ++ closing Backup R) ++ es
  ∧ Forall unallocating es.
Proof.
  intros Hs. rewrite outputs_run_one. cbn [session_handle]. unfold restart, set_gens. rewrite outputs_get.
  rewrite decide_False by done. rewrite !outputs_modify.
  edestruct (close_turn_then regathers) as (s0 & es & He & Hes); [..|by exists es]; [done..|].
  unfold unregister_mdns, tear_down_cids, generate_ufrag, generate_pwd, random_string, set_gather, set_eps, set_nom,
    set_consent, set_relay, set_state. regathers_auto.
Qed.

(** The client of a null pointer is gone between inputs. *)
Lemma relay_handle_tidy now x R : tidy (final (relay_handle now x) R).
Proof.
  rewrite final_relay_handle. set (R1 := final _ _). clearbody R1. unfold release.
  destruct (pointer Primary _) eqn:E1; [destruct (pointer Backup _) eqn:E2|
    destruct (pointer Backup (rl_session (put_client _ _ _))) eqn:E2];
    intros []; cbn in *; congruence.
Qed.
Lemma idle_held R : (∀ sl, idle sl R) → held R = [].
Proof.
  intros Hd. unfold held. assert (∀ sl, filter allocated (option_list (pointee sl R)) = []) as Hf.
  { intros sl. unfold pointee. destruct (pointer sl _), (client sl R) as [c|] eqn:Ec; try done.
    change (option_list (Some c)) with [c]. by rewrite filter_cons_False by by apply (Hd sl). }
  by rewrite filter_app, !Hf.
Qed.
Lemma release_idle sl sl' R : idle sl R → idle sl (release sl' R).
Proof. intros Hd c. unfold release. destruct (pointer sl' _); [apply Hd|]. destruct sl, sl'; cbn; auto; discriminate. Qed.

(** A handler that closes the clients, and the effects [es] it has after that. *)
Lemma closing_then now i R es : tidy R → Forall able (held R) →
  outputs (session_run [(now, i)]) (look R) = (closing Primary R ++ closing Backup R) ++ es →
  let step := relay_handle now (RCall i) in let rest := for_each (on_session_event now) es in
  ∃ R2 out, outputs step R = out ++ outputs rest R2 ∧ Forall2 gives_back (held R) (omap turn_sent out)
    ∧ (∀ sl, idle sl R2) ∧ final step R = release Backup (release Primary (final rest R2)).
Proof.
  intros Ht Ha He. cbv zeta. rewrite outputs_relay_handle, final_relay_handle. cbn [relay_act].
  rewrite (session_do_outputs _ _ _ _ _ He). set (R1 := R <| rl_session := _ |>).
  assert (final (session_do now i (on_session_event now)) R = final (for_each (on_session_event now)
    ((closing Primary R ++ closing Backup R) ++ es)) R1) as ->.
  { unfold final at 1. rewrite (exec_session_do _ _ _ _ _ _ (surjective_pairing _)).
    unfold outputs in He. by rewrite He. }
  destruct (closing_both now R R1 Ht) as (Hg & Hd & _); [by intros []|done|].
  set (closes := closing Primary R ++ closing Backup R) in *. clearbody closes.
  rewrite outputs_for_each_app, final_for_each_app. do 2 eexists. split_and!; [reflexivity|exact Hg|exact Hd|reflexivity].
Qed.

(** C6 (giving allocations back): a session that is closed, or restarted unless it has
    failed, gives back every allocation its TURN clients hold, that of the primary and
    that of a backup: each such client sends its server one Refresh request with a
    lifetime of zero that verifies under its credentials, over UDP as it is and on a
    stream in a frame.  When the session is closed the clients send nothing else; after
    either, the session points to no allocated client.  The clients can reach their
    servers and their credentials fit a message. *)
Theorem close_gives_back now R : tidy R → Forall able (held R) →
  (let step := relay_handle now (RCall IClose) in
   Forall2 gives_back (held R) (omap turn_sent (outputs step R)) ∧ held (final step R) = [])
  ∧ (s_state (rl_session R) ≠ Failed →
     let step := relay_handle now (RCall IRestart) in
     (∃ sent rest, omap turn_sent (outputs step R) = sent ++ rest ∧ Forall2 gives_back (held R) sent)
     ∧ held (final step R) = []).
Proof.
  intros Ht Ha. split; [|intros Hs]; cbv zeta.
  - destruct (close_closes now R) as (es & He & Hes).
    destruct (closing_then now IClose R es Ht Ha He) as (R2 & out & -> & Hg & Hd & ->).
    destruct (clientless_events now es R2 Hes) as (Hn & Hc & _). rewrite omap_app, Hn, app_nil_r. split; [done|].
    apply idle_held. intros sl. do 2 apply release_idle. intros c. rewrite Hc. apply Hd.
  - destruct (restart_closes now R Hs) as (es & He & Hes).
    destruct (closing_then now IRestart R es Ht Ha He) as (R2 & out & -> & Hg & Hd & ->). split.
    + rewrite omap_app. by do 2 eexists.
    + apply idle_held. intros sl. do 2 apply release_idle. by apply unallocating_events.
Qed.
End back.

Module RelayCallsRef.
#[local] Existing Instance InetRef.ops.
#[local] Existing Instance HmacRef.ops.
#[local] Existing Instance TurnRef.md5.
#[local] Existing Instance SessionRef.env.
#[local] Existing Instance RelayRef.txns.
(** A session whose server has granted it an allocation, *)
Definition granted : Relayed := relayed_after RelayRef.fixed true (str "abcdefgh") (str "secret") 1
  [(1, RCall IGather); (2, RCall (ICarrierData 1 example_challenge));
   (3, RCall (ICarrierData 1 RelayRef.grant)); (4, RPosted)].
(** and a backup server over TCP another. *)
Definition backup : Client := mkClient 1 CarrierTcp (Some example_turn_cfg)
  ((new_turn true 9 (mkTurnConfig (str "turn2") 3478 (str "user") (str "pass") true false
      REQUESTED_TRANSPORT_UDP) true) <| t_allocated := true |>).
Definition holding : Relayed := granted <| rl_backup := Some backup |>
  <| rl_session := (rl_session granted) <| s_turn_backup_probe := Some (handle_of backup) |> |>.
End RelayCallsRef.

Lemma close_gives_back_witness :
  length (omap turn_sent (outputs (@relay_handle InetRef.ops HmacRef.ops TurnRef.md5 SessionRef.env RelayRef.txns
    5 (RCall IClose)) RelayCallsRef.holding)) = 2%nat.
Proof.
  destruct (@close_gives_back InetRef.ops HmacRef.ops HmacRef.laws TurnRef.md5 SessionRef.env RelayRef.txns
    (λ k n, eq_refl) 5 RelayCallsRef.holding) as [[Hf _] _].
  - intros []; vm_compute; discriminate.
  - assert (held RelayCallsRef.holding = option_list (rl_turn RelayCallsRef.holding) ++ [RelayCallsRef.backup]) as ->
      by (vm_compute; reflexivity).
    assert (is_Some (rl_turn RelayCallsRef.holding)) as [c Hc] by (vm_compute; eauto). rewrite Hc.
    vm_compute in Hc. injection Hc as <-.
    repeat constructor; vm_compute; discriminate.
  - apply Forall2_length in Hf. rewrite <- Hf. vm_compute. reflexivity.
Defined.
