(* ===== verification/RelayPath.v ===== *)
(** What a session and its TURN clients do together: relayed data from one session to
    the other, gathering a relayed candidate through an authentication challenge, and a
    STUN server that is also the TURN server. *)

From stdpp Require Import gmap.
From S2P Require Import Prelude Bytes Inet Candidate MdnsCodec Mdns Framing Stun Turn PathMtu.
From S2P Require Import SessionState Delivery CheckList Gather Session Exchange SessionInv SessionRun Relay.
From S2P Require Import CheckFrame RelayCalls.

(** * Relayed data *)

(** A session whose nominated path goes through its TURN client, over UDP, on a channel
    bound for the peer. *)
Record relay_path (R : Relayed) (c : Client) (ch : Z) : Prop := {
  rp_pointer : s_turn (rl_session R) ≠ None;
  rp_client : rl_turn R = Some c;
  rp_primary : cl_probe c = None;
  rp_carrier : t_carrier (cl_turn c) = true;
  rp_cid : t_server_cid (cl_turn c) ≠ 0;
  rp_udp : streaming (cl_turn c) = false;
  rp_state : s_state (rl_session R) = Connected;
  rp_relay : uses_relay (s_nom (rl_session R)) = true;
  rp_transport : nominated_transport (s_nom (rl_session R)) = Udp;
  rp_range : TURN_CHANNEL_NUMBER_MIN ≤ ch ≤ TURN_CHANNEL_NUMBER_MAX;
  rp_forth : t_peer_to_channel (cl_turn c)
    !! endpoint_text (nominated_ip (s_nom (rl_session R))) (nominated_port (s_nom (rl_session R))) = Some ch;
  rp_back : is_Some (t_channel_to_peer (cl_turn c) !! ch);
}.

(** What a session puts around application data. *)
Definition payload (s : IceSession) (d : bytes) : bytes :=
  if ordered_delivery (cfg s) then write32 (send_data_seq (s_ordered s)) ++ d else d.

(** The receiver expects the sender's next message and holds back none. *)
Definition in_step (s r : IceSession) : Prop :=
  ordered_delivery (cfg r) = ordered_delivery (cfg s)
  ∧ (ordered_delivery (cfg s) = true → is_u32 (send_data_seq (s_ordered s))
     ∧ recv_data_seq (s_ordered r) = send_data_seq (s_ordered s) ∧ recv_reorder_buf (s_ordered r) = ∅).

Section data.
Context `{InetOps} `{Hmac} `{Md5} `{SessionEnv} `{RelayEnv}.

Lemma send_relayed s d : uses_relay (s_nom s) = true → s_turn s ≠ None →
  nominated_transport (s_nom s) = Udp →
  outputs (send_on_strand d) s = [ETurnSend (nominated_ip (s_nom s)) (nominated_port (s_nom s)) (payload s d)].
Proof.
  intros Hr Ht Htx. unfold send_on_strand, payload. rewrite outputs_get, Htx, Hr. cbv zeta.
  cbn [transport_is_tcp negb]. rewrite andb_true_r, bool_decide_true by done. cbn [andb].
  unfold set_ordered. rewrite outputs_bind. by destruct (ordered_delivery _).
Qed.

(** The session finds its client through its pointer. *)
Lemma look_turn R c : s_turn (rl_session R) ≠ None → rl_turn R = Some c → s_turn (look R) = Some (handle_of c).
Proof. intros Hp Hc. cbn. unfold pointee. cbn. rewrite Hc. by destruct (s_turn (rl_session R)). Qed.
Lemma look_posted R l : look (R <| rl_posted := l |>) = look R.
Proof. done. Qed.
Lemma look_server R c : s_turn (rl_session R) ≠ None → rl_turn R = Some c → t_server_cid (cl_turn c) ≠ 0 →
  is_server_cid (s_turn (look R)) (t_server_cid (cl_turn c)) = true.
Proof.
  intros Hp Hc Hn. rewrite (look_turn R c) by done. cbn. by rewrite bool_decide_false, bool_decide_true by done.
Qed.

Lemma relay_send now R c ch d : relay_path R c ch →
  outputs (relay_handle now (RCall (ISend d))) R
  = [RTurnSend (cl_carrier c) (t_server_cid (cl_turn c)) (encode_channel_data ch (payload (rl_session R) d))].
Proof.
  intros Hp. pose proof (look_turn R c (rp_pointer _ _ _ Hp) (rp_client _ _ _ Hp)) as Hl. destruct Hp.
  rewrite outputs_relay_handle. cbn [relay_act]. set (s := rl_session R) in *.
  rewrite (session_do_outputs _ _ _ _ [ETurnSend (nominated_ip (s_nom s)) (nominated_port (s_nom s)) (payload s d)]).
  2:{ rewrite outputs_run_one. cbn [session_handle]. unfold send, touch. rewrite outputs_modify, outputs_get.
      rewrite decide_True by exact rp_state0.
      rewrite send_relayed; [done|exact rp_relay0|change (s_turn (look R) ≠ None); by rewrite Hl|exact rp_transport0]. }
  rewrite outputs_for_each_cons. cbn [for_each on_session_event]. rewrite app_nil_r.
  erewrite call_client_outputs; [|exact rp_client0|].
  2:{ cbn [turn_handle]. unfold send_indication. rewrite outputs_get, rp_forth0.
      change (default 0 (Some ch)) with ch. unfold TURN_CHANNEL_NUMBER_MIN in *. rewrite decide_True by lia. by rewrite send_to_server_udp. }
  done.
Qed.

(** What the data callback does with a payload. *)
Lemma turn_data_delivers s r ip port d : is_stun_header (payload s d) = false → in_step s r →
  outputs (on_turn_data ip port (payload s d)) r = [EData d].
Proof.
  intros Hh [Ho Hs]. unfold on_turn_data, touch. rewrite outputs_modify, outputs_get, Hh.
  set (r1 := r <| s_last_activity := _ |>).
  assert (s_ordered r1 = s_ordered r ∧ cfg r1 = cfg r) as [Er Ec] by done. clearbody r1.
  rewrite Ec, Ho. unfold payload. destruct (ordered_delivery (cfg s)); [|done].
  destruct (Hs eq_refl) as (Hu & Hr & Hb). rewrite deliver_frame by done. unfold deliver_seq.
  rewrite outputs_get, Er, Hr, Hb. cbv zeta. rewrite decide_False, decide_True by (done || lia).
  by rewrite map_size_empty.
Qed.

(** Whatever arrives on the connection to the TURN server goes to the client. *)
Lemma server_data_inbound s cid data tcp : is_server_cid (s_turn s) cid = true →
  exec (on_carrier_data cid data tcp) s = (s <| s_last_activity := s_now_us s |>, [ETurnInbound data]).
Proof.
  intros Hc. unfold on_carrier_data, touch, exec. rewrite run_modify, run_get.
  set (s1 := s <| s_last_activity := _ |>). assert (is_server_cid (s_turn s1) cid = true) as -> by done. done.
Qed.

Lemma relay_receive now R c ch ip port s d : relay_path R c ch →
  t_channel_to_peer (cl_turn c) !! ch = Some (ip, port) →
  is_u16 (Z.of_nat (length (payload s d))) → is_stun_header (payload s d) = false →
  in_step s (rl_session R) →
  outputs (relay_handle now (RCall (ICarrierData (t_server_cid (cl_turn c))
    (encode_channel_data ch (payload s d))))) R = [RSession (EData d)].
Proof.
  intros [] Hrev Hlen Hh Hin. rewrite outputs_relay_handle. cbn [relay_act].
  pose proof (look_server R c rp_pointer0 rp_client0 rp_cid0).
  set (frame := encode_channel_data ch (payload s d)).
  rewrite (session_do_outputs _ _ _ _ [ETurnInbound frame]).
  2:{ rewrite outputs_run_one. cbn [session_handle]. unfold outputs. by rewrite server_data_inbound. }
  rewrite outputs_for_each_cons. cbn [for_each on_session_event]. rewrite app_nil_r.
  unfold TURN_CHANNEL_NUMBER_MIN, TURN_CHANNEL_NUMBER_MAX in *.
  destruct (channel_frame_parse ch (payload s d)) as [E1 E2]; [done|lia|]. fold frame in E1, E2.
  erewrite call_client_outputs; [|exact rp_client0|].
  2:{ cbn [turn_handle]. unfold on_inbound. rewrite outputs_get. unfold streaming in rp_udp0. rewrite rp_udp0.
      unfold dispatch_inbound_message, looks_like_channel_data. rewrite E1. simpl default.
      unfold handle_channel_data, parsed_channel_data. rewrite E2.
      change (default None (Some (Some ?x))) with (Some x). cbv iota.
      rewrite outputs_get. simpl cd_channel. by rewrite Hrev. }
  cbn [on_client_event]. rewrite rp_primary0. cbn [cd_payload].
  rewrite (session_do_outputs _ _ _ _ [EData d]); [done|]. rewrite outputs_run_one. cbn [session_handle].
  apply turn_data_delivers; [done|]. cbn [put_client rl_session]. rewrite final_run_one.
  cbn [session_handle]. unfold final. by rewrite server_data_inbound.
Qed.
End data.

(** C8 (relayed data): what one session sends to its peer on a relayed path goes to its
    TURN server as one ChannelData frame, and when the peer's server hands the payload
    of that frame to the peer on the channel bound for the sender, the peer's session
    delivers the data: unchanged, once, and in ordered mode in its turn. *)
Theorem relayed_data_arrives `{InetOps} `{Hmac} `{Md5} (E E' : SessionEnv) (T T' : RelayEnv)
    now now' A c ch B c' ch' d :
  relay_path A c ch → relay_path B c' ch' → in_step (rl_session A) (rl_session B) →
  let w := payload (rl_session A) d in
  is_u16 (Z.of_nat (length w)) → is_stun_header w = false →
  outputs (relay_handle (H2 := E) (H3 := T) now (RCall (ISend d))) A
    = [RTurnSend (cl_carrier c) (t_server_cid (cl_turn c)) (encode_channel_data ch w)]
  ∧ parse_channel_data (encode_channel_data ch w) = Some (Some (mkView ch w))
  ∧ outputs (relay_handle (H2 := E') (H3 := T') now'
      (RCall (ICarrierData (t_server_cid (cl_turn c')) (encode_channel_data ch' w)))) B
    = [RSession (EData d)].
Proof.
  intros Ha Hb Hin w Hw Hh. split_and!.
  - by apply relay_send.
  - apply channel_frame_parse; [done|]. pose proof (rp_range _ _ _ Ha) as Hr.
    unfold TURN_CHANNEL_NUMBER_MIN, TURN_CHANNEL_NUMBER_MAX in Hr. lia.
  - destruct (rp_back _ _ _ Hb) as [[ip port] Hr]. by eapply relay_receive.
Qed.

(** * Messages of the TURN server *)

(** What gathering depends on. *)
Definition same_gathering (s s' : IceSession) : Prop :=
  s_fixed s' = s_fixed s ∧ s_state s' = s_state s ∧ s_local_candidates s' = s_local_candidates s
  ∧ s_remote_candidates s' = s_remote_candidates s ∧ s_gather s' = s_gather s ∧ s_relay s' = s_relay s.

(** A primary client that reaches its server over UDP. *)
Record udp_client (R : Relayed) (c : Client) : Prop := {
  uc_pointer : s_turn (rl_session R) ≠ None;
  uc_client : rl_turn R = Some c;
  uc_primary : cl_probe c = None;
  uc_carrier : t_carrier (cl_turn c) = true;
  uc_cid : t_server_cid (cl_turn c) ≠ 0;
  uc_udp : streaming (cl_turn c) = false;
  uc_alloc : t_alloc_cb (cl_turn c) = true;
}.

Section server.
Context `{InetOps} `{Hmac} `{Md5} `{SessionEnv} `{RelayEnv}.

(** What is released leaves the primary client alone. *)
Lemma release_frame R : s_turn (rl_session R) ≠ None →
  let R' := release Backup (release Primary R) in
  rl_turn R' = rl_turn R ∧ rl_posted R' = rl_posted R ∧ rl_session R' = rl_session R.
Proof.
  intros Hp. cbv zeta. unfold release. cbn [pointer].
  destruct (s_turn (rl_session R)); [|done]. by destruct (s_turn_backup_probe (rl_session R)).
Qed.

(** A client keeps its connection and its callback. *)
Lemma dispatch_wire c data t' es :
  exec (dispatch_inbound_message (relay_txn (cl_id c)) (λ _, 0) data) (cl_turn c) = (t', es) →
  t_carrier t' = t_carrier (cl_turn c) ∧ t_server_cid t' = t_server_cid (cl_turn c)
  ∧ streaming t' = streaming (cl_turn c) ∧ t_alloc_cb t' = t_alloc_cb (cl_turn c).
Proof.
  intros He. set (same := λ t t' : TurnClient, t_carrier t' = t_carrier t ∧ t_server_cid t' = t_server_cid t
    ∧ t_cfg t' = t_cfg t ∧ t_alloc_cb t' = t_alloc_cb t).
  assert (PreOrder same).
  { split; [by intros ?|]. unfold same. intros ??? (?&?&?&?) (?&?&?&?). split_and!; congruence. }
  assert (watches same) as Hw by by split.
  pose proof (keeps_dispatch (relay_txn (cl_id c)) (λ _, 0) same Hw data (cl_turn c)) as Hk.
  unfold final in Hk. rewrite He in Hk. destruct Hk as (?&?&Hc&?). unfold streaming. cbn [fst] in *. by rewrite Hc.
Qed.

(** A datagram of the server that is no relayed data. *)
Lemma server_message now R c data t' es : udp_client R c →
  exec (dispatch_inbound_message (relay_txn (cl_id c)) (λ _, 0) data) (cl_turn c) = (t', es) →
  Forall (λ e, is_data e = false) es →
  let step := relay_handle now (RCall (ICarrierData (t_server_cid (cl_turn c)) data)) in
  let R' := final step R in
  udp_client R' (c <| cl_turn := t' |>) ∧ t_server_cid t' = t_server_cid (cl_turn c)
  ∧ rl_posted R' = rl_posted R ++ omap (client_posts c) es
  ∧ same_gathering (rl_session R) (rl_session R') ∧ outputs step R = omap (client_sends c) es.
Proof.
  intros Hu He Hd. destruct Hu. pose proof (look_server R c uc_pointer0 uc_client0 uc_cid0) as Hs.
  cbv zeta. rewrite outputs_relay_handle, final_relay_handle.
  set (s1 := (look R) <| s_now_us := now |> <| s_last_activity := now |>).
  assert (exec (relay_act now (RCall (ICarrierData (t_server_cid (cl_turn c)) data))) R
    = (R <| rl_session := s1 |> <| rl_turn := Some (c <| cl_turn := t' |>) |>
         <| rl_posted := rl_posted R ++ omap (client_posts c) es |>, omap (client_sends c) es)) as Ea.
  { assert (exec (session_run [(now, ICarrierData (t_server_cid (cl_turn c)) data)]) (look R)
      = (s1, [ETurnInbound data])) as Er
      by (rewrite exec_run_one; cbn [session_handle]; by rewrite server_data_inbound).
    cbn [relay_act]. rewrite (exec_session_do _ _ _ _ _ _ Er), exec_one. cbn [on_session_event].
    rewrite (call_client_exec now Primary _ _ c t' es); [done|exact uc_client0| |done].
    cbn [turn_handle]. unfold on_inbound. unfold exec. rewrite run_get. unfold streaming in uc_udp0.
    rewrite uc_udp0. exact He. }
  unfold outputs, final. rewrite Ea. cbn [fst snd]. set (R1 := R <| rl_session := _ |> <| rl_turn := _ |> <| rl_posted := _ |>).
  assert (s_turn (rl_session R1) ≠ None) as Hp.
  { change (s_turn (look R) ≠ None). by rewrite (look_turn R c). }
  destruct (release_frame R1 Hp) as (E1 & E2 & E3). set (R2 := release Backup _) in *. clearbody R2.
  destruct (dispatch_wire c data t' es He) as (W1 & W2 & W3 & W4).
  split_and!; [|done|done|by rewrite E3|done].
  split; cbn; try done; [by rewrite E3|congruence..].
Qed.
End server.

(** * Gathering a relayed candidate *)

Lemma relay_candidate_type `{InetOps} ip port : c_type (relay_candidate ip port) = Relay.
Proof. unfold relay_candidate, set_address. by repeat case_match. Qed.

Section gathered.
Context `{InetOps} `{Hmac} `{SessionEnv}.

(** The rest of gathering: the candidates, the clients and whether TURN gathers stay. *)
Definition gathering (s : IceSession) (es : list session_event) (s' : IceSession) : Prop :=
  turn_gathering (s_gather s') = turn_gathering (s_gather s) ∧ founded s' = founded s ∧ Forall calm es.
#[local] Instance gathering_order : TraceOrder gathering.
Proof.
  split; [by intros s; split_and!|]. intros s1 o1 s2 o2 s3 (?&?&?) (?&?&?).
  split_and!; [congruence..|]. by apply Forall_app.
Qed.
Lemma checking_gathering {A} (m : session A) : traces checking m → traces gathering m.
Proof. intros Hm s. destruct (Hm s) as (Hf & Hg & _ & Hc). split_and!; [by rewrite Hg|done|done]. Qed.
#[local] Hint Extern 1 (traces gathering _) => apply checking_gathering; solve [auto with ice] : ice.
Ltac gathers := intros; (split_and!; [reflexivity..|]); repeat constructor.
Ltac gathering_auto := traces_auto gathers.

Lemma complete_gathering : traces gathering on_gathering_complete.
Proof.
  unfold on_gathering_complete, announce_gathered, set_gather, set_gens, set_state. gathering_auto.
Qed.
Lemma complete_gathers s : s_state s = Gathering →
  ∃ s', EGathered s' ∈ outputs on_gathering_complete s ∧ founded s' = founded s.
Proof.
  intros Hs. unfold on_gathering_complete, set_gather, set_gens.
  rewrite outputs_modify, outputs_modify, outputs_get, outputs_bind.
  set (s1 := s <| s_gather := _ |> <| s_gens := _ |>). set (m := if decide (s_state s1 = Gathering) then _ else _).
  assert (traces checking m) as Hm by (subst m; unfold set_state; checking_auto).
  destruct (Hm s1) as (Hf & _). exists (final m s1). split; [|done].
  apply elem_of_app. right. by left.
Qed.

Definition quietly (s : IceSession) (es : list session_event) (s' : IceSession) : Prop := Forall calm es.
#[local] Instance quietly_order : TraceOrder quietly.
Proof. split; [by constructor|]. intros. by apply Forall_app. Qed.
Lemma gathering_quietly {A} (m : session A) : traces gathering m → traces quietly m.
Proof. intros Hm s. apply Hm. Qed.
#[local] Hint Resolve complete_gathering : ice.
#[local] Hint Extern 2 (traces quietly _) => apply gathering_quietly; solve [auto with ice] : ice.

Lemma turn_allocated_quietly ip port : traces quietly (on_turn_allocated ip port).
Proof.
  unfold on_turn_allocated, relay_gathered, arm_backup_timer, announce_gathered, push_local, set_gens,
    set_relay, set_gather. traces_auto ltac:(intros; repeat constructor).
Qed.

(** The servers have answered, or there are none. *)
Definition stun_done (s : IceSession) : Prop := stun_gathered (s_gather s) = true ∨ stun_servers (cfg s) = [].

(** [m] has the candidate [c] and leaves TURN gathering done, and given [D] announces a
    session with [c]. *)
Definition announces (D : Prop) (c : Candidate) (m : session unit) (s : IceSession) : Prop :=
  (D → ∃ s', EGathered s' ∈ outputs m s ∧ with_foundation c ∈ founded s')
  ∧ turn_gathering (s_gather (final m s)) = false ∧ with_foundation c ∈ founded (final m s).
Definition ready (D : Prop) (c : Candidate) (s : IceSession) : Prop :=
  s_state s = Gathering ∧ (D → stun_done s) ∧ with_foundation c ∈ founded s.

Lemma announces_right D c {A} (m : session A) f s :
  announces D c (f (run m s).1.1) (final m s) → announces D c (m ≫= f) s.
Proof.
  intros [Hd Hg]. split; [|by rewrite final_bind]. intros HD. destruct (Hd HD) as (s' & Hi & Hf).
  exists s'. split; [|done]. rewrite outputs_bind. apply elem_of_app. by right.
Qed.
Lemma announces_ready D c {A} (m : session A) f s : (∀ s, ready D c s → ready D c (final m s)) → ready D c s →
  (∀ a s', ready D c s' → announces D c (f a) s') → announces D c (m ≫= f) s.
Proof. intros Hm Hs Hf. apply announces_right. auto. Qed.

Lemma relay_gathered_announces D c (k : session unit) s : ready D c s → traces gathering k →
  announces D c (relay_gathered ;; k) s.
Proof.
  intros (Hs & Hst & Hc) Hk. unfold announces. rewrite outputs_bind, final_bind.
  destruct (Hk (final relay_gathered s)) as (-> & -> & _).
  unfold relay_gathered, set_gather, set_gens. rewrite outputs_modify, outputs_get, final_modify, final_get.
  set (s1 := s <| s_gather := _ |>). set (done_ := _ || _).
  assert (D → done_ = true) as Hd.
  { intros HD. subst done_. destruct (Hst HD) as [Hg|Hn]; [by cbn; rewrite Hg|].
    rewrite bool_decide_true by done. apply orb_true_r. }
  clearbody done_. destruct done_.
  - rewrite outputs_modify, final_modify. set (s2 := s1 <| s_gens := _ |>).
    destruct (complete_gathering s2) as (Hg & Hf2 & _). split_and!; [|done|by rewrite Hf2].
    intros _. destruct (complete_gathers s2 Hs) as (s' & Hi & Hf).
    exists s'. split; [apply elem_of_app; by left|]. by rewrite Hf.
  - split_and!; [|done|done]. intros HD. by specialize (Hd HD).
Qed.

Lemma turn_allocated_announces ip port s : s_state s = Gathering →
  candidate_allowed Relay (c_family (relay_candidate ip port)) (candidate_filter_flags (cfg s)) = true →
  announces (stun_done s) (relay_candidate ip port) (on_turn_allocated ip port) s.
Proof.
  intros Hs Ha. set (D := stun_done s). unfold on_turn_allocated.
  apply announces_right. cbn [final set_gens modify exec run fst].
  apply announces_right. cbn [final get exec run fst].
  set (s0 := s <| s_gens := _ |>). change (cfg s0) with (cfg s). rewrite relay_candidate_type, Ha. cbn [negb].
  apply announces_right. set (s1 := final (push_local _) s0).
  assert (ready D (relay_candidate ip port) s1) as Hr.
  { split_and!; [done..|]. unfold founded. cbn. rewrite fmap_app. apply elem_of_app. right. by left. }
  clearbody s1 D. clear Hs Ha.
  apply announces_ready; [|done|].
  { intros s'. unfold ready. case_decide; [|done]. by rewrite (proj2 (outputs_emit_each _ _ _)). }
  clear Hr s1. intros _ s1 Hr. apply announces_ready; [done|done|]. clear Hr s1. intros _ s1 Hr.
  apply announces_ready; [done|done|]. clear Hr s1. intros s2 s1 Hr. apply announces_ready; [|done|].
  { intros s'. unfold ready, arm_backup_timer, set_relay, set_gens. case_match; [|done].
    rewrite final_modify, final_get. by case_match. }
  intros _ s' Hr'. apply relay_gathered_announces; [done|]. unfold announce_gathered. gathering_auto.
Qed.

Lemma turn_allocated_permits ip port s rc :
  candidate_allowed Relay (c_family (relay_candidate ip port)) (candidate_filter_flags (cfg s)) = true →
  s_turn s ≠ None → rc ∈ s_remote_candidates s →
  ETurnPermission (address_str rc) ∈ outputs (on_turn_allocated ip port) s.
Proof.
  intros Ha Ht Hr. unfold on_turn_allocated, set_gens. rewrite outputs_modify, outputs_get.
  set (s0 := s <| s_gens := _ |>). change (cfg s0) with (cfg s). rewrite relay_candidate_type, Ha. cbn [negb].
  rewrite outputs_bind, outputs_bind. rewrite decide_True by done.
  rewrite (proj1 (outputs_emit_each _ _ _)). rewrite !elem_of_app. right. left.
  apply list_elem_of_fmap. by exists rc.
Qed.
End gathered.

(** * The two together *)

Section together.
Context `{InetOps} `{HmacLaws} `{Md5} `{SessionEnv} `{RelayEnv}.

(** The client keeps its allocation and its permissions. *)
Definition stays_allocated (t t' : TurnClient) : Prop :=
  t_allocated t' = t_allocated t ∧ t_relayed t' = t_relayed t ∧ t_permissions t ⊆ t_permissions t'.
#[local] Instance stays_allocated_po : PreOrder stays_allocated.
Proof.
  unfold stays_allocated. split; [by intros ?|]. intros ??? (?&?&?) (?&?&?). split_and!; [congruence..|set_solver].
Qed.
Lemma plain_call_stays txn fac i : plain_call i = true → keeps stays_allocated (turn_handle txn fac i).
Proof.
  destruct i; intros Hi; try discriminate Hi; cbn [turn_handle];
    unfold allocate, send_indication, bind_channel, create_permission, Turn.generate_txn_id, send_to_server;
    keeps_auto ltac:(intros; split_and!; [reflexivity..|cbn; set_solver]).
Qed.

Lemma permission_adds txn fac ip t : ip ∈ t_permissions (final (turn_handle txn fac (ICreatePermission ip)) t).
Proof.
  cbn [turn_handle]. unfold create_permission. rewrite final_get. case_bool_decide as Hi; [done|].
  rewrite final_modify. set (t1 := t <| t_permissions := _ |>).
  assert (ip ∈ t_permissions t1) as Hi1 by (cbn; set_solver). clearbody t1. clear Hi.
  set (same := λ t t' : TurnClient, t_permissions t' = t_permissions t).
  assert (PreOrder same) by (split; [done|intros ???; unfold same; congruence]).
  match goal with |- _ ∈ t_permissions (final ?m _) => assert (keeps same m) as Hm end.
  { unfold Turn.generate_txn_id, send_to_server. keeps_auto done. }
  by rewrite (Hm t1).
Qed.

(** Events that leave the clients in their slots and in their state. *)
Lemma calm_event now e R c : calm e → rl_turn R = Some c →
  let R' := final (on_session_event now e) R in
  rl_session R' = rl_session R ∧ ∃ c', rl_turn R' = Some c' ∧ stays_allocated (cl_turn c) (cl_turn c')
    ∧ ∀ ip, e = ETurnPermission ip → ip ∈ t_permissions (cl_turn c').
Proof.
  intros He Hc. cbv zeta.
  assert (∀ i, plain_call i = true → rl_session (final (call_client now Primary i) R) = rl_session R
    ∧ ∃ t', rl_turn (final (call_client now Primary i) R) = Some (c <| cl_turn := t' |>)
      ∧ t' = final (turn_handle (relay_txn (cl_id c)) (λ _, 0) i) (cl_turn c)
      ∧ stays_allocated (cl_turn c) t') as Hcall.
  { intros i Hi. destruct (call_client_final now Primary i R (or_introl Hi)) as [Hs Hf].
    split; [done|]. specialize (Hf Primary). rewrite decide_True in Hf by done. cbn [client] in Hf.
    rewrite Hc in Hf. eexists. split_and!; [exact Hf|done|by apply plain_call_stays]. }
  destruct (plain_event_final e R) as [Hs Hp]. specialize (Hp Primary). cbn [client] in Hp.
  destruct e; try (by destruct He); cbn [on_session_event];
    try (split; [exact Hs|]; exists c; by rewrite Hp);
    (match goal with |- rl_session (final (call_client _ _ ?i) _) = _ ∧ _ =>
       destruct (Hcall i eq_refl) as (Hs' & t' & Ht & Ef & Hst) end);
    (split; [exact Hs'|]); eexists; (split; [exact Ht|]); (split; [done|]); try done.
  intros ip' [= ->]. cbn. rewrite Ef. apply permission_adds.
Qed.

Lemma calm_events now es R c : Forall calm es → rl_turn R = Some c →
  let R' := final (for_each (on_session_event now) es) R in
  rl_session R' = rl_session R ∧ ∃ c', rl_turn R' = Some c' ∧ stays_allocated (cl_turn c) (cl_turn c')
    ∧ ∀ ip, ETurnPermission ip ∈ es → ip ∈ t_permissions (cl_turn c').
Proof.
  intros Hes. revert R c. induction Hes as [|e es He _ IH]; intros R c Hc; cbv zeta.
  { split; [done|]. exists c. split_and!; [done|done|]. by intros ip ?%elem_of_nil. }
  rewrite final_for_each_cons. destruct (calm_event now e R c He Hc) as (Hs & c1 & Hc1 & Hst1 & Hp1).
  destruct (IH _ _ Hc1) as (Hs' & c' & Hc' & Hst & Hp). split; [by rewrite Hs'|]. exists c'.
  split_and!; [done|by etrans|]. intros ip [<-|Hi]%elem_of_cons; [|by apply Hp].
  apply Hst. by apply Hp1.
Qed.

(** What is announced is announced by the whole. *)
Lemma gathered_output now es R s : EGathered s ∈ es →
  RSession (EGathered s) ∈ outputs (for_each (on_session_event now) es) R.
Proof.
  intros Hs. revert R. induction es as [|e es IH]; intros R; [by apply elem_of_nil in Hs|].
  rewrite outputs_for_each_cons, elem_of_app. apply elem_of_cons in Hs as [<-|Hs]; [left; by left|right; auto].
Qed.

Lemma turn_allocated_turn ip port s : s_turn (final (on_turn_allocated ip port) s) = s_turn s.
Proof.
  set (same_turn := λ s s' : IceSession, s_turn s' = s_turn s).
  assert (PreOrder same_turn) by (split; [done|intros ???; unfold same_turn; congruence]).
  assert (∀ A (m : session A), keeps same_party m → keeps same_turn m) as Hp
    by (intros A m Hm s0; by apply Hm).
  pose proof (Hp _ _ build_check_list_party). pose proof (Hp _ _ begin_checks_party).
  pose proof (Hp _ _ run_next_check_party).
  assert (keeps same_turn (on_turn_allocated ip port)) as Hk; [|by apply Hk].
  unfold on_turn_allocated, relay_gathered, on_gathering_complete, rebuild_and_check, arm_backup_timer,
    push_local, set_gens, set_relay, set_gather, set_state. keeps_auto done.
Qed.

(** The posted half of the allocation callback, with the client in its slot. *)
Lemma posted_allocated now R c ip port : udp_client R c → rl_posted R = [ITurnAllocated ip port] →
  s_state (rl_session R) = Gathering →
  candidate_allowed Relay (c_family (relay_candidate ip port))
    (candidate_filter_flags (cfg (rl_session R))) = true →
  let step := relay_handle now RPosted in
  let R' := final step R in
  let relay := with_foundation (relay_candidate ip port) in
  s_turn (rl_session R') ≠ None ∧ turn_gathering (s_gather (rl_session R')) = false
  ∧ relay ∈ founded (rl_session R')
  ∧ (stun_done (rl_session R) → ∃ s, RSession (EGathered s) ∈ outputs step R ∧ relay ∈ founded s)
  ∧ ∃ c', rl_turn R' = Some c' ∧ stays_allocated (cl_turn c) (cl_turn c')
      ∧ ∀ rc, rc ∈ s_remote_candidates (rl_session R) → address_str rc ∈ t_permissions (cl_turn c').
Proof.
  intros [] Hp Hs Ha. cbv zeta. set (m := on_turn_allocated ip port). set (s1 := (look R) <| s_now_us := now |>).
  assert (s_turn s1 ≠ None) as Ht by (change (s_turn (look R) ≠ None); by rewrite (look_turn R c)).
  destruct (turn_allocated_announces ip port s1 Hs Ha) as (Hd & Hg & Hfd).
  pose proof (turn_allocated_quietly ip port s1) as Hq. pose proof (turn_allocated_turn ip port s1) as Hk.
  set (R1 := R <| rl_posted := [] |> <| rl_session := final m s1 |>).
  assert (exec (relay_act now RPosted) R = exec (for_each (on_session_event now) (outputs m s1)) R1) as Ea.
  { cbn [relay_act]. unfold exec at 1. rewrite run_get, Hp, run_modify. apply exec_session_do.
    rewrite look_posted, exec_run_one. apply surjective_pairing. }
  destruct (calm_events now (outputs m s1) R1 c Hq uc_client0) as (Hss & c' & Hc' & Hst & Hperm).
  set (R2 := final (for_each (on_session_event now) (outputs m s1)) R1) in *.
  assert (final (relay_act now RPosted) R = R2) as Ef by exact (f_equal fst Ea).
  assert (outputs (relay_act now RPosted) R = outputs (for_each (on_session_event now) (outputs m s1)) R1) as Eo
    by exact (f_equal snd Ea).
  rewrite outputs_relay_handle, final_relay_handle, Ef, Eo.
  assert (rl_session R2 = final m s1) as Hs2 by (rewrite Hss; exact eq_refl).
  assert (s_turn (rl_session R2) ≠ None) as Ht2 by (rewrite Hs2; unfold m; rewrite Hk; exact Ht).
  destruct (release_frame R2 Ht2) as (E1 & _ & E3). rewrite E1, E3, Hs2. split_and!.
  - rewrite <- Hs2. exact Ht2.
  - exact Hg.
  - exact Hfd.
  - intros HD. destruct (Hd HD) as (s' & Hi & Hf). exists s'. split; [by apply gathered_output|done].
  - exists c'. split_and!; [done|done|]. intros rc Hrc. apply Hperm. by apply turn_allocated_permits.
Qed.

(** The server asks for credentials. *)
Record challenges (t : TurnClient) (data : bytes) (m : StunMessage) : Prop := {
  cg_parsed : parsed_stun data = Some m;
  cg_stun : looks_like_channel_data data = false;
  cg_type : msg_type m = TURN_ALLOCATE_ERROR;
  cg_code : error_code m = Some 401 ∨ error_code m = Some 438;
  cg_fit : credentials_fit (challenged m t) 8;
}.

(** The server grants an allocation at [a]. *)
Record grants (data : bytes) (m : StunMessage) (a : MappedAddress) : Prop := {
  gr_parsed : parsed_stun data = Some m;
  gr_stun : looks_like_channel_data data = false;
  gr_type : msg_type m = TURN_ALLOCATE_RESPONSE;
  gr_relayed : xor_relayed m = Some a;
}.

Lemma granted txn fac t data m a : grants data m a → t_alloc_cb t = true →
  ∃ t' secs, exec (dispatch_inbound_message txn fac data) t = (t', [TTimerSet secs; TAllocated (ma_ip a) (ma_port a)])
    ∧ t_allocated t' = true ∧ t_relayed t' = a.
Proof.
  intros [] Ha. unfold dispatch_inbound_message. rewrite gr_stun0, gr_parsed0, gr_type0.
  rewrite decide_False, decide_True by done. unfold handle_allocate_response, schedule_refresh. rewrite gr_relayed0.
  unfold exec. rewrite run_modify. set (t1 := t <| t_relayed := _ |> <| t_allocated := _ |> <| t_lifetime := _ |>).
  assert (t_alloc_cb t1 = true ∧ t_allocated t1 = true ∧ t_relayed t1 = a) as (Ha1 & Hal & Hre) by done.
  clearbody t1. rewrite run_bind, run_get. cbn [run emit]. rewrite run_get, Ha1. by do 2 eexists.
Qed.

Context (txn_length : ∀ k n, length (relay_txn k n) = 12%nat).

(** The server's two datagrams. *)
Lemma allocation_dance R c t1 t2 data1 m1 data2 m2 a : udp_client R c → rl_posted R = [] →
  challenges (cl_turn c) data1 m1 → grants data2 m2 a →
  let cid := t_server_cid (cl_turn c) in
  let R1 := final (relay_handle t1 (RCall (ICarrierData cid data1))) R in
  let R2 := final (relay_handle t2 (RCall (ICarrierData cid data2))) R1 in
  (∃ raw m, outputs (relay_handle t1 (RCall (ICarrierData cid data1))) R = [RTurnSend (cl_carrier c) cid raw]
     ∧ verify_integrity raw (t_auth_key (challenged m1 (cl_turn c))) = Some true
     ∧ parse_stun raw = Some (Some m) ∧ msg_type m = TURN_ALLOCATE_REQUEST
     ∧ username m = Some (tc_username (t_cfg (cl_turn c))))
  ∧ same_gathering (rl_session R) (rl_session R2)
  ∧ rl_posted R2 = [ITurnAllocated (ma_ip a) (ma_port a)]
  ∧ ∃ c', udp_client R2 c' ∧ t_allocated (cl_turn c') = true ∧ t_relayed (cl_turn c') = a.
Proof.
  intros Hu Hp [] Hg cid. cbv zeta.
  destruct (turn_auth_retry (relay_txn (cl_id c)) (λ _, 0) (txn_length (cl_id c)) (cl_turn c) data1 m1)
    as (raw & m & Ho & Hv & Hm & Hty & Huser & _); try done; [by destruct Hu..|].
  assert (∃ t', exec (dispatch_inbound_message (relay_txn (cl_id c)) (λ _, 0) data1) (cl_turn c)
    = (t', [TSend cid raw])) as [t1' He1].
  { unfold outputs in Ho. subst cid. rewrite <- Ho. eexists. apply surjective_pairing. }
  destruct (server_message t1 R c data1 t1' [TSend cid raw] Hu) as (Hu1 & Hc1 & Hq1 & Hsg1 & Ho1);
    [done|by repeat constructor|].
  fold cid in Hu1, Hq1, Hsg1, Ho1, Hc1. set (R1 := final (relay_handle t1 _) R) in *.
  destruct (granted (relay_txn (cl_id c)) (λ _, 0) t1' data2 m2 a Hg (uc_alloc _ _ Hu1))
    as (t' & secs & He & Hal & Hre).
  destruct (server_message t2 R1 (c <| cl_turn := t1' |>) data2 _ _ Hu1 He)
    as (Hu2 & _ & Hq2 & Hsg2 & Ho2); [by repeat constructor|].
  change (t_server_cid (cl_turn (c <| cl_turn := t1' |>))) with (t_server_cid t1') in Hu2, Hq2, Hsg2.
  rewrite Hc1 in Hu2, Hq2, Hsg2. split; [by exists raw, m|]. split_and!.
  - unfold same_gathering in *. destruct Hsg1 as (?&?&?&?&?&?), Hsg2 as (?&?&?&?&?&?). split_and!; congruence.
  - rewrite Hq2, Hq1, Hp. cbn. by rewrite (uc_primary _ _ Hu).
  - by eexists.
Qed.

(** C7 (a relayed candidate): while a session gathers with a TURN server over UDP, a
    challenge of the server is answered by exactly one message, an Allocate request that
    verifies under the server's credentials, and the allocation the server then grants
    becomes a relayed candidate of the session: TURN gathering ends, the session sees its
    client allocated at that address, and the client has a permission for every candidate
    of the peer.  When a STUN server has answered, or none is configured, gathering as a
    whole is over and the candidate is announced to the link. *)
Theorem relay_gathering_completes R c t1 t2 t3 data1 m1 data2 m2 a :
  udp_client R c → rl_posted R = [] → s_state (rl_session R) = Gathering →
  challenges (cl_turn c) data1 m1 → grants data2 m2 a →
  let relay := relay_candidate (ma_ip a) (ma_port a) in
  candidate_allowed Relay (c_family relay) (candidate_filter_flags (cfg (rl_session R))) = true →
  let cid := t_server_cid (cl_turn c) in
  let run := relay_run [(t1, RCall (ICarrierData cid data1)); (t2, RCall (ICarrierData cid data2)); (t3, RPosted)] in
  let R' := final run R in
  (∃ raw m, outputs (relay_handle t1 (RCall (ICarrierData cid data1))) R = [RTurnSend (cl_carrier c) cid raw]
     ∧ verify_integrity raw (t_auth_key (challenged m1 (cl_turn c))) = Some true
     ∧ parse_stun raw = Some (Some m) ∧ msg_type m = TURN_ALLOCATE_REQUEST
     ∧ username m = Some (tc_username (t_cfg (cl_turn c))))
  ∧ with_foundation relay ∈ founded (rl_session R') ∧ turn_gathering (s_gather (rl_session R')) = false
  ∧ (∃ c', rl_turn R' = Some c' ∧ s_turn (look R') = Some (handle_of c')
     ∧ t_allocated (cl_turn c') = true ∧ t_relayed (cl_turn c') = a
     ∧ ∀ rc, rc ∈ s_remote_candidates (rl_session R) → address_str rc ∈ t_permissions (cl_turn c'))
  ∧ (stun_gathered (s_gather (rl_session R)) = true ∨ stun_servers (cfg (rl_session R)) = [] →
     ∃ s, RSession (EGathered s) ∈ outputs run R ∧ with_foundation relay ∈ founded s).
Proof.
  intros Hu Hp Hs Hch Hg relay Ha cid. cbv zeta. unfold relay_run.
  assert (∀ R : Relayed, final (@skip Relayed relay_event) R = R) as Hskip by done.
  rewrite !outputs_for_each_cons, !final_for_each_cons. cbn [for_each fst snd]. rewrite Hskip.
  destruct (allocation_dance R c t1 t2 data1 m1 data2 m2 a Hu Hp Hch Hg)
    as (Ho & (Hf & Hst2 & Hl & Hrem & Hgg & _) & Hq & c1 & Hu2 & Hal & Hre).
  fold cid in Ho, Hf, Hst2, Hrem, Hgg, Hq, Hu2. set (R2 := final (relay_handle t2 _) _) in *.
  destruct (posted_allocated t3 R2 c1 (ma_ip a) (ma_port a) Hu2 Hq)
    as (Hpt & Ht & Hi & Hann & c' & Hc' & (Ha1 & Ha2 & _) & Hperm); [congruence|by rewrite Hf|].
  split_and!; [done|done|done| |].
  - exists c'. split_and!; [done|by apply look_turn|congruence|congruence|]. by rewrite <- Hrem.
  - intros HD. destruct Hann as (s & Hs' & Hfs).
    + unfold stun_done. by rewrite Hgg, Hf.
    + exists s. split; [|done]. rewrite !elem_of_app. tauto.
Qed.
End together.

(** * A STUN server that is also the TURN server *)

(** A shared server: what arrives on the connection of the TURN server goes to the
    TURN client alone, and the client ignores a Binding response. So when a STUN server
    is the UDP TURN server too, the two share a connection and the answer to the
    session's STUN request is lost: nothing is sent or reported, no candidate is learned
    and the request stays pending. *)
Theorem shared_server_deaf `{InetOps} `{Hmac} `{Md5} `{SessionEnv} `{RelayEnv} now R c data m :
  udp_client R c →
  parsed_stun data = Some m → looks_like_channel_data data = false → msg_type m = STUN_BINDING_RESPONSE →
  let step := relay_handle now (RCall (ICarrierData (t_server_cid (cl_turn c)) data)) in
  outputs step R = [] ∧ rl_posted (final step R) = rl_posted R
  ∧ same_gathering (rl_session R) (rl_session (final step R)).
Proof.
  intros Hu Hm Hl Ht step.
  destruct (server_message now R c data (cl_turn c) [] Hu) as (_ & _ & Hq & Hs & Ho); [|constructor|].
  { unfold dispatch_inbound_message. rewrite Hl, Hm, Ht. reflexivity. }
  fold step in Hq, Hs, Ho. split_and!; [exact Ho|by rewrite Hq, app_nil_r|exact Hs].
Qed.

(** * Concrete runs *)

Module RelayPathRef.
#[local] Existing Instance InetRef.ops.
#[local] Existing Instance HmacRef.ops.
#[local] Existing Instance TurnRef.md5.
#[local] Existing Instance SessionRef.env.
#[local] Existing Instance RelayRef.txns.
Definition started (F : Fixed) (ins : list (Z * relay_input)) : Relayed :=
  relayed_after F true (str "abcdefgh") (str "secret") 1 ((1, RCall IGather) :: ins).
(** The STUN server is the TURN server, and has been sent a Binding request. *)
Definition shared_fixed : Fixed := SessionRef.fixed (RelayRef.config <| stun_servers := [str "turn.example"] |>) 5.
Definition shared : Relayed := final (relay_handle 2 RPosted) (started shared_fixed []).
Definition client_of (R : Relayed) : Client :=
  default (mkClient 0 CarrierUdp None (new_turn true 0 example_turn_cfg true)) (rl_turn R).
(** Connected to [peer] through the relay, on the channel 0x4000 bound for it. *)
Definition relaying (ip : bytes) : Client :=
  mkClient 0 CarrierUdp None ((new_turn true 7 example_turn_cfg true)
    <| t_peer_to_channel := {[endpoint_text ip 50000 := 16384]} |>
    <| t_channel_to_peer := {[16384 := (ip, 50000)]} |>).
Definition connected (ip : bytes) : Relayed :=
  mkRelayed (SessionRef.ordered_new <| s_state := Connected |>
      <| s_nom := mkNominated ip 50000 true Relay Relay 0 Udp |> <| s_turn := Some (handle_of (relaying ip)) |>)
    (Some (relaying ip)) None [] 1 [].
(** The TURN server answers the Binding request it got. *)
Definition stun_answer : bytes :=
  build (add_attr STUN_ATTR_XOR_MAPPED_ADDRESS
    (encode_xor_addr (str "192.0.2.7") 4000 (replicate 8 7 ++ write32 0))
    (new_builder STUN_BINDING_RESPONSE (replicate 8 7 ++ write32 0))).
(** Gathering with a STUN server, which has answered, the TURN server not heard of yet. *)
Definition asked : Relayed :=
  started (SessionRef.fixed (RelayRef.config <| stun_servers := [str "stun.example"] |>) 5)
    [(1, RPosted); (1, RCall (ICarrierData 2 stun_answer))].
(** A TURN server configured for TCP, the host having no TCP carrier. *)
Definition stream_config : IceConfig := default_config
  <| turn_servers := [mkTurnConfig (str "turn.example") 3478 (str "user") (str "pass") true false
       REQUESTED_TRANSPORT_UDP] |>.
Definition no_tcp : Fixed := mkFixed stream_config true false false true true false 5.
(** Two TURN servers over TCP; the first did not answer in time, and its grant was
    under way when the session turned to the second. *)
Definition tcp_server (host : bytes) : TurnConfig :=
  mkTurnConfig host 3478 (str "user") (str "pass") true false REQUESTED_TRANSPORT_UDP.
Definition two_servers : Fixed := SessionRef.fixed
  (default_config <| turn_servers := [tcp_server (str "turn1"); tcp_server (str "turn2")] |>) 5.
Definition late : Relayed := started two_servers
  [(2, RCall (ITimer TmTurnAllocate 2)); (3, RRetiredStream 0 (encode_stream_frame RelayRef.grant []).2); (4, RPosted)].
Definition gathered (F : Fixed) : list relay_event :=
  outputs (relay_handle 1 (RCall IGather)) (new_relayed (new_session F true (str "abcdefgh") (str "secret") 1)).
End RelayPathRef.

Lemma relayed_data_arrives_witness :
  let A := RelayPathRef.connected (str "192.0.2.9") in
  let B := RelayPathRef.connected (str "192.0.2.8") in
  outputs (@relay_handle InetRef.ops HmacRef.ops TurnRef.md5 SessionRef.env RelayRef.txns 1 (RCall (ISend [1; 2]))) A
    = [RTurnSend CarrierUdp 7 [64; 0; 0; 6; 0; 0; 0; 0; 1; 2; 0; 0]]
  ∧ outputs (@relay_handle InetRef.ops HmacRef.ops TurnRef.md5 SessionRef.env RelayRef.txns 2
       (RCall (ICarrierData 7 [64; 0; 0; 6; 0; 0; 0; 0; 1; 2; 0; 0]))) B = [RSession (EData [1; 2])].
Proof.
  destruct (@relayed_data_arrives InetRef.ops HmacRef.ops TurnRef.md5 SessionRef.env SessionRef.env
    RelayRef.txns RelayRef.txns 1 2
    (RelayPathRef.connected (str "192.0.2.9")) (RelayPathRef.relaying (str "192.0.2.9")) 16384
    (RelayPathRef.connected (str "192.0.2.8")) (RelayPathRef.relaying (str "192.0.2.8")) 16384 [1; 2])
    as (Hs & _ & Hr).
  1,2: split; try (vm_compute; reflexivity); try discriminate;
    [split; discriminate|vm_compute; eauto].
  - split; [reflexivity|]. intros _. split_and!; [split; discriminate||reflexivity|reflexivity..].
  - split; discriminate || reflexivity.
  - reflexivity.
  - split; [exact Hs|exact Hr].
Defined.

Lemma relay_gathering_completes_witness :
  ∃ s, RSession (EGathered s) ∈ outputs
      (@relay_run InetRef.ops HmacRef.ops TurnRef.md5 SessionRef.env RelayRef.txns
        [(2, RCall (ICarrierData 1 example_challenge)); (3, RCall (ICarrierData 1 RelayRef.grant)); (4, RPosted)])
      RelayPathRef.asked.
Proof.
  destruct (@relay_gathering_completes InetRef.ops HmacRef.ops HmacRef.laws TurnRef.md5 SessionRef.env RelayRef.txns
    (λ k n, eq_refl) RelayPathRef.asked (RelayPathRef.client_of RelayPathRef.asked) 2 3 4
    example_challenge example_challenge_msg RelayRef.grant
    ((empty_message TURN_ALLOCATE_RESPONSE (replicate 12 1)) <| xor_relayed := Some (mkMapped (str "192.0.2.9") 50000) |>)
    (mkMapped (str "192.0.2.9") 50000)) as (_ & _ & _ & _ & Hann).
  - split; try (vm_compute; reflexivity); vm_compute; discriminate.
  - vm_compute; reflexivity.
  - vm_compute; reflexivity.
  - split; try (vm_compute; reflexivity); [left; reflexivity|vm_compute; split; [discriminate|reflexivity]].
  - split; vm_compute; reflexivity.
  - vm_compute; reflexivity.
  - destruct Hann as (s & Hs & _); [left; vm_compute; reflexivity|]. exists s. exact Hs.
Defined.

Lemma shared_server_deaf_witness :
  RSession (ESend 1 (build (new_builder STUN_BINDING_REQUEST (replicate 8 7 ++ write32 0))))
    ∈ outputs (@relay_handle InetRef.ops HmacRef.ops TurnRef.md5 SessionRef.env RelayRef.txns 2 RPosted)
        (RelayPathRef.started RelayPathRef.shared_fixed [])
  ∧ outputs (@relay_handle InetRef.ops HmacRef.ops TurnRef.md5 SessionRef.env RelayRef.txns 3
      (RCall (ICarrierData 1 RelayPathRef.stun_answer))) RelayPathRef.shared = [].
Proof.
  split; [apply list_elem_of_In; vm_compute; tauto|].
  apply (@shared_server_deaf InetRef.ops HmacRef.ops TurnRef.md5 SessionRef.env RelayRef.txns 3
    RelayPathRef.shared (RelayPathRef.client_of RelayPathRef.shared) RelayPathRef.stun_answer
    ((empty_message STUN_BINDING_RESPONSE (replicate 8 7 ++ write32 0))
       <| xor_mapped := Some (mkMapped (str "192.0.2.7") 4000) |>)).
  - split; try (vm_compute; reflexivity); vm_compute; discriminate.
  - vm_compute; reflexivity.
  - vm_compute; reflexivity.
  - reflexivity.
Defined.

(** The client frames its messages for a stream whenever its server is configured for
    TCP or TLS, while the session falls back to the UDP carrier when the host has none
    of the other: the first datagram to the server then starts with a length. *)
Lemma stream_frame_in_datagram :
  RTurnSend CarrierUdp 1
    (encode_stream_frame (build (add_requested_transport REQUESTED_TRANSPORT_UDP
      (new_builder TURN_ALLOCATE_REQUEST (replicate 12 0)))) []).2 ∈ RelayPathRef.gathered RelayPathRef.no_tcp.
Proof. apply list_elem_of_In. vm_compute. tauto. Qed.

(** The allocation callback does not ask which client it serves: a grant that arrives
    after the session gave up on its server still becomes a relayed candidate, while the
    client the session has now is not allocated. *)
Lemma late_allocation_adopted :
  relay_candidate (H := InetRef.ops) (str "192.0.2.9") 50000 ∈ s_local_candidates (rl_session RelayPathRef.late)
  ∧ th_allocated <$> s_turn (look RelayPathRef.late) = Some false
  ∧ turn_gathering (s_gather (rl_session RelayPathRef.late)) = false.
Proof. split; [apply list_elem_of_In; vm_compute; tauto|]. split; vm_compute; reflexivity. Qed.
