(* ===== verification/MdnsHost.v ===== *)
(** The sessions of a link with the mDNS manager they share (src/session.cpp with
    src/mdns.cpp): the names a session registers and asks for, and the answers the
    manager's callbacks post back to the strand of the session.

    The strand of the manager and those of the sessions are queues; every order in
    which their jobs run is a run of [named_run].  The theorem follows a candidate that
    hides its address behind a name from the peer that made the name to the peer that
    checks it. *)

From stdpp Require Import gmap.
From S2P Require Import Prelude Bytes Inet Candidate MdnsCodec Mdns Framing Stun Turn PathMtu.
From S2P Require Import SessionState Delivery CheckList Gather Session CheckFrame.

(** * The composition *)

(** What a session dispatches to the strand of the manager. *)
Inductive mdns_job :=
  | JobRegister (hostname : bytes)
  | JobUnregister (hostname : bytes)
  | JobResolve (k idx : nat) (hostname : bytes) (ms : Z).

Record Named := mkNamed {
  nm_sessions : gmap nat IceSession;
  nm_mdns : MdnsManager;
  nm_jobs : list mdns_job;                        (* the queue of the manager's strand *)
  nm_callers : gmap nat (nat * nat * bytes);      (* what the callback of a call captures *)
  nm_posted : gmap nat (list session_input);      (* the queues of the sessions' strands *)
}.
#[global] Instance Named_eta : Eta Named := λ N,
  mkNamed (nm_sessions N) (nm_mdns N) (nm_jobs N) (nm_callers N) (nm_posted N).

Inductive named_event :=
  | NSession (k : nat) (e : session_event)
  | NMdns (e : mdns_event).

Abbreviation named := (eff Named named_event).

(** The transaction ids of the queries, by call. *)
Class MdnsEnv := mdns_txn : nat → Z.

Section named.
Context `{InetOps} `{Hmac} `{SessionEnv} `{MdnsEnv}.

Definition dispatch_job (j : mdns_job) : named unit := modify (λ N, N <| nm_jobs := nm_jobs N ++ [j] |>).

Definition on_named_event (k : nat) (e : session_event) : named unit :=
  match e with
  | EMdnsRegister h => dispatch_job (JobRegister h)
  | EMdnsUnregister h => dispatch_job (JobUnregister h)
  | EMdnsResolve idx h ms => dispatch_job (JobResolve k idx h ms)
  | _ => emit (NSession k e)
  end.

Definition named_do (k : nat) (now : Z) (i : session_input) : named unit :=
  N ← get;
  match nm_sessions N !! k with
  | None => skip
  | Some s =>
      let r := exec (session_run [(now, i)]) s in
      modify (λ N, N <| nm_sessions := <[k := r.1]> (nm_sessions N) |>) ;;
      for_each (on_named_event k) r.2
  end.

(** The callback of a [resolve]: a session that is gone is not told. *)
Definition on_manager_event (e : mdns_event) : named unit :=
  match e with
  | MResolved call r =>
      N ← get;
      match nm_callers N !! call with
      | None => skip
      | Some (k, idx, hostname) =>
          if decide (nm_sessions N !! k = None) then skip else
          modify (λ N, N <| nm_posted :=
            <[k := default [] (nm_posted N !! k) ++ [IMdnsResolved idx hostname r]]> (nm_posted N) |>)
      end
  | _ => emit (NMdns e)
  end.

Definition manager_do (i : mdns_input) : named unit :=
  N ← get;
  let r := exec (mdns_handle i) (nm_mdns N) in
  modify (λ N, N <| nm_mdns := r.1 |>) ;;
  for_each on_manager_event r.2.

(** The next job of the manager's strand. *)
Definition run_job : named unit :=
  N ← get;
  match nm_jobs N with
  | [] => skip
  | j :: jobs =>
      modify (λ N, N <| nm_jobs := jobs |>) ;;
      match j with
      | JobRegister h => manager_do (IRegister h)
      | JobUnregister h => manager_do (IUnregister h)
      | JobResolve k idx h ms =>
          let call := m_calls (nm_mdns N) in
          modify (λ N, N <| nm_callers := <[call := (k, idx, h)]> (nm_callers N) |>) ;;
          manager_do (IResolve h ms (mdns_txn call))
      end
  end.

(** The next job of the strand of session [k]. *)
Definition run_posted (k : nat) (now : Z) : named unit :=
  N ← get;
  match nm_posted N !! k with
  | None | Some [] => skip
  | Some (i :: posted) =>
      modify (λ N, N <| nm_posted := <[k := posted]> (nm_posted N) |>) ;;
      named_do k now i
  end.

Inductive named_input :=
  | NCall (k : nat) (now : Z) (i : session_input)   (* the link, the carriers, a timer *)
  | NManager (i : mdns_input)                       (* the sockets and timers of the manager *)
  | NJob
  | NStrand (k : nat) (now : Z).

Definition named_handle (x : named_input) : named unit :=
  match x with
  | NCall k now i => named_do k now i
  | NManager i => manager_do i
  | NJob => run_job
  | NStrand k now => run_posted k now
  end.

Definition named_run (xs : list named_input) : named unit := for_each named_handle xs.
End named.

(** * The parts run as they do by themselves *)

Section parts.
Context `{InetOps} `{Hmac} `{SessionEnv} `{MdnsEnv}.

(** The manager and every session have gone through inputs of their own. *)
Definition parts_run (N N' : Named) : Prop :=
  (∃ ins, nm_mdns N' = final (mdns_run ins) (nm_mdns N))
  ∧ ∀ k s, nm_sessions N !! k = Some s → ∃ ins, nm_sessions N' !! k = Some (final (session_run ins) s).

#[local] Instance parts_run_preorder : PreOrder parts_run.
Proof.
  split.
  - intros N. split; [by exists []|]. intros k s Hs. by exists [].
  - intros N1 N2 N3 [[i1 Hm1] S1] [[i2 Hm2] S2]. split.
    + exists (i1 ++ i2). unfold mdns_run in *. by rewrite final_for_each_app, Hm2, Hm1.
    + intros k s Hs. destruct (S1 k s Hs) as [j1 Hj1]. destruct (S2 k _ Hj1) as [j2 Hj2].
      exists (j1 ++ j2). unfold session_run in *. by rewrite final_for_each_app.
Qed.

Lemma parts_run_same N N' : nm_mdns N' = nm_mdns N → nm_sessions N' = nm_sessions N → parts_run N N'.
Proof. intros Hm Hs. split; [exists []; exact Hm|]. intros k s Hk. exists []. by rewrite Hs. Qed.

Ltac parts_auto := keeps_auto ltac:(intros; by apply parts_run_same).

Lemma on_named_event_parts k e : keeps parts_run (on_named_event k e).
Proof. unfold on_named_event, dispatch_job. parts_auto. Qed.
Lemma on_manager_event_parts e : keeps parts_run (on_manager_event e).
Proof. unfold on_manager_event. parts_auto. Qed.
#[local] Hint Resolve on_named_event_parts on_manager_event_parts : ice.

Lemma named_do_parts k now i : keeps parts_run (named_do k now i).
Proof.
  intros N. unfold named_do. rewrite final_get. destruct (nm_sessions N !! k) as [s|] eqn:Hs; [|reflexivity].
  cbv zeta. rewrite final_modify. etrans; [|apply (keeps_for_each parts_run); auto with ice].
  split; [by exists []|]. intros k' s' Hs'. destruct (decide (k' = k)) as [-> | Hk].
  - simplify_eq. exists [(now, i)]. apply lookup_insert_eq.
  - exists []. cbn. by rewrite lookup_insert_ne.
Qed.

Lemma manager_do_parts i : keeps parts_run (manager_do i).
Proof.
  intros N. unfold manager_do. rewrite final_get. cbv zeta. rewrite final_modify.
  etrans; [|apply (keeps_for_each parts_run); auto with ice].
  split; [|intros k s Hk; by exists []]. exists [i]. unfold mdns_run. by rewrite final_for_each_cons.
Qed.
#[local] Hint Resolve named_do_parts manager_do_parts : ice.

(** The composition adds nothing to what its parts do: after any run the manager and
    each session are where a run of their own takes them. *)
Lemma named_run_parts xs N : parts_run N (final (named_run xs) N).
Proof.
  revert N. apply keeps_for_each; [exact _|]. intros x.
  destruct x; cbn [named_handle]; unfold run_job, run_posted; parts_auto.
Qed.
End parts.

(** * A name is asked for and answered *)

(** A manager that can send and receive on its IPv4 socket. *)
Record listening (m : MdnsManager) : Prop := {
  ls_open : m_v4_open m = true;
  ls_receiving : m_rx_v4 m = true;
  ls_running : m_stopping m = false;
}.

(** A manager that has no query under way. *)
Definition idle (m : MdnsManager) : Prop := m_pending m = ∅.

(** The manager after call [call] for [name], nothing heard yet. *)
Definition asked (call : nat) (name : bytes) (txn : Z) (m : MdnsManager) : MdnsManager :=
  m <| m_calls := S call |>
    <| m_queries := <[call := mkQuery name txn (mkResult [] [] false) false]> (m_queries m) |>
    <| m_pending := <[name := default [] (m_pending m !! name) ++ [call]]> (m_pending m) |>.

Section answers.
Context `{InetLaws}.

Lemma send_query_exec name txn m : listening m → encode_dns_query name txn false ≠ [] →
  ∃ rest, exec (send_query name txn) m
    = (m, MSendV4 kMdnsIPv4MulticastAddr kMdnsPort (encode_dns_query name txn false) :: rest)
    ∧ Forall (λ e, ∀ c r, e ≠ MResolved c r) rest.
Proof.
  intros [] Hq. unfold send_query, exec. rewrite run_get, ls_running0, ls_open0. cbv zeta.
  unfold send_packet. rewrite (bool_decide_false (encode_dns_query name txn false = [])) by done.
  destruct (bool_decide _), (m_v6_open m); cbn; (eexists; split; [reflexivity|by repeat constructor]).
Qed.

Lemma resolve_exec name ms txn m : listening m → m_names m !! name = None → to_lower name = name →
  encode_dns_query name txn false ≠ [] →
  ∃ rest, exec (resolve name ms txn) m
    = (asked (m_calls m) name txn m,
       MSendV4 kMdnsIPv4MulticastAddr kMdnsPort (encode_dns_query name txn false) :: rest)
    ∧ Forall (λ e, ∀ c r, e ≠ MResolved c r) rest.
Proof.
  intros Hl Hn Hlow Hq. unfold resolve. rewrite Hlow. unfold exec. rewrite run_get, Hn, run_modify.
  fold (asked (m_calls m) name txn m). set (m' := asked _ _ _ m).
  destruct (send_query_exec name txn m') as (rest & He & Hf); [by destruct Hl|done|].
  exists (rest ++ [MTimerSet (m_calls m) ms]). split.
  - change (exec (send_query name txn ;; emit (MTimerSet (m_calls m) ms)) m' = (m',
      MSendV4 kMdnsIPv4MulticastAddr kMdnsPort (encode_dns_query name txn false) :: rest ++ [MTimerSet (m_calls m) ms])).
    rewrite exec_bind. unfold exec in He. destruct (run (send_query name txn) m') as [[[] m1] es].
    simplify_eq/=. done.
  - apply Forall_app. split; [done|]. by repeat constructor.
Qed.

(** A datagram is handled, and the next receive armed. *)
Lemma on_receive_exec m data src port m' es : listening m → data ≠ [] →
  run (on_packet data src port false) (m <| m_rx_v4 := false |>) = ((), m', es) →
  m_stopping m' = false → m_v4_open m' = true →
  exec (on_receive false false data src port) m = (m' <| m_rx_v4 := true |>, es).
Proof.
  intros [] Hd Hr Hs Ho. unfold on_receive, exec. rewrite run_get, ls_receiving0. cbn [negb].
  rewrite run_modify, ls_running0. cbn [orb]. rewrite decide_False, run_bind by done.
  change (run _ (m <| m_rx_v4 := false |>)) with (run (on_packet data src port false) (m <| m_rx_v4 := false |>)).
  rewrite Hr. unfold async_receive. rewrite run_get, Hs, Ho. cbn. by rewrite app_nil_r.
Qed.

(** A question for a registered name is answered on the group and to the one who asked. *)
Lemma question_answered m data name txn src port v4 v6 : listening m →
  parse_dns_message data = Some (Some (mkDns false txn name DNS_TYPE_A [])) → name ≠ [] →
  m_names m !! name = Some (mkNames v4 v6) → v4 ≠ [] →
  let r := encode_dns_response name txn v4 [] in r ≠ [] →
  exec (on_receive false false data src port) m
  = (m, [MSendV4 kMdnsIPv4MulticastAddr kMdnsPort r; MSendV4 src port r]).
Proof.
  intros Hl Hp Hne Hn Hv r Hr. destruct Hl as [] eqn:El. set (m1 := m <| m_rx_v4 := false |>).
  assert (run (on_packet data src port false) m1
    = ((), m1, [MSendV4 kMdnsIPv4MulticastAddr kMdnsPort r; MSendV4 src port r])) as Ho.
  { unfold on_packet. rewrite Hp. change (default None (Some ?x)) with x.
    cbn [negb dns_is_response dns_question].
    rewrite bool_decide_false, run_get by done. change (m_names m1) with (m_names m). rewrite Hn.
    unfold send_answer. rewrite run_get. change (m_stopping m1) with (m_stopping m). rewrite ls_running0.
    cbn [dns_qtype dns_txn_id nr_ipv4]. rewrite decide_True by done.
    rewrite (bool_decide_false (v4 = [])) by done. cbn [andb]. fold r.
    rewrite bool_decide_false by done. change (m_v4_open m1) with (m_v4_open m). rewrite ls_open0.
    done. }
  rewrite (on_receive_exec m data src port m1 _ Hl) by (done || by intros ->). f_equal. destruct m; cbn in *. by subst.
Qed.

(** Distinct addresses accumulate in their order. *)
Lemma accumulate_v4 name l acc b : NoDup (acc ++ l) → [] ∉ l →
  foldl (λ r a, accumulate a r) (mkResult acc [] b) ((λ ip, mkAnswer name ip []) <$> l)
  = mkResult (acc ++ l) [] (b || negb (bool_decide (l = []))).
Proof.
  revert acc b. induction l as [|ip l IH]; intros acc b Hd Hne.
  { cbn. by rewrite app_nil_r, orb_false_r. }
  apply not_elem_of_cons in Hne as [Hip Hne]. cbn [fmap list_fmap foldl].
  assert (accumulate (mkAnswer name ip []) (mkResult acc [] b) = mkResult (acc ++ [ip]) [] true) as ->.
  { unfold accumulate. cbn. rewrite (bool_decide_false (ip = [])) by done.
    rewrite bool_decide_false; [done|]. intros Hin. apply NoDup_app in Hd as (_ & Hd & _).
    apply (Hd ip Hin). by left. }
  rewrite IH, <- app_assoc; [by rewrite orb_true_r|by rewrite <- app_assoc|done].
Qed.

Lemma on_answers_exec answers name call q m :
  Forall (λ a, an_name a = name) answers →
  m_pending m !! name = Some [call] → m_queries m !! call = Some q →
  exec (for_each on_answer answers) m
  = (m <| m_queries := <[call := q <| pq_accumulated :=
        foldl (λ r a, accumulate a r) (pq_accumulated q) answers |>]> (m_queries m) |>, []).
Proof.
  intros Ha. revert m q. induction Ha as [|a answers Hn _ IH]; intros m q Hp Hq.
  { cbn. f_equal. destruct m, q; cbn in *. by rewrite insert_id. }
  change (exec (for_each on_answer (a :: answers)) m) with (exec (on_answer a ;; for_each on_answer answers) m).
  set (q' := q <| pq_accumulated := accumulate a (pq_accumulated q) |>).
  assert (run (on_answer a) m = ((), m <| m_queries := <[call := q']> (m_queries m) |>, [])) as Hr.
  { unfold on_answer. rewrite run_get, Hn, Hp. cbn. unfold accumulate_query. cbn. f_equal. f_equal.
    destruct m; cbn in *. f_equal. apply map_eq. intros i. destruct (decide (i = call)) as [-> | Hi].
    - by rewrite lookup_alter_eq, Hq, lookup_insert_eq.
    - by rewrite lookup_alter_ne, lookup_insert_ne. }
  rewrite exec_bind, Hr. set (m1 := m <| m_queries := _ |>).
  rewrite (IH m1 q'); [|exact Hp|by apply lookup_insert_eq]. cbn. f_equal. unfold m1. destruct m; cbn.
  by rewrite insert_insert_eq.
Qed.

Lemma fire_entry_exec name call q m : m_queries m !! call = Some q →
  pq_fired q = false → rr_resolved (pq_accumulated q) = true →
  exec (fire_entry (name, [call])) m
  = (m <| m_queries := <[call := q <| pq_fired := true |>]> (m_queries m) |>
       <| m_pending := delete name (m_pending m) |>,
     [MTimerCancel call; MResolved call (pq_accumulated q)]).
Proof.
  intros Hq Hf Hr. unfold fire_entry. cbn [fst snd fire_resolved].
  unfold exec. rewrite run_bind, run_get, Hq, Hr.
  assert (run (fire call (emit (MTimerCancel call))) m
    = (true, m <| m_queries := <[call := q <| pq_fired := true |>]> (m_queries m) |>,
       [MTimerCancel call; MResolved call (pq_accumulated q)])) as Hfire.
  { unfold fire. rewrite run_get, Hq, Hf. done. }
  rewrite run_bind, Hfire. cbn. done.
Qed.

(** An answer to the one query under way runs its callback with the addresses. *)
Lemma answer_resolves m data name txn call src port ips : listening m →
  m_pending m = {[name := [call]]} →
  m_queries m !! call = Some (mkQuery name txn (mkResult [] [] false) false) →
  parse_dns_message data = Some (Some (mkDns true txn [] 0 ((λ ip, mkAnswer name ip []) <$> ips))) →
  ips ≠ [] → NoDup ips → [] ∉ ips →
  ∃ m', exec (on_receive false false data src port) m
      = (m', [MTimerCancel call; MResolved call (mkResult ips [] true)])
    ∧ listening m' ∧ idle m'.
Proof.
  intros Hl Hpe Hq Hp Hne Hd Hips. destruct Hl as [] eqn:El. set (m1 := m <| m_rx_v4 := false |>).
  set (q := mkQuery name txn (mkResult [] [] false) false) in *.
  set (q1 := q <| pq_accumulated := mkResult ips [] true |>).
  set (m2 := m1 <| m_queries := <[call := q1]> (m_queries m1) |>).
  assert (exec (for_each on_answer ((λ ip, mkAnswer name ip []) <$> ips)) m1 = (m2, [])) as Ha.
  { rewrite (on_answers_exec _ name call q); [|by apply Forall_fmap, Forall_true|by cbn; rewrite Hpe, lookup_singleton_eq|exact Hq].
    change (pq_accumulated q) with (mkResult [] [] false). rewrite accumulate_v4 by done.
    rewrite (bool_decide_false (ips = [])) by done. done. }
  set (m3 := m2 <| m_queries := <[call := q1 <| pq_fired := true |>]> (m_queries m2) |> <| m_pending := ∅ |>).
  assert (run (on_packet data src port false) m1
    = ((), m3, [MTimerCancel call; MResolved call (mkResult ips [] true)])) as Ho.
  { unfold on_packet. rewrite Hp. change (default None (Some ?x)) with x. cbn [negb dns_is_response dns_answers].
    rewrite run_bind. unfold exec in Ha. destruct (run (for_each on_answer _) m1) as [[[] m2'] es].
    cbn in Ha. simplify_eq. rewrite run_get. change (m_pending m2) with (m_pending m). rewrite Hpe, map_to_list_singleton.
    cbn [for_each]. rewrite run_bind. pose proof (fire_entry_exec name call q1 m2) as Hf.
    unfold exec in Hf. destruct (run (fire_entry _) m2) as [[[] m3'] es'].
    cbn [fst snd] in Hf. assert ((m3', es') = (m3, [MTimerCancel call; MResolved call (mkResult ips [] true)])) as E.
    { etrans; [apply Hf; [by apply lookup_insert_eq|done|done]|]. unfold m3.
      change (m_pending m2) with (m_pending m). rewrite Hpe, delete_singleton_eq. done. }
    simplify_eq. done. }
  exists (m3 <| m_rx_v4 := true |>). split; [|by split].
  by rewrite (on_receive_exec m data src port m3 _ Hl) by (done || by intros ->).
Qed.
End answers.

(** * From a name to a candidate *)

(** A host candidate at an address. *)
Definition points_to `{InetOps} (ip : bytes) (port : Z) (c : Candidate) : Prop :=
  c_type c = Host ∧ address_str c = ip ∧ c_port c = port.

Section resolved.
Context `{InetLaws} `{Hmac} `{SessionEnv}.

Lemma points_to_foundation ip port c c' :
  with_foundation c' = with_foundation c → points_to ip port c → points_to ip port c'.
Proof.
  assert (∀ c, c_type (with_foundation c) = c_type c ∧ address_str (with_foundation c) = address_str c
    ∧ c_port (with_foundation c) = c_port c) as Hw by (intros []; unfold with_foundation; by case_decide).
  intros E (?&?&?). destruct (Hw c) as (?&?&?), (Hw c') as (?&?&?). rewrite E in *.
  unfold points_to. split_and!; congruence.
Qed.

Lemma set_address_points o port c : length o = 4%nat → bytes_ok o → c_type c = Host → c_port c = port →
  points_to (inet_ntop4 o) port (set_address (inet_ntop4 o) c).
Proof.
  intros Hl Ho Ht Hp. unfold set_address. rewrite ntop4_text, pton4_ntop4 by done.
  unfold points_to, address_str. cbn. rewrite Ht. split_and!; [done| |done]. cbn.
  by rewrite take_app_length'.
Qed.

(** The candidates are not moved under the reference the port is read through: there is
    at most one address to append, or the vector has room. *)
Definition slot_stays (now : Z) (ips : list bytes) : Prop :=
  (length ips ≤ 1)%nat ∨ ∀ n, env_moves now n = false.

Lemma append_extras_final port ips s : slot_stays (s_now_us s) ips →
  final (append_extras false port ips) s
  = s <| s_remote_candidates := s_remote_candidates s ++ (extra_candidate port <$> ips) |>.
Proof.
  revert s. induction ips as [|ip ips IH]; intros s Hst; cbn [append_extras].
  - rewrite app_nil_r. by destruct s.
  - rewrite final_get, final_bind, final_modify. change (final skip s) with s.
    destruct Hst as [Hl|Hm].
    + destruct ips as [|? ips]; [done|]. cbn in Hl. lia.
    + rewrite Hm. cbn [orb]. rewrite IH by (by right). cbn. by rewrite <- app_assoc.
Qed.

(** Three addresses: when the first [push_back] moves the candidates, the port of the
    next one is read through the dangling reference. *)
Lemma third_address_stale s idx h slot a b c : s_state s ≠ Failed →
  s_remote_candidates s !! idx = Some slot → c_type slot = HostMdns → c_hostname slot = h → a ≠ [] →
  env_moves (s_now_us s) (length (s_remote_candidates s)) = true →
  EStaleRead ∈ outputs (on_mdns_resolved idx h (mkResult [a; b; c] [] true)) s.
Proof.
  intros Hs Hi Ht Hh Hip Hm. unfold on_mdns_resolved. rewrite outputs_get, decide_False, Hi by done.
  rewrite decide_False by (intros [?|?]; done). cbn [rr_resolved rr_ipv4 rr_ipv6 negb head tail orb andb].
  rewrite (bool_decide_false ([a; b; c] = [])) by done. cbn [andb orb].
  change (default [] (Some a)) with a. rewrite (bool_decide_false (a = [])) by done. cbv iota zeta.
  rewrite outputs_modify, outputs_bind, app_nil_r. apply elem_of_app. left. cbn [append_extras].
  rewrite outputs_get, outputs_bind, outputs_modify. cbn [s_remote_candidates s_now_us].
  match goal with |- context [env_moves ?t ?n] => change t with (s_now_us s);
    replace n with (length (s_remote_candidates s)) by (symmetry; apply length_insert) end.
  rewrite Hm. rewrite outputs_get, outputs_bind. apply elem_of_app. right.
  apply elem_of_app. left. by left.
Qed.

(** The slot takes the first address, the others are appended. *)
Lemma mdns_resolved_remote s idx h slot ip ips : s_state s ≠ Failed → slot_stays (s_now_us s) ips →
  s_remote_candidates s !! idx = Some slot → c_type slot = HostMdns → c_hostname slot = h → ip ≠ [] →
  founded_remote (final (on_mdns_resolved idx h (mkResult (ip :: ips) [] true)) s)
  = with_foundation <$> (<[idx := resolved_slot slot ip]> (s_remote_candidates s)
                         ++ (extra_candidate (c_port slot) <$> ips)).
Proof.
  intros Hs Hst Hi Ht Hh Hip. unfold on_mdns_resolved. rewrite final_get, decide_False, Hi by done.
  rewrite decide_False by (intros [?|?]; done). cbn [rr_resolved rr_ipv4 rr_ipv6 negb head tail orb andb].
  rewrite (bool_decide_false (ip :: ips = [])) by done. cbn [andb orb].
  change (default [] (Some ip)) with ip. rewrite (bool_decide_false (ip = [])) by done. cbv iota zeta.
  rewrite final_modify, final_bind, app_nil_r, append_extras_final, final_get by done.
  match goal with |- founded_remote (final _ ?x) = _ => set (s1 := x) end.
  match goal with |- founded_remote (final ?m s1) = _ => set (p := m) end.
  assert (traces checking p) as Hp by (subst p; unfold set_state; checking_auto).
  destruct (Hp s1) as (_ & _ & Hr & _). exact Hr.
Qed.

(** Every address becomes a candidate of the session. *)
Lemma mdns_resolved_candidates s idx h slot o os : s_state s ≠ Failed →
  slot_stays (s_now_us s) os →
  s_remote_candidates s !! idx = Some slot → c_type slot = HostMdns → c_hostname slot = h →
  Forall (λ o, length o = 4%nat ∧ bytes_ok o) (o :: os) →
  let s' := final (on_mdns_resolved idx h (mkResult (inet_ntop4 <$> o :: os) [] true)) s in
  (∃ c, s_remote_candidates s' !! idx = Some c ∧ points_to (inet_ntop4 o) (c_port slot) c)
  ∧ ∀ o', o' ∈ os → ∃ c, c ∈ s_remote_candidates s' ∧ points_to (inet_ntop4 o') (c_port slot) c.
Proof.
  intros Hs Hst Hi Ht Hh Hall s'. apply Forall_cons in Hall as [[Hl Ho] Hall].
  pose proof (mdns_resolved_remote s idx h slot (inet_ntop4 o) (inet_ntop4 <$> os) Hs) as Hf.
  specialize (Hf ltac:(unfold slot_stays in *; by rewrite length_fmap) Hi Ht Hh).
  change (final _ s) with s' in Hf. unfold founded_remote in Hf.
  set (rem := <[idx := _]> _ ++ _) in Hf. specialize (Hf ltac:(by apply ntop4_nonempty)).
  assert (∀ i c, rem !! i = Some c → ∃ c', s_remote_candidates s' !! i = Some c' ∧ with_foundation c' = with_foundation c)
    as Hlook.
  { intros i c Hc. assert ((with_foundation <$> s_remote_candidates s') !! i = Some (with_foundation c)) as E
      by (rewrite Hf, list_lookup_fmap, Hc; done).
    rewrite list_lookup_fmap in E. destruct (s_remote_candidates s' !! i) as [c'|]; [|done].
    exists c'. split; [done|]. by simplify_eq/=. }
  split.
  - destruct (Hlook idx (resolved_slot slot (inet_ntop4 o))) as (c & Hc & E).
    { unfold rem. apply lookup_app_l_Some, list_lookup_insert_eq. by eapply lookup_lt_Some. }
    exists c. split; [done|]. eapply points_to_foundation; [exact E|].
    unfold resolved_slot. destruct (set_address_points o (c_port slot) (slot <| c_type := Host |> <| c_hostname := [] |>))
      as (?&?&?); done.
  - intros o' Ho'. rewrite Forall_forall in Hall. destruct (Hall o' Ho') as [Hl' Hok'].
    assert (extra_candidate (c_port slot) (inet_ntop4 o') ∈ rem) as (i & Hri)%list_elem_of_lookup.
    { unfold rem. apply elem_of_app. right. by apply list_elem_of_fmap_2, list_elem_of_fmap_2. }
    destruct (Hlook _ _ Hri) as (c & Hc & E). exists c. split; [by eapply list_elem_of_lookup_2|].
    eapply points_to_foundation; [exact E|]. by apply set_address_points.
Qed.
End resolved.

Section together.
Context `{InetLaws} `{Hmac} `{SessionEnv} `{MdnsEnv}.
Context (txn_range : ∀ call, is_u16 (mdns_txn call)).
(** [inet_ntop] of an IPv4 address is its dotted-decimal text. *)
Context (ntop4_dotted : ∀ o, length o = 4%nat → bytes_ok o → inet_ntop4 o = dotted o).

Lemma exec_manager_do i N m' es : exec (mdns_handle i) (nm_mdns N) = (m', es) →
  exec (manager_do i) N = exec (for_each on_manager_event es) (N <| nm_mdns := m' |>).
Proof. intros He. unfold manager_do. unfold exec at 1. rewrite run_get. cbv zeta. by rewrite run_modify, He. Qed.

Lemma plain_manager_events es N : Forall (λ e, ∀ c r, e ≠ MResolved c r) es →
  exec (for_each on_manager_event es) N = (N, NMdns <$> es).
Proof.
  intros Hes. induction Hes as [|e es He _ IH]; [done|].
  change (exec (for_each on_manager_event (e :: es)) N)
    with (exec (on_manager_event e ;; for_each on_manager_event es) N).
  rewrite exec_bind. destruct e; try (by edestruct He); cbn [on_manager_event run emit]; by rewrite IH.
Qed.

(** What the session does with an answer stays its own. *)
Lemma named_events_sessions k es N : nm_sessions (final (for_each (on_named_event k) es) N) = nm_sessions N.
Proof.
  revert N. induction es as [|e es IH]; intros N; [done|].
  rewrite final_for_each_cons, IH. by destruct e.
Qed.

Lemma run_posted_session k now N i s : nm_posted N !! k = Some [i] → nm_sessions N !! k = Some s →
  nm_sessions (final (run_posted k now) N) !! k = Some (final (session_run [(now, i)]) s).
Proof.
  intros Hp Hs. unfold run_posted. rewrite final_get, Hp, final_modify. unfold named_do.
  rewrite final_get. change (nm_sessions (N <| nm_posted := _ |>)) with (nm_sessions N). rewrite Hs. cbv zeta.
  rewrite final_modify, named_events_sessions. apply lookup_insert_eq.
Qed.

(** The query leaves with the job. *)
Lemma job_asks N k idx h ms : listening (nm_mdns N) → m_names (nm_mdns N) !! h = None → to_lower h = h →
  nm_jobs N = [JobResolve k idx h ms] →
  let call := m_calls (nm_mdns N) in
  let q := encode_dns_query h (mdns_txn call) false in q ≠ [] →
  ∃ rest, exec (named_handle NJob) N
    = (N <| nm_jobs := [] |> <| nm_callers := <[call := (k, idx, h)]> (nm_callers N) |>
         <| nm_mdns := asked call h (mdns_txn call) (nm_mdns N) |>,
       NMdns (MSendV4 kMdnsIPv4MulticastAddr kMdnsPort q) :: rest).
Proof.
  intros Hl Hn Hlow Hj call q Hq. cbn [named_handle]. unfold run_job. unfold exec. rewrite run_get, Hj, run_modify.
  cbv zeta. fold call. rewrite run_modify. set (N1 := N <| nm_jobs := _ |> <| nm_callers := _ |>).
  destruct (resolve_exec h ms (mdns_txn call) (nm_mdns N) Hl Hn Hlow Hq) as (rest & He & Hf).
  pose proof (exec_manager_do (IResolve h ms (mdns_txn call)) N1 _ _ He) as Hm.
  rewrite plain_manager_events in Hm by (by constructor). unfold exec in Hm.
  exists (NMdns <$> rest). exact Hm.
Qed.

(** The answer posts the addresses to the strand of the session. *)
Lemma answer_posts N k idx h txn data src port ips s : listening (nm_mdns N) →
  let call := pred (m_calls (nm_mdns N)) in
  m_pending (nm_mdns N) = {[h := [call]]} →
  m_queries (nm_mdns N) !! call = Some (mkQuery h txn (mkResult [] [] false) false) →
  nm_callers N !! call = Some (k, idx, h) → nm_sessions N !! k = Some s → nm_posted N !! k = None →
  parse_dns_message data = Some (Some (mkDns true txn [] 0 ((λ ip, mkAnswer h ip []) <$> ips))) →
  ips ≠ [] → NoDup ips → [] ∉ ips →
  let step := named_handle (NManager (IReceive false false data src port)) in
  nm_sessions (final step N) = nm_sessions N
  ∧ nm_posted (final step N) !! k = Some [IMdnsResolved idx h (mkResult ips [] true)]
  ∧ outputs step N = [NMdns (MTimerCancel call)].
Proof.
  intros Hl call Hpe Hq Hc Hs Hp Hd Hne Hnd Hips step.
  destruct (answer_resolves _ data h txn call src port ips Hl Hpe Hq Hd Hne Hnd Hips) as (m' & He & _).
  pose proof (exec_manager_do (IReceive false false data src port) N m' _ He) as Hm.
  fold step in Hm. set (N1 := N <| nm_mdns := m' |>) in Hm.
  assert (exec step N = (N1 <| nm_posted := <[k := [IMdnsResolved idx h (mkResult ips [] true)]]> (nm_posted N) |>,
    [NMdns (MTimerCancel call)])) as E.
  { etrans; [exact Hm|]. cbn [for_each on_manager_event]. unfold exec. rewrite run_bind. cbn [run emit].
    rewrite run_bind, run_get. change (nm_callers N1) with (nm_callers N). rewrite Hc.
    change (nm_sessions N1) with (nm_sessions N). rewrite Hs, decide_False by done.
    cbn. by rewrite Hp. }
  unfold final, outputs. rewrite E. split_and!; [done|by apply lookup_insert_eq|done].
Qed.

(** The manager of a host serves [h] with the addresses [v4]. *)
Record serves (N : Named) (h : bytes) (v4 : list bytes) : Prop := {
  sv_listening : listening (nm_mdns N);
  sv_name : ∃ v6, m_names (nm_mdns N) !! h = Some (mkNames (inet_ntop4 <$> v4) v6);
  sv_some : v4 ≠ [];
  sv_distinct : NoDup (inet_ntop4 <$> v4);
  sv_octets : Forall (λ o, length o = 4%nat ∧ bytes_ok o) v4;
  sv_count : is_u16 (Z.of_nat (length v4));
}.

(** The session [s] of a host waits for the address of its candidate [slot]. *)
Record awaits (N : Named) (k idx : nat) (s : IceSession) (slot : Candidate) : Prop := {
  aw_listening : listening (nm_mdns N);
  aw_idle : idle (nm_mdns N);
  aw_foreign : m_names (nm_mdns N) !! c_hostname slot = None;
  aw_asked : ∃ ms, nm_jobs N = [JobResolve k idx (c_hostname slot) ms];
  aw_posted : nm_posted N !! k = None;
  aw_session : nm_sessions N !! k = Some s;
  aw_alive : s_state s ≠ Failed;
  aw_slot : s_remote_candidates s !! idx = Some slot;
  aw_type : c_type slot = HostMdns;
}.

Lemma dotted_octets v4 : Forall (λ o, length o = 4%nat ∧ bytes_ok o) v4 → inet_ntop4 <$> v4 = dotted <$> v4.
Proof.
  intros Hv. apply list_fmap_ext. intros i o Ho. rewrite Forall_lookup in Hv. by apply ntop4_dotted; eapply Hv.
Qed.

Lemma texts_nonempty v4 : Forall (λ o, length o = 4%nat ∧ bytes_ok o) v4 → [] ∉ inet_ntop4 <$> v4.
Proof.
  intros Hv (o & E & Ho)%list_elem_of_fmap. rewrite Forall_forall in Hv. destruct (Hv o Ho).
  by eapply ntop4_nonempty.
Qed.

(** The question for a generated name, and the answer to it. *)
Lemma generated_name_messages raw h txn v4 : length raw = 16%nat → bytes_ok raw →
  h = generate_uuid_v4 raw ++ str ".local" → is_u16 txn →
  Forall (λ o, length o = 4%nat ∧ bytes_ok o) v4 → is_u16 (Z.of_nat (length v4)) →
  to_lower h = h ∧ h ≠ []
  ∧ parse_dns_message (encode_dns_query h txn false) = Some (Some (mkDns false txn h DNS_TYPE_A []))
  ∧ parse_dns_message (encode_dns_response h txn (inet_ntop4 <$> v4) [])
    = Some (Some (mkDns true txn [] 0 ((λ ip, mkAnswer h ip []) <$> (inet_ntop4 <$> v4)))).
Proof.
  intros Hraw Hok Hh Htx Hv Hn. pose proof (uuid_labels_ok raw Hraw Hok) as Hls.
  pose proof (uuid_labels_lower raw Hok) as Hlow. rewrite uuid_labels_name, <- Hh in Hlow.
  pose proof (dns_query_roundtrip (uuid_labels raw) txn false Hls ltac:(done) Htx) as Hq.
  rewrite uuid_labels_name, <- Hh, Hlow in Hq.
  pose proof (dns_response_roundtrip (uuid_labels raw) txn v4 [] Hls Htx) as Hr.
  rewrite uuid_labels_name, <- Hh, Hlow in Hr. cbn [fmap list_fmap] in Hr. rewrite app_nil_r in Hr.
  split_and!; [done| |exact Hq|].
  - rewrite Hh. intros [_ E]%app_nil. done.
  - rewrite dotted_octets, <- list_fmap_compose by done. apply Hr; [by rewrite Nat.add_0_r|done|constructor].
Qed.

Lemma served_answer N q h txn src port v4 v6 : listening (nm_mdns N) →
  parse_dns_message q = Some (Some (mkDns false txn h DNS_TYPE_A [])) → h ≠ [] →
  m_names (nm_mdns N) !! h = Some (mkNames v4 v6) → v4 ≠ [] →
  let r := encode_dns_response h txn v4 [] in r ≠ [] →
  outputs (named_handle (NManager (IReceive false false q src port))) N
  = [NMdns (MSendV4 kMdnsIPv4MulticastAddr kMdnsPort r); NMdns (MSendV4 src port r)].
Proof.
  intros Hl Hq Hh Hn Hv r Hr.
  pose proof (question_answered (nm_mdns N) q h txn src port v4 v6 Hl Hq Hh Hn Hv Hr) as Ha.
  unfold outputs. cbn [named_handle]. rewrite (exec_manager_do (IReceive false false q src port) N _ _ Ha).
  by rewrite plain_manager_events by (by repeat constructor).
Qed.

End together.

(** A session made for an offer gets the manager only if it hides its own addresses;
    without the manager it asks for no name. *)
Lemma unmanaged_names_unresolved s : f_mdns (s_fixed s) = false →
  exec resolve_remote_mdns_candidates s = (s, []).
Proof. intros Hm. unfold resolve_remote_mdns_candidates, exec. by rewrite run_get, Hm. Qed.

(** * A concrete run *)

Module NamedRef.
#[local] Existing Instance InetRef.ops.
#[local] Existing Instance HmacRef.ops.
#[local] Existing Instance SessionRef.env.
#[local] Instance txns : MdnsEnv := λ call, u16 (Z.of_nat call).
Definition fixed : Fixed :=
  SessionRef.fixed (default_config <| mdns_obfuscate_host_candidates := true |>) 5.
Definition ifas : option (list ifaddrs) :=
  Some [mkIfa false true (IfaV4 [192; 168; 1; 2]); mkIfa false true (IfaV4 [10; 0; 0; 7])].
(** A host with one session and a manager that runs. *)
Definition started (xs : list named_input) : Named :=
  final (named_run (NManager (IStart ifas true false) :: xs))
    (mkNamed {[0%nat := new_session fixed true (str "abcdefgh") (str "secret") 1]} new_mdns [] ∅ ∅).
(** The host whose session hides its address, and its candidate. *)
Definition hidden : Named := started [NCall 0 1 IGather; NJob].
Definition hidden_candidate : Candidate :=
  default zero_candidate (nm_sessions hidden !! 0%nat ≫= λ s, head (s_local_candidates s)).
(** The host whose session was told of the candidate. *)
Definition told : Named := started [NCall 0 1 (ISetRemote (str "hgfedcba") (str "terces") [hidden_candidate])].
Definition told_session : IceSession :=
  default (new_session fixed true [] [] 1) (nm_sessions told !! 0%nat).
Lemma ntop4_dotted o : length o = 4%nat → bytes_ok o → inet_ntop4 o = dotted o.
Proof. intros Hl _. by do 4 (destruct o as [|? o]; [done|]); destruct o. Qed.
End NamedRef.

