(* ===== verification/PeerKey.v ===== *)
(** Peer keys in URIs (src/link_ice.cpp, [parse_peer_pk_hex], [pk_to_hex]): the
    strict hex decoder accepts both cases, the encoder writes lower case.  The length
    of a key is the SDK's [GN_PUBLIC_KEY_BYTES], a parameter. *)

From S2P Require Import Prelude.

(** The value of a hex digit, [None] for [-1]. *)
Definition hex_value (c : Z) : option Z :=
  if decide (48 ≤ c ≤ 57) then Some (c - 48)
  else if decide (97 ≤ c ≤ 102) then Some (10 + c - 97)
  else if decide (65 ≤ c ≤ 70) then Some (10 + c - 65)
  else None.

(** The loop of [parse_peer_pk_hex]. *)
Fixpoint parse_pairs (n : nat) (hex : bytes) : option bytes :=
  match n, hex with
  | O, _ => Some []
  | S n, a :: b :: rest =>
      hi ← hex_value a;
      lo ← hex_value b;
      out ← parse_pairs n rest;
      Some (u8 (Z.lor (Z.shiftl hi 4) lo) :: out)
  | S _, _ => None
  end.

Definition parse_peer_pk_hex (pk_bytes : nat) (hex : bytes) : option bytes :=
  if decide (length hex ≠ pk_bytes * 2)%nat then None else parse_pairs pk_bytes hex.

Definition hex_char (d : Z) : Z := if decide (d < 10) then 48 + d else 97 + (d - 10).

Definition pk_to_hex (pk : bytes) : bytes :=
  pk ≫= λ b, [hex_char (Z.shiftr b 4); hex_char (Z.land b 15)].

(** Lower case, on hex text. *)
Definition hex_lower (hex : bytes) : bytes :=
  (λ c, if decide (65 ≤ c ≤ 70) then c + 32 else c) <$> hex.

Lemma hex_value_char d : 0 ≤ d < 16 → hex_value (hex_char d) = Some d.
Proof.
  intros Hd. unfold hex_char, hex_value.
  destruct (decide (d < 10)).
  - rewrite decide_True by lia. f_equal. lia.
  - rewrite decide_False, decide_True by lia. f_equal. lia.
Qed.

Lemma hex_char_digit c d : hex_value c = Some d →
  0 ≤ d < 16 ∧ hex_char d = (if decide (65 ≤ c ≤ 70) then c + 32 else c).
Proof.
  unfold hex_value, hex_char. intros Hd.
  repeat case_decide; simplify_eq; repeat case_decide; lia.
Qed.

(** A byte and its two digits. *)
Lemma byte_digits b : is_u8 b →
  0 ≤ Z.shiftr b 4 < 16 ∧ 0 ≤ Z.land b 15 < 16 ∧ u8 (Z.lor (Z.shiftl (Z.shiftr b 4) 4) (Z.land b 15)) = b.
Proof.
  intros Hb. unfold is_u8 in Hb.
  rewrite Z.shiftr_div_pow2 by lia. change 15 with (Z.ones 4). rewrite Z.land_ones by lia.
  split_and!; try (Z.div_mod_to_equations; lia).
  rewrite lor_shiftl_add by (Z.div_mod_to_equations; lia). zify_lia.
Qed.

Lemma digits_byte hi lo : 0 ≤ hi < 16 → 0 ≤ lo < 16 →
  let b := u8 (Z.lor (Z.shiftl hi 4) lo) in is_u8 b ∧ Z.shiftr b 4 = hi ∧ Z.land b 15 = lo.
Proof.
  intros Hh Hl b. assert (b = hi * 16 + lo) as ->.
  { unfold b. rewrite lor_shiftl_add by lia. zify_lia. }
  change 15 with (Z.ones 4). rewrite Z.land_ones, Z.shiftr_div_pow2 by lia.
  unfold is_u8. split_and!; try (Z.div_mod_to_equations; lia).
Qed.

Lemma length_pk_to_hex pk : length (pk_to_hex pk) = (length pk * 2)%nat.
Proof. unfold pk_to_hex. induction pk; cbn; lia. Qed.

(** Decoding the text of a key gives the key. *)
Lemma parse_pk_to_hex pk : bytes_ok pk → parse_peer_pk_hex (length pk) (pk_to_hex pk) = Some pk.
Proof.
  intros Hpk. unfold parse_peer_pk_hex. rewrite length_pk_to_hex, decide_False by lia.
  induction Hpk as [|b pk Hb Hpk IH]; [done|].
  destruct (byte_digits b Hb) as (Hh & Hl & Hd). cbn.
  rewrite !hex_value_char by done. cbn. fold (pk_to_hex pk). by rewrite IH, Hd.
Qed.

(** The text of a decoded key is the lower case of what was decoded. *)
Lemma pk_to_hex_parse n hex pk :
  parse_peer_pk_hex n hex = Some pk →
  length pk = n ∧ bytes_ok pk ∧ pk_to_hex pk = hex_lower hex.
Proof.
  unfold parse_peer_pk_hex. case_decide as Hn; [done|].
  assert (length hex = (n * 2)%nat) as Hlen by lia. clear Hn.
  revert hex pk Hlen. induction n as [|n IH]; intros hex pk Hlen Hp.
  - destruct hex; [|done]. injection Hp as <-. split_and!; [done|constructor|done].
  - destruct hex as [|a [|b rest]]; [done..|]. cbn in Hp.
    destruct (hex_value a) as [hi|] eqn:Ha; [|done].
    destruct (hex_value b) as [lo|] eqn:Hb; [|done]. cbn in Hp.
    destruct (parse_pairs n rest) as [out|] eqn:Hr; [|done]. injection Hp as <-. cbn in Hlen.
    apply hex_char_digit in Ha as [Hhi Ha], Hb as [Hlo Hb].
    destruct (digits_byte hi lo Hhi Hlo) as (H8 & Hs & Hm).
    destruct (IH rest out) as (Hl' & Hok & Hhex); [lia|done|].
    split_and!; [cbn; lia | by constructor|].
    unfold pk_to_hex in *. rewrite bind_cons, Hhex, Hs, Hm, Ha, Hb. done.
Qed.
