(* ===== verification/Link.v ===== *)
(** The link (src/link_ice.hpp, src/link_ice.cpp, class [IceLink]): the registry of
    sessions the kernel and the composer own, the signalling between peers and the
    callbacks of the sessions.

    Sessions are objects of their own: the link holds handles (the number of the
    session in order of creation), and calls on a session, work posted for it and the
    host's callbacks are effects.  The methods take the locks one after the other and
    are modelled as atomic.  What the link reads of a session (a candidate set, a
    state) is an argument of the operation that reads it. *)

From stdpp Require Import gmap.
From S2P Require Import Prelude Bytes Inet Candidate MdnsCodec Mdns Framing Stun Turn PathMtu.
From S2P Require Import DnsExt SessionState Delivery CheckList Gather Session LinkConfig PeerKey.

(** * Data *)

Definition kDefaultMtu : Z := 1200.
Definition kIdleSessionLimitSeconds : Z := 60.
Definition kComposerIdBit : Z := Z.shiftl 1 63.
Definition is_composer (conn : Z) : bool := negb (bool_decide (Z.land conn kComposerIdBit = 0)).

(** The results the link returns; [GN_ERR_HOST] is any other the host returned. *)
Inductive gn_result :=
  | GN_OK | GN_ERR_NULL_ARG | GN_ERR_INVALID_ENVELOPE | GN_ERR_NOT_IMPLEMENTED
  | GN_ERR_PAYLOAD_TOO_LARGE | GN_ERR_NOT_FOUND | GN_ERR_INVALID_STATE | GN_ERR_OUT_OF_RANGE
  | GN_ERR_OUT_OF_MEMORY
  | GN_ERR_HOST (code : Z).
#[global] Instance gn_result_eq_dec : EqDecision gn_result.
Proof. solve_decision. Defined.

(** The slots of [host_api_t]: which ones are not null. *)
Record HostApi := mkHostApi {
  api_config : option HostConfig;             (* [config_get] *)
  api_notify_connect : bool;
  api_notify_disconnect : bool;
  api_notify_inbound_bytes : bool;
  api_kick_handshake : bool;
  api_subscribe_config_reload : bool;
  api_unsubscribe : bool;
}.

(** The host: the outcome of the n-th [notify_connect] ([None]: the id is
    [GN_INVALID_ID]), whether an extension is registered at the n-th query, and the
    outcome of the n-th subscription. *)
Class LinkEnv := {
  GN_PUBLIC_KEY_BYTES : nat;
  host_connect : nat → bytes → bytes → bool → gn_result * option Z;
  host_extension : nat → bytes → bool;
  host_subscribe : nat → option Z;
}.

Record PeerEntry := mkPeer { pe_session : nat; pe_peer : bytes }.

Record ComposerEntry := mkComposerEntry {
  ce_session : nat;
  ce_peer : bytes;
  ce_data_cb : option Z;          (* callback and user data *)
  ce_nominated : bool;
  ce_uri : bytes;
}.
#[global] Instance ComposerEntry_eta : Eta ComposerEntry := λ e,
  mkComposerEntry (ce_session e) (ce_peer e) (ce_data_cb e) (ce_nominated e) (ce_uri e).

Record ComposerAcceptSub := mkAcceptSub { as_token : Z; as_cb : Z }.

Record OutboundSignal := mkOutbound { os_kind : Z; os_blob : bytes }.
#[global] Instance OutboundSignal_eq_dec : EqDecision OutboundSignal.
Proof. solve_decision. Defined.

Record Stats := mkStats {
  bytes_in : Z; bytes_out : Z; frames_in : Z; frames_out : Z; active_connections : Z;
}.

Record Counters := mkCounters { n_bytes_in : Z; n_bytes_out : Z; n_frames_in : Z; n_frames_out : Z }.
#[global] Instance Counters_eta : Eta Counters := λ c,
  mkCounters (n_bytes_in c) (n_bytes_out c) (n_frames_in c) (n_frames_out c).

(** The extensions resolved so far. *)
Record Carriers := mkCarriers {
  carrier_udp : bool; carrier_tcp : bool; carrier_tls : bool; portmap_ext : bool;
}.
#[global] Instance Carriers_eta : Eta Carriers := λ c,
  mkCarriers (carrier_udp c) (carrier_tcp c) (carrier_tls c) (portmap_ext c).

Record Composer := mkComposer {
  composer_sessions : gmap Z ComposerEntry;
  composer_peer_to_id : gmap bytes Z;
  composer_accept_subs : list ComposerAcceptSub;
  next_composer_id : Z;
  next_accept_token : Z;
}.
#[global] Instance Composer_eta : Eta Composer := λ c,
  mkComposer (composer_sessions c) (composer_peer_to_id c) (composer_accept_subs c)
    (next_composer_id c) (next_accept_token c).

Record IceLink := mkLink {
  l_shutdown : bool;
  l_mtu : Z;
  l_cfg : IceConfig;
  l_sessions : gmap Z PeerEntry;
  l_peer_to_ids : gmap bytes (list Z);
  l_published_ids : list Z;
  l_counters : Counters;
  l_reload_sub_id : Z;
  l_reaper_started : bool;
  l_api : option HostApi;
  l_carriers : Carriers;
  l_iface_watcher : bool;
  l_mdns : bool;
  l_composer : Composer;
  l_outbound_signals : gmap bytes (list OutboundSignal);
  l_created : nat;                (* sessions made *)
  l_connects : nat;               (* calls of [notify_connect] *)
  l_queries : nat;                (* extension queries *)
  l_subscriptions : nat;
}.
#[global] Instance IceLink_eta : Eta IceLink := λ l,
  mkLink (l_shutdown l) (l_mtu l) (l_cfg l) (l_sessions l) (l_peer_to_ids l) (l_published_ids l)
    (l_counters l) (l_reload_sub_id l) (l_reaper_started l) (l_api l) (l_carriers l)
    (l_iface_watcher l) (l_mdns l) (l_composer l) (l_outbound_signals l) (l_created l)
    (l_connects l) (l_queries l) (l_subscriptions l).

(** The callbacks of a session: what it reports under. *)
Inductive SessionCallbacks :=
  | CbKernel (id : Z)                                  (* [make_callbacks] *)
  | CbComposer (cid : Z) (canonical_uri : bytes).      (* [make_composer_callbacks] *)
#[global] Instance SessionCallbacks_eq_dec : EqDecision SessionCallbacks.
Proof. solve_decision. Defined.

(** The arguments of the [IceSession] constructor. *)
Record SessionArgs := mkSessionArgs {
  sa_carriers : Carriers;
  sa_cfg : IceConfig;
  sa_peer : bytes;
  sa_controlling : bool;
  sa_callbacks : SessionCallbacks;
  sa_mdns : bool;
}.

Inductive link_event :=
  | LNotifyConnect (pk uri : bytes) (initiator : bool)
  | LNotifyDisconnect (conn : Z) (reason : gn_result)
  | LNotifyInbound (conn : Z) (data : bytes)
  | LKickHandshake (conn : Z)
  | LUnsubscribe (sub : Z)
  | LSubscribeReload
  | LReadConfig                                        (* [config_get] and [gn.dns], by [apply_config] *)
  | LNew (h : nat) (args : SessionArgs)                (* [make_shared<IceSession>] *)
  | LCall (h : nat) (i : session_input)                (* a method of the session *)
  | LPost (h : nat) (ins : list session_input)         (* methods posted to [ioc_] as one job *)
  | LAccept (cb cid : Z) (uri : bytes)                 (* an accept subscriber *)
  | LComposerData (cb cid : Z) (data : bytes)
  | LLogRestart (owner : SessionCallbacks) (attempt max_attempts : Z)
  | LMdnsStart
  | LReaperTimer
  | LWatcherStart
  | LWatcherStop.

Abbreviation link := (eff IceLink link_event).

(** The constructor. *)
Definition new_link : IceLink := {|
  l_shutdown := false; l_mtu := kDefaultMtu;
  l_cfg := default_config <| stun_servers := kDefaultStunServers |>;
  l_sessions := ∅; l_peer_to_ids := ∅; l_published_ids := [];
  l_counters := mkCounters 0 0 0 0; l_reload_sub_id := 0; l_reaper_started := false;
  l_api := None; l_carriers := mkCarriers false false false false; l_iface_watcher := false;
  l_mdns := false; l_composer := mkComposer ∅ ∅ [] 1 1; l_outbound_signals := ∅;
  l_created := 0; l_connects := 0; l_queries := 0; l_subscriptions := 0 |}.

(** * Small steps on the state *)

Definition set_cfg (f : IceConfig → IceConfig) : link unit := modify (λ l, l <| l_cfg := f (l_cfg l) |>).
Definition set_carriers (f : Carriers → Carriers) : link unit :=
  modify (λ l, l <| l_carriers := f (l_carriers l) |>).
Definition set_composer (f : Composer → Composer) : link unit :=
  modify (λ l, l <| l_composer := f (l_composer l) |>).

Definition count_in (data : bytes) (c : Counters) : Counters :=
  c <| n_bytes_in := u64 (n_bytes_in c + Z.of_nat (length data)) |>
    <| n_frames_in := u64 (n_frames_in c + 1) |>.
Definition count_out (data : bytes) (c : Counters) : Counters :=
  c <| n_bytes_out := u64 (n_bytes_out c + Z.of_nat (length data)) |>
    <| n_frames_out := u64 (n_frames_out c + 1) |>.

Definition api_has (slot : HostApi → bool) (l : IceLink) : bool :=
  match l_api l with Some a => slot a | None => false end.

Definition notify_disconnect (conn : Z) (reason : gn_result) : link unit :=
  l ← get;
  if api_has api_notify_disconnect l then emit (LNotifyDisconnect conn reason) else skip.

(** * Configuration and host *)

Definition apply_config : link unit :=
  l ← get;
  match l_api l ≫= api_config with
  | None => skip
  | Some h =>
      emit LReadConfig ;;
      let mtu := applied_mtu h (l_mtu l) in
      modify (λ l, l <| l_mtu := mtu |> <| l_cfg := read_config h mtu |>)
  end.

Definition set_prefer_turn_tcp (val : bool) : link unit := set_cfg (λ c, c <| prefer_turn_tcp := val |>).
Definition set_security_overhead (overhead : Z) : link unit :=
  set_cfg (λ c, c <| security_overhead := overhead |>).
Definition set_ordered_delivery (val : bool) : link unit := set_cfg (λ c, c <| ordered_delivery := val |>).

Section link.
Context `{LinkEnv}.

(** One extension, queried unless it is resolved. *)
Definition query_extension (name : bytes) (resolved : Carriers → bool)
    (set : bool → Carriers → Carriers) : link unit :=
  l ← get;
  match l_api l with
  | None => skip
  | Some _ =>
      if resolved (l_carriers l) then skip else
      modify (λ l, l <| l_queries := S (l_queries l) |>) ;;
      set_carriers (set (host_extension (l_queries l) name))
  end.

Definition resolve_carriers : link unit :=
  query_extension (str "udp") carrier_udp (λ b c, c <| carrier_udp := b |>) ;;
  query_extension (str "tcp") carrier_tcp (λ b c, c <| carrier_tcp := b |>) ;;
  query_extension (str "tls") carrier_tls (λ b c, c <| carrier_tls := b |>) ;;
  query_extension (str "portmap") portmap_ext (λ b c, c <| portmap_ext := b |>).

Definition subscribe_reload : link unit :=
  l ← get;
  if api_has api_subscribe_config_reload l then
    emit LSubscribeReload ;;
    modify (λ l, l <| l_subscriptions := S (l_subscriptions l) |>) ;;
    match host_subscribe (l_subscriptions l) with
    | Some token => modify (λ l, l <| l_reload_sub_id := token |>)
    | None => skip
    end
  else skip.

Definition set_host_api (api : option HostApi) : link unit :=
  l ← get;
  (if api_has api_unsubscribe l && negb (bool_decide (l_reload_sub_id l = 0)) then
     emit (LUnsubscribe (l_reload_sub_id l)) ;;
     modify (λ l, l <| l_reload_sub_id := 0 |>)
   else skip) ;;
  modify (λ l, l <| l_api := api |>) ;;
  apply_config ;;
  resolve_carriers ;;
  l ← get;
  (if l_reaper_started l then skip
   else modify (λ l, l <| l_reaper_started := true |>) ;; emit LReaperTimer) ;;
  l ← get;
  (if reactive_interface_change (l_cfg l) && negb (l_iface_watcher l)
   then modify (λ l, l <| l_iface_watcher := true |>) ;; emit LWatcherStart else skip) ;;
  subscribe_reload.

Definition session_count (l : IceLink) : nat := size (l_sessions l).

Definition stats (l : IceLink) : Stats :=
  let c := l_counters l in
  mkStats (n_bytes_in c) (n_bytes_out c) (n_frames_in c) (n_frames_out c) (Z.of_nat (session_count l)).

Definition ensure_mdns_manager : link unit :=
  l ← get;
  if l_mdns l then skip else modify (λ l, l <| l_mdns := true |>) ;; emit LMdnsStart.

(** * Signalling *)

Definition enqueue_local_signal (peer : bytes) (s : IceSession) : link unit :=
  let blob := serialize_signal (local_ufrag (s_creds s)) (local_pwd (s_creds s))
                (s_local_candidates s) (local_signal_flags s) in
  let kind := if s_controlling s then ICE_SIGNAL_OFFER_EOC else ICE_SIGNAL_ANSWER_EOC in
  modify (λ l, l <| l_outbound_signals :=
    <[peer := default [] (l_outbound_signals l !! peer) ++ [mkOutbound kind blob]]>
      (l_outbound_signals l) |>).

(** [poll_local_signal] with its out parameters given; the blob and its kind, and
    what is written to [*blob_len_out]. *)
Definition poll_local_signal (peer_pk : bytes) (blob_cap : nat)
    : link (gn_result * option OutboundSignal * option nat) :=
  l ← get;
  if l_shutdown l then mret (GN_ERR_INVALID_STATE, None, None) else
  let peer_hex := pk_to_hex peer_pk in
  match l_outbound_signals l !! peer_hex with
  | None | Some [] => mret (GN_ERR_NOT_FOUND, None, None)
  | Some (entry :: rest) =>
      let len := length (os_blob entry) in
      if decide (blob_cap < len)%nat then mret (GN_ERR_OUT_OF_RANGE, None, Some len) else
      modify (λ l, l <| l_outbound_signals :=
        match rest with
        | [] => delete peer_hex (l_outbound_signals l)
        | _ => <[peer_hex := rest]> (l_outbound_signals l)
        end |>) ;;
      mret (GN_OK, Some entry, Some len)
  end.

(** * The registry *)

Definition erase_peer_id (peer_hex : bytes) (conn : Z) (m : gmap bytes (list Z))
    : gmap bytes (list Z) :=
  match m !! peer_hex with
  | None => m
  | Some v =>
      match filter (.≠ conn) v with
      | [] => delete peer_hex m
      | v => <[peer_hex := v]> m
      end
  end.

(** Remove a kernel session from the maps. *)
Definition drop_session (conn : Z) (e : PeerEntry) : link unit :=
  modify (λ l, l <| l_peer_to_ids := erase_peer_id (pe_peer e) conn (l_peer_to_ids l) |>
                 <| l_sessions := delete conn (l_sessions l) |>).

Definition claim_disconnect (id : Z) : link bool :=
  l ← get;
  if l_shutdown l then mret false else
  match l_sessions l !! id with
  | None => mret false
  | Some e => drop_session id e ;; mret true
  end.

Definition drop_composer (cid : Z) (e : ComposerEntry) : link unit :=
  set_composer (λ c, c <| composer_peer_to_id := delete (ce_peer e) (composer_peer_to_id c) |>
                       <| composer_sessions := delete cid (composer_sessions c) |>).

(** * The callbacks of a session *)

(** [make_callbacks]. *)
Definition on_gathered (id : Z) (s : IceSession) : link unit :=
  l ← get;
  if l_shutdown l then skip else
  match l_sessions l !! id with
  | None => skip
  | Some e => enqueue_local_signal (pe_peer e) s
  end.

Definition on_failed (id : Z) : link unit :=
  l ← get;
  if l_shutdown l then skip else
  claimed ← claim_disconnect id;
  if (claimed : bool) then notify_disconnect id GN_ERR_NOT_FOUND else skip.

Definition on_data (id : Z) (data : bytes) : link unit :=
  l ← get;
  if l_shutdown l then skip else
  if negb (api_has api_notify_inbound_bytes l) then skip else
  modify (λ l, l <| l_counters := count_in data (l_counters l) |>) ;;
  emit (LNotifyInbound id data).

(** [make_composer_callbacks]. *)
Definition on_composer_gathered (cid : Z) (s : IceSession) : link unit :=
  l ← get;
  if l_shutdown l then skip else
  match composer_sessions (l_composer l) !! cid with
  | None => skip
  | Some e => enqueue_local_signal (ce_peer e) s
  end.

Definition on_composer_connected (cid : Z) (canonical_uri : bytes) : link unit :=
  l ← get;
  if l_shutdown l then skip else
  let fire := for_each (λ sub, emit (LAccept (as_cb sub) cid canonical_uri))
                (composer_accept_subs (l_composer l)) in
  match composer_sessions (l_composer l) !! cid with
  | Some e =>
      if ce_nominated e then skip else
      set_composer (λ c, c <| composer_sessions :=
        <[cid := e <| ce_nominated := true |>]> (composer_sessions c) |>) ;;
      fire
  | None => fire
  end.

Definition on_composer_failed (cid : Z) : link unit :=
  l ← get;
  if l_shutdown l then skip else
  match composer_sessions (l_composer l) !! cid with
  | None => skip
  | Some e => drop_composer cid e
  end.

Definition on_composer_data (cid : Z) (data : bytes) : link unit :=
  l ← get;
  if l_shutdown l then skip else
  match composer_sessions (l_composer l) !! cid ≫= ce_data_cb with
  | None => skip
  | Some cb =>
      modify (λ l, l <| l_counters := count_in data (l_counters l) |>) ;;
      emit (LComposerData cb cid data)
  end.

(** Both kinds only log a restart. *)
Definition on_auto_restart (owner : SessionCallbacks) (attempt max_attempts : Z) : link unit :=
  l ← get;
  if l_shutdown l then skip else emit (LLogRestart owner attempt max_attempts).

(** * Connecting *)

(** The peer of [ice://<peer>], one trailing slash stripped. *)
Definition uri_peer (uri : bytes) : option bytes :=
  if decide (take 6 uri = str "ice://") then
    let suffix := drop 6 uri in
    Some (if decide (last suffix = Some 47) then removelast suffix else suffix)
  else None.

Definition canonical (peer_hex : bytes) : bytes := str "ice://" ++ peer_hex.

Definition listen (uri : bytes) : link gn_result :=
  mret (if decide (take 6 uri = str "ice://") then GN_OK else GN_ERR_INVALID_ENVELOPE).

(** [make_shared<IceSession>] with the configuration read at [l]. *)
Definition make_session (cfg : IceConfig) (peer_hex : bytes) (controlling : bool)
    (callbacks : SessionCallbacks) (mdns : bool) : link nat :=
  resolve_carriers ;;
  (if mdns then ensure_mdns_manager else skip) ;;
  l ← get;
  emit (LNew (l_created l) (mkSessionArgs (l_carriers l) cfg peer_hex controlling callbacks mdns)) ;;
  modify (λ l, l <| l_created := S (l_created l) |>) ;;
  mret (l_created l).

(** [api_->notify_connect]. *)
Definition notify_connect (pk peer_hex : bytes) (initiator : bool) : link (gn_result * option Z) :=
  l ← get;
  emit (LNotifyConnect pk (canonical peer_hex) initiator) ;;
  modify (λ l, l <| l_connects := S (l_connects l) |>) ;;
  mret (host_connect (l_connects l) pk (canonical peer_hex) initiator).

(** A kernel session enters the maps. *)
Definition register_session (conn : Z) (h : nat) (peer_hex : bytes) : link unit :=
  modify (λ l, l <| l_sessions := <[conn := mkPeer h peer_hex]> (l_sessions l) |>
    <| l_peer_to_ids :=
         <[peer_hex := default [] (l_peer_to_ids l !! peer_hex) ++ [conn]]> (l_peer_to_ids l) |>
    <| l_published_ids := l_published_ids l ++ [conn] |>).

Definition connect (uri : bytes) : link (gn_result * option Z) :=
  l ← get;
  if l_shutdown l then mret (GN_ERR_NULL_ARG, None) else
  match uri_peer uri with
  | None => mret (GN_ERR_INVALID_ENVELOPE, None)
  | Some peer_hex =>
      match parse_peer_pk_hex GN_PUBLIC_KEY_BYTES peer_hex with
      | None => mret (GN_ERR_INVALID_ENVELOPE, None)
      | Some pk =>
          if negb (api_has api_notify_connect l) then mret (GN_ERR_NOT_IMPLEMENTED, None) else
          r ← notify_connect pk peer_hex true;
          match r with
          | (GN_OK, Some conn) =>
              h ← make_session (l_cfg l) peer_hex true (CbKernel conn) true;
              register_session conn h peer_hex ;;
              emit (LPost h [IGather]) ;;
              (if api_has api_kick_handshake l then emit (LKickHandshake conn) else skip) ;;
              mret (GN_OK, Some conn)
          | (rc, _) => mret (rc, None)
          end
      end
  end.

(** * Data *)

(** The session an id names, in the map its bit 63 selects. *)
Definition session_of (l : IceLink) (conn : Z) : option nat :=
  if is_composer conn then ce_session <$> composer_sessions (l_composer l) !! conn
  else pe_session <$> l_sessions l !! conn.

Definition send_bytes (conn : Z) (data : bytes) : link gn_result :=
  l ← get;
  if l_shutdown l then mret GN_ERR_NULL_ARG else
  if decide (Z.of_nat (length data) > l_mtu l) then mret GN_ERR_PAYLOAD_TOO_LARGE else
  match session_of l conn with
  | None => mret GN_ERR_NOT_FOUND
  | Some h =>
      emit (LCall h (ISend data)) ;;
      modify (λ l, l <| l_counters := count_out data (l_counters l) |>) ;;
      mret GN_OK
  end.

Fixpoint send_frames (conn : Z) (frames : list bytes) : link gn_result :=
  match frames with
  | [] => mret GN_OK
  | f :: frames =>
      rc ← send_bytes conn f;
      if decide (rc ≠ GN_OK) then mret rc else send_frames conn frames
  end.

Definition send_batch (conn : Z) (frames : list bytes) : link gn_result :=
  l ← get;
  if decide (Exists (λ f, Z.of_nat (length f) > l_mtu l) frames) then mret GN_ERR_PAYLOAD_TOO_LARGE
  else send_frames conn frames.

Definition disconnect (conn : Z) : link gn_result :=
  l ← get;
  if is_composer conn then
    match composer_sessions (l_composer l) !! conn with
    | None => mret GN_OK
    | Some e => drop_composer conn e ;; emit (LCall (ce_session e) IClose) ;; mret GN_OK
    end
  else
    match l_sessions l !! conn with
    | None => mret GN_OK
    | Some e =>
        drop_session conn e ;;
        emit (LCall (pe_session e) IClose) ;;
        notify_disconnect conn GN_OK ;;
        mret GN_OK
    end.

(** * What the link reads of its sessions *)

(** [heap] gives the sessions by handle. *)
Definition link_nomination_metrics (heap : nat → IceSession) (l : IceLink) (conn : Z)
    : NominationMetrics :=
  match l_sessions l !! conn with
  | None => mkMetrics 0 Host Host Udp false false
  | Some e => nomination_metrics (heap (pe_session e))
  end.

Definition link_candidate_counts (heap : nat → IceSession) (l : IceLink) (conn : Z) : CandidateCounts :=
  match l_sessions l !! conn with
  | None => mkCounts 0 0 0 0 0 0 0 0
  | Some e => candidate_counts (heap (pe_session e))
  end.

Definition effective_path_mtu (heap : nat → IceSession) (l : IceLink) (conn : Z) : Z :=
  match session_of l conn with
  | None => l_mtu l
  | Some h =>
      let v := effective_mtu_ (s_pmtu (heap h)) in
      if decide (v ≠ 0) then v else l_mtu l
  end.

(** The handles of all sessions, kernel's first. *)
Definition live_sessions (l : IceLink) : list nat :=
  (pe_session <$> (map_to_list (l_sessions l)).*2)
  ++ (ce_session <$> (map_to_list (composer_sessions (l_composer l))).*2).

Definition on_interface_change (heap : nat → IceSession) : link unit :=
  l ← get;
  for_each (λ h, if decide (s_state (heap h) = New ∨ s_state (heap h) = Failed) then skip
                 else emit (LCall h IRestart)) (live_sessions l).

Definition restart_session (conn : Z) : link gn_result :=
  l ← get;
  if l_shutdown l then mret GN_ERR_INVALID_STATE else
  match l_sessions l !! conn with
  | None => mret GN_ERR_NOT_FOUND
  | Some e => emit (LCall (pe_session e) IRestart) ;; mret GN_OK
  end.

(** * Signals from a peer *)

Definition composer_session (l : IceLink) (peer_hex : bytes) : option nat :=
  cid ← composer_peer_to_id (l_composer l) !! peer_hex;
  ce_session <$> composer_sessions (l_composer l) !! cid.

(** The session an offer is folded into. *)
Definition offer_session (l : IceLink) (peer_hex : bytes) : option nat :=
  match composer_session l peer_hex with
  | Some h => Some h
  | None =>
      match l_peer_to_ids l !! peer_hex with
      | Some [id] => pe_session <$> l_sessions l !! id
      | _ => None
      end
  end.

(** The session an answer belongs to. *)
Definition answer_session (l : IceLink) (peer_hex : bytes) : option nat :=
  match (ids ← l_peer_to_ids l !! peer_hex; id ← head ids; pe_session <$> l_sessions l !! id) with
  | Some h => Some h
  | None => composer_session l peer_hex
  end.

Record Signal := mkSignal {
  sg_ufrag : bytes; sg_pwd : bytes; sg_candidates : list Candidate; sg_flags : Z;
}.

(** The header and candidates of a blob; a read out of bounds counts as a refusal,
    it never happens. *)
Definition parse_signal (blob : bytes) : option Signal :=
  if decide (length blob < header_size)%nat then None else
  match deserialize_signal blob (mkSignalOut (mkIceSignalData [] [] 0) [] 0) with
  | Some (true, out) =>
      Some (mkSignal (c_strn 8 (sig_ufrag (so_hdr out))) (c_strn 32 (sig_pwd (so_hdr out)))
              (so_candidates out) (so_flags out))
  | _ => None
  end.

Definition add_remote (sg : Signal) (eoc : bool) : session_input :=
  IAddRemote (sg_ufrag sg) (sg_pwd sg) (sg_candidates sg) eoc.

Definition fold_signal (h : nat) (sg : Signal) (eoc fresh : bool) : link unit :=
  emit (LCall h (IPeerFlags (sg_flags sg))) ;;
  emit (LPost h ((if fresh then [IGather] else []) ++ [add_remote sg eoc])).

Definition deliver_offer (peer_pk : bytes) (sg : Signal) (eoc : bool) : link gn_result :=
  l ← get;
  let peer_hex := pk_to_hex peer_pk in
  if negb (api_has api_notify_connect l) then mret GN_ERR_NOT_IMPLEMENTED else
  match offer_session l peer_hex with
  | Some h => fold_signal h sg eoc false ;; mret GN_OK
  | None =>
      r ← notify_connect peer_pk peer_hex false;
      match r with
      | (GN_OK, Some conn) =>
          h ← make_session (l_cfg l) peer_hex false (CbKernel conn)
                (mdns_obfuscate_host_candidates (l_cfg l));
          register_session conn h peer_hex ;;
          fold_signal h sg eoc true ;;
          mret GN_OK
      | (rc, _) => mret rc
      end
  end.

Definition deliver_answer (peer_pk : bytes) (sg : Signal) (eoc : bool) : link gn_result :=
  l ← get;
  match answer_session l (pk_to_hex peer_pk) with
  | None => mret GN_ERR_NOT_FOUND
  | Some h => fold_signal h sg eoc false ;; mret GN_OK
  end.

Definition deliver_signal (peer_pk : bytes) (kind : Z) (blob : bytes) : link gn_result :=
  l ← get;
  if l_shutdown l then mret GN_ERR_NULL_ARG else
  let eoc := bool_decide (kind = ICE_SIGNAL_OFFER_EOC ∨ kind = ICE_SIGNAL_ANSWER_EOC) in
  let is_offer := bool_decide (kind = ICE_SIGNAL_OFFER ∨ kind = ICE_SIGNAL_OFFER_EOC) in
  let is_answer := bool_decide (kind = ICE_SIGNAL_ANSWER ∨ kind = ICE_SIGNAL_ANSWER_EOC) in
  if negb is_offer && negb is_answer then mret GN_ERR_INVALID_ENVELOPE else
  match parse_signal blob with
  | None => mret GN_ERR_INVALID_ENVELOPE
  | Some sg =>
      if lite_mode (l_cfg l) && negb (bool_decide (Z.land (sg_flags sg) ICE_SIGNAL_FLAG_LITE = 0))
      then mret GN_ERR_INVALID_STATE
      else if is_offer then deliver_offer peer_pk sg eoc
      else deliver_answer peer_pk sg eoc
  end.

(** * The reaper *)

Definition reap_sessions (heap : nat → IceSession) (now : Z) : link unit :=
  l ← get;
  let idle := filter (λ x : Z * PeerEntry,
                let s := heap (pe_session (x.2)) in
                s_state s ≠ Connected ∧ now - s_last_activity s > kIdleSessionLimitSeconds * 1000000)
              (map_to_list (l_sessions l)) in
  for_each (λ id, disconnect id ;; skip) idle.*1.

Definition on_reaper_timer (heap : nat → IceSession) (now : Z) : link unit :=
  l ← get;
  if l_shutdown l then skip else
  reap_sessions heap now ;;
  emit LReaperTimer.

(** * The composer surface *)

Definition composer_listen (uri : bytes) : link gn_result :=
  l ← get;
  if l_shutdown l then mret GN_ERR_NULL_ARG else listen uri.

(** With [out_conn] given. *)
Definition composer_connect (uri : bytes) : link (gn_result * option Z) :=
  l ← get;
  if l_shutdown l then mret (GN_ERR_NULL_ARG, None) else
  match uri_peer uri with
  | None => mret (GN_ERR_INVALID_ENVELOPE, None)
  | Some peer_hex =>
      match parse_peer_pk_hex GN_PUBLIC_KEY_BYTES peer_hex with
      | None => mret (GN_ERR_INVALID_ENVELOPE, None)
      | Some _ =>
          let cid := Z.lor (next_composer_id (l_composer l)) kComposerIdBit in
          set_composer (λ c, c <| next_composer_id := u64 (next_composer_id c + 1) |>) ;;
          match composer_peer_to_id (l_composer l) !! peer_hex with
          | Some id => mret (GN_OK, Some id)
          | None =>
              h ← make_session (l_cfg l) peer_hex true (CbComposer cid (canonical peer_hex)) true;
              set_composer (λ c,
                c <| composer_sessions :=
                       <[cid := mkComposerEntry h peer_hex None false (canonical peer_hex)]>
                         (composer_sessions c) |>
                  <| composer_peer_to_id := <[peer_hex := cid]> (composer_peer_to_id c) |>) ;;
              emit (LPost h [IGather]) ;;
              mret (GN_OK, Some cid)
          end
      end
  end.

Definition set_data_cb (conn : Z) (e : ComposerEntry) (cb : option Z) : link unit :=
  set_composer (λ c, c <| composer_sessions :=
    <[conn := e <| ce_data_cb := cb |>]> (composer_sessions c) |>).

Definition composer_subscribe_data (conn : Z) (cb : option Z) : link gn_result :=
  l ← get;
  if negb (is_composer conn) then mret GN_ERR_NOT_FOUND else
  match composer_sessions (l_composer l) !! conn with
  | None => mret GN_ERR_NOT_FOUND
  | Some e => set_data_cb conn e cb ;; mret GN_OK
  end.

Definition composer_unsubscribe_data (conn : Z) : link gn_result :=
  l ← get;
  if negb (is_composer conn) then mret GN_OK else
  match composer_sessions (l_composer l) !! conn with
  | None => mret GN_OK
  | Some e => set_data_cb conn e None ;; mret GN_OK
  end.

Definition composer_subscribe_accept (cb : option Z) : link (gn_result * option Z) :=
  l ← get;
  match cb with
  | None => mret (GN_ERR_NULL_ARG, None)
  | Some cb =>
      let token := next_accept_token (l_composer l) in
      set_composer (λ c,
        c <| next_accept_token := u64 (token + 1) |>
          <| composer_accept_subs := composer_accept_subs c ++ [mkAcceptSub token cb] |>) ;;
      mret (GN_OK, Some token)
  end.

(** Erase the first subscription of [token]. *)
Fixpoint erase_sub (token : Z) (subs : list ComposerAcceptSub) : list ComposerAcceptSub :=
  match subs with
  | [] => []
  | s :: subs => if decide (as_token s = token) then subs else s :: erase_sub token subs
  end.

Definition composer_unsubscribe_accept (token : Z) : link gn_result :=
  set_composer (λ c, c <| composer_accept_subs := erase_sub token (composer_accept_subs c) |>) ;;
  mret GN_OK.

(** [listen_port] is the carrier's. *)
Definition composer_listen_port (listen_port : Z) (l : IceLink) : Z :=
  if carrier_udp (l_carriers l) then listen_port else 0.

(** * Shutdown *)

Definition shutdown : link unit :=
  l ← get;
  (if l_iface_watcher l then emit LWatcherStop ;; modify (λ l, l <| l_iface_watcher := false |>)
   else skip) ;;
  if l_shutdown l then skip else
  modify (λ l, l <| l_shutdown := true |> <| l_published_ids := [] |> <| l_sessions := ∅ |>
                 <| l_peer_to_ids := ∅ |>) ;;
  set_composer (λ c, c <| composer_sessions := ∅ |> <| composer_peer_to_id := ∅ |>
                       <| composer_accept_subs := [] |>) ;;
  for_each (λ h, emit (LCall h IClose)) (live_sessions l) ;;
  for_each (λ id, notify_disconnect id GN_OK) (l_published_ids l).

(** * Everything that can happen to a link *)

Inductive link_input :=
  | JSetHostApi (api : option HostApi)
  | JReload
  | JPreferTurnTcp (val : bool)
  | JSecurityOverhead (overhead : Z)
  | JOrderedDelivery (val : bool)
  | JConnect (uri : bytes)
  | JSend (conn : Z) (data : bytes)
  | JSendBatch (conn : Z) (frames : list bytes)
  | JDisconnect (conn : Z)
  | JRestart (conn : Z)
  | JDeliver (pk : bytes) (kind : Z) (blob : bytes)
  | JPoll (pk : bytes) (cap : nat)
  | JInterfaceChange (heap : nat → IceSession)
  | JReaper (heap : nat → IceSession) (now : Z)
  | JComposerConnect (uri : bytes)
  | JSubscribeData (conn : Z) (cb : option Z)
  | JUnsubscribeData (conn : Z)
  | JSubscribeAccept (cb : option Z)
  | JUnsubscribeAccept (token : Z)
  | JGathered (id : Z) (s : IceSession)
  | JFailed (id : Z)
  | JData (id : Z) (data : bytes)
  | JComposerGathered (cid : Z) (s : IceSession)
  | JComposerConnected (cid : Z) (uri : bytes)
  | JComposerFailed (cid : Z)
  | JComposerData (cid : Z) (data : bytes)
  | JAutoRestart (owner : SessionCallbacks) (attempt max_attempts : Z)
  | JShutdown.

Definition link_handle (i : link_input) : link unit :=
  match i with
  | JSetHostApi api => set_host_api api
  | JReload => apply_config
  | JPreferTurnTcp v => set_prefer_turn_tcp v
  | JSecurityOverhead v => set_security_overhead v
  | JOrderedDelivery v => set_ordered_delivery v
  | JConnect uri => connect uri ;; skip
  | JSend conn d => send_bytes conn d ;; skip
  | JSendBatch conn fs => send_batch conn fs ;; skip
  | JDisconnect conn => disconnect conn ;; skip
  | JRestart conn => restart_session conn ;; skip
  | JDeliver pk kind blob => deliver_signal pk kind blob ;; skip
  | JPoll pk cap => poll_local_signal pk cap ;; skip
  | JInterfaceChange heap => on_interface_change heap
  | JReaper heap now => on_reaper_timer heap now
  | JComposerConnect uri => composer_connect uri ;; skip
  | JSubscribeData conn cb => composer_subscribe_data conn cb ;; skip
  | JUnsubscribeData conn => composer_unsubscribe_data conn ;; skip
  | JSubscribeAccept cb => composer_subscribe_accept cb ;; skip
  | JUnsubscribeAccept t => composer_unsubscribe_accept t ;; skip
  | JGathered id s => on_gathered id s
  | JFailed id => on_failed id
  | JData id d => on_data id d
  | JComposerGathered cid s => on_composer_gathered cid s
  | JComposerConnected cid uri => on_composer_connected cid uri
  | JComposerFailed cid => on_composer_failed cid
  | JComposerData cid d => on_composer_data cid d
  | JAutoRestart o n m => on_auto_restart o n m
  | JShutdown => shutdown
  end.

Definition link_run (ins : list link_input) : link unit := for_each link_handle ins.
End link.
