(* ===== verification/LinkRegistry.v ===== *)
(** The registry of the link: the two indexes of the kernel's sessions agree, so do
    the composer's, no two ids name one session, and every session is made with a
    configuration in range -- in every state a link can reach. *)

From stdpp Require Import gmap.
From S2P Require Import Prelude Bytes Inet Candidate SessionState Session LinkConfig PeerKey Link.

(** The ids the host hands out are valid, have bit 63 clear and are not handed out
    twice. *)
Class LinkLaws `{LinkEnv} : Prop := {
  host_connect_kernel n pk uri i rc conn :
    host_connect n pk uri i = (rc, Some conn) → is_composer conn = false;
  host_connect_fresh n pk uri i rc m pk' uri' i' rc' conn :
    host_connect n pk uri i = (rc, Some conn) → host_connect m pk' uri' i' = (rc', Some conn) → n = m;
}.

(** * Composer ids *)

Lemma composer_id_add n : 0 ≤ n < 2 ^ 63 → Z.lor n kComposerIdBit = n + 2 ^ 63.
Proof.
  intros Hn. unfold kComposerIdBit. rewrite Z.lor_comm, lor_shiftl_add by done. lia.
Qed.

Lemma composer_id_bit n : is_composer (Z.lor n kComposerIdBit) = true.
Proof.
  unfold is_composer. rewrite bool_decide_false; [done|]. intros Hz.
  apply (f_equal (λ z, Z.testbit z 63)) in Hz.
  by rewrite Z.land_spec, Z.lor_spec, orb_comm in Hz.
Qed.

Lemma kernel_id c : 0 ≤ c < 2 ^ 63 → is_composer c = false.
Proof.
  intros Hc. unfold is_composer. rewrite bool_decide_true; [done|]. unfold kComposerIdBit.
  apply Z.bits_inj'. intros k Hk. rewrite Z.land_spec, Z.bits_0, Z.shiftl_1_l, Z.pow2_bits_eqb by lia.
  destruct (Z.eqb_spec 63 k) as [<-|]; [|apply andb_false_r]. rewrite andb_true_r.
  destruct (decide (c = 0)) as [->|]; [done|].
  apply Z.bits_above_log2; [lia|]. apply Z.log2_lt_pow2; lia.
Qed.

(** A concrete host, for the witnesses: keys of two bytes, ids counted from one. *)
Module LinkRef.
#[local] Instance env : LinkEnv := {|
  GN_PUBLIC_KEY_BYTES := 2;
  host_connect n _ _ _ :=
    if decide (Z.of_nat n < 2 ^ 62) then (GN_OK, Some (Z.of_nat n + 1)) else (GN_ERR_HOST 1, None);
  host_extension _ _ := true;
  host_subscribe _ := Some 1;
|}.

#[local] Instance laws : LinkLaws.
Proof.
  split; cbn.
  - intros n _ _ _ rc conn Hc. case_decide; [|done]. simplify_eq. apply kernel_id. lia.
  - intros n _ _ _ rc m _ _ _ rc' conn Hn Hm. repeat case_decide; simplify_eq. lia.
Qed.

Definition api : HostApi := mkHostApi None true true true true true true.
Definition up : IceLink := new_link <| l_api := Some api |>.
End LinkRef.

(** * What the operations do *)

Section effects.
Context `{LinkEnv}.

(** Only what the registry does not depend on changed. *)
Definition same_registry (l l' : IceLink) : Prop :=
  l_shutdown l' = l_shutdown l ∧ l_sessions l' = l_sessions l ∧ l_peer_to_ids l' = l_peer_to_ids l
  ∧ l_published_ids l' = l_published_ids l ∧ l_composer l' = l_composer l
  ∧ l_created l' = l_created l ∧ (l_connects l ≤ l_connects l')%nat.

#[export] Instance same_registry_po : PreOrder same_registry.
Proof.
  split; [intros ?; split_and!; done|].
  intros ??? (?&?&?&?&?&?&?) (?&?&?&?&?&?&?). split_and!; (congruence || lia).
Qed.

Ltac registry_auto := keeps_auto ltac:(intros ?; split_and!; cbn; (reflexivity || lia)).

Lemma apply_config_registry : keeps same_registry apply_config.
Proof. unfold apply_config. registry_auto. Qed.
#[local] Hint Resolve apply_config_registry : ice.

Lemma query_extension_registry name f g : keeps same_registry (query_extension name f g).
Proof. unfold query_extension, set_carriers. registry_auto. Qed.
#[local] Hint Resolve query_extension_registry : ice.

Lemma resolve_carriers_registry : keeps same_registry resolve_carriers.
Proof. unfold resolve_carriers. registry_auto. Qed.
#[local] Hint Resolve resolve_carriers_registry : ice.

Lemma set_host_api_registry api : keeps same_registry (set_host_api api).
Proof. unfold set_host_api, subscribe_reload. registry_auto. Qed.

Lemma send_bytes_registry conn d : keeps same_registry (send_bytes conn d).
Proof. unfold send_bytes. registry_auto. Qed.
#[local] Hint Resolve send_bytes_registry : ice.

Lemma send_frames_registry conn fs : keeps same_registry (send_frames conn fs).
Proof. induction fs; cbn [send_frames]; registry_auto. Qed.
#[local] Hint Resolve send_frames_registry : ice.

Lemma send_batch_registry conn fs : keeps same_registry (send_batch conn fs).
Proof. unfold send_batch. registry_auto. Qed.

Lemma restart_session_registry conn : keeps same_registry (restart_session conn).
Proof. unfold restart_session. registry_auto. Qed.

Lemma poll_registry pk cap : keeps same_registry (poll_local_signal pk cap).
Proof. unfold poll_local_signal. registry_auto. Qed.

Lemma on_interface_change_registry heap : keeps same_registry (on_interface_change heap).
Proof. unfold on_interface_change. registry_auto. Qed.

Lemma on_gathered_registry id s : keeps same_registry (on_gathered id s).
Proof. unfold on_gathered, enqueue_local_signal. registry_auto. Qed.
Lemma on_composer_gathered_registry id s : keeps same_registry (on_composer_gathered id s).
Proof. unfold on_composer_gathered, enqueue_local_signal. registry_auto. Qed.
Lemma on_data_registry id d : keeps same_registry (on_data id d).
Proof. unfold on_data. registry_auto. Qed.
Lemma on_composer_data_registry id d : keeps same_registry (on_composer_data id d).
Proof. unfold on_composer_data. registry_auto. Qed.
Lemma on_auto_restart_registry o n m : keeps same_registry (on_auto_restart o n m).
Proof. unfold on_auto_restart. registry_auto. Qed.
Lemma notify_disconnect_registry id r : keeps same_registry (notify_disconnect id r).
Proof. unfold notify_disconnect. registry_auto. Qed.

(** The extensions and the mDNS manager may be resolved on the way. *)
Definition resolved (l : IceLink) (cs : Carriers) (q : nat) (b : bool) : IceLink :=
  l <| l_carriers := cs |> <| l_queries := q |> <| l_mdns := b |>.

Lemma resolved_id l : resolved l (l_carriers l) (l_queries l) (l_mdns l) = l.
Proof. by destruct l. Qed.

(** [m] only resolves extensions. *)
Definition resolving (m : link unit) : Prop :=
  ∀ l, ∃ cs q, run m l = (tt, resolved l cs q (l_mdns l), []).

Lemma resolving_seq m m' : resolving m → resolving m' → resolving (m ;; m').
Proof.
  intros Hm Hm' l. rewrite run_bind. destruct (Hm l) as (c1 & q1 & ->).
  destruct (Hm' (resolved l c1 q1 (l_mdns l))) as (c2 & q2 & ->). by exists c2, q2.
Qed.

Lemma query_extension_resolving name f g : resolving (query_extension name f g).
Proof.
  intros l. unfold query_extension. rewrite run_get.
  destruct (l_api l); [destruct (f (l_carriers l))|].
  2: by exists (g (host_extension (l_queries l) name) (l_carriers l)), (S (l_queries l)).
  all: exists (l_carriers l), (l_queries l); rewrite resolved_id; reflexivity.
Qed.

Lemma resolve_carriers_resolving : resolving resolve_carriers.
Proof. repeat apply resolving_seq; apply query_extension_resolving. Qed.

(** The state after [make_session]: handles are numbered in order. *)
Lemma make_session_run cfg p c cb m l :
  ∃ cs q b es, run (make_session cfg p c cb m) l
    = (l_created l, (resolved l cs q b) <| l_created := S (l_created l) |>,
       es ++ [LNew (l_created l) (mkSessionArgs cs cfg p c cb m)])
    ∧ (es = [] ∨ es = [LMdnsStart]).
Proof.
  unfold make_session. rewrite run_bind. destruct (resolve_carriers_resolving l) as (cs & q & ->).
  rewrite run_bind. exists cs, q.
  destruct m; cbn; [unfold ensure_mdns_manager; destruct (l_mdns l) eqn:Hm|]; cbn; rewrite ?Hm; cbn.
  - exists true, []. auto.
  - exists true, [LMdnsStart]. auto.
  - exists (l_mdns l), []. auto.
Qed.

(** A kernel session is registered. *)
Definition registered (conn : Z) (h : nat) (p : bytes) (l : IceLink) : IceLink :=
  l <| l_sessions := <[conn := mkPeer h p]> (l_sessions l) |>
    <| l_peer_to_ids := <[p := default [] (l_peer_to_ids l !! p) ++ [conn]]> (l_peer_to_ids l) |>
    <| l_published_ids := l_published_ids l ++ [conn] |>.

(** A new kernel session of [l]: the host handed out [conn], then the session was
    made and registered. *)
Definition new_kernel (l : IceLink) (conn : Z) (p : bytes) (l' : IceLink) : Prop :=
  ∃ pk i cs q b, host_connect (l_connects l) pk (canonical p) i = (GN_OK, Some conn)
  ∧ l' = registered conn (l_created l) p
           ((resolved (l <| l_connects := S (l_connects l) |>) cs q b)
              <| l_created := S (l_created l) |>).

(** The sessions made are made with configuration [cfg]. *)
Definition made_with (cfg : IceConfig) (e : link_event) : Prop :=
  match e with LNew _ args => sa_cfg args = cfg | _ => True end.

(** The common part of [connect] and [deliver_offer]. *)
Definition opening {A} (pk p : bytes) (initiator : bool) (cfg : IceConfig) (controlling mdns : bool)
    (K : Z → nat → link A) (F : gn_result → A) : link A :=
  r ← notify_connect pk p initiator;
  match r with
  | (GN_OK, Some conn) =>
      h ← make_session cfg p controlling (CbKernel conn) mdns;
      register_session conn h p ;;
      K conn h
  | (rc, _) => mret (F rc)
  end.

Lemma notify_connect_run pk p i l :
  run (notify_connect pk p i) l
  = (host_connect (l_connects l) pk (canonical p) i, l <| l_connects := S (l_connects l) |>,
     [LNotifyConnect pk (canonical p) i]).
Proof. done. Qed.

Lemma register_session_run conn h p l :
  run (register_session conn h p) l = (tt, registered conn h p l, []).
Proof. done. Qed.

(** What follows changes nothing and makes no session. *)
Definition reports {A} (cfg : IceConfig) (m : link A) : Prop :=
  ∀ l, final m l = l ∧ Forall (made_with cfg) (outputs m l).

Definition same_settings (l l' : IceLink) : Prop := l_cfg l' = l_cfg l ∧ l_mtu l' = l_mtu l.

(** The outcome of an operation that may open a kernel session. *)
Definition may_open {A} (m : link A) (l : IceLink) : Prop :=
  Forall (made_with (l_cfg l)) (outputs m l)
  ∧ same_settings l (final m l)
  ∧ (same_registry l (final m l) ∨ l_shutdown l = false ∧ ∃ conn p, new_kernel l conn p (final m l)).

Lemma opening_cases {A} pk p i c m (K : Z → nat → link A) F l :
  l_shutdown l = false → (∀ conn h, reports (l_cfg l) (K conn h)) →
  may_open (opening pk p i (l_cfg l) c m K F) l.
Proof.
  intros Hs HK. unfold may_open, opening, outputs, final, exec.
  rewrite run_bind, notify_connect_run.
  destruct (host_connect (l_connects l) pk (canonical p) i) as [rc oc] eqn:Hc.
  assert (same_registry l (l <| l_connects := S (l_connects l) |>)) as Hreg by (split_and!; cbn; auto).
  destruct rc, oc as [conn|]; try (split_and!; [repeat constructor | done | left; exact Hreg]).
  rewrite run_bind.
  destruct (make_session_run (l_cfg l) p c (CbKernel conn) m (l <| l_connects := S (l_connects l) |>))
    as (cs & q & b & es & -> & Hes). rewrite run_bind, register_session_run.
  unfold reports, final, outputs, exec in HK.
  match goal with |- context [run (K ?c ?h) ?l'] => specialize (HK c h l') as [HK1 HK2];
    destruct (run (K c h) l') as [[a l2] out] end.
  cbn in HK1, HK2 |- *. subst l2. split_and!; [|done|].
  - constructor; [done|]. rewrite !Forall_app. split_and!; try done.
    + destruct Hes as [-> | ->]; repeat constructor.
    + by constructor.
  - right. split; [done|]. exists conn, p, pk, i, cs, q, b. done.
Qed.
Lemma may_open_get {A} (f : IceLink → link A) l : may_open (f l) l → may_open (get ≫= f) l.
Proof. unfold may_open. by rewrite final_get, outputs_get. Qed.

Lemma may_open_reports {A} (m : link A) l : reports (l_cfg l) m → may_open m l.
Proof. intros Hr. destruct (Hr l) as [Hf Ho]. unfold may_open. rewrite Hf. split_and!; [done..|]. by left. Qed.

Lemma reports_ret {A} cfg (a : A) : reports cfg (mret a).
Proof. done. Qed.

Lemma reports_emit cfg e : made_with cfg e → reports cfg (emit e).
Proof. intros He l. split; [done|]. by constructor. Qed.

Lemma reports_bind {A B} cfg (m : link A) (f : A → link B) :
  reports cfg m → (∀ a, reports cfg (f a)) → reports cfg (m ≫= f).
Proof.
  intros Hm Hf l. rewrite final_bind, outputs_bind. destruct (Hm l) as [-> Ho].
  destruct (Hf (run m l).1.1 l) as [-> Ho']. split; [done|]. by apply Forall_app.
Qed.

Lemma reports_skip cfg : reports cfg skip.
Proof. done. Qed.
#[local] Hint Resolve reports_ret reports_emit reports_bind reports_skip may_open_reports : ice.

Lemma fold_signal_reports cfg h sg eoc fresh : reports cfg (fold_signal h sg eoc fresh).
Proof. unfold fold_signal. apply reports_bind; intros; by apply reports_emit. Qed.
#[local] Hint Resolve fold_signal_reports : ice.

Lemma connect_cases uri l : may_open (connect uri) l.
Proof.
  apply may_open_get. destruct (l_shutdown l) eqn:Hs; [eauto with ice|].
  destruct (uri_peer uri) as [p|]; [|eauto with ice].
  destruct (parse_peer_pk_hex _ p) as [pk|]; [|eauto with ice].
  destruct (api_has api_notify_connect l); [cbn [negb]|eauto with ice].
  apply (opening_cases pk p true true true (λ conn h, emit (LPost h [IGather]) ;;
    (if api_has api_kick_handshake l then emit (LKickHandshake conn) else skip) ;;
    mret (GN_OK, Some conn)) (λ rc, (rc, None))); [done|].
  intros. apply reports_bind; [by apply reports_emit|]. intros _.
  apply reports_bind; [|done]. by destruct (api_has api_kick_handshake l); [apply reports_emit|].
Qed.

Lemma deliver_signal_cases pk kind blob l : may_open (deliver_signal pk kind blob) l.
Proof.
  apply may_open_get. destruct (l_shutdown l) eqn:Hs; [eauto with ice|]. cbn zeta.
  case_match; [eauto with ice|]. destruct (parse_signal blob) as [sg|]; [|eauto with ice].
  case_match; [eauto with ice|]. case_match.
  - apply may_open_get. cbn zeta. destruct (api_has api_notify_connect l); [cbn [negb]|eauto with ice].
    destruct (offer_session l (pk_to_hex pk)); [eauto with ice|].
    apply (opening_cases pk (pk_to_hex pk) false false (mdns_obfuscate_host_candidates (l_cfg l))
      (λ _ h, fold_signal h sg _ true ;; mret GN_OK) id); [done|]. eauto with ice.
  - apply may_open_get. destruct (answer_session l (pk_to_hex pk)); eauto with ice.
Qed.
End effects.

(** * The invariant *)

Section invariant.
Context `{LinkLaws}.

Record registry_ok (l : IceLink) : Prop := {
  (* [peer_to_ids_] is the index of [sessions_] by peer *)
  reg_ids conn p :
    (∃ h, l_sessions l !! conn = Some (mkPeer h p)) ↔ conn ∈ default [] (l_peer_to_ids l !! p);
  reg_lists p ids : l_peer_to_ids l !! p = Some ids → ids ≠ [] ∧ NoDup ids;
  (* every kernel session was announced, under an id of the host *)
  reg_published conn e : l_sessions l !! conn = Some e → conn ∈ l_published_ids l;
  reg_host conn e : l_sessions l !! conn = Some e →
    ∃ n pk uri i rc, (n < l_connects l)%nat ∧ host_connect n pk uri i = (rc, Some conn);
  (* the composer's maps are inverse, its ids have bit 63 set *)
  reg_composer p cid : composer_peer_to_id (l_composer l) !! p = Some cid ↔
    ∃ e, composer_sessions (l_composer l) !! cid = Some e ∧ ce_peer e = p;
  reg_cids cid e : composer_sessions (l_composer l) !! cid = Some e →
    ∃ n, 1 ≤ n < next_composer_id (l_composer l) ∧ cid = Z.lor n kComposerIdBit;
  (* an id names a session of its own *)
  reg_handles c h : session_of l c = Some h → (h < l_created l)%nat;
  reg_distinct c1 c2 h : session_of l c1 = Some h → session_of l c2 = Some h → c1 = c2;
  (* a link that is shut down has no sessions *)
  reg_down : l_shutdown l = true → l_sessions l = ∅ ∧ composer_sessions (l_composer l) = ∅;
}.

Lemma reg_kernel l conn e : registry_ok l → l_sessions l !! conn = Some e → is_composer conn = false.
Proof.
  intros Hl Hc. destruct (reg_host l Hl conn e Hc) as (n & pk & uri & i & rc & _ & Hh).
  by eapply host_connect_kernel.
Qed.

Lemma same_registry_ok l l' : same_registry l l' → registry_ok l → registry_ok l'.
Proof.
  intros (E1 & E2 & E3 & E4 & E5 & E6 & E7) [].
  split; unfold session_of; rewrite ?E1, ?E2, ?E3, ?E4, ?E5, ?E6; try assumption.
  intros conn e He. destruct (reg_host0 conn e He) as (n & pk & uri & i & rc & Hn & Hh).
  exists n, pk, uri, i, rc. split; [lia|done].
Qed.

Lemma new_link_ok : registry_ok new_link.
Proof.
  split; cbn; try (intros *; rewrite ?lookup_empty; intros; simplify_eq/=; done).
  - intros conn p. rewrite !lookup_empty. cbn. split; [by intros [h ?]|by intros ?%not_elem_of_nil].
  - intros p cid. rewrite lookup_empty. split; [done|]. intros (e & He & _). by rewrite lookup_empty in He.
  - intros c h. unfold session_of. cbn. by destruct (is_composer c); rewrite lookup_empty.
  - intros c1 c2 h. unfold session_of. cbn. by destruct (is_composer c1); rewrite lookup_empty.
Qed.

(** Erasing an id from the peer index. *)
Lemma erase_peer_id_spec p conn m q :
  (∀ ids, m !! p = Some ids → ids ≠ [] ∧ NoDup ids) →
  default [] (erase_peer_id p conn m !! q)
    = (if decide (q = p) then filter (.≠ conn) (default [] (m !! p)) else default [] (m !! q))
  ∧ (∀ ids, erase_peer_id p conn m !! q = Some ids → (∀ ids', m !! q = Some ids' → ids' ≠ [] ∧ NoDup ids') →
     ids ≠ [] ∧ NoDup ids).
Proof.
  intros Hm. unfold erase_peer_id. destruct (m !! p) as [v|] eqn:Hp.
  - destruct (Hm v eq_refl) as [_ Hnd]. cbn.
    destruct (filter (.≠ conn) v) as [|x w] eqn:Hf.
    + destruct (decide (q = p)) as [->|Hq].
      * rewrite lookup_delete_eq. split; [done|]. done.
      * rewrite lookup_delete_ne by done. split; [done|]. eauto.
    + destruct (decide (q = p)) as [->|Hq].
      * rewrite lookup_insert_eq. split; [done|]. intros ids [= <-] _. split; [done|].
        rewrite <- Hf. by apply NoDup_filter.
      * rewrite lookup_insert_ne by done. split; [done|]. eauto.
  - split; [|eauto]. case_decide; [subst; by rewrite Hp|done].
Qed.
(** A session of [l], after a kernel session was registered. *)
Lemma session_of_registered conn h p l c :
  session_of (registered conn h p l) c
  = if is_composer c then session_of l c
    else if decide (c = conn) then Some h else session_of l c.
Proof.
  unfold session_of. cbn. destruct (is_composer c); [done|].
  case_decide; [subst; by rewrite lookup_insert_eq | by rewrite lookup_insert_ne].
Qed.

Lemma new_kernel_ok l conn p l' :
  registry_ok l → l_shutdown l = false → new_kernel l conn p l' → registry_ok l'.
Proof.
  intros Hl Hs (pk & i & cs & q & b & Hc & ->).
  assert (l_sessions l !! conn = None) as Hnew.
  { destruct (l_sessions l !! conn) as [e|] eqn:He; [|done].
    destruct (reg_host l Hl conn e He) as (n & pk' & uri' & i' & rc' & Hn & Hh).
    pose proof (host_connect_fresh _ _ _ _ _ _ _ _ _ _ _ Hc Hh). lia. }
  pose proof (host_connect_kernel _ _ _ _ _ _ Hc) as Hk.
  assert (∀ c, session_of ((resolved (l <| l_connects := S (l_connects l) |>) cs q b)
    <| l_created := S (l_created l) |>) c = session_of l c) as Hso by done.
  split; cbn; try apply Hl.
  - intros c p'. destruct (decide (c = conn)) as [->|Hne].
    + rewrite lookup_insert_eq. destruct (decide (p' = p)) as [->|Hp].
      * rewrite lookup_insert_eq. cbn. rewrite elem_of_app, list_elem_of_singleton. naive_solver.
      * rewrite lookup_insert_ne by done. rewrite <- (reg_ids l Hl), Hnew. naive_solver.
    + rewrite lookup_insert_ne by done. rewrite (reg_ids l Hl). destruct (decide (p' = p)) as [->|Hp].
      * rewrite lookup_insert_eq. cbn. rewrite elem_of_app, list_elem_of_singleton. naive_solver.
      * by rewrite lookup_insert_ne.
  - intros p' ids. destruct (decide (p' = p)) as [->|Hp].
    + rewrite lookup_insert_eq. intros [= <-]. split; [by destruct (default [] _)|].
      apply NoDup_app. split_and!; [| |apply NoDup_singleton].
      * destruct (l_peer_to_ids l !! p) eqn:Hp; [|constructor]. by apply (reg_lists l Hl p).
      * intros x Hx ->%list_elem_of_singleton. apply (reg_ids l Hl) in Hx as [h Hh]. congruence.
    + rewrite lookup_insert_ne by done. apply Hl.
  - intros c e. rewrite elem_of_app, list_elem_of_singleton.
    destruct (decide (c = conn)) as [->|Hne]; [by right|].
    rewrite lookup_insert_ne by done. intros He. left. by eapply reg_published.
  - intros c e. destruct (decide (c = conn)) as [->|Hne].
    + rewrite lookup_insert_eq. intros _. exists (l_connects l), pk, (canonical p), i, GN_OK. split; [lia|done].
    + rewrite lookup_insert_ne by done. intros He.
      destruct (reg_host l Hl c e He) as (n & pk' & uri' & i' & rc' & Hn & Hh).
      exists n, pk', uri', i', rc'. split; [lia|done].
  - intros c h. rewrite session_of_registered, Hso. intros Hh.
    destruct (is_composer c); [apply (reg_handles l Hl) in Hh; lia|].
    case_decide; [simplify_eq; lia|]. apply (reg_handles l Hl) in Hh. lia.
  - intros c1 c2 h. rewrite !session_of_registered, !Hso. intros Hc1 Hc2.
    assert (∀ c, session_of l c ≠ Some (l_created l)) as Hf.
    { intros c Hc'. apply (reg_handles l Hl) in Hc'. lia. }
    repeat case_match; simplify_eq; try done; try (by exfalso; eapply Hf);
      by eapply (reg_distinct l Hl).
  - intros Hd. congruence.
Qed.

(** Fewer sessions: the maps shrink together. *)
Lemma drop_session_ok l conn e :
  registry_ok l → l_sessions l !! conn = Some e → registry_ok (final (drop_session conn e) l).
Proof.
  intros Hl Hc. destruct e as [h p].
  assert (∀ q, _) as Her by (intros q; exact (erase_peer_id_spec p conn (l_peer_to_ids l) q
    (reg_lists l Hl p))).
  assert (∀ c h', session_of (final (drop_session conn (mkPeer h p)) l) c = Some h' →
    session_of l c = Some h') as Hso.
  { intros c h'. unfold session_of. cbn. destruct (is_composer c); [done|].
    destruct (decide (c = conn)) as [->|Hne]; [by rewrite lookup_delete_eq | by rewrite lookup_delete_ne]. }
  split; cbn; try apply Hl.
  - intros c q. destruct (Her q) as [-> _]. destruct (decide (c = conn)) as [->|Hne].
    + rewrite lookup_delete_eq. split; [by intros [??]|]. intros Hin. exfalso.
      case_decide as Hq; [by apply list_elem_of_filter in Hin as [? _]|].
      apply (reg_ids l Hl) in Hin as [h' Hh']. congruence.
    + rewrite lookup_delete_ne by done. rewrite (reg_ids l Hl). case_decide; [|done].
      subst q. rewrite list_elem_of_filter. naive_solver.
  - intros q ids Hq. destruct (Her q) as [_ Hn]. apply Hn; [done|]. apply Hl.
  - intros c e. destruct (decide (c = conn)) as [->|Hne];
      [by rewrite lookup_delete_eq | rewrite lookup_delete_ne by done; apply Hl].
  - intros c e. destruct (decide (c = conn)) as [->|Hne];
      [by rewrite lookup_delete_eq | rewrite lookup_delete_ne by done; apply Hl].
  - intros c h' Hh. by eapply (reg_handles l Hl), Hso.
  - intros c1 c2 h' Hc1 Hc2. by eapply (reg_distinct l Hl); apply Hso.
  - intros Hd. destruct (reg_down l Hl Hd) as [He _]. by rewrite He, lookup_empty in Hc.
Qed.

Lemma drop_composer_ok l cid e :
  registry_ok l → composer_sessions (l_composer l) !! cid = Some e →
  registry_ok (final (drop_composer cid e) l).
Proof.
  intros Hl Hc.
  assert (∀ c h', session_of (final (drop_composer cid e) l) c = Some h' → session_of l c = Some h') as Hso.
  { intros c h'. unfold session_of. cbn. destruct (is_composer c); [|done].
    destruct (decide (c = cid)) as [->|Hne]; [by rewrite lookup_delete_eq | by rewrite lookup_delete_ne]. }
  assert (composer_peer_to_id (l_composer l) !! ce_peer e = Some cid) as Hp by (apply (reg_composer l Hl); eauto).
  split; cbn; try apply Hl.
  - intros p c. destruct (decide (p = ce_peer e)) as [->|Hne].
    + rewrite lookup_delete_eq. split; [done|]. intros (e' & He' & Hpe). exfalso.
      destruct (decide (c = cid)) as [->|Hcn]; [by rewrite lookup_delete_eq in He'|].
      rewrite lookup_delete_ne in He' by done. apply Hcn.
      assert (composer_peer_to_id (l_composer l) !! ce_peer e = Some c) by (apply (reg_composer l Hl); eauto).
      congruence.
    + rewrite lookup_delete_ne by done. rewrite (reg_composer l Hl).
      destruct (decide (c = cid)) as [->|Hcn]; [rewrite lookup_delete_eq | by rewrite lookup_delete_ne].
      naive_solver.
  - intros c e'. destruct (decide (c = cid)) as [->|Hne];
      [by rewrite lookup_delete_eq | rewrite lookup_delete_ne by done; apply Hl].
  - intros c h' Hh. by eapply (reg_handles l Hl), Hso.
  - intros c1 c2 h' Hc1 Hc2. by eapply (reg_distinct l Hl); apply Hso.
  - intros Hd. destruct (reg_down l Hl Hd) as [_ He]. by rewrite He, lookup_empty in Hc.
Qed.
(** An entry that keeps its session and peer. *)
Lemma set_entry_ok l cid e e' :
  registry_ok l → composer_sessions (l_composer l) !! cid = Some e →
  ce_session e' = ce_session e → ce_peer e' = ce_peer e →
  registry_ok (l <| l_composer := (l_composer l) <| composer_sessions :=
    <[cid := e']> (composer_sessions (l_composer l)) |> |>).
Proof.
  intros Hl Hc Hs Hp. set (l' := l <| l_composer := _ |>).
  assert (∀ c, session_of l' c = session_of l c) as Hso.
  { intros c. unfold session_of. cbn. destruct (is_composer c); [|done].
    destruct (decide (c = cid)) as [->|]; [|by rewrite lookup_insert_ne].
    rewrite lookup_insert_eq, Hc. cbn. by rewrite Hs. }
  split; unfold l'; cbn; try apply Hl; fold l'.
  - intros p c. rewrite (reg_composer l Hl). destruct (decide (c = cid)) as [->|];
      [rewrite lookup_insert_eq, Hc | by rewrite lookup_insert_ne]. naive_solver.
  - intros c e0. destruct (decide (c = cid)) as [->|]; [|rewrite lookup_insert_ne by done; apply Hl].
    intros _. by eapply (reg_cids l Hl).
  - intros c h. rewrite Hso. apply Hl.
  - intros c1 c2 h. rewrite !Hso. apply Hl.
  - intros Hd. destruct (reg_down l Hl Hd) as [_ He]. by rewrite He, lookup_empty in Hc.
Qed.

Lemma set_data_cb_ok l cid e cb :
  registry_ok l → composer_sessions (l_composer l) !! cid = Some e →
  registry_ok (final (set_data_cb cid e cb) l).
Proof. intros Hl He. by apply (set_entry_ok l cid e). Qed.

(** A composer session is made and indexed. *)
Definition new_composer (l : IceLink) (p : bytes) (l' : IceLink) : Prop :=
  let cid := Z.lor (next_composer_id (l_composer l)) kComposerIdBit in
  ∃ cs q b, l' = (resolved l cs q b) <| l_created := S (l_created l) |>
    <| l_composer := (l_composer l)
         <| next_composer_id := u64 (next_composer_id (l_composer l) + 1) |>
         <| composer_sessions :=
              <[cid := mkComposerEntry (l_created l) p None false (canonical p)]>
                (composer_sessions (l_composer l)) |>
         <| composer_peer_to_id := <[p := cid]> (composer_peer_to_id (l_composer l)) |> |>.

Lemma new_composer_ok l p l' :
  registry_ok l → l_shutdown l = false → composer_peer_to_id (l_composer l) !! p = None →
  1 ≤ next_composer_id (l_composer l) < 2 ^ 63 → new_composer l p l' → registry_ok l'.
Proof.
  intros Hl Hs Hp Hn (cs & q & b & ->).
  set (cid := Z.lor (next_composer_id (l_composer l)) kComposerIdBit).
  assert (composer_sessions (l_composer l) !! cid = None) as Hnew.
  { destruct (composer_sessions (l_composer l) !! cid) as [e|] eqn:He; [|done].
    destruct (reg_cids l Hl cid e He) as (n & Hn' & Hc). unfold cid in Hc.
    rewrite !composer_id_add in Hc by lia. lia. }
  set (l' := _ <| l_composer := _ |>).
  assert (∀ c, session_of l' c = if decide (c = cid) then Some (l_created l) else session_of l c) as Hso.
  { intros c. unfold session_of. cbn. case_decide as Hc.
    - subst c. pose proof (composer_id_bit (next_composer_id (l_composer l))) as Hb.
      fold cid in Hb |- *. by rewrite Hb, lookup_insert_eq.
    - destruct (is_composer c); [|done]. by rewrite lookup_insert_ne. }
  split; unfold l'; cbn; try apply Hl; fold l'; fold cid.
  - intros p' c. destruct (decide (p' = p)) as [->|Hne].
    + rewrite lookup_insert_eq. destruct (decide (c = cid)) as [->|Hc].
      * rewrite lookup_insert_eq. naive_solver.
      * rewrite lookup_insert_ne by done. rewrite <- (reg_composer l Hl), Hp. naive_solver.
    + rewrite lookup_insert_ne by done. rewrite (reg_composer l Hl).
      destruct (decide (c = cid)) as [->|Hc]; [|by rewrite lookup_insert_ne].
      rewrite lookup_insert_eq, Hnew. naive_solver.
  - rewrite u64_id by (unfold is_u64; lia). intros c e. destruct (decide (c = cid)) as [->|Hc].
    + intros _. exists (next_composer_id (l_composer l)). split; [lia|done].
    + rewrite lookup_insert_ne by done. intros (n & Hn' & ->)%(reg_cids l Hl). exists n. split; [lia|done].
  - intros c h. rewrite Hso. case_decide; [intros; simplify_eq; lia|].
    intros Hh%(reg_handles l Hl). lia.
  - intros c1 c2 h. rewrite !Hso.
    assert (∀ c, session_of l c ≠ Some (l_created l)) as Hf.
    { intros c Hc'%(reg_handles l Hl). lia. }
    intros Hc1 Hc2. repeat case_decide; simplify_eq; try done; try (by exfalso; eapply Hf).
    by eapply (reg_distinct l Hl).
  - intros Hd. congruence.
Qed.

(** * Every operation preserves it *)

Definition next_id (l : IceLink) : Z := next_composer_id (l_composer l).

(** An operation that keeps the invariant and takes no composer id. *)
Definition stable {A} (m : link A) : Prop :=
  ∀ l, registry_ok l → registry_ok (final m l) ∧ next_id (final m l) = next_id l.

(** An operation that keeps the invariant and takes at most one composer id. *)
Definition steady {A} (m : link A) : Prop :=
  ∀ l, registry_ok l → 1 ≤ next_id l < 2 ^ 63 →
    registry_ok (final m l) ∧ next_id l ≤ next_id (final m l) ≤ next_id l + 1.

Lemma stable_same {A} (m : link A) : keeps same_registry m → stable m.
Proof.
  intros Hm l Hl. specialize (Hm l). split; [by eapply same_registry_ok|].
  destruct Hm as (_ & _ & _ & _ & Hc & _). unfold next_id. by rewrite Hc.
Qed.

Lemma stable_seq {A B} (m : link A) (f : A → link B) :
  stable m → (∀ a, stable (f a)) → stable (m ≫= f).
Proof.
  intros Hm Hf l Hl. rewrite final_bind. destruct (Hm l Hl) as [Hl1 Hn1].
  destruct (Hf (run m l).1.1 _ Hl1) as [Hl2 Hn2]. split; [done|congruence].
Qed.

Lemma stable_after {A} (m : link A) l1 l :
  stable m → registry_ok l1 → next_id l1 = next_id l →
  registry_ok (final m l1) ∧ next_id (final m l1) = next_id l.
Proof. intros Hm Hl <-. by apply Hm. Qed.

Lemma stable_skip : stable skip.
Proof. done. Qed.

Lemma stable_emit e : stable (emit e).
Proof. done. Qed.

Lemma stable_for_each {A} (f : A → link unit) xs : (∀ x, stable (f x)) → stable (for_each f xs).
Proof. intros Hf. induction xs; cbn [for_each]; [done|]. apply stable_seq; auto. Qed.

Lemma steady_stable {A} (m : link A) : stable m → steady m.
Proof. intros Hm l Hl Hn. destruct (Hm l Hl) as [? ->]. split; [done|lia]. Qed.

Lemma steady_skip {A} (m : link A) : steady m → steady (m ;; skip).
Proof. intros Hm l. rewrite final_bind. apply Hm. Qed.

Lemma steady_opens {A} (m : link A) : (∀ l, may_open m l) → steady m.
Proof.
  intros Hm l Hl Hn. destruct (Hm l) as (_ & _ & [Hs|(Hs & conn & p & Hk)]).
  - split; [by eapply same_registry_ok|]. destruct Hs as (_ & _ & _ & _ & Hc & _).
    unfold next_id. rewrite Hc. lia.
  - split; [by eapply new_kernel_ok|]. destruct Hk as (pk & i & cs & q & b & _ & ->).
    unfold next_id. cbn. unfold next_id in Hn. lia.
Qed.

Lemma disconnect_stable conn : stable (disconnect conn).
Proof.
  intros l Hl. unfold disconnect. rewrite final_get. destruct (is_composer conn).
  - destruct (composer_sessions (l_composer l) !! conn) as [e|] eqn:He; [|done].
    split; [by apply drop_composer_ok | done].
  - destruct (l_sessions l !! conn) as [e|] eqn:He; [|done]. rewrite final_bind.
    assert (stable (emit (LCall (pe_session e) IClose) ;; notify_disconnect conn GN_OK ;; mret GN_OK)) as Hr.
    { apply stable_same. pose proof notify_disconnect_registry. keeps_auto idtac. }
    apply (stable_after _ (final (drop_session conn e) l) l Hr); [by apply drop_session_ok | done].
Qed.

Lemma on_failed_stable id : stable (on_failed id).
Proof.
  intros l Hl. unfold on_failed. rewrite final_get. destruct (l_shutdown l) eqn:Hs; [done|].
  unfold claim_disconnect. rewrite final_bind, final_get, run_get, Hs.
  destruct (l_sessions l !! id) as [e|] eqn:He; [|done].
  apply (stable_after _ (final (drop_session id e) l) l
    (stable_same _ (notify_disconnect_registry id GN_ERR_NOT_FOUND))); [by apply drop_session_ok | done].
Qed.

Lemma on_composer_failed_stable cid : stable (on_composer_failed cid).
Proof.
  intros l Hl. unfold on_composer_failed. rewrite final_get. destruct (l_shutdown l); [done|].
  destruct (composer_sessions (l_composer l) !! cid) as [e|] eqn:He; [|done].
  split; [by apply drop_composer_ok | done].
Qed.

Lemma on_composer_connected_stable cid uri : stable (on_composer_connected cid uri).
Proof.
  intros l Hl. unfold on_composer_connected. rewrite final_get. destruct (l_shutdown l); [done|]. cbn zeta.
  assert (stable (for_each (λ sub, emit (LAccept (as_cb sub) cid uri))
    (composer_accept_subs (l_composer l)))) as Hf by (apply stable_for_each; intros; apply stable_emit).
  destruct (composer_sessions (l_composer l) !! cid) as [e|] eqn:He; [|by apply Hf].
  destruct (ce_nominated e); [done|]. unfold set_composer. rewrite final_modify.
  apply (stable_after _ _ l Hf); [by apply (set_entry_ok l cid e) | done].
Qed.

Lemma subscribe_data_stable conn cb : stable (composer_subscribe_data conn cb).
Proof.
  intros l Hl. unfold composer_subscribe_data. rewrite final_get. destruct (negb _); [done|].
  destruct (composer_sessions (l_composer l) !! conn) as [e|] eqn:He; [|done].
  split; [by apply set_data_cb_ok | done].
Qed.

Lemma unsubscribe_data_stable conn : stable (composer_unsubscribe_data conn).
Proof.
  intros l Hl. unfold composer_unsubscribe_data. rewrite final_get. destruct (negb _); [done|].
  destruct (composer_sessions (l_composer l) !! conn) as [e|] eqn:He; [|done].
  split; [by apply set_data_cb_ok | done].
Qed.
(** Accept subscriptions are not part of the registry. *)
Lemma set_subs_ok l c :
  registry_ok l → composer_sessions c = composer_sessions (l_composer l) →
  composer_peer_to_id c = composer_peer_to_id (l_composer l) →
  next_composer_id c = next_composer_id (l_composer l) →
  registry_ok (l <| l_composer := c |>).
Proof. intros [] E1 E2 E3. split; unfold session_of; cbn; rewrite ?E1, ?E2, ?E3; assumption. Qed.

Lemma subscribe_accept_stable cb : stable (composer_subscribe_accept cb).
Proof.
  intros l Hl. unfold composer_subscribe_accept. rewrite final_get. destruct cb; [|done].
  split; [by apply set_subs_ok | done].
Qed.

Lemma unsubscribe_accept_stable t : stable (composer_unsubscribe_accept t).
Proof. intros l Hl. split; [by apply set_subs_ok | done]. Qed.

Lemma on_reaper_timer_stable heap now : stable (on_reaper_timer heap now).
Proof.
  intros l Hl. unfold on_reaper_timer, reap_sessions. rewrite final_get. destruct (l_shutdown l); [done|].
  rewrite final_bind, final_get.
  assert (∀ ids, stable (for_each (λ id, disconnect id ;; skip) ids)) as Hr; [|by apply Hr].
  intros ids. apply stable_for_each. intros id. apply stable_seq; [apply disconnect_stable | done].
Qed.

Lemma shutdown_ok l :
  registry_ok l → registry_ok (final shutdown l) ∧ next_id (final shutdown l) = next_id l.
Proof.
  intros Hl. unfold shutdown. rewrite final_get, final_bind.
  set (w := if l_iface_watcher l then _ else _).
  assert (keeps same_registry w) as Hw.
  { unfold w. destruct (l_iface_watcher l); [|done]. intros l'. by split_and!. }
  destruct (stable_same _ Hw l Hl) as [Hl' Hn']. pose proof (Hw l) as (Hs & _).
  destruct (l_shutdown l) eqn:Hd; [by split|]. rewrite final_modify. unfold set_composer.
  rewrite final_modify, final_bind.
  assert (∀ hs, stable (for_each (λ h, emit (LCall h IClose)) hs)) as Hc
    by (intros; apply stable_for_each; intros; apply stable_emit).
  assert (∀ ids, stable (for_each (λ id, notify_disconnect id GN_OK) ids)) as Hi
    by (intros; apply stable_for_each; intros; apply stable_same, notify_disconnect_registry).
  match goal with |- context [final _ (final _ ?l1)] =>
    destruct (Hc (live_sessions l) l1) as [Hc1 Hc2]; [|] end.
  { destruct Hl'. split; unfold session_of; cbn; try done.
    all: try (intros *; rewrite ?lookup_empty; intros; simplify_eq/=; done).
    - intros conn p. rewrite !lookup_empty. cbn. split; [by intros [h ?]|by intros ?%not_elem_of_nil].
    - intros p cid. rewrite lookup_empty. split; [done|]. intros (e & He & _). by rewrite lookup_empty in He.
    - intros c h. by destruct (is_composer c); rewrite lookup_empty.
    - intros c1 c2 h. by destruct (is_composer c1); rewrite lookup_empty. }
  apply (stable_after _ _ l (Hi (l_published_ids l))); [done|]. by rewrite Hc2.
Qed.

Lemma composer_connect_steady uri : steady (composer_connect uri).
Proof.
  intros l Hl Hn. unfold composer_connect. rewrite final_get.
  destruct (l_shutdown l) eqn:Hs; [split; [done | cbn; lia]|].
  destruct (uri_peer uri) as [p|]; [|split; [done | cbn; lia]].
  destruct (parse_peer_pk_hex _ p); [|split; [done | cbn; lia]].
  cbn zeta. rewrite final_bind. set (l1 := final (set_composer _) l).
  assert (next_id l1 = next_id l + 1) as Hn1.
  { unfold next_id, l1 in *. cbn. apply u64_id. unfold is_u64. lia. }
  destruct (composer_peer_to_id (l_composer l) !! p) as [id|] eqn:Hp.
  - change (final _ l1) with l1. split; [|lia]. unfold l1, next_id in *.
    destruct Hl. split; unfold session_of; cbn; try assumption. intros c e He.
    destruct (reg_cids0 c e He) as (n & Hr & Hc). exists n. split; [cbn in Hn1; lia | done].
  - rewrite final_bind. destruct (make_session_run (l_cfg l) p true (CbComposer (Z.lor (next_composer_id (l_composer l)) kComposerIdBit)
    (canonical p)) true l1) as (cs & q & b & es & Hm & _).
    unfold final at 2 4 6, exec. rewrite Hm. cbn [fst snd].
    match goal with |- registry_ok ?l2 ∧ _ => assert (new_composer l p l2) as Hnew end.
    { exists cs, q, b. done. }
    split; [by eapply new_composer_ok|].
    destruct Hnew as (? & ? & ? & ->). unfold next_id in *. cbn in Hn1 |- *. lia.
Qed.
Lemma link_handle_steady i : steady (link_handle i).
Proof.
  destruct i; cbn [link_handle]; try (apply steady_skip).
  all: try (apply steady_stable, stable_same; solve [
    apply set_host_api_registry | apply apply_config_registry | apply send_bytes_registry
    | apply send_batch_registry | apply restart_session_registry | apply poll_registry
    | apply on_interface_change_registry | apply on_gathered_registry
    | apply on_composer_gathered_registry | apply on_data_registry | apply on_composer_data_registry
    | apply on_auto_restart_registry | intros l; by split_and! ]).
  - apply steady_opens, connect_cases.
  - apply steady_stable, disconnect_stable.
  - apply steady_opens, deliver_signal_cases.
  - apply steady_stable, on_reaper_timer_stable.
  - apply composer_connect_steady.
  - apply steady_stable, subscribe_data_stable.
  - apply steady_stable, unsubscribe_data_stable.
  - apply steady_stable, subscribe_accept_stable.
  - apply steady_stable, unsubscribe_accept_stable.
  - apply steady_stable, on_failed_stable.
  - apply steady_stable, on_composer_connected_stable.
  - apply steady_stable, on_composer_failed_stable.
  - apply steady_stable. intros l. apply shutdown_ok.
Qed.

Lemma link_run_ok ins l : registry_ok l → 1 ≤ next_id l →
  next_id l + Z.of_nat (length ins) < 2 ^ 63 → registry_ok (final (link_run ins) l).
Proof.
  revert l. induction ins as [|i ins IH]; intros l Hl Hn Hlen; [done|].
  unfold link_run. rewrite final_for_each_cons. cbn [length] in Hlen.
  destruct (link_handle_steady i l) as [Hl' Hn']; [done|lia|]. apply IH; [done|lia..].
Qed.
End invariant.

(** The registry: whatever the kernel, the composer, the peers and the sessions
    do, in whatever order, the index of the kernel's sessions by peer holds exactly
    the sessions there are, the composer's two maps are inverse, kernel and composer
    ids cannot be confused and no two ids name the same session. *)
Theorem registry_invariant `{LinkLaws} ins :
  Z.of_nat (length ins) < 2 ^ 63 - 1 → registry_ok (final (link_run ins) new_link).
Proof. intros Hlen. apply link_run_ok; [apply new_link_ok | done | cbn; lia]. Qed.

Lemma registry_invariant_witness :
  registry_ok (H := LinkRef.env) (final (link_run (H := LinkRef.env)
    [JSetHostApi (Some LinkRef.api); JConnect (str "ice://0aff"); JComposerConnect (str "ice://0aff");
     JConnect (str "ice://0aff/"); JFailed 1; JShutdown]) new_link).
Proof. apply (@registry_invariant LinkRef.env LinkRef.laws). done. Defined.

(** * Configurations *)

Section configured.
Context `{LinkEnv}.

(** The link's configuration and MTU are in range. *)
Definition cfg_inv (l : IceLink) : Prop := config_ok (l_cfg l) ∧ 576 ≤ l_mtu l ≤ 65507.

Definition new_ok (e : link_event) : Prop :=
  match e with LNew _ args => config_ok (sa_cfg args) | _ => True end.

Definition configured (l : IceLink) (es : list link_event) (l' : IceLink) : Prop :=
  cfg_inv l → cfg_inv l' ∧ Forall new_ok es.

#[local] Instance configured_order : TraceOrder configured.
Proof.
  split; [by intros l Hl; split|]. intros l1 o1 l2 o2 l3 H1 H2 Hl.
  destruct (H1 Hl) as [Hl2 Ho1]. destruct (H2 Hl2) as [Hl3 Ho2]. split; [done|]. by apply Forall_app.
Qed.

Ltac configured_auto := traces_auto ltac:(intros ? ?; split; [assumption | repeat constructor]).

Lemma apply_config_configured : traces configured apply_config.
Proof.
  intros l [Hc Hm]. unfold apply_config. rewrite outputs_get, final_get.
  destruct (l_api l ≫= api_config) as [h|]; [|by split; [split|]].
  apply (applied_mtu_range h) in Hm. split; [|by repeat constructor].
  split; cbn; [by apply read_config_ok | done].
Qed.

Lemma set_cfg_configured f : (∀ c, config_ok c → config_ok (f c)) → traces configured (set_cfg f).
Proof. intros Hf l [Hc Hm]. split; [|constructor]. split; cbn; [by apply Hf | done]. Qed.

Lemma query_extension_configured name f g : traces configured (query_extension name f g).
Proof. unfold query_extension, set_carriers. configured_auto. Qed.
#[local] Hint Resolve apply_config_configured query_extension_configured : ice.

Lemma resolve_carriers_configured : traces configured resolve_carriers.
Proof. unfold resolve_carriers. configured_auto. Qed.
#[local] Hint Resolve resolve_carriers_configured : ice.

Lemma set_host_api_configured api : traces configured (set_host_api api).
Proof. unfold set_host_api, subscribe_reload. configured_auto. Qed.

Lemma notify_disconnect_configured id r : traces configured (notify_disconnect id r).
Proof. unfold notify_disconnect. configured_auto. Qed.
#[local] Hint Resolve notify_disconnect_configured : ice.

Lemma send_bytes_configured conn d : traces configured (send_bytes conn d).
Proof. unfold send_bytes. configured_auto. Qed.
#[local] Hint Resolve send_bytes_configured : ice.

Lemma send_frames_configured conn fs : traces configured (send_frames conn fs).
Proof. induction fs; cbn [send_frames]; configured_auto. Qed.
#[local] Hint Resolve send_frames_configured : ice.

Lemma disconnect_configured conn : traces configured (disconnect conn).
Proof. unfold disconnect, drop_composer, drop_session, set_composer. configured_auto. Qed.
#[local] Hint Resolve disconnect_configured : ice.
Lemma may_open_configured {A} (m : link A) : (∀ l, may_open m l) → traces configured m.
Proof.
  intros Hm l [Hc Hu]. destruct (Hm l) as (Ho & [Ec Eu] & _). split; [split; congruence|].
  eapply Forall_impl; [exact Ho|]. intros []; cbn; congruence.
Qed.

Lemma composer_connect_configured uri : traces configured (composer_connect uri).
Proof.
  intros l Hl. unfold composer_connect. rewrite final_get, outputs_get.
  destruct (l_shutdown l); [by split|]. destruct (uri_peer uri) as [p|]; [|by split].
  destruct (parse_peer_pk_hex _ p); [|by split].
  cbn zeta. rewrite final_bind, outputs_bind. set (l1 := final (set_composer _) l).
  destruct (composer_peer_to_id (l_composer l) !! p); [by split|].
  rewrite final_bind, outputs_bind.
  destruct (make_session_run (l_cfg l) p true (CbComposer (Z.lor (next_composer_id (l_composer l)) kComposerIdBit)
    (canonical p)) true l1) as (cs & q & b & es & Hm & Hes).
  set (cb := CbComposer _ (canonical p)) in *.
  assert (final (make_session (l_cfg l) p true cb true) l1 = (resolved l1 cs q b)
    <| l_created := S (l_created l1) |>) as -> by (unfold final, exec; by rewrite Hm).
  assert (outputs (make_session (l_cfg l) p true cb true) l1 = es ++ [LNew (l_created l1)
    (mkSessionArgs cs (l_cfg l) p true cb true)]) as -> by (unfold outputs, exec; by rewrite Hm).
  split; [exact Hl|]. rewrite !Forall_app. split_and!; [by constructor | | | by repeat constructor].
  - destruct Hes as [-> | ->]; by repeat constructor.
  - constructor; [apply Hl | constructor].
Qed.

Lemma link_handle_configured i : traces configured (link_handle i).
Proof.
  destruct i; cbn [link_handle].
  all: try (apply traces_bind; [exact _ | | intros _; apply traces_skip; exact _]).
  all: try solve [auto with ice | apply set_host_api_configured
    | apply may_open_configured, connect_cases | apply may_open_configured, deliver_signal_cases
    | apply composer_connect_configured | apply set_cfg_configured; field_ok].
  all: unfold send_batch, restart_session, poll_local_signal, on_interface_change, on_reaper_timer,
    reap_sessions, composer_subscribe_data, composer_unsubscribe_data, composer_subscribe_accept,
    composer_unsubscribe_accept, set_data_cb, on_gathered, on_failed, on_data, on_composer_gathered,
    on_composer_connected, on_composer_failed, on_composer_data, on_auto_restart, enqueue_local_signal,
    claim_disconnect, drop_session, drop_composer, shutdown, set_composer; configured_auto.
Qed.

Lemma new_link_configured : cfg_inv new_link.
Proof. split; [apply initial_config_ok | cbn; unfold kDefaultMtu; lia]. Qed.
End configured.

(** Sessions are configured in range: whatever the host's configuration says and
    whenever it is reloaded, every session of a link is made with timeouts, retries,
    MTU and probe ladder in their ranges, and with TURN servers that share one set of
    credentials and transports, the first of them being the primary one. *)
Theorem sessions_configured `{LinkEnv} ins :
  cfg_inv (final (link_run ins) new_link) ∧ Forall new_ok (outputs (link_run ins) new_link).
Proof.
  assert (traces configured (link_run ins)) as Hr; [|apply Hr, new_link_configured].
  apply traces_for_each; [apply configured_order | apply link_handle_configured].
Qed.
