(* ===== verification/LinkSignal.v ===== *)
(** Signalling through the link: the outbound queues refine an abstract queue per
    peer, offers and answers carry each side's credentials and candidates to the
    other side's session, trickled offers reach one session, and a peer named in
    upper case cannot be signalled. *)

From stdpp Require Import gmap.
From S2P Require Import Prelude Bytes Inet Candidate SessionState Session LinkConfig PeerKey Link LinkRegistry.

(** The result of a computation, without its state and outputs. *)
Definition result {S E A} (m : eff S E A) (s : S) : A := (run m s).1.1.

Lemma result_bind {S E A B} (m : eff S E A) (f : A → eff S E B) s :
  result (m ≫= f) s = result (f (result m s)) (final m s).
Proof.
  unfold result, final, exec. rewrite run_bind. destruct (run m s) as [[a s1] o1]. cbn.
  by destruct (run (f a) s1) as [[??]?].
Qed.

(** * Queues *)

Abbreviation poll_result := (gn_result * option OutboundSignal * option nat)%type.

Section queue.
Context `{LinkEnv}.

(** What the link queues for a session. *)
Definition signal_of (s : IceSession) : OutboundSignal :=
  mkOutbound (if s_controlling s then ICE_SIGNAL_OFFER_EOC else ICE_SIGNAL_ANSWER_EOC)
    (serialize_signal (local_ufrag (s_creds s)) (local_pwd (s_creds s)) (s_local_candidates s)
       (local_signal_flags s)).

Inductive queue_op := QGathered (peer : bytes) (s : IceSession) | QPoll (pk : bytes) (cap : nat).



(** The abstract queue: one list per peer. *)
Definition queues : Type := bytes → list OutboundSignal.
Definition spec_update (q : queues) (p : bytes) (l : list OutboundSignal) : queues :=
  λ p', if decide (p' = p) then l else q p'.

Fixpoint spec_run (ops : list queue_op) (q : queues) : list poll_result :=
  match ops with
  | [] => []
  | QGathered p s :: ops => spec_run ops (spec_update q p (q p ++ [signal_of s]))
  | QPoll pk cap :: ops =>
      match q (pk_to_hex pk) with
      | [] => (GN_ERR_NOT_FOUND, None, None) :: spec_run ops q
      | e :: rest =>
          if decide (cap < length (os_blob e))%nat
          then (GN_ERR_OUT_OF_RANGE, None, Some (length (os_blob e))) :: spec_run ops q
          else (GN_OK, Some e, Some (length (os_blob e))) :: spec_run ops (spec_update q (pk_to_hex pk) rest)
      end
  end.

Fixpoint queue_run (ops : list queue_op) : link (list poll_result) :=
  match ops with
  | [] => mret []
  | QGathered p s :: ops => enqueue_local_signal p s ;; queue_run ops
  | QPoll pk cap :: ops =>
      r ← poll_local_signal pk cap;
      rs ← queue_run ops;
      mret (r :: rs)
  end.

(** The queues of a link. *)
Definition queue (l : IceLink) : queues := λ p, default [] (l_outbound_signals l !! p).

Lemma spec_run_proper ops q q' : (∀ p, q p = q' p) → spec_run ops q = spec_run ops q'.
Proof.
  revert q q'. induction ops as [|[p s|pk cap] ops IH]; intros q q' Hq; cbn; [done|..].
  - apply IH. intros p'. unfold spec_update. by rewrite !Hq.
  - rewrite Hq. destruct (q' (pk_to_hex pk)); [f_equal; by apply IH|].
    case_decide; f_equal; apply IH; [done|]. intros p'. unfold spec_update. by rewrite Hq.
Qed.

(** One poll: the result, and the state it leaves. *)
Lemma poll_local_signal_run pk cap l : l_shutdown l = false →
  run (poll_local_signal pk cap) l =
  match queue l (pk_to_hex pk) with
  | [] => ((GN_ERR_NOT_FOUND, None, None), l, [])
  | e :: rest =>
      if decide (cap < length (os_blob e))%nat
      then ((GN_ERR_OUT_OF_RANGE, None, Some (length (os_blob e))), l, [])
      else ((GN_OK, Some e, Some (length (os_blob e))),
            l <| l_outbound_signals :=
              match rest with
              | [] => delete (pk_to_hex pk) (l_outbound_signals l)
              | _ => <[pk_to_hex pk := rest]> (l_outbound_signals l)
              end |>, [])
  end.
Proof.
  intros Hl. unfold poll_local_signal, queue. rewrite run_get, Hl. cbn zeta.
  destruct (l_outbound_signals l !! pk_to_hex pk) as [[|e rest]|]; cbn [default id]; [done| |done].
  destruct (decide (cap < length (os_blob e))%nat); reflexivity.
Qed.

Lemma queue_enqueue p s l p' :
  queue (final (enqueue_local_signal p s) l) p' = spec_update (queue l) p (queue l p ++ [signal_of s]) p'.
Proof.
  unfold queue, spec_update. cbn.
  case_decide; [subst; by rewrite lookup_insert_eq | by rewrite lookup_insert_ne].
Qed.

(** C22 (signalling queues): whatever sessions are gathered and whatever the caller
    polls, for whichever peers and with whichever buffers, the link returns what one
    first-in first-out queue per peer returns: every signal once, in order, and a
    buffer too small costs nothing. *)
Theorem outbound_queue_refines ops l : l_shutdown l = false →
  result (queue_run ops) l = spec_run ops (queue l).
Proof.
  revert l. induction ops as [|[p s|pk cap] ops IH]; intros l Hl; [done|..]; cbn [queue_run spec_run].
  - rewrite result_bind, IH by done. apply spec_run_proper. intros p'. apply queue_enqueue.
  - pose proof (poll_local_signal_run pk cap l Hl) as Hp.
    assert (∀ r l1, result (poll_local_signal pk cap) l = r → final (poll_local_signal pk cap) l = l1 →
      l_shutdown l1 = false →
      result (r ← poll_local_signal pk cap; rs ← queue_run ops; mret (r :: rs)) l
      = r :: spec_run ops (queue l1)) as Hnext.
    { intros r l1 <- <- Hl1. rewrite !result_bind, IH by done. done. }
    unfold result, final, exec in Hnext. rewrite Hp in Hnext.
    destruct (queue l (pk_to_hex pk)) as [|e rest] eqn:Hq; [by apply Hnext|].
    case_decide; [by apply Hnext|]. etrans; [by apply Hnext|]. f_equal.
    apply spec_run_proper. intros p'. unfold queue, spec_update in *. cbn.
    destruct rest as [|e' rest]; case_decide; subst;
      rewrite ?lookup_delete_eq, ?lookup_insert_eq, ?lookup_delete_ne, ?lookup_insert_ne; done.
Qed.
End queue.

(** * What a signal carries *)

(** A session the link can publish: sendable candidates, and credentials that fit
    their fields. *)
Definition fits_field (n : nat) (s : bytes) : Prop := Forall (λ b, b ≠ 0) s ∧ (length s ≤ n)%nat.

Record publishable (s : IceSession) : Prop := {
  pub_candidates : Forall sendable (s_local_candidates s);
  pub_count : (length (s_local_candidates s) ≤ 256)%nat;
  pub_ufrag : fits_field 8 (local_ufrag (s_creds s));
  pub_pwd : fits_field 32 (local_pwd (s_creds s));
}.

(** The session's credentials and candidates, as its peer gets them. *)
Definition published (s : IceSession) : Signal :=
  mkSignal (local_ufrag (s_creds s)) (local_pwd (s_creds s)) (signal_view <$> s_local_candidates s)
    (local_signal_flags s).

Lemma c_str_field s k : Forall (λ b, b ≠ 0) s → c_str (s ++ replicate k 0) = s.
Proof.
  induction 1 as [|b s Hb Hs IH]; [by destruct k|]. cbn. rewrite decide_False by done. by rewrite IH.
Qed.

Lemma c_strn_fixed_field n s : fits_field n s → c_strn n (fixed_field n s) = s.
Proof.
  intros [Hs Hn]. unfold c_strn, fixed_field.
  assert (c_str s = s) as Hc by (rewrite <- (app_nil_r s) at 1; by apply (c_str_field s 0)).
  rewrite Hc, (take_ge s) by lia. rewrite c_str_field by done. by apply take_ge.
Qed.

Lemma signal_flags_range s :
  is_u32 (local_signal_flags s) ∧ Z.land (local_signal_flags s) ICE_SIGNAL_FLAG_MASK = local_signal_flags s
  ∧ negb (bool_decide (Z.land (local_signal_flags s) ICE_SIGNAL_FLAG_LITE = 0)) = lite_mode (cfg s).
Proof. unfold local_signal_flags. destruct (lite_mode (cfg s)); case_decide; done. Qed.

Lemma parse_signal_of s : publishable s → parse_signal (os_blob (signal_of s)) = Some (published s).
Proof.
  intros [Hc Hn Hu Hp]. destruct (signal_flags_range s) as (Hr & Hm & _).
  unfold parse_signal, signal_of. cbn [os_blob].
  rewrite decide_False.
  - rewrite signal_decodes by done. cbn [so_hdr so_candidates so_flags sig_ufrag sig_pwd]. by rewrite !c_strn_fixed_field, Hm.
  - unfold serialize_signal. rewrite length_app, length_signal_header. unfold header_size. lia.
Qed.

(** * Opening a session *)

(** [l'] is [l] with a new kernel session [conn] for peer [p]. *)
Definition opened (l : IceLink) (conn : Z) (p : bytes) (l' : IceLink) : Prop :=
  ∃ cs q b, l' = registered conn (l_created l) p
    ((resolved (l <| l_connects := S (l_connects l) |>) cs q b) <| l_created := S (l_created l) |>).

Section opening.
Context `{LinkEnv}.

(** A link that is up and can announce connections. *)
Definition ready (l : IceLink) : Prop := l_shutdown l = false ∧ api_has api_notify_connect l = true.

(** A peer the link does not know. *)
Record stranger (p : bytes) (l : IceLink) : Prop := {
  no_ids : l_peer_to_ids l !! p = None;
  no_composer : composer_peer_to_id (l_composer l) !! p = None;
  no_signals : l_outbound_signals l !! p = None;
}.

Lemma opening_ok {A} pk p i cfg c m (K : Z → nat → link A) F l conn :
  host_connect (l_connects l) pk (canonical p) i = (GN_OK, Some conn) →
  ∃ l1 es args, opened l conn p l1 ∧ sa_peer args = p ∧ sa_controlling args = c
  ∧ result (opening pk p i cfg c m K F) l = result (K conn (l_created l)) l1
  ∧ final (opening pk p i cfg c m K F) l = final (K conn (l_created l)) l1
  ∧ outputs (opening pk p i cfg c m K F) l
    = LNotifyConnect pk (canonical p) i :: es ++ [LNew (l_created l) args]
        ++ outputs (K conn (l_created l)) l1
  ∧ (es = [] ∨ es = [LMdnsStart]).
Proof.
  intros Hc. unfold opening, result, final, outputs, exec.
  destruct (make_session_run cfg p c (CbKernel conn) m (l <| l_connects := S (l_connects l) |>))
    as (cs & q & b & es & Hm & Hes).
  exists (registered conn (l_created l) p ((resolved (l <| l_connects := S (l_connects l) |>) cs q b)
    <| l_created := S (l_created l) |>)), es, (mkSessionArgs cs cfg p c (CbKernel conn) m).
  rewrite run_bind, notify_connect_run, Hc, run_bind, Hm, run_bind, register_session_run.
  change (l_created (l <| l_connects := S (l_connects l) |>)) with (l_created l).
  destruct (run (K conn (l_created l)) _) as [[a l2] out]. cbn.
  split_and!; try done; [by exists cs, q, b|]. by rewrite <- app_assoc.
Qed.
Lemma connect_ok uri p pk l conn :
  ready l → uri_peer uri = Some p → parse_peer_pk_hex GN_PUBLIC_KEY_BYTES p = Some pk →
  host_connect (l_connects l) pk (canonical p) true = (GN_OK, Some conn) →
  result (connect uri) l = (GN_OK, Some conn) ∧ opened l conn p (final (connect uri) l).
Proof.
  intros [Hs Ha] Hu Hp Hc. unfold connect. rewrite final_get, result_bind.
  change (result get l) with l. change (final get l) with l. rewrite Hs, Hu, Hp, Ha. cbn [negb].
  set (K := λ (conn : Z) (h : nat), emit (LPost h [IGather]) ;;
    (if api_has api_kick_handshake l then emit (LKickHandshake conn) else skip) ;;
    mret (GN_OK, Some conn) : link (gn_result * option Z)).
  destruct (opening_ok pk p true (l_cfg l) true true K (λ rc, (rc, None)) l conn Hc)
    as (l1 & es & args & Ho & _ & _ & Hr & Hf & _).
  unfold opening in Hr, Hf. unfold K in Hr at 1, Hf at 1. rewrite Hr, Hf.
  unfold K. by destruct (api_has api_kick_handshake l).
Qed.

Definition offer_kind (eoc : bool) : Z := if eoc then ICE_SIGNAL_OFFER_EOC else ICE_SIGNAL_OFFER.
Definition answer_kind (eoc : bool) : Z := if eoc then ICE_SIGNAL_ANSWER_EOC else ICE_SIGNAL_ANSWER.

(** A signal is taken: none of the guards of [deliver_signal] refuses it. *)
Lemma deliver_signal_parsed pk kind blob sg l :
  l_shutdown l = false → parse_signal blob = Some sg →
  lite_mode (l_cfg l) && negb (bool_decide (Z.land (sg_flags sg) ICE_SIGNAL_FLAG_LITE = 0)) = false →
  (∀ eoc, kind = offer_kind eoc → run (deliver_signal pk kind blob) l = run (deliver_offer pk sg eoc) l)
  ∧ (∀ eoc, kind = answer_kind eoc →
       run (deliver_signal pk kind blob) l = run (deliver_answer pk sg eoc) l).
Proof.
  intros Hs Hb Hl. unfold deliver_signal. rewrite run_get, Hs. cbn zeta.
  split; intros [] ->; cbn; by rewrite Hb, Hl.
Qed.

Lemma deliver_offer_ok pk sg eoc l conn :
  api_has api_notify_connect l = true → stranger (pk_to_hex pk) l →
  host_connect (l_connects l) pk (canonical (pk_to_hex pk)) false = (GN_OK, Some conn) →
  result (deliver_offer pk sg eoc) l = GN_OK
  ∧ opened l conn (pk_to_hex pk) (final (deliver_offer pk sg eoc) l)
  ∧ ∃ es args, outputs (deliver_offer pk sg eoc) l
    = LNotifyConnect pk (canonical (pk_to_hex pk)) false :: es
      ++ [LNew (l_created l) args; LCall (l_created l) (IPeerFlags (sg_flags sg));
          LPost (l_created l) [IGather; add_remote sg eoc]]
    ∧ sa_peer args = pk_to_hex pk ∧ sa_controlling args = false ∧ (es = [] ∨ es = [LMdnsStart]).
Proof.
  intros Ha [Hi Hm _] Hc. unfold deliver_offer. rewrite final_get, outputs_get, result_bind.
  change (result get l) with l. change (final get l) with l. cbn zeta. rewrite Ha. cbn [negb].
  assert (offer_session l (pk_to_hex pk) = None) as ->.
  { unfold offer_session, composer_session. by rewrite Hm, Hi. }
  set (K := λ (_ : Z) (h : nat), fold_signal h sg eoc true ;; mret GN_OK : link gn_result).
  destruct (opening_ok pk (pk_to_hex pk) false (l_cfg l) false
    (mdns_obfuscate_host_candidates (l_cfg l)) K id l conn Hc)
    as (l1 & es & args & Ho & Hpe & Hco & Hr & Hf & Hou & Hes).
  unfold opening in Hr, Hf, Hou. unfold K in Hr at 1, Hf at 1, Hou at 1.
  split_and!; [exact Hr | exact (eq_ind_r (opened l conn (pk_to_hex pk)) Ho Hf) | exists es, args; split_and!; [exact Hou | done..]].
Qed.

(** After opening a session for a stranger the link knows it as the peer's one. *)
Lemma opened_knows l conn p l' : opened l conn p l' → stranger p l →
  l_sessions l' !! conn = Some (mkPeer (l_created l) p) ∧ l_peer_to_ids l' !! p = Some [conn]
  ∧ l_shutdown l' = l_shutdown l ∧ l_outbound_signals l' = l_outbound_signals l
  ∧ l_cfg l' = l_cfg l ∧ l_composer l' = l_composer l ∧ l_api l' = l_api l.
Proof.
  intros (cs & q & b & ->) [Hi _ _]. cbn. rewrite Hi, !lookup_insert_eq. by split_and!.
Qed.
End opening.

(** * Offer and answer *)

(** The session of [conn] has gathered, and the caller takes the signal for its peer. *)
Definition publish (conn : Z) (s : IceSession) (pk : bytes) (cap : nat) : link poll_result :=
  on_gathered conn s ;; poll_local_signal pk cap.

Lemma publish_run conn h s pk cap l :
  l_shutdown l = false → l_sessions l !! conn = Some (mkPeer h (pk_to_hex pk)) →
  l_outbound_signals l !! pk_to_hex pk = None → (length (os_blob (signal_of s)) ≤ cap)%nat →
  result (publish conn s pk cap) l = (GN_OK, Some (signal_of s), Some (length (os_blob (signal_of s))))
  ∧ ∃ m, final (publish conn s pk cap) l = l <| l_outbound_signals := m |>.
Proof.
  intros Hs Hc Ho Hcap. unfold publish. rewrite result_bind, final_bind. unfold on_gathered.
  rewrite final_get, Hs, Hc. cbn [pe_peer].
  set (l1 := final (enqueue_local_signal (pk_to_hex pk) s) l).
  assert (queue l1 (pk_to_hex pk) = [signal_of s]) as Hq.
  { unfold l1. rewrite queue_enqueue. unfold spec_update, queue. by rewrite decide_True, Ho. }
  assert (l_shutdown l1 = false) as Hs1 by done.
  pose proof (poll_local_signal_run pk cap l1 Hs1) as Hr. rewrite Hq, decide_False in Hr by lia.
  unfold result, final at 1, exec. rewrite Hr. split; [done|]. by eexists.
Qed.

Lemma uri_peer_canonical pk : bytes_ok pk → uri_peer (canonical (pk_to_hex pk)) = Some (pk_to_hex pk).
Proof.
  intros Hpk. unfold uri_peer, canonical. rewrite decide_True by done.
  change (drop 6 (str "ice://" ++ pk_to_hex pk)) with (pk_to_hex pk).
  rewrite decide_False; [done|]. intros Hl.
  assert (Forall (λ c, c ≠ 47) (pk_to_hex pk)) as Hf.
  { unfold pk_to_hex. apply Forall_bind. eapply Forall_impl; [exact Hpk|]. intros b Hb.
    destruct (byte_digits b Hb) as (Hh & Hlo & _).
    repeat constructor; unfold hex_char; case_decide; lia. }
  apply last_Some in Hl as (l & Hl). rewrite Hl, Forall_app in Hf. destruct Hf as [_ Hf].
  by apply Forall_cons in Hf as [Hf _].
Qed.

Lemma run_eq_parts {A} (m m' : link A) l : run m l = run m' l →
  result m l = result m' l ∧ final m l = final m' l ∧ outputs m l = outputs m' l.
Proof. intros Hr. unfold result, final, outputs, exec. by rewrite Hr. Qed.

(** An answer goes to the first kernel session of the peer. *)
Lemma deliver_answer_run pk sg l conn ids h :
  l_peer_to_ids l !! pk_to_hex pk = Some (conn :: ids) →
  l_sessions l !! conn = Some (mkPeer h (pk_to_hex pk)) →
  result (deliver_answer pk sg true) l = GN_OK
  ∧ outputs (deliver_answer pk sg true) l
    = [LCall h (IPeerFlags (sg_flags sg)); LPost h [add_remote sg true]].
Proof.
  intros Hi Hs. unfold deliver_answer. rewrite outputs_get, result_bind.
  change (result get l) with l. change (final get l) with l.
  unfold answer_session. rewrite Hi. cbn. by rewrite Hs.
Qed.

Section exchange.
Context (EA EB : LinkEnv).
(** [A] calls [B]: [B]'s key is one of [A]'s host, neither link knows the other's peer
    and both hosts accept the connection. *)
Context (A B : IceLink) (pkA pkB : bytes) (connA connB : Z).
Hypothesis (ready_A : ready A) (ready_B : ready B).
Hypothesis (new_A : stranger (pk_to_hex pkB) A) (new_B : stranger (pk_to_hex pkA) B).
Hypothesis key_B : bytes_ok pkB ∧ length pkB = @GN_PUBLIC_KEY_BYTES EA.
Hypothesis host_A :
  @host_connect EA (l_connects A) pkB (canonical (pk_to_hex pkB)) true = (GN_OK, Some connA).
Hypothesis host_B :
  @host_connect EB (l_connects B) pkA (canonical (pk_to_hex pkA)) false = (GN_OK, Some connB).

(** The two sessions when they have gathered; not both sides are lite. *)
Context (sa sb : IceSession) (cap : nat).
Hypothesis (pub_a : publishable sa) (pub_b : publishable sb).
Hypothesis (roles : s_controlling sa = true ∧ s_controlling sb = false).
Hypothesis (lite_a : lite_mode (l_cfg B) && lite_mode (cfg sa) = false).
Hypothesis (lite_b : lite_mode (l_cfg A) && lite_mode (cfg sb) = false).
Hypothesis cap_ok : (length (os_blob (signal_of sa)) ≤ cap)%nat ∧ (length (os_blob (signal_of sb)) ≤ cap)%nat.

(** C1 (signalling): [A] connects to [B]'s key.  The signal its caller polls once
    [A]'s session has gathered makes [B] open a controlled session for [A]'s key, which
    gathers and gets exactly [A]'s credentials and candidates; the signal [B]'s caller
    polls then brings [B]'s credentials and candidates to [A]'s session. *)
Theorem signalling_exchange :
  let A1 := final (@connect EA (canonical (pk_to_hex pkB))) A in
  let A2 := final (publish connA sa pkB cap) A1 in
  let offer := deliver_signal (H := EB) pkA ICE_SIGNAL_OFFER_EOC (os_blob (signal_of sa)) in
  let answer := deliver_signal (H := EA) pkB ICE_SIGNAL_ANSWER_EOC (os_blob (signal_of sb)) in
  result (@connect EA (canonical (pk_to_hex pkB))) A = (GN_OK, Some connA)
  ∧ (result (publish connA sa pkB cap) A1).1
    = (GN_OK, Some (mkOutbound ICE_SIGNAL_OFFER_EOC (os_blob (signal_of sa))))
  ∧ result offer B = GN_OK
  ∧ LPost (l_created B) [IGather; add_remote (published sa) true] ∈ outputs offer B
  ∧ (result (publish connB sb pkA cap) (final offer B)).1
    = (GN_OK, Some (mkOutbound ICE_SIGNAL_ANSWER_EOC (os_blob (signal_of sb))))
  ∧ result answer A2 = GN_OK
  ∧ outputs answer A2 = [LCall (l_created A) (IPeerFlags (local_signal_flags sb));
                         LPost (l_created A) [add_remote (published sb) true]].
Proof.
  intros A1 A2 offer answer. destruct key_B as [Hok Hlen], cap_ok as [Hca Hcb], roles as [Hra Hrb].
  destruct (connect_ok (H := EA) (canonical (pk_to_hex pkB)) (pk_to_hex pkB) pkB A connA) as [Hr HA1];
    [done | by apply uri_peer_canonical | rewrite <- Hlen; by apply parse_pk_to_hex | done |].
  fold A1 in HA1. destruct (opened_knows _ _ _ _ HA1 new_A) as (As & Ai & Ad & Ao & Ac & _ & _).
  destruct (publish_run connA (l_created A) sa pkB cap A1) as [Hpa (ma & HA2)];
    [rewrite Ad; apply ready_A | done | rewrite Ao; apply new_A | done |]. fold A2 in HA2.
  destruct ready_B as [HsB HaB].
  assert (parse_signal (os_blob (signal_of sa)) = Some (published sa)) as Hsa by by apply parse_signal_of.
  destruct (deliver_signal_parsed (H := EB) pkA ICE_SIGNAL_OFFER_EOC _ _ B HsB Hsa) as [Hoff _].
  { cbn [sg_flags published]. by rewrite (proj2 (proj2 (signal_flags_range sa))). }
  destruct (run_eq_parts _ _ _ (Hoff true eq_refl)) as (Hofr & Hoff1 & Hofo). fold offer in Hofr, Hoff1, Hofo.
  destruct (deliver_offer_ok (H := EB) pkA (published sa) true B connB HaB new_B host_B)
    as (Hor & HB1 & es & args & Hout & _).
  destruct (opened_knows _ _ _ _ HB1 new_B) as (Bs & _ & Bd & Bo & _).
  destruct (publish_run connB (l_created B) sb pkA cap (final offer B)) as [Hpb _];
    [rewrite Hoff1, Bd; done | by rewrite Hoff1 | rewrite Hoff1, Bo; apply new_B | done |].
  assert (parse_signal (os_blob (signal_of sb)) = Some (published sb)) as Hsb by by apply parse_signal_of.
  destruct (deliver_signal_parsed (H := EA) pkB ICE_SIGNAL_ANSWER_EOC _ _ A2
    ltac:(rewrite HA2; cbn; rewrite Ad; apply ready_A) Hsb) as [_ Hans].
  { rewrite HA2. cbn [l_cfg sg_flags published]. rewrite (proj2 (proj2 (signal_flags_range sb))).
    cbn. by rewrite Ac. }
  destruct (run_eq_parts _ _ _ (Hans true eq_refl)) as (Har & _ & Hao). fold answer in Har, Hao.
  destruct (deliver_answer_run pkB (published sb) A2 connA [] (l_created A)) as [Hanr Hano];
    [by rewrite HA2 | by rewrite HA2 |].
  rewrite Hpa, Hpb, Hofr, Hofo, Hor, Hout, Har, Hao, Hanr, Hano. unfold signal_of. rewrite Hra, Hrb.
  split_and!; try done. rewrite elem_of_cons, elem_of_app, !elem_of_cons. do 4 right. by left.
Qed.
End exchange.

(** * Trickled offers *)

Section trickle.
Context `{LinkEnv}.

(** Offers of one peer, each final or not, as snapshots of the session sending them. *)
Definition offers (pk : bytes) (os : list (bool * IceSession)) : link unit :=
  for_each (λ x, deliver_signal pk (offer_kind x.1) (os_blob (signal_of x.2)) ;; skip) os.

(** What a further offer makes the link do with the session [h]. *)
Definition folded (h : nat) (x : bool * IceSession) : list link_event :=
  [LCall h (IPeerFlags (local_signal_flags x.2)); LPost h [add_remote (published x.2) x.1]].

Definition deliverable (l : IceLink) (s : IceSession) : Prop :=
  publishable s ∧ lite_mode (l_cfg l) && lite_mode (cfg s) = false.

Lemma offer_run pk eoc s l : l_shutdown l = false → deliverable l s →
  run (deliver_signal pk (offer_kind eoc) (os_blob (signal_of s))) l = run (deliver_offer pk (published s) eoc) l.
Proof.
  intros Hs [Hp Hl]. apply (deliver_signal_parsed pk (offer_kind eoc) _ (published s) l); try done.
  - by apply parse_signal_of.
  - cbn [sg_flags published]. by rewrite (proj2 (proj2 (signal_flags_range s))).
Qed.

(** Once the peer has one session, its offers go there and change nothing else. *)
Lemma offers_fold pk os l h : ready l → offer_session l (pk_to_hex pk) = Some h →
  Forall (λ x, deliverable l x.2) os →
  final (offers pk os) l = l ∧ outputs (offers pk os) l = os ≫= folded h.
Proof.
  intros [Hs Ha] Hh. induction 1 as [|[eoc s] os Hd Hos [IHf IHo]]; [done|].
  unfold offers. rewrite final_for_each_cons, outputs_for_each_cons.
  destruct (run_eq_parts _ _ _ (offer_run pk eoc s l Hs Hd)) as (_ & Hf & Ho).
  assert (final (deliver_offer pk (published s) eoc) l = l
    ∧ outputs (deliver_offer pk (published s) eoc) l = folded h (eoc, s)) as [Hf' Ho'].
  { unfold deliver_offer. rewrite final_get, outputs_get. cbn zeta. rewrite Ha, Hh. done. }
  rewrite final_bind, outputs_bind. cbn [fst snd]. rewrite Hf, Ho, Hf', Ho'.
  change (final skip l) with l. change (outputs skip l) with (@nil link_event).
  rewrite app_nil_r. fold (offers pk os). rewrite IHf, IHo. done.
Qed.

(** Trickled offers: the first offer of an unknown peer opens one controlled
    session, which gathers and then gets the offer's candidates; every further offer
    of the peer, in order, goes to that session: no second session is opened. *)
Theorem trickled_offers pk eoc s os l conn :
  ready l → stranger (pk_to_hex pk) l →
  host_connect (l_connects l) pk (canonical (pk_to_hex pk)) false = (GN_OK, Some conn) →
  Forall (λ x, deliverable l x.2) ((eoc, s) :: os) →
  ∃ es args, outputs (offers pk ((eoc, s) :: os)) l
    = LNotifyConnect pk (canonical (pk_to_hex pk)) false :: es
      ++ [LNew (l_created l) args; LCall (l_created l) (IPeerFlags (local_signal_flags s));
          LPost (l_created l) [IGather; add_remote (published s) eoc]]
      ++ (os ≫= folded (l_created l))
    ∧ sa_peer args = pk_to_hex pk ∧ sa_controlling args = false ∧ (es = [] ∨ es = [LMdnsStart]).
Proof.
  intros [Hs Ha] Hn Hc [Hd Hos]%Forall_cons. unfold offers. rewrite outputs_for_each_cons.
  destruct (run_eq_parts _ _ _ (offer_run pk eoc s l Hs Hd)) as (_ & Hf & Ho).
  destruct (deliver_offer_ok pk (published s) eoc l conn Ha Hn Hc)
    as (_ & Hop & es & args & Hout & Hargs).
  exists es, args. split; [|exact Hargs]. rewrite final_bind, outputs_bind. cbn [fst snd].
  rewrite Ho, Hf, Hout. change (final skip ?l) with l. fold (offers pk os).
  destruct (opened_knows _ _ _ _ Hop Hn) as (Ks & Ki & Kd & _ & Kc & Km & Kapi).
  edestruct (offers_fold pk os (final (deliver_offer pk (published s) eoc) l)) as [_ Ho2];
    [| | |erewrite Ho2].
  - split; [by rewrite Kd|]. unfold api_has. by rewrite Kapi.
  - unfold offer_session, composer_session. rewrite Km, (no_composer _ _ Hn). cbn. by rewrite Ki, Ks.
  - eapply Forall_impl; [exact Hos|]. intros x [??]. split; [done|]. by rewrite Kc.
  - cbn. by rewrite app_nil_r, <- !app_assoc.
Qed.
End trickle.

(** * Peers in upper case *)

Section spelling.
Context `{LinkEnv}.

(** Upper-case peers cannot be signalled: the kernel connects to a peer whose
    key it spells with an upper-case digit.  The call succeeds and the session
    gathers, but the link files both under the spelling of the URI and looks them up
    under the lower-case one: the caller polls no signal for the peer's key, and the
    peer's answer is refused. *)
Theorem upper_case_peer uri hex pk l conn s sb cap :
  ready l → uri_peer uri = Some hex → parse_peer_pk_hex GN_PUBLIC_KEY_BYTES hex = Some pk →
  hex ≠ hex_lower hex → stranger (hex_lower hex) l → stranger hex l →
  host_connect (l_connects l) pk (canonical hex) true = (GN_OK, Some conn) →
  deliverable l sb →
  let l1 := final (connect uri) l in
  result (connect uri) l = (GN_OK, Some conn)
  ∧ result (publish conn s pk cap) l1 = (GN_ERR_NOT_FOUND, None, None)
  ∧ result (deliver_signal pk ICE_SIGNAL_ANSWER_EOC (os_blob (signal_of sb)))
      (final (publish conn s pk cap) l1) = GN_ERR_NOT_FOUND.
Proof.
  intros Hr Hu Hp Hne Hlow Hup Hc [Hpb Hlb] l1.
  destruct (pk_to_hex_parse _ _ _ Hp) as (_ & _ & Hhex).
  destruct (connect_ok uri hex pk l conn Hr Hu Hp Hc) as [Hres Hop]. fold l1 in Hop.
  destruct (opened_knows _ _ _ _ Hop Hup) as (Ks & _ & Kd & Ko & Kc & Km & _).
  destruct Hr as [Hs _]. split; [done|]. rewrite <- Hhex in Hne, Hlow.
  unfold publish. rewrite result_bind, final_bind. unfold on_gathered.
  rewrite final_get, Kd, Hs, Ks. cbn [pe_peer].
  set (l2 := final (enqueue_local_signal hex s) l1).
  assert (l_shutdown l2 = false) as Hs2 by (cbn; by rewrite Kd).
  assert (queue l2 (pk_to_hex pk) = []) as Hq.
  { unfold l2. rewrite queue_enqueue. unfold spec_update, queue.
    rewrite decide_False by done. by rewrite Ko, (no_signals _ _ Hlow). }
  pose proof (poll_local_signal_run pk cap l2 Hs2) as Hpoll. rewrite Hq in Hpoll.
  unfold result at 1, final, exec. rewrite Hpoll. split; [done|]. cbn [fst snd].
  destruct (deliver_signal_parsed pk ICE_SIGNAL_ANSWER_EOC (os_blob (signal_of sb)) (published sb) l2 Hs2)
    as [_ Hans]; [by apply parse_signal_of| |].
  { cbn [sg_flags published]. rewrite (proj2 (proj2 (signal_flags_range sb))). cbn. by rewrite Kc. }
  destruct (run_eq_parts _ _ _ (Hans true eq_refl)) as (-> & _).
  unfold deliver_answer. rewrite result_bind. change (result get l2) with l2.
  assert (answer_session l2 (pk_to_hex pk) = None) as ->; [|done].
  unfold answer_session, composer_session, l2. cbn. destruct Hop as (cs & q & b & ->).
  cbn. rewrite lookup_insert_ne by done. by rewrite (no_ids _ _ Hlow), (no_composer _ _ Hlow).
Qed.
End spelling.

(** * Instances *)

Module SignalRef.
Definition gathered (controlling : bool) (ufrag : bytes) : IceSession :=
  (new_session (SessionRef.fixed default_config 5) controlling ufrag (str "0123456789abcdefghijklmn") 1)
    <| s_local_candidates := [example_host; example_mdns] |>.
Definition caller : IceSession := gathered true (str "caller01").
Definition callee : IceSession := gathered false (str "callee01").
Definition pk_a : bytes := [10; 255].
Definition pk_b : bytes := [1; 2].

Lemma gathered_publishable c u : fits_field 8 u → publishable (gathered c u).
Proof.
  intros Hu. split; [|cbn; lia|exact Hu|].
  - apply (bool_decide_unpack _). vm_compute. done.
  - split; [apply (bool_decide_unpack _); vm_compute; done | cbn; lia].
Qed.

Lemma up_stranger p : stranger p LinkRef.up.
Proof. split; apply lookup_empty. Qed.

Lemma key_ok : bytes_ok pk_b ∧ length pk_b = @GN_PUBLIC_KEY_BYTES LinkRef.env.
Proof. split; [|done]. repeat constructor; unfold is_u8; lia. Qed.

Lemma caps_ok :
  (length (os_blob (signal_of caller)) ≤ 400)%nat ∧ (length (os_blob (signal_of callee)) ≤ 400)%nat.
Proof.
  assert (length (os_blob (signal_of caller)) = 107%nat) as -> by (vm_compute; done).
  assert (length (os_blob (signal_of callee)) = 107%nat) as -> by (vm_compute; done). lia.
Qed.

Lemma caller_ok : publishable caller.
Proof. apply gathered_publishable. split; [by repeat constructor | cbn; lia]. Qed.
Lemma callee_ok : publishable callee.
Proof. apply gathered_publishable. split; [by repeat constructor | cbn; lia]. Qed.
End SignalRef.

Lemma outbound_queue_refines_witness :
  result (queue_run [QGathered (str "0aff") SignalRef.caller; QPoll SignalRef.pk_a 4;
                     QPoll SignalRef.pk_a 400; QPoll SignalRef.pk_a 400]) LinkRef.up
  = [(GN_ERR_OUT_OF_RANGE, None, Some 107%nat);
     (GN_OK, Some (signal_of SignalRef.caller), Some 107%nat);
     (GN_ERR_NOT_FOUND, None, None)].
Proof. rewrite (outbound_queue_refines _ LinkRef.up eq_refl). vm_compute. done. Defined.

Lemma signalling_exchange_witness :
  let A := LinkRef.up in let B := LinkRef.up in
  let offer := deliver_signal (H := LinkRef.env) SignalRef.pk_a ICE_SIGNAL_OFFER_EOC
                 (os_blob (signal_of SignalRef.caller)) in
  result offer B = GN_OK
  ∧ LPost 0 [IGather; add_remote (published SignalRef.caller) true] ∈ outputs offer B
  ∧ outputs (deliver_signal (H := LinkRef.env) SignalRef.pk_b ICE_SIGNAL_ANSWER_EOC
               (os_blob (signal_of SignalRef.callee)))
      (final (publish 1 SignalRef.caller SignalRef.pk_b 400)
         (final (@connect LinkRef.env (str "ice://0102")) A))
    = [LCall 0 (IPeerFlags 0); LPost 0 [add_remote (published SignalRef.callee) true]].
Proof.
  destruct (signalling_exchange LinkRef.env LinkRef.env LinkRef.up LinkRef.up SignalRef.pk_a
    SignalRef.pk_b 1 1 (conj eq_refl eq_refl) (conj eq_refl eq_refl)
    (SignalRef.up_stranger _) (SignalRef.up_stranger _)
    SignalRef.key_ok eq_refl eq_refl
    SignalRef.caller SignalRef.callee 400
    SignalRef.caller_ok SignalRef.callee_ok
    (conj eq_refl eq_refl) eq_refl eq_refl
    SignalRef.caps_ok)
    as (_ & _ & Hr & Hp & _ & _ & Ha).
  split_and!; [exact Hr | exact Hp | exact Ha].
Defined.

Lemma trickled_offers_witness :
  let s := SignalRef.caller in
  ∃ es args, outputs (offers (H := LinkRef.env) SignalRef.pk_a [(false, s); (false, s); (true, s)]) LinkRef.up
    = LNotifyConnect SignalRef.pk_a (str "ice://0aff") false :: es
      ++ [LNew 0 args; LCall 0 (IPeerFlags 0); LPost 0 [IGather; add_remote (published s) false]]
      ++ folded 0 (false, s) ++ folded 0 (true, s).
Proof.
  intros s.
  assert (deliverable LinkRef.up s) as Hd
    by (split; [exact SignalRef.caller_ok | done]).
  destruct (trickled_offers (H := LinkRef.env) SignalRef.pk_a false s [(false, s); (true, s)] LinkRef.up 1
    (conj eq_refl eq_refl) (SignalRef.up_stranger _) eq_refl) as (es & args & Ho & _);
    [by repeat constructor|].
  exists es, args. exact Ho.
Defined.

Lemma upper_case_peer_witness :
  result (@connect LinkRef.env (str "ice://0AFF")) LinkRef.up = (GN_OK, Some 1)
  ∧ result (publish 1 SignalRef.caller SignalRef.pk_a 400)
      (final (@connect LinkRef.env (str "ice://0AFF")) LinkRef.up) = (GN_ERR_NOT_FOUND, None, None).
Proof.
  destruct (upper_case_peer (H := LinkRef.env) (str "ice://0AFF") (str "0AFF") SignalRef.pk_a LinkRef.up 1
    SignalRef.caller SignalRef.callee 400 (conj eq_refl eq_refl) eq_refl eq_refl) as (Hc & Hp & _);
    [by vm_compute | apply SignalRef.up_stranger | apply SignalRef.up_stranger | done | |by split].
  split; [exact SignalRef.callee_ok | done].
Defined.
