(* ===== verification/LinkLife.v ===== *)
(** The life of the link: data from one host to the other through both links, all of
    a batch or nothing of it, shutdown, and what a reload forgets. *)

From stdpp Require Import gmap.
From S2P Require Import Prelude Bytes Inet Candidate Stun SessionState Delivery Session.
From S2P Require Import LinkConfig PeerKey Link LinkRegistry LinkSignal.

(** * Data *)

Section data.
Context `{LinkEnv}.

(** What a link that is up does with the frames for a session. *)
Lemma send_frames_run conn h frames l :
  l_shutdown l = false → session_of l conn = Some h →
  Forall (λ f, Z.of_nat (length f) ≤ l_mtu l) frames →
  result (send_frames conn frames) l = GN_OK
  ∧ outputs (send_frames conn frames) l = (λ f, LCall h (ISend f)) <$> frames.
Proof.
  intros Hs Hh Hf. revert l Hs Hh Hf. induction frames as [|f frames IH]; intros l Hs Hh Hf; [done|].
  apply Forall_cons in Hf as [Hf Hfs]. cbn [send_frames].
  assert (run (send_bytes conn f) l
    = (GN_OK, l <| l_counters := count_out f (l_counters l) |>, [LCall h (ISend f)])) as Hr.
  { unfold send_bytes. rewrite run_get, Hs, Hh, decide_False by lia. done. }
  assert (result (send_bytes conn f) l = GN_OK) as Hr1 by (unfold result; by rewrite Hr).
  assert (final (send_bytes conn f) l = l <| l_counters := count_out f (l_counters l) |>) as Hr2
    by (unfold final, exec; by rewrite Hr).
  assert (outputs (send_bytes conn f) l = [LCall h (ISend f)]) as Hr3
    by (unfold outputs, exec; by rewrite Hr).
  rewrite result_bind, outputs_bind. fold (result (send_bytes conn f) l). rewrite Hr1, Hr2, Hr3. cbn.
  destruct (IH (l <| l_counters := count_out f (l_counters l) |>)) as [Hr' Ho']; [done..|].
  split; [exact Hr' | by f_equal].
Qed.

Lemma send_batch_run conn frames l h :
  Forall (λ f, Z.of_nat (length f) ≤ l_mtu l) frames →
  l_shutdown l = false → session_of l conn = Some h →
  result (send_batch conn frames) l = GN_OK
  ∧ outputs (send_batch conn frames) l = (λ f, LCall h (ISend f)) <$> frames.
Proof.
  intros Hf Hs Hh. unfold send_batch. rewrite result_bind, outputs_get.
  change (result get l) with l. change (final get l) with l.
  rewrite decide_False; [by apply send_frames_run|].
  intros (f & Hin & Hx)%Exists_exists. rewrite Forall_forall in Hf. specialize (Hf f Hin). lia.
Qed.

(** Batches: a batch with a frame above the MTU is refused before anything is
    sent, whatever its position; on a link that is up, a batch of frames that fit, for
    a connection that exists, is handed to the session completely and in order. *)
Theorem send_batch_all_or_nothing conn frames l :
  (Exists (λ f, Z.of_nat (length f) > l_mtu l) frames →
   run (send_batch conn frames) l = (GN_ERR_PAYLOAD_TOO_LARGE, l, []))
  ∧ (Forall (λ f, Z.of_nat (length f) ≤ l_mtu l) frames →
     ∀ h, l_shutdown l = false → session_of l conn = Some h →
     result (send_batch conn frames) l = GN_OK
     ∧ outputs (send_batch conn frames) l = (λ f, LCall h (ISend f)) <$> frames).
Proof.
  split; [|intros Hf h Hs Hh; by apply send_batch_run].
  intros Hx. unfold send_batch. rewrite run_get. by rewrite decide_True.
Qed.

(** What a session hands up reaches the host in order. *)
Lemma on_data_all conn ds l :
  l_shutdown l = false → api_has api_notify_inbound_bytes l = true →
  outputs (for_each (on_data conn) ds) l = LNotifyInbound conn <$> ds.
Proof.
  revert l. induction ds as [|d ds IH]; intros l Hs Ha; [done|].
  rewrite outputs_for_each_cons.
  assert (exec (on_data conn d) l = (l <| l_counters := count_in d (l_counters l) |>, [LNotifyInbound conn d]))
    as Hr. { unfold on_data, exec. rewrite run_get, Hs, Ha. done. }
  unfold outputs at 1, final. rewrite Hr. cbn. f_equal. by apply IH.
Qed.
End data.

(** The methods called on one session, and the bytes a session hands up. *)
Definition calls_on (h : nat) (e : link_event) : option session_input :=
  match e with LCall h' i => if decide (h' = h) then Some i else None | _ => None end.
Definition handed_up (e : session_event) : option bytes :=
  match e with EData d => Some d | _ => None end.

(** * Ordered delivery through the carrier *)

(** A connected session with ordered delivery, for which [cid] is a connection to its
    peer and not to a TURN server. *)
Definition receiving (s : IceSession) (cid : Z) : Prop :=
  s_state s = Connected ∧ ordered_delivery (cfg s) = true
  ∧ is_server_cid (s_turn s) cid = false ∧ is_server_cid (s_turn_backup_probe s) cid = false.

Section carrier.
Context `{InetOps} `{Hmac} `{SessionEnv}.

(** A numbered frame whose payload does not begin with the magic cookie of STUN is not
    taken for STUN. *)
Lemma numbered_not_stun i f : read32 f 0 ≠ Some STUN_MAGIC_COOKIE → parsed_stun (write32 i ++ f) = None.
Proof.
  intros Hf. unfold parsed_stun, parse_stun. case_decide as Hl; [done|].
  rewrite length_app, length_write32 in Hl.
  destruct (read16_in (write32 i ++ f) 0) as [? ->]; [rewrite length_app, length_write32; lia|].
  destruct (read16_in (write32 i ++ f) 2) as [? ->]; [rewrite length_app, length_write32; lia|]. sbind.
  change (read32 (write32 i ++ f) 4) with (read32 (write32 i ++ f) (length (write32 i) + 0)).
  rewrite read32_skip. destruct (read32_in f 0) as [c Hc]; [lia|]. rewrite Hc. sbind.
  rewrite decide_True by congruence. done.
Qed.

(** Frames that are not STUN go from the carrier to ordered delivery. *)
Lemma carrier_delivers cid ds s t :
  receiving s cid → s_ordered s = s_ordered t → Forall (λ d, parsed_stun d = None) ds →
  outputs (for_each (λ d, session_handle (ICarrierData cid d)) ds) s
  = outputs (for_each deliver_in_order ds) t.
Proof.
  intros Hr E Hd. revert s t Hr E.
  induction Hd as [|d ds Hd _ IH]; intros s t (Hs & Ho & Ht & Hb) E; [done|].
  rewrite !outputs_for_each_cons. cbn [session_handle]. unfold on_carrier_data, touch.
  rewrite outputs_modify, final_modify, outputs_get, final_get.
  set (s1 := s <| s_last_activity := _ |>).
  change (s_turn s1) with (s_turn s). change (s_turn_backup_probe s1) with (s_turn_backup_probe s).
  change (s_state s1) with (s_state s). change (cfg s1) with (cfg s).
  rewrite Ht, Hb, Hd, Ho, decide_True by done. cbn [andb negb].
  destruct (deliver_in_order_outcome d s1 t E) as [-> Ef]. f_equal.
  apply IH; [|done]. destruct (deliver_in_order_only d s1) as [o ->]. done.
Qed.

(** Application data that begins with the magic cookie: as the first message of an
    ordered session, the number of the frame reads as the type and the length of a STUN
    message, and the receiver drops it. *)
Lemma cookie_frame_swallowed s cid rest :
  receiving s cid → (12 ≤ length rest)%nat →
  outputs (session_handle (ICarrierData cid (write32 0 ++ write32 STUN_MAGIC_COOKIE ++ rest))) s = [].
Proof.
  intros (Hs & Ho & Ht & Hb) Hl. cbn [session_handle]. unfold on_carrier_data, touch.
  rewrite outputs_modify, outputs_get.
  set (d := write32 0 ++ write32 STUN_MAGIC_COOKIE ++ rest). set (s1 := s <| s_last_activity := _ |>).
  change (s_turn s1) with (s_turn s). change (s_turn_backup_probe s1) with (s_turn_backup_probe s).
  rewrite Ht, Hb.
  assert (20 ≤ length d)%nat as Hd by (unfold d; rewrite !length_app, !length_write32; lia).
  assert (parsed_stun d = Some (empty_message 0 (slice d 8 12))) as ->.
  { unfold parsed_stun, parse_stun. rewrite decide_False by lia.
    change (read16 d 0) with (Some 0). change (read16 d 2) with (Some 0).
    change (read32 d 4) with (Some STUN_MAGIC_COOKIE). sbind. rewrite decide_False by (intros []; done).
    rewrite decide_False by (cbn; lia). rewrite read_bytes_in by lia. sbind.
    destruct (length d) as [|n] eqn:El; [lia|]. cbn [parse_attrs].
    by rewrite decide_False by (cbn; lia). }
  unfold on_stun. by rewrite outputs_get.
Qed.
End carrier.



Lemma send_batch_all_or_nothing_witness :
  let A := LinkRef.up <| l_sessions := {[7 := mkPeer 0 (str "0aff")]} |> in
  run (send_batch 7 [str "a"; replicate 1201 0]) A = (GN_ERR_PAYLOAD_TOO_LARGE, A, [])
  ∧ outputs (send_batch 7 [str "a"; str "b"]) A = [LCall 0 (ISend (str "a")); LCall 0 (ISend (str "b"))].
Proof.
  intros A. split.
  - apply (proj1 (send_batch_all_or_nothing 7 [str "a"; replicate 1201 0] A)).
    apply Exists_cons_tl, Exists_cons_hd. rewrite length_replicate. cbn. unfold kDefaultMtu. lia.
  - apply (proj2 (send_batch_all_or_nothing 7 [str "a"; str "b"] A)); [|done..].
    repeat constructor; cbn; unfold kDefaultMtu; lia.
Defined.


(** * Shutdown *)

Section down.
Context `{LinkEnv}.

(** The outputs of notifying for a list. *)
Lemma outputs_notify_each ids l : api_has api_notify_disconnect l = true →
  outputs (for_each (λ id, notify_disconnect id GN_OK) ids) l = (λ id, LNotifyDisconnect id GN_OK) <$> ids.
Proof.
  intros Ha. induction ids as [|x xs IH]; [done|]. rewrite outputs_for_each_cons.
  assert (exec (notify_disconnect x GN_OK) l = (l, [LNotifyDisconnect x GN_OK])) as Hr
    by (unfold notify_disconnect, exec; by rewrite run_get, Ha).
  unfold outputs at 1, final. rewrite Hr. cbn. by rewrite IH.
Qed.

(** What a link that is up does when it shuts down. *)
Lemma shutdown_outputs l : l_shutdown l = false → api_has api_notify_disconnect l = true →
  outputs shutdown l = (if l_iface_watcher l then [LWatcherStop] else [])
    ++ ((λ h, LCall h IClose) <$> live_sessions l)
    ++ ((λ id, LNotifyDisconnect id GN_OK) <$> l_published_ids l).
Proof.
  intros Hs Ha. unfold shutdown. rewrite outputs_get, outputs_bind.
  set (w := if l_iface_watcher l then _ else _).
  assert (outputs w l = if l_iface_watcher l then [LWatcherStop] else []) as ->
    by (unfold w; by destruct (l_iface_watcher l)).
  assert (l_api (final w l) = l_api l) as Hw by (unfold w; by destruct (l_iface_watcher l)).
  rewrite Hs, outputs_modify. unfold set_composer. rewrite outputs_modify, outputs_bind. f_equal.
  rewrite (proj1 (outputs_emit_each _ _ _)), (proj2 (outputs_emit_each _ _ _)). f_equal.
  apply outputs_notify_each. unfold api_has in *. cbn. by rewrite Hw.
Qed.

(** A link that is shut down. *)
Record down (l : IceLink) : Prop := {
  down_flag : l_shutdown l = true;
  down_sessions : l_sessions l = ∅;
  down_composer : composer_sessions (l_composer l) = ∅;
  down_watcher : l_iface_watcher l = false;
}.

(** What a link that is shut down still does: a reload reads the configuration. *)
Definition still_reads (api : option HostApi) (i : link_input) : option link_event :=
  match i, api ≫= api_config with
  | JReload, Some _ => Some LReadConfig
  | _, _ => None
  end.

Definition stays_down (i : link_input) (l : IceLink) (es : list link_event) (l' : IceLink) : Prop :=
  down l → down l' ∧ l_api l' = l_api l ∧ l_queries l' = l_queries l
           ∧ es = option_list (still_reads (l_api l) i).

Lemma send_frames_down conn fs l : l_shutdown l = true → exec (send_frames conn fs) l = (l, []).
Proof. intros Hs. destruct fs; [done|]. unfold exec, send_frames, send_bytes. rewrite run_bind, run_get, Hs. done. Qed.

Lemma link_handle_down i : (∀ api, i ≠ JSetHostApi api) → traces (stays_down i) (link_handle i).
Proof.
  intros Hi l Hl. pose proof Hl as [Hf Hs Hc Hw]. unfold outputs, final, exec.
  destruct i; try (by exfalso; eapply Hi); cbn [link_handle]; rewrite ?run_bind.
  all: unfold connect, send_bytes, restart_session, deliver_signal, poll_local_signal, on_reaper_timer,
    composer_connect, on_gathered, on_failed, on_data, on_composer_gathered, on_composer_connected,
    on_composer_failed, on_composer_data, on_auto_restart; rewrite ?run_get, ?Hf; try done.
  - unfold apply_config. rewrite run_get. by destruct (l_api l ≫= api_config) eqn:Ea; cbn; rewrite Ea.
  - unfold send_batch. rewrite run_get. case_decide; [done|]. pose proof (send_frames_down conn frames l Hf) as Hr.
    unfold exec in Hr. destruct (run (send_frames conn frames) l) as [[??]?]. by simplify_eq/=.
  - unfold disconnect. rewrite run_get, Hs, Hc, !lookup_empty. by destruct (is_composer conn).
  - unfold on_interface_change, live_sessions. rewrite run_get, Hs, Hc, !map_to_list_empty. done.
  - unfold composer_subscribe_data. rewrite run_get, Hc, lookup_empty. by destruct (negb _).
  - unfold composer_unsubscribe_data. rewrite run_get, Hc, lookup_empty. by destruct (negb _).
  - unfold composer_subscribe_accept. rewrite run_get. by destruct cb.
  - unfold shutdown. rewrite run_get, run_bind, Hw, Hf. done.
Qed.

Lemma shutdown_down l : l_shutdown l = false → down (final shutdown l).
Proof.
  intros Hs. unfold shutdown. rewrite final_get, final_bind.
  set (w := if l_iface_watcher l then _ else _).
  assert (l_iface_watcher (final w l) = false) as Hw
    by (unfold w; by destruct (l_iface_watcher l) eqn:E).
  rewrite Hs, final_modify. unfold set_composer. rewrite final_modify, final_bind.
  rewrite (proj2 (outputs_emit_each _ _ _)).
  assert (∀ ids l0, down l0 → down (final (for_each (λ id, notify_disconnect id GN_OK) ids) l0)) as Hn.
  { induction ids as [|x xs IH]; intros l0 Hl0; [done|]. rewrite final_for_each_cons.
    apply IH. unfold notify_disconnect. rewrite final_get. by destruct (api_has _ l0). }
  apply Hn. by split.
Qed.


(** How often the host is told that [conn] is gone. *)
Definition tells_gone (conn : Z) (e : link_event) : bool :=
  match e with LNotifyDisconnect c _ => bool_decide (c = conn) | _ => false end.
Definition told_gone (conn : Z) (es : list link_event) : nat := length (List.filter (tells_gone conn) es).

Lemma told_gone_app conn es es' : told_gone conn (es ++ es') = (told_gone conn es + told_gone conn es')%nat.
Proof. unfold told_gone. by rewrite List.filter_app, length_app. Qed.

Lemma told_gone_published conn ids :
  conn ∈ ids → (1 ≤ told_gone conn ((λ id, LNotifyDisconnect id GN_OK) <$> ids))%nat.
Proof.
  unfold told_gone. intros Hin. induction ids as [|x ids IH]; [by apply not_elem_of_nil in Hin|]. cbn.
  apply elem_of_cons in Hin as [-> | Hin]; [rewrite bool_decide_true by done; cbn; lia|].
  specialize (IH Hin). case_match; cbn; lia.
Qed.

(** Disconnects are told twice: a connection that was closed, or whose session
    failed, stays in the list of published ids; when the link shuts down, its host is
    told a second time that the connection is gone. *)
Theorem disconnect_told_twice l conn e gone :
  l_shutdown l = false → api_has api_notify_disconnect l = true → is_composer conn = false →
  l_sessions l !! conn = Some e → conn ∈ l_published_ids l →
  gone = JDisconnect conn ∨ gone = JFailed conn →
  (2 ≤ told_gone conn (outputs (link_run [gone; JShutdown]) l))%nat.
Proof.
  intros Hs Ha Hk Hc Hp Hg. unfold link_run. rewrite outputs_for_each_cons, outputs_for_each_cons.
  assert (∃ l1 es r, exec (link_handle gone) l = (l1, es ++ [LNotifyDisconnect conn r])
    ∧ l_shutdown l1 = false ∧ l_api l1 = l_api l ∧ l_published_ids l1 = l_published_ids l)
    as (l1 & es & r & Hx & Hs1 & Ha1 & Hp1).
  { unfold exec. destruct Hg as [-> | ->]; cbn [link_handle].
    - rewrite run_bind. unfold disconnect. rewrite run_get, Hk, Hc, run_bind. cbn.
      unfold api_has in *. cbn. rewrite Ha. cbn. eexists _, [_], _. by split_and!.
    - unfold on_failed, claim_disconnect. rewrite run_get, Hs, run_bind, run_get, Hs, Hc. cbn.
      unfold api_has in *. cbn. rewrite Ha. cbn. eexists _, [], _. by split_and!. }
  unfold outputs at 1, final. rewrite Hx. cbn [fst snd link_handle].
  rewrite shutdown_outputs; [|done|unfold api_has in *; by rewrite Ha1].
  rewrite !told_gone_app, Hp1. apply told_gone_published in Hp.
  assert (told_gone conn [LNotifyDisconnect conn r] = 1%nat) as ->
    by (unfold told_gone; cbn; by rewrite bool_decide_true). lia.
Qed.

(** A reload forgets the topology: the preference for TURN over TCP, the security
    overhead and ordered delivery, set when the topology is sealed, are reset by the
    next configuration reload, whatever the host's configuration: the sessions made
    after it do not have them. *)
Theorem reload_forgets_topology l h prefer overhead ordered :
  l_api l ≫= api_config = Some h →
  topology (l_cfg (final (link_run [JPreferTurnTcp prefer; JSecurityOverhead overhead;
                                    JOrderedDelivery ordered]) l)) = (prefer, overhead, ordered)
  ∧ topology (l_cfg (final (link_run [JPreferTurnTcp prefer; JSecurityOverhead overhead;
                                      JOrderedDelivery ordered; JReload]) l)) = (false, 0, false).
Proof.
  intros Hh. split; [done|]. unfold link_run. rewrite !final_for_each_cons. cbn [link_handle].
  unfold apply_config. change (final (for_each _ []) ?l) with l.
  rewrite final_get. cbn [l_api]. cbn. rewrite Hh. cbn. apply read_config_topology.
Qed.
End down.

(** * Instances *)

Module LifeRef.
Definition connected : IceLink :=
  final (link_run (H := LinkRef.env) [JConnect (str "ice://0aff"); JComposerConnect (str "ice://0102")]) LinkRef.up.

(** A host without any [ice.*] key. *)
Definition silent : HostConfig :=
  mkHostConfig (λ _, None) (λ _, None) (λ _, None) (λ _, None) (λ _ _, None) (λ _ _, None) None 0 33
    (λ _, false) (λ _, None).
Definition configured : IceLink :=
  LinkRef.up <| l_api := Some (mkHostApi (Some silent) true true true true true true) |>.
End LifeRef.


Lemma disconnect_told_twice_witness :
  (2 ≤ told_gone 1 (outputs (link_run (H := LinkRef.env) [JDisconnect 1; JShutdown]) LifeRef.connected))%nat.
Proof.
  apply (disconnect_told_twice (H := LinkRef.env) LifeRef.connected 1 (mkPeer 0 (str "0aff")));
    [done | done | done | done | by left | by left].
Defined.

Lemma reload_forgets_topology_witness :
  topology (l_cfg (final (link_run (H := LinkRef.env) [JPreferTurnTcp true; JSecurityOverhead 20;
    JOrderedDelivery true; JReload]) LifeRef.configured)) = (false, 0, false).
Proof. apply (reload_forgets_topology (H := LinkRef.env) LifeRef.configured LifeRef.silent true 20 true). done. Defined.
