(* ===== verification/HostLink.v ===== *)
(** What the methods of the link do to its sessions: the handles they call exist, an
    entry of the registry names the session made for its id, and no two sessions report
    under the same id. *)

From stdpp Require Import gmap.
From S2P Require Import Prelude Bytes Inet Candidate MdnsCodec Mdns Framing Stun Turn PathMtu.
From S2P Require Import DnsExt SessionState Delivery CheckList Gather Session LinkConfig SessionInv.
From S2P Require Import PeerKey Link LinkRegistry.

(** * The sessions made *)

Definition new_args (e : link_event) : option SessionArgs :=
  match e with LNew _ a => Some a | _ => None end.
Definition news (es : list link_event) : list SessionArgs := omap new_args es.

(** Sessions are made in the order of their handles, and only existing ones are
    called, with arguments their types allow; [n] sessions exist. *)
Fixpoint accepts (n : nat) (es : list link_event) : Prop :=
  match es with
  | [] => True
  | LNew h _ :: es => h = n ∧ accepts (S n) es
  | LCall h i :: es => (h < n)%nat ∧ input_ok i ∧ accepts n es
  | LPost h ins :: es => (h < n)%nat ∧ Forall input_ok ins ∧ accepts n es
  | _ :: es => accepts n es
  end.

(** An event that makes no session. *)
Definition event_ok (n : nat) (e : link_event) : Prop :=
  match e with
  | LNew _ _ => False
  | LCall h i => (h < n)%nat ∧ input_ok i
  | LPost h ins => (h < n)%nat ∧ Forall input_ok ins
  | _ => True
  end.

Lemma events_accepted n es es' : Forall (event_ok n) es → accepts n es' → accepts n (es ++ es').
Proof.
  induction 1 as [|e es He _ IH]; [done|]. intros H. destruct e; cbn in *; intuition.
Qed.
Lemma events_new n es : Forall (event_ok n) es → news es = [].
Proof. induction 1 as [|e es He _ IH]; [done|]. destruct e; done. Qed.
Lemma news_app es es' : news (es ++ es') = news es ++ news es'.
Proof. apply omap_app. Qed.

(** * The invariant *)

Section linked.
Context `{LinkEnv}.

(** Where a session's id comes from: the host handed it out for the session's peer, or
    the composer's counter. *)
Definition owned (l : IceLink) (a : SessionArgs) : Prop :=
  match sa_callbacks a with
  | CbKernel id => ∃ n pk i, (n < l_connects l)%nat
      ∧ host_connect n pk (canonical (sa_peer a)) i = (GN_OK, Some id)
  | CbComposer cid uri => uri = canonical (sa_peer a)
      ∧ ∃ n, 1 ≤ n < next_id l ∧ cid = Z.lor n kComposerIdBit
  end.

Definition kernel_entry (sas : list SessionArgs) (id : Z) (e : PeerEntry) : Prop :=
  ∃ a, sas !! pe_session e = Some a ∧ sa_callbacks a = CbKernel id ∧ sa_peer a = pe_peer e.
Definition composer_entry (sas : list SessionArgs) (cid : Z) (e : ComposerEntry) : Prop :=
  ∃ a, sas !! ce_session e = Some a ∧ sa_callbacks a = CbComposer cid (ce_uri e) ∧ sa_peer a = ce_peer e.

(** [sas]: what the sessions were made with. *)
Record linked (sas : list SessionArgs) (l : IceLink) : Prop := {
  ln_count : l_created l = length sas;
  ln_kernel id e : l_sessions l !! id = Some e → kernel_entry sas id e;
  ln_composer cid e : composer_sessions (l_composer l) !! cid = Some e → composer_entry sas cid e;
  ln_owned : Forall (owned l) sas;
  ln_distinct : NoDup (sa_callbacks <$> sas);
}.

Lemma kernel_entry_handle sas id e : kernel_entry sas id e → (pe_session e < length sas)%nat.
Proof. intros (a & Ha & _). by apply lookup_lt_Some in Ha. Qed.
Lemma composer_entry_handle sas cid e : composer_entry sas cid e → (ce_session e < length sas)%nat.
Proof. intros (a & Ha & _). by apply lookup_lt_Some in Ha. Qed.

Lemma owned_mono l l' a : (l_connects l ≤ l_connects l')%nat → next_id l ≤ next_id l' → owned l a → owned l' a.
Proof.
  intros Hc Hn. unfold owned. destruct (sa_callbacks a).
  - intros (n & pk & i & ? & ?). exists n, pk, i. split; [lia|done].
  - intros (? & n & ? & ?). split; [done|]. exists n. split; [lia|done].
Qed.

(** Entries are kept, dropped or, for sessions that exist, made. *)
Lemma linked_sub sas l l' :
  linked sas l → l_created l' = l_created l → (l_connects l ≤ l_connects l')%nat → next_id l ≤ next_id l' →
  (∀ id e, l_sessions l' !! id = Some e → l_sessions l !! id = Some e ∨ kernel_entry sas id e) →
  (∀ cid e, composer_sessions (l_composer l') !! cid = Some e →
     composer_sessions (l_composer l) !! cid = Some e ∨ composer_entry sas cid e) →
  linked sas l'.
Proof.
  intros [Hn Hk Hc Ho Hd] En Ec Ei Es Em. split; [congruence| | | |done].
  - intros id e He. destruct (Es id e He); auto.
  - intros cid e He. destruct (Em cid e He); auto.
  - eapply Forall_impl; [exact Ho|]. intros a. by apply owned_mono.
Qed.
End linked.

(** * Methods that make no session *)

(** [m] makes no session and keeps the invariant. *)
Abbreviation tame sas m := (safe (linked sas) (event_ok (length sas)) m).

Ltac entry_auto :=
  first [done | by left
    | intros ? ? ?; by left
    | intros ? ? [_ ?]%lookup_delete_Some; by left
    | intros ? ? ?; by exfalso; eapply lookup_empty_Some; eassumption
    | intros ? ? [[<- <-]|[_ ?]]%lookup_insert_Some; [right; assumption | by left]].

(** Decompose a method; what it reads is a linked state. *)
Ltac tame_auto :=
  repeat match goal with
    | |- ∀ _, _ => intro
    | |- safe _ _ (get ≫= _) => apply safe_get; intros ? ?
    | |- safe _ _ (_ ≫= _) => apply safe_bind
    | |- safe _ _ skip => apply safe_skip
    | |- safe _ _ (mret _) => apply safe_ret
    | |- safe _ _ (emit _) => apply safe_emit; solve [exact I | eauto with ice]
    | |- safe _ _ (for_each _ _) => apply safe_for_each
    | |- safe _ _ (modify _) => apply safe_modify; intros l' ?;
        apply (linked_sub _ l'); [assumption | cbn; reflexivity | cbn; lia | reflexivity | |]; cbn; entry_auto
    | |- safe _ _ (let _ := _ in _) => cbv zeta
    | |- _ => solve [auto with ice]
    | |- _ => case_match
    end.

Section tame.
Context `{LinkEnv} (sas : list SessionArgs).

Lemma session_of_handle l c h : linked sas l → session_of l c = Some h → (h < length sas)%nat.
Proof.
  intros [_ Hk Hc _ _]. unfold session_of. destruct (is_composer c); intros (e & He & ->)%fmap_Some.
  - by eapply composer_entry_handle, Hc.
  - by eapply kernel_entry_handle, Hk.
Qed.
Lemma kernel_handle l c e : linked sas l → l_sessions l !! c = Some e → (pe_session e < length sas)%nat.
Proof. intros [_ Hk _ _ _] He. by eapply kernel_entry_handle, Hk. Qed.
Lemma composer_handle l c e :
  linked sas l → composer_sessions (l_composer l) !! c = Some e → (ce_session e < length sas)%nat.
Proof. intros [_ _ Hc _ _] He. by eapply composer_entry_handle, Hc. Qed.
Lemma call_ok h i : (h < length sas)%nat → input_ok i → event_ok (length sas) (LCall h i).
Proof. done. Qed.
Lemma post_ok h ins : (h < length sas)%nat → Forall input_ok ins → event_ok (length sas) (LPost h ins).
Proof. done. Qed.
Lemma trivial_input i : match i with ISend _ | IClose | IRestart | IPeerFlags _ | IGather => True | _ => False end →
  input_ok i.
Proof. by destruct i. Qed.
#[local] Hint Resolve session_of_handle kernel_handle composer_handle call_ok post_ok : ice.
#[local] Hint Extern 1 (input_ok _) => exact I : ice.

Lemma apply_config_tame : tame sas apply_config.
Proof. unfold apply_config. tame_auto. Qed.
Lemma query_extension_tame name f g : tame sas (query_extension name f g).
Proof. unfold query_extension, set_carriers. tame_auto. Qed.
#[local] Hint Resolve apply_config_tame query_extension_tame : ice.
Lemma resolve_carriers_tame : tame sas resolve_carriers.
Proof. unfold resolve_carriers. tame_auto. Qed.
#[local] Hint Resolve resolve_carriers_tame : ice.
Lemma set_host_api_tame api : tame sas (set_host_api api).
Proof. unfold set_host_api, subscribe_reload. tame_auto. Qed.
Lemma notify_disconnect_tame id r : tame sas (notify_disconnect id r).
Proof. unfold notify_disconnect. tame_auto. Qed.
#[local] Hint Resolve notify_disconnect_tame : ice.
Lemma send_bytes_tame conn d : tame sas (send_bytes conn d).
Proof. unfold send_bytes. tame_auto. Qed.
#[local] Hint Resolve send_bytes_tame : ice.
Lemma send_frames_tame conn fs : tame sas (send_frames conn fs).
Proof. induction fs; cbn [send_frames]; tame_auto. Qed.
#[local] Hint Resolve send_frames_tame : ice.
Lemma disconnect_tame conn : tame sas (disconnect conn).
Proof. unfold disconnect, drop_composer, drop_session, set_composer. tame_auto. Qed.
#[local] Hint Resolve disconnect_tame : ice.

Lemma live_sessions_handle l : linked sas l → Forall (λ h, (h < length sas)%nat) (live_sessions l).
Proof.
  intros Hl. unfold live_sessions. apply Forall_app. split; apply Forall_forall; intros h;
    rewrite list_elem_of_fmap; intros (e & -> & He); apply list_elem_of_fmap in He as ([c e'] & -> & He);
    apply elem_of_map_to_list in He; eauto with ice.
Qed.
Lemma on_interface_change_tame heap : tame sas (on_interface_change heap).
Proof.
  apply safe_get. intros l Hl. apply (safe_each _ _ (λ h, (h < length sas)%nat)).
  - by apply live_sessions_handle.
  - intros h Hh. tame_auto.
Qed.
Lemma on_reaper_timer_tame heap now : tame sas (on_reaper_timer heap now).
Proof. unfold on_reaper_timer, reap_sessions. tame_auto. Qed.
Lemma restart_session_tame conn : tame sas (restart_session conn).
Proof. unfold restart_session. tame_auto. Qed.
Lemma set_data_cb_tame conn e cb : composer_entry sas conn e → tame sas (set_data_cb conn e cb).
Proof. intros He. unfold set_data_cb, set_composer. tame_auto. Qed.
Lemma on_composer_connected_tame cid uri : tame sas (on_composer_connected cid uri).
Proof.
  apply safe_get. intros l Hl. destruct (l_shutdown l); [apply safe_skip|]. cbv zeta.
  destruct (composer_sessions (l_composer l) !! cid) as [e|] eqn:He; [|tame_auto].
  destruct (ce_nominated e); [apply safe_skip|].
  apply (ln_composer sas l Hl) in He as (a & Ha). apply safe_bind; [|intros _; tame_auto].
  apply safe_modify. intros l' Hl'. apply (linked_sub _ l'); [done..| |]; cbn; [entry_auto|].
  intros cid' e' [[<- <-]|[_ ?]]%lookup_insert_Some; [right; by exists a | by left].
Qed.
Lemma shutdown_tame : tame sas shutdown.
Proof.
  unfold shutdown, set_composer. apply safe_get. intros l Hl.
  apply safe_bind; [tame_auto|]. intros _. destruct (l_shutdown l); [apply safe_skip|].
  apply safe_bind; [tame_auto|]. intros _. apply safe_bind; [tame_auto|]. intros _.
  apply safe_bind; [|intros _; tame_auto].
  apply (safe_each _ _ (λ h, (h < length sas)%nat)); [by apply live_sessions_handle|].
  intros h Hh. tame_auto.
Qed.

(** The inputs that can make a session. *)
Definition opens (i : link_input) : bool :=
  match i with JConnect _ | JDeliver _ _ _ | JComposerConnect _ => true | _ => false end.

Lemma link_handle_tame i : opens i = false → tame sas (link_handle i).
Proof.
  intros Hi. destruct i; try done; cbn [link_handle];
    try (apply safe_bind; [|intros _; apply safe_skip]).
  all: try solve [ apply set_host_api_tame | apply on_interface_change_tame | apply on_reaper_timer_tame
    | apply restart_session_tame | apply on_composer_connected_tame | apply shutdown_tame
    | auto with ice ].
  all: unfold send_batch, poll_local_signal, set_prefer_turn_tcp, set_security_overhead,
    set_ordered_delivery, set_cfg, composer_subscribe_accept, composer_unsubscribe_accept, on_gathered,
    on_failed, on_data, on_composer_gathered, on_composer_failed, on_composer_data, on_auto_restart,
    enqueue_local_signal, claim_disconnect, drop_session, drop_composer, set_composer.
  all: try solve [tame_auto].
  all: apply safe_get; intros l Hl; destruct (negb _); [apply safe_ret|];
    destruct (composer_sessions (l_composer l) !! conn) as [e|] eqn:He; [|apply safe_ret];
    (apply safe_bind; [|intros _; apply safe_ret]); apply set_data_cb_tame; by eapply ln_composer.
Qed.
End tame.

(** * Methods that make a session *)

Section opening.
Context `{LinkLaws}.

(** One more session, of which the registry may already speak. *)
Lemma linked_add sas a l : linked sas l → owned l a → sa_callbacks a ∉ sa_callbacks <$> sas →
  linked (sas ++ [a]) (l <| l_created := S (l_created l) |>).
Proof.
  intros [Hn Hk Hc Ho Hd] Ha Hnew. split; cbn.
  - rewrite length_app. cbn. lia.
  - intros id e (a' & Ha' & ?)%Hk. exists a'. split; [by apply lookup_app_l_Some | done].
  - intros cid e (a' & Ha' & ?)%Hc. exists a'. split; [by apply lookup_app_l_Some | done].
  - apply Forall_app. split; [|by constructor]. done.
  - rewrite fmap_app. apply NoDup_app. split_and!; [done| |apply NoDup_singleton].
    intros x Hx ->%list_elem_of_singleton. done.
Qed.

Lemma kernel_id_fresh sas l pk p i conn : linked sas l →
  host_connect (l_connects l) pk p i = (GN_OK, Some conn) → CbKernel conn ∉ sa_callbacks <$> sas.
Proof.
  intros Hl Hc (a & Ha & Hin)%list_elem_of_fmap. pose proof (ln_owned _ _ Hl) as Ho.
  rewrite Forall_forall in Ho. specialize (Ho a Hin). unfold owned in Ho. rewrite <- Ha in Ho.
  destruct Ho as (n & pk' & i' & Hn & Hh).
  pose proof (host_connect_fresh _ _ _ _ _ _ _ _ _ _ _ Hc Hh). lia.
Qed.

Lemma composer_id_fresh sas l uri : linked sas l → 1 ≤ next_id l < 2 ^ 63 →
  CbComposer (Z.lor (next_id l) kComposerIdBit) uri ∉ sa_callbacks <$> sas.
Proof.
  intros Hl Hr (a & Ha & Hin)%list_elem_of_fmap. pose proof (ln_owned _ _ Hl) as Ho.
  rewrite Forall_forall in Ho. specialize (Ho a Hin). unfold owned in Ho. rewrite <- Ha in Ho.
  destruct Ho as (_ & n & Hn & Hid). rewrite !composer_id_add in Hid by lia. lia.
Qed.

(** Whatever [m] makes and calls from [l] is accounted for. *)
Definition tracks {A} (sas : list SessionArgs) (m : link A) (l : IceLink) : Prop :=
  accepts (length sas) (outputs m l) ∧ linked (sas ++ news (outputs m l)) (final m l).

Lemma tame_tracks {A} sas (m : link A) l : tame sas m → linked sas l → tracks sas m l.
Proof.
  intros Hm Hl. destruct (Hm l Hl) as [Hf Ho]. unfold tracks.
  rewrite (events_new _ _ Ho), app_nil_r. split; [|done].
  rewrite <- (app_nil_r (outputs m l)). by apply events_accepted.
Qed.
Lemma tracks_get {A} sas (f : IceLink → link A) l : tracks sas (f l) l → tracks sas (get ≫= f) l.
Proof. unfold tracks. by rewrite final_get, outputs_get. Qed.
Lemma tracks_skip {A} sas (m : link A) l : tracks sas m l → tracks sas (m ;; skip) l.
Proof. unfold tracks. rewrite final_bind, outputs_bind. cbn. by rewrite app_nil_r. Qed.

(** What a run outputs when a session is made between harmless events. *)
Lemma accepts_new n es a es' :
  es = [] ∨ es = [LMdnsStart] → Forall (event_ok (S n)) es' →
  accepts n (es ++ LNew n a :: es') ∧ news (es ++ LNew n a :: es') = [a].
Proof.
  intros Hes He. assert (accepts (S n) es') as Ha
    by (rewrite <- (app_nil_r es'); by apply events_accepted).
  destruct Hes as [-> | ->]; cbn; (split; [done|]); f_equal; by eapply events_new.
Qed.

Lemma opening_tracks {A} sas pk p i cfg c m (K : Z → nat → link A) F l :
  linked sas l →
  (∀ conn l', final (K conn (length sas)) l' = l'
     ∧ Forall (event_ok (S (length sas))) (outputs (K conn (length sas)) l')) →
  tracks sas (opening pk p i cfg c m K F) l.
Proof.
  intros Hl HK. unfold tracks, opening, outputs, final, exec. rewrite run_bind, notify_connect_run.
  set (l0 := l <| l_connects := S (l_connects l) |>).
  assert (linked sas l0) as Hl0 by (apply (linked_sub _ l); [done | done | cbn; lia | done | |]; cbn; entry_auto).
  destruct (host_connect (l_connects l) pk (canonical p) i) as [rc oc] eqn:Hc.
  destruct rc, oc as [conn|]; try (split; [done|]; cbn; rewrite app_nil_r; exact Hl0).
  rewrite run_bind. destruct (make_session_run cfg p c (CbKernel conn) m l0) as (cs & q & b & es & -> & Hes).
  rewrite run_bind, register_session_run. unfold final, outputs, exec in HK.
  change (l_created l0) with (l_created l). rewrite (ln_count _ _ Hl).
  set (a := mkSessionArgs cs cfg p c (CbKernel conn) m).
  match goal with |- context [run (K ?c ?h) ?l'] => specialize (HK c l') as [HK1 HK2]; set (l2 := l') in *;
    destruct (run (K c h) l2) as [[r l3] out] end.
  cbn [fst snd] in HK1, HK2 |- *. rewrite HK1. cbn [app]. rewrite <- app_assoc. cbn [app].
  destruct (accepts_new (length sas) es a out Hes HK2) as [Ha Hn].
  change (news (LNotifyConnect ?x ?y ?z :: ?r)) with (news r). rewrite Hn. split; [done|].
  assert (linked (sas ++ [a]) (l0 <| l_created := S (l_created l0) |>)) as Hadd.
  { apply linked_add; [done| |by apply (kernel_id_fresh sas l pk (canonical p) i conn)]. exists (l_connects l), pk, i. split; [cbn; lia|done]. }
  apply (linked_sub _ _ l2 Hadd); [cbn; by rewrite (ln_count _ _ Hl) | done | done | |]; cbn; [|entry_auto].
  intros id e [[<- <-]|[_ ?]]%lookup_insert_Some; [right | by left].
  exists a. by rewrite lookup_app_r, Nat.sub_diag.
Qed.

Lemma connect_tracks sas uri l : linked sas l → tracks sas (connect uri) l.
Proof.
  intros Hl. apply tracks_get.
  assert (∀ r : gn_result * option Z, tracks sas (mret r) l) as Hr
    by (intros; apply tame_tracks; [apply safe_ret|done]).
  destruct (l_shutdown l); [apply Hr|]. destruct (uri_peer uri) as [p|]; [|apply Hr].
  destruct (parse_peer_pk_hex _ p) as [pk|]; [|apply Hr]. destruct (negb _); [apply Hr|].
  apply (opening_tracks sas pk p true (l_cfg l) true true (λ conn h, emit (LPost h [IGather]) ;;
    (if api_has api_kick_handshake l then emit (LKickHandshake conn) else skip) ;;
    mret (GN_OK, Some conn)) (λ rc, (rc, None))); [done|].
  intros conn l'. destruct (api_has api_kick_handshake l); (split; [done|]);
    repeat (constructor; try done); cbn; lia.
Qed.

Lemma parse_signal_wf blob sg : bytes_ok blob → parse_signal blob = Some sg →
  Forall candidate_wf (sg_candidates sg).
Proof.
  intros Hb. unfold parse_signal. case_decide; [done|].
  destruct (deserialize_signal blob _) as [[[|] out]|] eqn:Hd; intros; simplify_eq.
  by eapply deserialize_signal_wf.
Qed.

Lemma composer_session_handle sas l p h :
  linked sas l → composer_session l p = Some h → (h < length sas)%nat.
Proof.
  intros Hl (cid & _ & (e & He & ->)%fmap_Some)%bind_Some. by eapply composer_handle.
Qed.
Lemma offer_session_handle sas l p h : linked sas l → offer_session l p = Some h → (h < length sas)%nat.
Proof.
  intros Hl. unfold offer_session. destruct (composer_session l p) eqn:Hc.
  - intros [= <-]. by eapply composer_session_handle.
  - destruct (l_peer_to_ids l !! p) as [[|id []]|]; [done| |done|done].
    intros (e & He & ->)%fmap_Some. by eapply kernel_handle.
Qed.
Lemma answer_session_handle sas l p h : linked sas l → answer_session l p = Some h → (h < length sas)%nat.
Proof.
  intros Hl. unfold answer_session.
  destruct (l_peer_to_ids l !! p ≫= _) as [h'|] eqn:Hk; [|by apply composer_session_handle].
  intros [= <-]. apply bind_Some in Hk as (ids & _ & (id & _ & (e & He & ->)%fmap_Some)%bind_Some).
  by eapply kernel_handle.
Qed.

(** The inputs of a folded signal. *)
Lemma fold_events sg eoc fresh h n l : Forall candidate_wf (sg_candidates sg) → (h < n)%nat →
  final (fold_signal h sg eoc fresh) l = l ∧ Forall (event_ok n) (outputs (fold_signal h sg eoc fresh) l).
Proof.
  intros Hw Hh. split; [done|]. constructor; [done|]. constructor; [|constructor].
  split; [done|]. apply Forall_app. split; [by destruct fresh; repeat constructor|]. by repeat constructor.
Qed.
Lemma fold_tame sas sg eoc h : Forall candidate_wf (sg_candidates sg) → (h < length sas)%nat →
  tame sas (fold_signal h sg eoc false).
Proof. intros Hw Hh l Hl. destruct (fold_events sg eoc false h (length sas) l) as [-> ?]; done. Qed.

Lemma deliver_tracks sas pk kind blob l : bytes_ok blob → linked sas l →
  tracks sas (deliver_signal pk kind blob) l.
Proof.
  intros Hb Hl. apply tracks_get.
  assert (∀ r : gn_result, tracks sas (mret r) l) as Hr by (intros; apply tame_tracks; [apply safe_ret|done]).
  destruct (l_shutdown l); [apply Hr|]. cbn zeta. destruct (_ && _); [apply Hr|].
  destruct (parse_signal blob) as [sg|] eqn:Hp; [|apply Hr]. apply parse_signal_wf in Hp as Hw; [|done].
  destruct (_ && _); [apply Hr|].
  assert (∀ h eoc, (h < length sas)%nat → tracks sas (fold_signal h sg eoc false ;; mret GN_OK) l) as Hf.
  { intros h eoc Hh. apply tame_tracks; [|done]. apply safe_bind; [by apply fold_tame|].
    intros _. apply safe_ret. }
  generalize (bool_decide (kind = ICE_SIGNAL_OFFER_EOC ∨ kind = ICE_SIGNAL_ANSWER_EOC)). intros eoc.
  destruct (bool_decide _); apply tracks_get.
  - cbn zeta. destruct (negb _); [apply Hr|].
    destruct (offer_session l (pk_to_hex pk)) as [h|] eqn:Ho; [by eapply Hf, offer_session_handle|].
    apply (opening_tracks sas pk (pk_to_hex pk) false (l_cfg l) false (mdns_obfuscate_host_candidates (l_cfg l))
      (λ _ h, fold_signal h sg eoc true ;; mret GN_OK) id); [done|].
    intros _ l'. rewrite final_bind, outputs_bind. cbn [outputs]. rewrite app_nil_r.
    apply fold_events; [done|lia].
  - destruct (answer_session l (pk_to_hex pk)) as [h|] eqn:Ho; [|apply Hr].
    by eapply Hf, answer_session_handle.
Qed.

Lemma composer_connect_tracks sas uri l : linked sas l → 1 ≤ next_id l < 2 ^ 63 →
  tracks sas (composer_connect uri) l.
Proof.
  intros Hl Hn. apply tracks_get.
  assert (∀ r : gn_result * option Z, tracks sas (mret r) l) as Hr
    by (intros; apply tame_tracks; [apply safe_ret|done]).
  destruct (l_shutdown l); [apply Hr|]. destruct (uri_peer uri) as [p|]; [|apply Hr].
  destruct (parse_peer_pk_hex _ p); [|apply Hr]. cbv zeta.
  set (cid := Z.lor (next_composer_id (l_composer l)) kComposerIdBit).
  unfold tracks. rewrite outputs_bind, final_bind. cbn [app outputs]. set (l1 := final (set_composer _) l).
  assert (next_id l1 = next_id l + 1) as Hn1.
  { unfold next_id, l1 in *. cbn. apply u64_id. unfold is_u64. lia. }
  assert (linked sas l1) as Hl1.
  { apply (linked_sub _ l); [done..|rewrite Hn1; lia| |]; cbn; entry_auto. }
  change (outputs (set_composer _) l) with (@nil link_event). cbn [app].
  destruct (composer_peer_to_id (l_composer l) !! p) as [id|].
  { apply (tame_tracks sas (mret (GN_OK, Some id))); [apply safe_ret|done]. }
  unfold outputs, final, exec. rewrite run_bind.
  destruct (make_session_run (l_cfg l) p true (CbComposer cid (canonical p)) true l1)
    as (cs & q & b & es & -> & Hes). cbn [fst snd].
  change (l_created l1) with (l_created l). rewrite (ln_count _ _ Hl).
  set (a := mkSessionArgs cs (l_cfg l) p true (CbComposer cid (canonical p)) true).
  match goal with |- context [run (?m ≫= ?f) ?x] => set (l2 := final m x);
    change (run (m ≫= f) x) with ((GN_OK, Some cid), l2, [LPost (length sas) [IGather]]) end.
  cbn [fst snd]. rewrite <- app_assoc. cbn [app].
  match goal with |- context [es ++ LNew ?n a :: ?out] => 
    destruct (accepts_new n es a out Hes) as [Ha Hnw]; [repeat (constructor; try done); cbn; lia|] end.
  split; [exact Ha|]. rewrite Hnw.
  assert (linked (sas ++ [a]) (l1 <| l_created := S (l_created l1) |>)) as Hadd.
  { apply linked_add; [done| |by apply composer_id_fresh]. split; [done|].
    exists (next_id l). split; [lia|done]. }
  apply (linked_sub _ _ l2 Hadd); [cbn; by rewrite (ln_count _ _ Hl) | done | done | |]; cbn; [entry_auto|].
  intros cid' e [[<- <-]|[_ ?]]%lookup_insert_Some; [right | by left].
  exists a. by rewrite lookup_app_r, Nat.sub_diag.
Qed.

(** What the link is asked from outside: signals are bytes. *)
Definition request_ok (i : link_input) : Prop :=
  match i with JDeliver _ _ blob => bytes_ok blob | _ => True end.

Lemma link_handle_tracks sas i l : request_ok i → linked sas l → 1 ≤ next_id l < 2 ^ 63 →
  tracks sas (link_handle i) l.
Proof.
  intros Hi Hl Hn. destruct (opens i) eqn:Ho; [|by apply tame_tracks; [apply link_handle_tame|]].
  destruct i; try done; cbn [link_handle]; apply tracks_skip.
  - by apply connect_tracks.
  - by apply deliver_tracks.
  - by apply composer_connect_tracks.
Qed.
End opening.
