(* ===== verification/Host.v ===== *)
(** The link with the sessions it makes: the callbacks the link gives a session
    (src/link_ice.cpp, [make_callbacks] and [make_composer_callbacks]), the methods the
    link calls on its sessions and the work it posts for them.

    A method of the link runs to its end; the calls it makes on sessions then take
    effect in their order, and so do the callbacks of each call.  This is the order of
    the code but for what a method does after its last call, the counters of sent
    bytes, which no session and no callback reads.  Jobs posted to [ioc_] run in any
    order and at any time, between any other inputs. *)

From stdpp Require Import gmap.
From S2P Require Import Prelude Bytes Inet Candidate MdnsCodec Mdns Framing Stun Turn PathMtu.
From S2P Require Import DnsExt SessionState Delivery CheckList Gather Session LinkConfig PeerKey.
From S2P Require Import Link.

(** A session of the link and what it was made with. *)
Record Hosted := mkHosted { hs_args : SessionArgs; hs_state : IceSession }.

Record Host := mkHost {
  h_link : IceLink;
  h_sessions : list Hosted;                            (* by handle *)
  h_jobs : list (nat * list session_input);            (* posted and not run yet *)
}.
#[global] Instance Host_eta : Eta Host := λ H, mkHost (h_link H) (h_sessions H) (h_jobs H).

(** What the link does to the host, and a session to its carriers, timers and TURN
    clients and to the link. *)
Inductive host_event :=
  | HLink (e : link_event)
  | HSession (h : nat) (e : session_event).

Abbreviation host := (eff Host host_event).

(** Each session has its own supply of random values and dials; its constructor draws
    the credentials and the tiebreaker. *)
Class HostEnv := {
  he_session : nat → SessionEnv;
  he_ufrag : nat → bytes;
  he_pwd : nat → bytes;
  he_tiebreaker : nat → Z;
}.

(** * Sessions *)

(** The constructor's arguments as the session keeps them; the link's timer thread
    lives until shutdown. *)
Definition fixed_of (a : SessionArgs) (tiebreaker : Z) : Fixed :=
  mkFixed (sa_cfg a) (carrier_udp (sa_carriers a)) (carrier_tcp (sa_carriers a))
    (carrier_tls (sa_carriers a)) true (sa_mdns a) (portmap_ext (sa_carriers a)) tiebreaker.

(** What a handle without a session reads as; no handle of the link is. *)
Definition vacant : IceSession :=
  new_session (mkFixed default_config false false false false false false 0) false [] [] 0.

Definition heap_of (H : Host) (h : nat) : IceSession :=
  default vacant (hs_state <$> h_sessions H !! h).

(** [on_gathered] looks the session up by id: the caller itself, as it is in the
    middle of its work, or another. *)
Definition session_found (H : Host) (h : nat) (caller : IceSession) (found : option nat) : IceSession :=
  match found with
  | Some h' => if decide (h' = h) then caller else heap_of H h'
  | None => caller
  end.

(** The method of the link a session's callback is; [on_connected] of a kernel session
    does nothing. *)
Definition callback (H : Host) (h : nat) (owner : SessionCallbacks) (e : session_event)
    : option link_input :=
  match owner, e with
  | CbKernel id, EGathered s =>
      Some (JGathered id (session_found H h s (pe_session <$> l_sessions (h_link H) !! id)))
  | CbKernel id, EFailed => Some (JFailed id)
  | CbKernel id, EData d => Some (JData id d)
  | CbComposer cid _, EGathered s =>
      Some (JComposerGathered cid
        (session_found H h s (ce_session <$> composer_sessions (l_composer (h_link H)) !! cid)))
  | CbComposer cid uri, EConnected _ _ => Some (JComposerConnected cid uri)
  | CbComposer cid _, EFailed => Some (JComposerFailed cid)
  | CbComposer cid _, EData d => Some (JComposerData cid d)
  | _, EAutoRestart n m => Some (JAutoRestart owner n m)
  | _, _ => None
  end.

Section host.
Context `{InetOps} `{Hmac} `{LinkEnv} `{HostEnv}.

(** [make_shared<IceSession>]. *)
Definition make_hosted (h : nat) (a : SessionArgs) (now : Z) : Hosted :=
  mkHosted a (new_session (fixed_of a (he_tiebreaker h)) (sa_controlling a) (he_ufrag h) (he_pwd h) now).

(** A callback; it calls no session. *)
Definition run_callback (i : link_input) : host unit :=
  H ← get;
  let r := exec (link_handle i) (h_link H) in
  modify (λ H, H <| h_link := r.1 |>) ;;
  for_each (λ e, emit (HLink e)) r.2.

(** A session does [e]. *)
Definition report (h : nat) (owner : SessionCallbacks) (e : session_event) : host unit :=
  emit (HSession h e) ;;
  H ← get;
  match callback H h owner e with
  | Some i => run_callback i
  | None => skip
  end.

(** A method of session [h], at time [now]. *)
Definition call_session (now : Z) (h : nat) (i : session_input) : host unit :=
  H ← get;
  match h_sessions H !! h with
  | None => skip
  | Some hs =>
      let r := exec (session_run (H1 := he_session h) [(now, i)]) (hs_state hs) in
      modify (λ H, H <| h_sessions := <[h := mkHosted (hs_args hs) (r.1)]> (h_sessions H) |>) ;;
      for_each (report h (sa_callbacks (hs_args hs))) r.2
  end.

(** What a method of the link does outside of the link. *)
Definition react (now : Z) (e : link_event) : host unit :=
  match e with
  | LNew h a =>
      modify (λ H, H <| h_sessions := h_sessions H ++ [make_hosted h a now] |>) ;; emit (HLink e)
  | LCall h i => call_session now h i
  | LPost h ins => modify (λ H, H <| h_jobs := h_jobs H ++ [(h, ins)] |>)
  | _ => emit (HLink e)
  end.

Definition run_link (now : Z) (i : link_input) : host unit :=
  H ← get;
  let r := exec (link_handle i) (h_link H) in
  modify (λ H, H <| h_link := r.1 |>) ;;
  for_each (react now) r.2.

(** * Everything that can happen *)

Inductive host_input :=
  | HCall (i : link_input)                 (* the kernel, the composer, the signalling *)
  | HInterfaceChange                       (* the interface watcher *)
  | HReaper                                (* the reaper's timer *)
  | HJob (k : nat)                         (* the [k]-th of the posted jobs runs *)
  | HInput (h : nat) (i : session_input).  (* a session's carriers, timers, resolver, TURN client *)

Definition host_handle (now : Z) (x : host_input) : host unit :=
  match x with
  | HCall i => run_link now i
  | HInterfaceChange => H ← get; run_link now (JInterfaceChange (heap_of H))
  | HReaper => H ← get; run_link now (JReaper (heap_of H) now)
  | HJob k =>
      H ← get;
      match h_jobs H !! k with
      | None => skip
      | Some (h, ins) =>
          modify (λ H, H <| h_jobs := delete k (h_jobs H) |>) ;;
          for_each (call_session now h) ins
      end
  | HInput h i => call_session now h i
  end.

Definition host_run (ins : list (Z * host_input)) : host unit :=
  for_each (λ x, host_handle (x.1) (x.2)) ins.

Definition new_host : Host := mkHost new_link [] [].
End host.
