(* ===== verification/HostInv.v ===== *)
(** The link and its sessions together: every session the link speaks of exists, was
    made for the id that names it and satisfies its invariant, and what reaches the
    host under an id comes from the one session of that id. *)

From stdpp Require Import gmap.
From S2P Require Import Prelude Bytes Inet Candidate MdnsCodec Mdns Framing Stun Turn PathMtu.
From S2P Require Import DnsExt SessionState Delivery CheckList Gather Session LinkConfig.
From S2P Require Import SessionInv SessionRun PeerKey Link LinkRegistry HostLink Host.

(** Every session's environment keeps its promises. *)
Class HostLaws `{HostEnv} : Prop := session_laws h : SessionLaws (H := he_session h).
#[export] Existing Instance session_laws.

(** What the host is asked from outside: the callbacks are the sessions', and the link
    reads its sessions by itself. *)
Definition external (i : link_input) : Prop :=
  match i with
  | JGathered _ _ | JFailed _ | JData _ _ | JComposerGathered _ _ | JComposerConnected _ _
  | JComposerFailed _ | JComposerData _ _ | JAutoRestart _ _ _ | JInterfaceChange _ | JReaper _ _ => False
  | _ => request_ok i
  end.
Definition host_input_ok (x : host_input) : Prop :=
  match x with HCall i => external i | HInput _ i => input_ok i | _ => True end.

Section invariant.
Context `{InetLaws} `{Hmac} `{LinkLaws} `{HostLaws}.

Definition hosted_ok (h : nat) (hs : Hosted) : Prop :=
  config_ok (sa_cfg (hs_args hs))
  ∧ session_inv (H := he_session h) (fixed_of (hs_args hs) (he_tiebreaker h)) parked_ok (hs_state hs).

Definition args_of (G : Host) : list SessionArgs := hs_args <$> h_sessions G.

(** [es]: what a method of the link did and has not taken effect yet; [n]: the next
    composer id. *)
Record host_inv (es : list link_event) (n : Z) (G : Host) : Prop := {
  hk_registry : registry_ok (h_link G);
  hk_linked : linked (args_of G ++ news es) (h_link G);
  hk_cfg : cfg_inv (h_link G);
  hk_sessions h hs : h_sessions G !! h = Some hs → hosted_ok h hs;
  hk_jobs : Forall (λ j, (j.1 < length (h_sessions G))%nat ∧ Forall input_ok (j.2)) (h_jobs G);
  hk_next : next_id (h_link G) = n;
}.

(** * Callbacks *)

Definition is_callback (i : link_input) : Prop :=
  match i with
  | JGathered _ _ | JFailed _ | JData _ _ | JComposerGathered _ _ | JComposerConnected _ _
  | JComposerFailed _ | JComposerData _ _ | JAutoRestart _ _ _ => True
  | _ => False
  end.

Lemma callback_is G h o e i : callback G h o e = Some i → is_callback i.
Proof. destruct o, e; cbn; intros; simplify_eq; done. Qed.

Lemma callback_stable i : is_callback i → stable (link_handle i).
Proof.
  intros Hi. destruct i; try done; cbn [link_handle].
  all: solve [ apply on_failed_stable | apply on_composer_failed_stable | apply on_composer_connected_stable
    | apply stable_same; first [ apply on_gathered_registry | apply on_composer_gathered_registry
      | apply on_data_registry | apply on_composer_data_registry | apply on_auto_restart_registry ]].
Qed.

Lemma run_callback_exec i G :
  final (run_callback i) G = G <| h_link := final (link_handle i) (h_link G) |>
  ∧ outputs (run_callback i) G = HLink <$> outputs (link_handle i) (h_link G).
Proof.
  unfold run_callback. rewrite final_get, outputs_get. cbv zeta.
  rewrite final_modify, outputs_modify, (proj1 (outputs_emit_each _ _ _)), (proj2 (outputs_emit_each _ _ _)).
  done.
Qed.

Lemma run_callback_inv es n i G : is_callback i → host_inv es n G → host_inv es n (final (run_callback i) G).
Proof.
  intros Hi [Hr Hl Hc Hs Hj Hn]. rewrite (proj1 (run_callback_exec i G)).
  destruct (callback_stable i Hi (h_link G) Hr) as [Hr' Hn'].
  destruct (link_handle_configured i (h_link G) Hc) as [Hc' _].
  destruct (link_handle_tame (args_of G ++ news es) i ltac:(by destruct i) (h_link G) Hl) as [Hl' _].
  split; cbn; try done. congruence.
Qed.

Lemma report_inv es n h o e G : host_inv es n G → host_inv es n (final (report h o e) G).
Proof.
  intros HG. unfold report. rewrite final_bind, final_get. change (final (emit _) G) with G.
  destruct (callback G h o e) as [i|] eqn:Hi; [|done]. apply run_callback_inv; [|done]. by eapply callback_is.
Qed.

Lemma reports_inv es n h o out G : host_inv es n G → host_inv es n (final (for_each (report h o) out) G).
Proof.
  revert G. induction out as [|e out IH]; intros G HG; [done|]. rewrite final_for_each_cons.
  by apply IH, report_inv.
Qed.

(** * Calls on sessions *)

Lemma call_session_inv es n now h i G : input_ok i → host_inv es n G →
  host_inv es n (final (call_session now h i) G).
Proof.
  intros Hi HG. unfold call_session. rewrite final_get. destruct (h_sessions G !! h) as [hs|] eqn:Hh; [|done].
  cbv zeta. rewrite final_modify. apply reports_inv. destruct HG as [Hr Hl Hc Hs Hj Hn].
  destruct (Hs h hs Hh) as [Hcfg Hok].
  assert (hosted_ok h (mkHosted (hs_args hs)
    (exec (session_run (H1 := he_session h) [(now, i)]) (hs_state hs)).1)) as Hok'.
  { split; [done|]. apply session_run_ok; [done|by repeat constructor|done]. }
  revert Hok'. generalize (exec (session_run (H1 := he_session h) [(now, i)]) (hs_state hs)).1. intros s' Hok'.
  assert (args_of (G <| h_sessions := <[h := mkHosted (hs_args hs) s']> (h_sessions G) |>) = args_of G) as Ha.
  { unfold args_of. cbn. rewrite list_fmap_insert. cbn. apply list_insert_id. by rewrite list_lookup_fmap, Hh. }
  split; try done; [by rewrite Ha | |cbn; by rewrite length_insert].
  intros h' hs'. cbn. intros [(<- & <- & _)|[_ ?]]%list_lookup_insert_Some; [done|by apply Hs].
Qed.

(** Callbacks and calls make no session. *)
Lemma reports_args h o out G : args_of (final (for_each (report h o) out) G) = args_of G.
Proof.
  revert G. induction out as [|e out IH]; intros G; [done|]. rewrite final_for_each_cons, IH.
  unfold report. rewrite final_bind, final_get. change (final (emit _) G) with G.
  destruct (callback G h o e) as [i|]; [|done]. by rewrite (proj1 (run_callback_exec i G)).
Qed.
Lemma call_session_args now h i G : args_of (final (call_session now h i) G) = args_of G.
Proof.
  unfold call_session. rewrite final_get. destruct (h_sessions G !! h) as [hs|] eqn:Hh; [|done].
  cbv zeta. rewrite final_modify, reports_args.
  generalize (exec (session_run (H1 := he_session h) [(now, i)]) (hs_state hs)).1. intros s'. unfold args_of. cbn. rewrite list_fmap_insert. cbn. apply list_insert_id.
  by rewrite list_lookup_fmap, Hh.
Qed.
Lemma args_length G G' : args_of G' = args_of G → length (h_sessions G') = length (h_sessions G).
Proof. intros E. apply (f_equal length) in E. unfold args_of in E. by rewrite !length_fmap in E. Qed.

(** * The methods of the link *)

Lemma host_inv_news es es' n G : news es' = news es → host_inv es n G → host_inv es' n G.
Proof. intros E [Hr Hl Hc Hs Hj Hn]. split; try done. by rewrite E. Qed.

Lemma new_session_inv es n now a G : host_inv (LNew (length (h_sessions G)) a :: es) n G → config_ok (sa_cfg a) →
  host_inv es n (G <| h_sessions := h_sessions G ++ [make_hosted (length (h_sessions G)) a now] |>).
Proof.
  intros [Hr Hl Hc Hs Hj Hn] Ha. split; cbn; try done.
  - unfold args_of. cbn. rewrite fmap_app, <- app_assoc. exact Hl.
  - intros h hs [?|[Hh Hx]]%lookup_app_Some; [by apply Hs|].
    destruct (h - length (h_sessions G))%nat eqn:Eh; [|done]. cbn in Hx. simplify_eq.
    assert (h = length (h_sessions G)) as -> by lia. split; [done|]. by apply new_session_ok.
  - rewrite length_app. eapply Forall_impl; [exact Hj|]. intros j [? ?]. split; [lia|done].
Qed.

Lemma react_loop_inv now es n G : accepts (length (h_sessions G)) es → Forall new_ok es → host_inv es n G →
  host_inv [] n (final (for_each (react now) es) G).
Proof.
  revert G. induction es as [|e es IH]; intros G Ha Hn HG; [done|]. rewrite final_for_each_cons.
  apply Forall_cons in Hn as [He Hn].
  destruct e; try (apply IH; [done|done|by eapply host_inv_news, HG]); cbn in Ha.
  - destruct Ha as [-> Ha]. cbn [react]. rewrite final_modify. apply IH; [|done|by apply new_session_inv].
    cbn. by rewrite length_app, Nat.add_comm.
  - destruct Ha as (_ & Hi & Ha). cbn [react]. apply IH; [|done|].
    + by rewrite (args_length _ _ (call_session_args now h i G)).
    + apply call_session_inv; [done|]. by eapply host_inv_news, HG.
  - destruct Ha as (Hh & Hi & Ha). apply IH; [done|done|]. destruct HG as [Hr Hl Hc Hs Hj Hnx].
    split; cbn; try done. apply Forall_app. split; [done|]. by repeat constructor.
Qed.

Lemma run_link_inv now i n G : request_ok i → 1 ≤ n < 2 ^ 63 → host_inv [] n G →
  ∃ n', n ≤ n' ≤ n + 1 ∧ host_inv [] n' (final (run_link now i) G).
Proof.
  intros Hi Hb [Hr Hl Hc Hs Hj Hn]. unfold run_link. rewrite final_get. cbv zeta. rewrite final_modify.
  change (exec (link_handle i) (h_link G)).1 with (final (link_handle i) (h_link G)).
  change (exec (link_handle i) (h_link G)).2 with (outputs (link_handle i) (h_link G)).
  cbn in Hl. rewrite app_nil_r in Hl. subst n.
  destruct (link_handle_steady i (h_link G) Hr Hb) as [Hr' Hn'].
  destruct (link_handle_configured i (h_link G) Hc) as [Hc' Hnew].
  destruct (link_handle_tracks (args_of G) i (h_link G) Hi Hl Hb) as [Ha Hl'].
  exists (next_id (final (link_handle i) (h_link G))). split; [lia|]. apply react_loop_inv; [|done|done].
  unfold args_of in Ha. by rewrite length_fmap in Ha.
Qed.

(** * Everything *)

Lemma job_inv now h ins n G : Forall input_ok ins → host_inv [] n G →
  host_inv [] n (final (for_each (call_session now h) ins) G).
Proof.
  intros Hi. revert G. induction Hi as [|i ins Hi _ IH]; intros G HG; [done|].
  rewrite final_for_each_cons. by apply IH, call_session_inv.
Qed.

Lemma host_handle_inv now x n G : host_input_ok x → 1 ≤ n < 2 ^ 63 → host_inv [] n G →
  ∃ n', n ≤ n' ≤ n + 1 ∧ host_inv [] n' (final (host_handle now x) G).
Proof.
  intros Hx Hb HG. destruct x; cbn [host_handle].
  - apply run_link_inv; [by destruct i | done..].
  - rewrite final_get. by apply run_link_inv.
  - rewrite final_get. by apply run_link_inv.
  - exists n. split; [lia|]. rewrite final_get. destruct (h_jobs G !! k) as [[h ins]|] eqn:Hk; [|done].
    rewrite final_modify. destruct HG as [Hr Hl Hc Hs Hj Hn].
    pose proof (Forall_lookup_1 _ _ _ _ Hj Hk) as [_ Hi]. apply job_inv; [done|]. split; cbn; try done.
    by apply Forall_delete.
  - exists n. split; [lia|]. by apply call_session_inv.
Qed.

Lemma host_run_inv ins n G : Forall (λ x, host_input_ok (x.2)) ins → 1 ≤ n →
  n + Z.of_nat (length ins) < 2 ^ 63 → host_inv [] n G →
  ∃ n', host_inv [] n' (final (host_run ins) G).
Proof.
  intros Hi. revert n G. induction Hi as [|x ins Hx _ IH]; intros n G Hn Hb HG; [by exists n|].
  unfold host_run. rewrite final_for_each_cons. cbn [length] in Hb.
  destruct (host_handle_inv (x.1) (x.2) n G Hx ltac:(lia) HG) as (n1 & Hr1 & H1').
  apply (IH n1); [lia..|done].
Qed.

Lemma new_host_inv : host_inv [] 1 new_host.
Proof.
  split; [apply new_link_ok | | apply new_link_configured | done | constructor | done].
  split; cbn; [done | by intros ? ? ?%lookup_empty_Some | by intros ? ? ?%lookup_empty_Some
    | constructor | constructor].
Qed.

(** C4 (the link and its sessions): whatever the kernel, the composer, the peers, the
    network and the timers do, and in whatever order posted work runs: every session
    named by a connection id exists, was made for that id and for the peer it is filed
    under, and no other session reports under that id; every session was made with a
    configuration in range and satisfies the session invariant; and posted work is for
    sessions that exist. *)
Theorem host_invariant ins :
  Forall (λ x, host_input_ok (x.2)) ins → Z.of_nat (length ins) < 2 ^ 63 - 1 →
  let G := final (host_run ins) new_host in
  registry_ok (h_link G)
  ∧ (∀ id e, l_sessions (h_link G) !! id = Some e → kernel_entry (args_of G) id e)
  ∧ (∀ cid e, composer_sessions (l_composer (h_link G)) !! cid = Some e → composer_entry (args_of G) cid e)
  ∧ NoDup (sa_callbacks <$> args_of G)
  ∧ (∀ h hs, h_sessions G !! h = Some hs → hosted_ok h hs)
  ∧ Forall (λ j, (j.1 < length (h_sessions G))%nat) (h_jobs G).
Proof.
  intros Hi Hb G. destruct (host_run_inv ins 1 new_host Hi ltac:(lia) ltac:(lia) new_host_inv)
    as (n & [Hr Hl Hc Hs Hj Hn]). fold G in Hr, Hl, Hs, Hj. cbn in Hl. rewrite app_nil_r in Hl.
  destruct Hl as [_ Hk Hco _ Hd]. split_and!; try done. eapply Forall_impl; [exact Hj|]. by intros j [? _].
Qed.
End invariant.

(** * Witness *)

(** All sessions draw from the same reference environment. *)
Module HostRef.
#[local] Instance env : HostEnv := {|
  he_session _ := SessionRef.env;
  he_ufrag _ := str "abcdefgh";
  he_pwd _ := str "secret";
  he_tiebreaker h := Z.of_nat h;
|}.
#[local] Instance laws : HostLaws.
Proof. intros h. apply session_ref_laws. Qed.
(** The kernel connects, the posted work runs, the kernel and the composer send. *)
Definition inputs : list (Z * host_input) :=
  [(0, HCall (JSetHostApi (Some LinkRef.api))); (1, HCall (JConnect (str "ice://0aff")));
   (2, HCall (JComposerConnect (str "ice://0bff"))); (3, HJob 1); (4, HJob 0);
   (5, HCall (JSend 1 [1; 2])); (6, HReaper); (7, HInput 0 (ICarrierData 1 [1; 2; 3]))].
Lemma inputs_ok : Forall (λ x, host_input_ok (x.2)) inputs ∧ Z.of_nat (length inputs) < 2 ^ 63 - 1.
Proof. split; [by repeat constructor | done]. Qed.
Definition reached : Host :=
  final (host_run (H := InetRef.ops) (H0 := HmacRef.ops) (H1 := LinkRef.env) (H2 := env) inputs) new_host.
End HostRef.

Lemma host_invariant_witness :
  registry_ok (H := LinkRef.env) (h_link HostRef.reached)
  ∧ NoDup (sa_callbacks <$> args_of HostRef.reached) ∧ length (h_sessions HostRef.reached) = 2%nat.
Proof.
  destruct (@host_invariant InetRef.ops InetRef.laws HmacRef.ops LinkRef.env LinkRef.laws HostRef.env
    HostRef.laws HostRef.inputs (proj1 HostRef.inputs_ok) (proj2 HostRef.inputs_ok)) as (Hr & _ & _ & Hd & _).
  split; [exact Hr|]. split; [exact Hd|]. vm_compute. reflexivity.
Defined.
