(* ===== verification/HostRoute.v ===== *)
(** Data between the host and the network, through the link and its sessions: what the
    host is handed under a connection id comes from the session of that id, and what
    the host sends on an id is given to that session and to no other. *)

From stdpp Require Import gmap.
From S2P Require Import Prelude Bytes Inet Candidate MdnsCodec Mdns Framing Stun Turn PathMtu.
From S2P Require Import DnsExt SessionState Delivery CheckList Gather Session LinkConfig.
From S2P Require Import SessionInv SessionRun PeerKey Link LinkRegistry HostLink Host HostInv.

(** * Inbound data *)

Definition no_data (e : link_event) : Prop :=
  match e with LNotifyInbound _ _ | LComposerData _ _ _ => False | _ => True end.

(** Data handed to the host or the composer follows on the session of that id handing
    it up; [prev] is the event before [out]. *)
Fixpoint sourced (sas : list SessionArgs) (prev : option host_event) (out : list host_event) : Prop :=
  match out with
  | [] => True
  | e :: out =>
      match e with
      | HLink (LNotifyInbound id d) => ∃ h a, prev = Some (HSession h (EData d))
          ∧ sas !! h = Some a ∧ sa_callbacks a = CbKernel id
      | HLink (LComposerData _ cid d) => ∃ h a uri, prev = Some (HSession h (EData d))
          ∧ sas !! h = Some a ∧ sa_callbacks a = CbComposer cid uri
      | _ => True
      end ∧ sourced sas (Some e) out
  end.

Lemma sourced_prev sas prev out : sourced sas None out → sourced sas prev out.
Proof.
  destruct out as [|e out]; [done|]. cbn. intros [He Ho]. split; [|done].
  destruct e as [[]|]; try done.
  - by destruct He as (? & ? & ? & _).
  - by destruct He as (? & ? & ? & ? & _).
Qed.

Lemma sourced_app sas prev o1 o2 : sourced sas prev o1 → sourced sas None o2 → sourced sas prev (o1 ++ o2).
Proof.
  revert prev. induction o1 as [|e o1 IH]; intros prev; [intros _; apply sourced_prev|].
  cbn. intros [He Ho] H2. split; [done|]. by apply IH.
Qed.

Lemma sourced_mono sas sas' prev out : sas `prefix_of` sas' → sourced sas prev out → sourced sas' prev out.
Proof.
  intros [k ->]. revert prev. induction out as [|e out IH]; intros prev; [done|].
  cbn. intros [He Ho]. split; [|by apply IH]. destruct e as [[]|]; try done.
  - destruct He as (h & a & ? & ? & ?). exists h, a. split; [done|]. split; [by apply lookup_app_l_Some|done].
  - destruct He as (h & a & u & ? & ? & ?). exists h, a, u. split; [done|]. split; [by apply lookup_app_l_Some|done].
Qed.

Lemma quiet_sourced sas prev es : Forall no_data es → sourced sas prev (HLink <$> es).
Proof.
  intros He. revert prev. induction He as [|e es He _ IH]; intros prev; [done|].
  cbn. split; [by destruct e|apply IH].
Qed.

(** Sessions are only added, and the outputs are accounted for. *)
Definition routed (G : Host) (out : list host_event) (G' : Host) : Prop :=
  args_of G `prefix_of` args_of G' ∧ sourced (args_of G') None out.

#[export] Instance routed_order : TraceOrder routed.
Proof.
  split; [by intros G; split|]. intros G1 o1 G2 o2 G3 [Hp1 Ho1] [Hp2 Ho2]. split; [by etrans|].
  apply sourced_app; [|done]. by eapply sourced_mono.
Qed.

Ltac no_data_auto :=
  repeat match goal with
    | |- ∀ _, _ => intro
    | |- safe _ _ (get ≫= _) => apply safe_get; intros ? ?
    | |- safe _ _ (_ ≫= _) => apply safe_bind
    | |- safe _ _ skip => apply safe_skip
    | |- safe _ _ (mret _) => apply safe_ret
    | |- safe _ _ (emit _) => apply safe_emit; exact I
    | |- safe _ _ (for_each _ _) => apply safe_for_each
    | |- safe _ _ (modify _) => apply safe_modify; done
    | |- safe _ _ (let _ := _ in _) => cbv zeta
    | |- _ => solve [auto with ice]
    | |- _ => case_match
    end.

Section silent.
Context `{LinkEnv}.
#[local] Abbreviation silent m := (safe (λ _ : IceLink, True) no_data m).

Lemma apply_config_silent : silent apply_config.
Proof. unfold apply_config. no_data_auto. Qed.
Lemma resolve_carriers_silent : silent resolve_carriers.
Proof. unfold resolve_carriers, query_extension, set_carriers. no_data_auto. Qed.
Lemma notify_disconnect_silent id r : silent (notify_disconnect id r).
Proof. unfold notify_disconnect. no_data_auto. Qed.
Lemma send_bytes_silent conn d : silent (send_bytes conn d).
Proof. unfold send_bytes. no_data_auto. Qed.
#[local] Hint Resolve apply_config_silent resolve_carriers_silent notify_disconnect_silent send_bytes_silent : ice.
Lemma send_frames_silent conn fs : silent (send_frames conn fs).
Proof. induction fs; cbn [send_frames]; no_data_auto. Qed.
Lemma disconnect_silent conn : silent (disconnect conn).
Proof. unfold disconnect, drop_composer, drop_session, set_composer. no_data_auto. Qed.
Lemma make_session_silent cfg p c cb m : silent (make_session cfg p c cb m).
Proof. unfold make_session, ensure_mdns_manager. no_data_auto. Qed.
Lemma notify_connect_silent pk p i : silent (notify_connect pk p i).
Proof. unfold notify_connect. no_data_auto. Qed.
Lemma register_session_silent conn h p : silent (register_session conn h p).
Proof. unfold register_session. no_data_auto. Qed.
#[local] Hint Resolve send_frames_silent disconnect_silent make_session_silent notify_connect_silent
  register_session_silent : ice.

(** Only the callbacks of sessions hand data up. *)
Lemma link_handle_silent i l :
  (∀ id d, i ≠ JData id d) → (∀ cid d, i ≠ JComposerData cid d) →
  Forall no_data (outputs (link_handle i) l).
Proof.
  intros H1 H2. assert (silent (link_handle i)) as Hs; [|by apply (Hs l)].
  destruct i; try (by edestruct H1); try (by edestruct H2); cbn [link_handle].
  all: unfold set_host_api, subscribe_reload, set_prefer_turn_tcp, set_security_overhead,
    set_ordered_delivery, set_cfg, connect, send_batch,
    restart_session, deliver_signal, deliver_offer, deliver_answer, fold_signal, poll_local_signal,
    on_interface_change, on_reaper_timer, reap_sessions, composer_connect, composer_subscribe_data,
    composer_unsubscribe_data, set_data_cb, composer_subscribe_accept, composer_unsubscribe_accept,
    on_gathered, on_failed, on_composer_gathered, on_composer_connected, on_composer_failed,
    on_auto_restart, enqueue_local_signal, claim_disconnect, drop_session, drop_composer, shutdown,
    set_composer; no_data_auto.
Qed.
End silent.

(** * Traces *)

Section routes.
Context `{InetOps} `{Hmac} `{LinkEnv} `{HostEnv}.

(** What the callback of an event hands up. *)
Lemma callback_sourced G h a e i : args_of G !! h = Some a →
  callback G h (sa_callbacks a) e = Some i →
  sourced (args_of G) (Some (HSession h e)) (HLink <$> outputs (link_handle i) (h_link G)).
Proof.
  intros Ha Hi.
  assert ((∃ d, e = EData d) ∨ ∀ d, e ≠ EData d) as [[d ->]|Hd] by (destruct e; eauto; by right).
  - destruct (sa_callbacks a) as [id|cid uri] eqn:Hc; cbn in Hi; simplify_eq; cbn [link_handle].
    + unfold on_data. rewrite outputs_get. repeat case_match; try done.
      rewrite outputs_modify. cbn. split; [|done]. by exists h, a.
    + unfold on_composer_data. rewrite outputs_get. repeat case_match; try done.
      rewrite outputs_modify. cbn. split; [|done]. by exists h, a, uri.
  - apply quiet_sourced, link_handle_silent; intros x d ->; destruct (sa_callbacks a), e; cbn in Hi;
      simplify_eq; by eapply Hd.
Qed.

Lemma reports_routed h a out G : args_of G !! h = Some a →
  routed G (outputs (for_each (report h (sa_callbacks a)) out) G) (final (for_each (report h (sa_callbacks a)) out) G).
Proof.
  revert G. induction out as [|e out IH]; intros G Ha; [apply trace_refl|].
  rewrite outputs_for_each_cons, final_for_each_cons.
  apply (trace_trans _ _ (final (report h (sa_callbacks a) e) G)).
  - unfold report. rewrite outputs_bind, final_bind, outputs_get, final_get.
    change (outputs (emit ?x) G) with [x]. change (final (emit ?x) G) with G.
    destruct (callback G h (sa_callbacks a) e) as [i|] eqn:Hi; [|by split].
    destruct (run_callback_exec i G) as [-> ->]. split; [done|]. cbn. split; [done|].
    by apply (callback_sourced G h a e i).
  - apply IH. pose proof (reports_args h (sa_callbacks a) [e] G) as E.
    rewrite final_for_each_cons in E. change (final (for_each _ []) ?x) with x in E. by rewrite E.
Qed.

Lemma call_session_routed now h i : traces routed (call_session now h i).
Proof.
  intros G. unfold call_session. rewrite outputs_get, final_get.
  destruct (h_sessions G !! h) as [hs|] eqn:Hh; [|apply trace_refl]. cbv zeta.
  rewrite outputs_modify, final_modify.
  generalize (exec (session_run (H1 := he_session h) [(now, i)]) (hs_state hs)). intros [s' out].
  cbn [fst snd]. set (G1 := G <| h_sessions := _ |>).
  assert (args_of G1 = args_of G) as Ha.
  { unfold args_of. cbn. rewrite list_fmap_insert. cbn. apply list_insert_id. by rewrite list_lookup_fmap, Hh. }
  destruct (reports_routed h (hs_args hs) out G1) as [Hp Hs].
  { rewrite Ha. unfold args_of. by rewrite list_lookup_fmap, Hh. }
  split; [by rewrite <- Ha | done].
Qed.

Lemma react_routed now e : no_data e → traces routed (react now e).
Proof.
  intros He G.
  assert (∀ e', no_data e' → routed G [HLink e'] G) as Hq
    by (intros e' He'; split; [done|]; apply (quiet_sourced _ _ [e']); by constructor).
  destruct e; try (by apply Hq); [|apply call_session_routed|by split].
  split; [|by split]. unfold args_of. cbn. rewrite fmap_app. by eexists.
Qed.

Lemma run_link_routed now i : (∀ id d, i ≠ JData id d) → (∀ cid d, i ≠ JComposerData cid d) →
  traces routed (run_link now i).
Proof.
  intros H1' H2' G. unfold run_link. rewrite outputs_get, final_get. cbv zeta. rewrite outputs_modify, final_modify.
  change (exec (link_handle i) (h_link G)).2 with (outputs (link_handle i) (h_link G)).
  pose proof (link_handle_silent i (h_link G) H1' H2') as Hs.
  set (G1 := G <| h_link := _ |>). change (routed G ?o ?f) with (routed G1 o f). clearbody G1.
  revert G1. induction Hs as [|e es He _ IH]; intros G1; [apply trace_refl|].
  rewrite outputs_for_each_cons, final_for_each_cons.
  destruct (react_routed now e He G1) as [Hp Ho]. destruct (IH (final (react now e) G1)) as [Hp2 Ho2].
  split; [by etrans|]. apply sourced_app; [|done]. by eapply sourced_mono.
Qed.

Lemma host_handle_routed now x : host_input_ok x → traces routed (host_handle now x).
Proof.
  intros Hx. destruct x; cbn [host_handle].
  - apply run_link_routed; by intros ? ? ->.
  - intros G. rewrite outputs_get, final_get. by apply run_link_routed.
  - intros G. rewrite outputs_get, final_get. by apply run_link_routed.
  - intros G. rewrite outputs_get, final_get. destruct (h_jobs G !! k) as [[h ins]|]; [|apply trace_refl].
    rewrite outputs_modify, final_modify.
    assert (traces routed (for_each (call_session now h) ins)) as Ht
      by (apply traces_for_each; [apply _ | intros i; apply call_session_routed]).
    match goal with |- context [final _ ?x] => exact (Ht x) end.
  - apply call_session_routed.
Qed.

Lemma host_run_routed ins : Forall (λ x, host_input_ok (x.2)) ins → traces routed (host_run ins).
Proof.
  induction 1 as [|x ins Hx _ IH]; [apply traces_skip, _|]. unfold host_run. cbn [for_each].
  apply traces_bind; [apply _ | by apply host_handle_routed | by intros _].
Qed.
End routes.

(** * The theorems *)

Lemma sourced_split sas prev o1 id d o2 :
  sourced sas prev (o1 ++ HLink (LNotifyInbound id d) :: o2) →
  ∃ h a, last (option_list prev ++ o1) = Some (HSession h (EData d))
    ∧ sas !! h = Some a ∧ sa_callbacks a = CbKernel id.
Proof.
  revert prev. induction o1 as [|e o1 IH]; intros prev; cbn [app sourced].
  - intros [(h & a & -> & ? & ?) _]. by exists h, a.
  - intros [_ Ho]. destruct (IH _ Ho) as (h & a & Hl & ?). exists h, a. split; [|done].
    change (option_list (Some e) ++ o1) with (e :: o1) in Hl. by rewrite last_app, Hl.
Qed.

Section routing.
Context `{InetLaws} `{Hmac} `{LinkLaws} `{HostLaws}.

(** The one session of an id. *)
Definition session_for (G : Host) (cb : SessionCallbacks) (h : nat) (hs : Hosted) : Prop :=
  h_sessions G !! h = Some hs ∧ sa_callbacks (hs_args hs) = cb
  ∧ ∀ h' hs', h_sessions G !! h' = Some hs' → sa_callbacks (hs_args hs') = cb → h' = h.

Lemma session_unique G h hs : NoDup (sa_callbacks <$> args_of G) → h_sessions G !! h = Some hs →
  session_for G (sa_callbacks (hs_args hs)) h hs.
Proof.
  intros Hd Hh. split_and!; [done..|]. intros h' hs' Hh' Hc.
  apply (NoDup_lookup _ h' h (sa_callbacks (hs_args hs)) Hd); unfold args_of;
    rewrite !list_lookup_fmap; [by rewrite Hh'; cbn; rewrite Hc | by rewrite Hh].
Qed.

Lemma send_bytes_outputs conn d l h :
  l_shutdown l = false → Z.of_nat (length d) ≤ l_mtu l → session_of l conn = Some h →
  outputs (send_bytes conn d ;; skip) l = [LCall h (ISend d)].
Proof.
  intros Hs Hm Hh. unfold send_bytes. rewrite outputs_bind, outputs_get, Hs, decide_False by lia.
  by rewrite Hh.
Qed.

Lemma reports_sessions h o out G : h_sessions (final (for_each (report h o) out) G) = h_sessions G.
Proof.
  revert G. induction out as [|e out IH]; intros G; [done|]. rewrite final_for_each_cons, IH.
  unfold report. rewrite final_bind, final_get. change (final (emit _) G) with G.
  destruct (callback G h o e) as [i|]; [|done]. by rewrite (proj1 (run_callback_exec i G)).
Qed.

Lemma call_session_sessions now h i G hs : h_sessions G !! h = Some hs →
  h_sessions (final (call_session now h i) G)
  = <[h := mkHosted (hs_args hs) (final (session_run (H1 := he_session h) [(now, i)]) (hs_state hs))]>
      (h_sessions G).
Proof.
  intros Hh. unfold call_session. rewrite final_get, Hh. cbv zeta. by rewrite final_modify, reports_sessions.
Qed.

(** C5 (routing): in every run of the link and its sessions, bytes the host is
    notified of under an id are bytes that the session of that id has just handed up, a
    session made for the peer the host gave the id out for, and the only one that ever
    reports under it; and bytes the host sends on an id, of a size the MTU allows, are
    handed to the session of that id and change no other session. *)
Theorem host_routing ins :
  Forall (λ x, host_input_ok (x.2)) ins → Z.of_nat (length ins) < 2 ^ 63 - 1 →
  let G := final (host_run ins) new_host in
  (∀ id d o1 o2, outputs (host_run ins) new_host = o1 ++ HLink (LNotifyInbound id d) :: o2 →
     ∃ h hs n pk i, last o1 = Some (HSession h (EData d)) ∧ session_for G (CbKernel id) h hs
       ∧ host_connect n pk (canonical (sa_peer (hs_args hs))) i = (GN_OK, Some id))
  ∧ (∀ now conn d h, l_shutdown (h_link G) = false → Z.of_nat (length d) ≤ l_mtu (h_link G) →
     session_of (h_link G) conn = Some h →
     ∃ hs cb, session_for G cb h hs ∧ (cb = CbKernel conn ∨ ∃ uri, cb = CbComposer conn uri)
       ∧ h_sessions (final (host_handle now (HCall (JSend conn d))) G)
         = <[h := mkHosted (hs_args hs)
                    (final (session_run (H1 := he_session h) [(now, ISend d)]) (hs_state hs))]>
             (h_sessions G)).
Proof.
  intros Hi Hb G. destruct (host_run_inv ins 1 new_host Hi ltac:(lia) ltac:(lia) new_host_inv)
    as (n & [Hr Hl Hc Hs Hj Hn]). fold G in Hr, Hl, Hs, Hj. cbn in Hl. rewrite app_nil_r in Hl.
  pose proof (ln_distinct _ _ Hl) as Hd. split.
  - intros id d o1 o2 Ho. destruct (host_run_routed ins Hi new_host) as [_ Hsrc]. rewrite Ho in Hsrc.
    apply sourced_split in Hsrc as (h & a & Hlast & Ha & Hcb). fold G in Ha. cbn [option_list app] in Hlast.
    unfold args_of in Ha. rewrite list_lookup_fmap in Ha. apply fmap_Some in Ha as (hs & Hh & ->).
    pose proof (ln_owned _ _ Hl) as Hown. rewrite Forall_forall in Hown.
    specialize (Hown (hs_args hs)). unfold owned in Hown. rewrite Hcb in Hown.
    destruct Hown as (m & pk & i & _ & Hhc); [apply list_elem_of_fmap; exists hs; split; [done|by eapply list_elem_of_lookup_2]|].
    exists h, hs, m, pk, i. split_and!; [done| |done]. rewrite <- Hcb. by apply session_unique.
  - intros now conn d h Hsd Hm Hh.
    assert (∃ a, args_of G !! h = Some a ∧ (sa_callbacks a = CbKernel conn ∨ ∃ uri, sa_callbacks a = CbComposer conn uri))
      as (a & Ha & Hcb).
    { unfold session_of in Hh. destruct (is_composer conn); apply fmap_Some in Hh as (e & He & ->).
      - destruct (ln_composer _ _ Hl _ _ He) as (a & ? & ? & _). exists a. eauto.
      - destruct (ln_kernel _ _ Hl _ _ He) as (a & ? & ? & _). exists a. eauto. }
    unfold args_of in Ha. rewrite list_lookup_fmap in Ha. apply fmap_Some in Ha as (hs & Hhs & ->).
    exists hs, (sa_callbacks (hs_args hs)). split_and!; [by apply session_unique | done |].
    cbn [host_handle]. unfold run_link. rewrite final_get. cbv zeta. rewrite final_modify.
    change (exec ?m ?l).2 with (outputs m l). cbn [link_handle]. rewrite (send_bytes_outputs _ _ _ h) by done.
    rewrite final_for_each_cons. change (final (for_each _ []) ?x) with x. cbn [react].
    by rewrite (call_session_sessions now h (ISend d) _ hs).
Qed.
End routing.

Lemma host_routing_witness :
  ∃ hs cb, session_for HostRef.reached cb 0 hs ∧ (cb = CbKernel 1 ∨ ∃ uri, cb = CbComposer 1 uri).
Proof.
  destruct (@host_routing InetRef.ops InetRef.laws HmacRef.ops LinkRef.env LinkRef.laws HostRef.env
    HostRef.laws HostRef.inputs (proj1 HostRef.inputs_ok) (proj2 HostRef.inputs_ok)) as [_ Ho].
  destruct (Ho 8 1 [7] 0%nat) as (hs & cb & Hs & Hcb & _); [by vm_compute..|]. by exists hs, cb.
Defined.
