(* ===== verification/HostPair.v ===== *)
(** Two hosts end to end: one connects, the signals are carried across, the datagrams
    of their sessions are exchanged, and both ends are connected and can talk.

    The network here is the simplest one: the two sessions reach each other over the
    first connection they dialled, nothing is lost, and datagrams arrive in the order
    they were sent. *)

From stdpp Require Import gmap.
From S2P Require Import Prelude Bytes Inet Candidate MdnsCodec Mdns Framing Stun Turn PathMtu.
From S2P Require Import DnsExt SessionState Delivery CheckList Gather Session LinkConfig.
From S2P Require Import PeerKey Link LinkRegistry Host.

Module PairRef.
#[local] Existing Instance InetRef.ops.
#[local] Existing Instance HmacRef.ops.
#[local] Existing Instance LinkRef.env.

(** A host with one interface. *)
Definition env (ip ufrag : bytes) (tiebreaker : Z) : HostEnv := {|
  he_session _ := {|
    env_txn n := replicate 8 7 ++ write32 (Z.of_nat n);
    env_string n len := replicate len (97 + Z.of_nat n mod 26);
    env_uuid n := replicate 16 (Z.of_nat n mod 256);
    env_dial n _ := Some (Z.of_nat n + 1);
    env_listen_port := 40000;
    env_ifaddrs := Some [mkIfa false true (IfaV4 ip)];
    env_portmap_supported := false;
    env_portmap _ := None;
    env_parse_uri _ := None;
    env_moves _ _ := false;
    env_stale_port _ _ := 0 |};
  he_ufrag _ := ufrag;
  he_pwd _ := str "secret";
  he_tiebreaker _ := tiebreaker |}.
Definition env_a : HostEnv := env [10; 0; 0; 1] (str "aaaaaaaa") 1.
Definition env_b : HostEnv := env [10; 0; 0; 2] (str "bbbbbbbb") 2.
Definition pk_a : bytes := [10; 255].
Definition pk_b : bytes := [11; 255].

(** The first signal queued for a peer. *)
Definition signal_for (pk : bytes) (G : Host) : bytes :=
  match l_outbound_signals (h_link G) !! pk_to_hex pk with Some (o :: _) => os_blob o | _ => [] end.

(** The datagrams a run put on the connection between the two sessions. *)
Definition datagrams (out : list host_event) : list bytes :=
  omap (λ e, match e with HSession 0 (ESend 1 d) => Some d | _ => None end) out.

(** Deliver what is on the way, [qa] to [B] and [qb] to [A], until nothing is. *)
Fixpoint pump (fuel : nat) (now : Z) (A B : Host) (qa qb : list bytes) : option (Host * Host) :=
  match fuel, qa, qb with
  | _, [], [] => Some (A, B)
  | O, _, _ => None
  | S fuel, d :: qa, _ =>
      let r := exec (host_handle (H2 := env_b) now (HInput 0 (ICarrierData 1 d))) B in
      pump fuel (now + 1) A (r.1) qa (qb ++ datagrams r.2)
  | S fuel, [], d :: qb =>
      let r := exec (host_handle (H2 := env_a) now (HInput 0 (ICarrierData 1 d))) A in
      pump fuel (now + 1) (r.1) B (datagrams r.2) qb
  end.

(** [A] connects to [B]'s key, gathers and publishes its offer; [B] gets the offer,
    answers and starts checking; [A] gets the answer; the checks are exchanged. *)
Definition meet : option (Host * Host) :=
  let up := (0, HCall (JSetHostApi (Some LinkRef.api))) in
  let a1 := final (host_run (H2 := env_a) [up; (1, HCall (JConnect (canonical (pk_to_hex pk_b))));
              (2, HJob 0); (3, HInput 0 (ITimer TmGather 0))]) new_host in
  let b1 := exec (host_run (H2 := env_b)
              [up; (4, HCall (JDeliver pk_a ICE_SIGNAL_OFFER_EOC (signal_for pk_b a1))); (5, HJob 0)]) new_host in
  let a2 := exec (host_run (H2 := env_a)
              [(6, HCall (JDeliver pk_b ICE_SIGNAL_ANSWER_EOC (signal_for pk_a b1.1))); (7, HJob 0)]) a1 in
  pump 100 10 (a2.1) (b1.1) (datagrams a2.2) (datagrams b1.2).

(** [A]'s host sends [d] on its connection; the bytes [B]'s host is notified of. *)
Definition heard (A B : Host) (d : bytes) : list (Z * bytes) :=
  omap (λ e, match e with HLink (LNotifyInbound id x) => Some (id, x) | _ => None end)
    (outputs (host_run (H2 := env_b) ((λ x, (500, HInput 0 (ICarrierData 1 x))) <$>
       datagrams (outputs (host_run (H2 := env_a) [(500, HCall (JSend 1 d))]) A))) B).

Definition connected (G : Host) : bool :=
  bool_decide (s_state <$> (hs_state <$> h_sessions G) = [Connected]).
End PairRef.

(** The two hosts meet: both sessions get connected, and what one host sends reaches
    the other. *)
Lemma two_hosts_meet : match PairRef.meet with
  | Some (A, B) => PairRef.connected A && PairRef.connected B
      && bool_decide (PairRef.heard A B (str "hello") = [(1, str "hello")])
  | None => false
  end = true.
Proof. vm_compute. reflexivity. Qed.
