(* ===== verification/Plugin.v ===== *)
(** The plugin (src/plugin_entry.cpp): the tables through which the kernel, the
    composers and the signalling bridge reach the link, and the life of the plugin
    from [init] to [unregister].

    A null pointer is [None]; a null pointer of length zero is the empty list.  The
    thunks catch exceptions, which the model does not have.  The constants of the SDK
    and what the host answers to registrations are operations of [PluginEnv]. *)

From stdpp Require Import gmap.
From S2P Require Import Prelude Bytes Inet Candidate SessionState Session LinkConfig PeerKey Link.
From S2P Require Import LinkRegistry LinkSignal LinkLife.

(** A security provider of the topology, and the topology the kernel seals. *)
Record Topology := mkTopology { contour_gaps : Z; provides_flags : list Z }.

Class PluginEnv := {
  GN_TRUST_UNTRUSTED : Z;
  GN_TRUST_PEER : Z;
  GN_SEC_PROVIDES_E2E_ENCRYPTION : Z;
  GN_LINK_CAP_DATAGRAM : Z;
  GN_PLUGIN_KIND_LINK : Z;
  GN_EXT_LINK_VERSION : Z;
  GN_SDK_VERSION : Z * Z * Z;                (* major, minor, patch *)
  host_register_vtable : gn_result * option Z;
  host_register_extension : bytes → gn_result;
}.

(** The registration slots of [host_api_t]. *)
Record RegisterApi := mkRegisterApi {
  has_register_vtable : bool;
  has_register_extension : bool;
  has_unregister_extension : bool;
  has_unregister_vtable : bool;
}.

Record gn_link_caps_t := mkCaps { caps_flags : Z; caps_max_payload : Z }.

Record IcePlugin := mkPlugin {
  p_api : RegisterApi;
  p_link : IceLink;
  p_caps : gn_link_caps_t;
  p_link_id : option Z;
  p_link_extension : bool;           (* [*_extension_registered] *)
  p_signal_extension : bool;
  p_path_mtu_extension : bool;
  p_metrics_extension : bool;
}.
#[global] Instance IcePlugin_eta : Eta IcePlugin := λ p,
  mkPlugin (p_api p) (p_link p) (p_caps p) (p_link_id p) (p_link_extension p) (p_signal_extension p)
    (p_path_mtu_extension p) (p_metrics_extension p).

Inductive plugin_event :=
  | PLink (e : link_event)
  | PRegisterVtable (name : bytes)
  | PUnregisterVtable (id : Z)
  | PRegisterExtension (name : bytes) (version : Z)
  | PUnregisterExtension (name : bytes).

Abbreviation plugin := (eff IcePlugin plugin_event).

Definition kIceScheme : bytes := str "ice".
Definition kPluginName : bytes := str "goodnet_link_ice".
Definition kIceLinkExtensionName : bytes := str "gn.link.ice".
Definition kIceSignalExtensionName : bytes := str "gn.link.ice.signal".
Definition kIcePathMtuExtensionName : bytes := str "gn.link.ice.path_mtu".
Definition kIceMetricsExtensionName : bytes := str "gn.link.ice.metrics".
Definition kIceSignalVersion : Z := 0x00020000.
Definition kIcePathMtuVersion : Z := 0x00010000.
Definition kIceMetricsVersion : Z := 0x00010000.

(** A method of [p->link]. *)
Definition on_link {A} (m : link A) : plugin A := Eff (λ p,
  let '(a, l, o) := run m (p_link p) in (a, p <| p_link := l |>, PLink <$> o)).

Lemma on_link_outputs {A} (m : link A) p : outputs (on_link m) p = PLink <$> outputs m (p_link p).
Proof. unfold outputs, on_link, exec. cbn. by destruct (run m (p_link p)) as [[a l] o]. Qed.

Definition null_arg {A} (a : A) : link (gn_result * A) := mret (GN_ERR_NULL_ARG, a).

(** * The thunks *)

Section thunks.
Context `{LinkEnv}.

Definition link_listen (uri : option bytes) : link gn_result :=
  match uri with None => mret GN_ERR_NULL_ARG | Some u => listen u end.

Definition link_connect (uri : option bytes) : link gn_result :=
  match uri with
  | None => mret GN_ERR_NULL_ARG
  | Some u => r ← connect u; mret (r.1)
  end.

Definition link_send (conn : Z) (data : option bytes) : link gn_result :=
  match data with None => mret GN_ERR_NULL_ARG | Some d => send_bytes conn d end.

Definition link_send_batch (conn : Z) (batch : option (list bytes)) : link gn_result :=
  match batch with None => mret GN_ERR_NULL_ARG | Some fs => send_batch conn fs end.

Definition link_disconnect (conn : Z) : link gn_result := disconnect conn.

Definition link_ext_get_stats : link (gn_result * Stats) := l ← get; mret (GN_OK, stats l).
Definition link_ext_send : Z → option bytes → link gn_result := link_send.
Definition link_ext_send_batch : Z → option (list bytes) → link gn_result := link_send_batch.
Definition link_ext_close (conn : Z) : link gn_result := disconnect conn.

Definition link_ext_composer_listen (uri : option bytes) : link gn_result :=
  match uri with None => mret GN_ERR_NULL_ARG | Some u => composer_listen u end.

(** With [out_conn] given. *)
Definition link_ext_composer_connect (uri : option bytes) : link (gn_result * option Z) :=
  match uri with None => null_arg None | Some u => connect u end.

Definition link_ext_composer_subscribe_data (conn : Z) (cb : option Z) : link gn_result :=
  composer_subscribe_data conn cb.
Definition link_ext_composer_unsubscribe_data (conn : Z) : link gn_result :=
  composer_unsubscribe_data conn.
Definition link_ext_composer_subscribe_accept (cb : option Z) : link (gn_result * option Z) :=
  composer_subscribe_accept cb.
Definition link_ext_composer_unsubscribe_accept (token : Z) : link gn_result :=
  composer_unsubscribe_accept token.
Definition link_ext_composer_listen_port (listen_port : Z) : link (gn_result * Z) :=
  l ← get; mret (GN_OK, composer_listen_port listen_port l).

Definition signal_ext (kind : Z) (peer_pk blob : option bytes) : link gn_result :=
  match peer_pk, blob with
  | Some pk, Some b => deliver_signal pk kind b
  | _, _ => mret GN_ERR_NULL_ARG
  end.
Definition signal_ext_offer : option bytes → option bytes → link gn_result := signal_ext ICE_SIGNAL_OFFER.
Definition signal_ext_answer : option bytes → option bytes → link gn_result := signal_ext ICE_SIGNAL_ANSWER.
Definition signal_ext_offer_eoc : option bytes → option bytes → link gn_result :=
  signal_ext ICE_SIGNAL_OFFER_EOC.
Definition signal_ext_answer_eoc : option bytes → option bytes → link gn_result :=
  signal_ext ICE_SIGNAL_ANSWER_EOC.

Definition signal_ext_poll_local (peer_pk : option bytes) (blob_cap : nat)
    : link (gn_result * option OutboundSignal * option nat) :=
  match peer_pk with
  | None => mret (GN_ERR_NULL_ARG, None, None)
  | Some pk => poll_local_signal pk blob_cap
  end.

Definition path_mtu_ext_get (heap : nat → IceSession) (conn : Z) : link (gn_result * Z) :=
  l ← get; mret (GN_OK, effective_path_mtu heap l conn).

(** [size_ok]: the caller's structure is large enough. *)
Definition metrics_ext_get_nomination (heap : nat → IceSession) (size_ok : bool) (conn : Z)
    : link (gn_result * option NominationMetrics) :=
  l ← get;
  mret (if size_ok then (GN_OK, Some (link_nomination_metrics heap l conn)) else (GN_ERR_OUT_OF_RANGE, None)).

Definition metrics_ext_get_candidate_counts (heap : nat → IceSession) (size_ok : bool) (conn : Z)
    : link (gn_result * option CandidateCounts) :=
  l ← get;
  mret (if size_ok then (GN_OK, Some (link_candidate_counts heap l conn)) else (GN_ERR_OUT_OF_RANGE, None)).
End thunks.

(** * Topology *)

Section plugin.
Context `{LinkEnv} `{PluginEnv}.

Definition link_on_topology_sealed (topo : option Topology) : link unit :=
  match topo with
  | None => skip
  | Some t =>
      let open_mask := Z.lor (Z.shiftl 1 GN_TRUST_UNTRUSTED) (Z.shiftl 1 GN_TRUST_PEER) in
      let contour_open := negb (bool_decide (Z.land (contour_gaps t) open_mask = 0)) in
      set_prefer_turn_tcp contour_open ;;
      let e2e_present :=
        existsb (λ f, negb (bool_decide (Z.land f GN_SEC_PROVIDES_E2E_ENCRYPTION = 0))) (provides_flags t) in
      set_security_overhead (if e2e_present then 20 else 0) ;;
      set_ordered_delivery e2e_present
  end.

(** * The tables *)

Definition capabilities : gn_link_caps_t := mkCaps GN_LINK_CAP_DATAGRAM kDefaultMtu.

Definition link_ext_get_caps : plugin (gn_result * gn_link_caps_t) := p ← get; mret (GN_OK, p_caps p).

(** The [gn.link.ice] table. *)
Record gn_link_api_t := mkLinkApi {
  la_get_stats : link (gn_result * Stats);
  la_get_capabilities : plugin (gn_result * gn_link_caps_t);
  la_send : Z → option bytes → link gn_result;
  la_send_batch : Z → option (list bytes) → link gn_result;
  la_close : Z → link gn_result;
  la_listen : option bytes → link gn_result;
  la_connect : option bytes → link (gn_result * option Z);
  la_subscribe_data : Z → option Z → link gn_result;
  la_unsubscribe_data : Z → link gn_result;
  la_subscribe_accept : option Z → link (gn_result * option Z);
  la_unsubscribe_accept : Z → link gn_result;
  la_composer_listen_port : Z → link (gn_result * Z);
}.

Definition install_link_extension : gn_link_api_t := {|
  la_get_stats := link_ext_get_stats;
  la_get_capabilities := link_ext_get_caps;
  la_send := link_ext_send;
  la_send_batch := link_ext_send_batch;
  la_close := link_ext_close;
  la_listen := link_ext_composer_listen;
  la_connect := link_ext_composer_connect;
  la_subscribe_data := link_ext_composer_subscribe_data;
  la_unsubscribe_data := link_ext_composer_unsubscribe_data;
  la_subscribe_accept := link_ext_composer_subscribe_accept;
  la_unsubscribe_accept := link_ext_composer_unsubscribe_accept;
  la_composer_listen_port := link_ext_composer_listen_port |}.

(** The [gn.link.ice.path_mtu], [gn.link.ice.metrics] and [gn.link.ice.signal] tables. *)
Record gn_link_ice_path_mtu_api_t := mkPathMtuApi {
  pm_get : (nat → IceSession) → Z → link (gn_result * Z);
}.
Definition install_path_mtu_extension : gn_link_ice_path_mtu_api_t := mkPathMtuApi path_mtu_ext_get.

Record gn_link_ice_metrics_api_t := mkMetricsApi {
  me_get_nomination : (nat → IceSession) → bool → Z → link (gn_result * option NominationMetrics);
  me_get_candidate_counts : (nat → IceSession) → bool → Z → link (gn_result * option CandidateCounts);
}.
Definition install_metrics_extension : gn_link_ice_metrics_api_t :=
  mkMetricsApi metrics_ext_get_nomination metrics_ext_get_candidate_counts.

Record gn_link_ice_signal_api_t := mkSignalApi {
  si_offer : option bytes → option bytes → link gn_result;
  si_answer : option bytes → option bytes → link gn_result;
  si_offer_eoc : option bytes → option bytes → link gn_result;
  si_answer_eoc : option bytes → option bytes → link gn_result;
  si_poll_local : option bytes → nat → link (gn_result * option OutboundSignal * option nat);
}.
Definition install_signal_extension : gn_link_ice_signal_api_t :=
  mkSignalApi signal_ext_offer signal_ext_answer signal_ext_offer_eoc signal_ext_answer_eoc
    signal_ext_poll_local.

(** The kernel's table. *)
Record gn_link_vtable_t := mkLinkVtable {
  vt_scheme : bytes;
  vt_listen : option bytes → link gn_result;
  vt_connect : option bytes → link gn_result;
  vt_send : Z → option bytes → link gn_result;
  vt_send_batch : Z → option (list bytes) → link gn_result;
  vt_disconnect : Z → link gn_result;
  vt_extension_name : bytes;
  vt_extension_vtable : gn_link_api_t;
  vt_destroy : link unit;
  vt_on_topology_sealed : option Topology → link unit;
}.

Definition link_scheme : bytes := kIceScheme.
Definition link_extension_name : bytes := kIceLinkExtensionName.
Definition link_extension_vtable : gn_link_api_t := install_link_extension.
Definition link_destroy : link unit := skip.

Definition install_link_vtable : gn_link_vtable_t := {|
  vt_scheme := link_scheme;
  vt_listen := link_listen;
  vt_connect := link_connect;
  vt_send := link_send;
  vt_send_batch := link_send_batch;
  vt_disconnect := link_disconnect;
  vt_extension_name := link_extension_name;
  vt_extension_vtable := link_extension_vtable;
  vt_destroy := link_destroy;
  vt_on_topology_sealed := link_on_topology_sealed |}.

(** The plugin as the host's loader sees it. *)
Record gn_plugin_descriptor_t := mkDescriptor {
  pd_name : bytes; pd_version : bytes; pd_hot_reload_safe : bool;
  pd_requires : list bytes; pd_provides : list bytes; pd_kind : Z;
}.

Definition kProvidesList : list bytes :=
  [kIceLinkExtensionName; kIceSignalExtensionName; kIcePathMtuExtensionName; kIceMetricsExtensionName].

Definition kDescriptor : gn_plugin_descriptor_t :=
  mkDescriptor kPluginName (str "0.1.0") false [] kProvidesList GN_PLUGIN_KIND_LINK.

Definition plugin_sdk_version : Z * Z * Z := GN_SDK_VERSION.
Definition plugin_descriptor : gn_plugin_descriptor_t := kDescriptor.

(** * Life *)

(** [init]; [allocated] tells whether the plugin and its link could be allocated. *)
Definition plugin_init (allocated : bool) (api : option (RegisterApi * HostApi))
    : gn_result * option IcePlugin * list link_event :=
  match api with
  | None => (GN_ERR_NULL_ARG, None, [])
  | Some (reg, host) =>
      if allocated then
        let '(l, o) := exec (set_host_api (Some host)) new_link in
        (GN_OK, Some (mkPlugin reg l capabilities None false false false false), o)
      else (GN_ERR_OUT_OF_MEMORY, None, [])
  end.

Definition register_extension (name : bytes) (version : Z) (flag : IcePlugin → IcePlugin) : plugin unit :=
  emit (PRegisterExtension name version) ;;
  if decide (host_register_extension name = GN_OK) then modify flag else skip.

Definition plugin_register : plugin gn_result :=
  p ← get;
  if negb (has_register_vtable (p_api p)) then mret GN_ERR_NOT_IMPLEMENTED else
  emit (PRegisterVtable kIceScheme) ;;
  match host_register_vtable with
  | (GN_OK, id) =>
      modify (λ p, p <| p_link_id := id |>) ;;
      (if has_register_extension (p_api p) then
         register_extension kIceLinkExtensionName GN_EXT_LINK_VERSION
           (λ p, p <| p_link_extension := true |>) ;;
         register_extension kIceSignalExtensionName kIceSignalVersion
           (λ p, p <| p_signal_extension := true |>) ;;
         register_extension kIcePathMtuExtensionName kIcePathMtuVersion
           (λ p, p <| p_path_mtu_extension := true |>) ;;
         register_extension kIceMetricsExtensionName kIceMetricsVersion
           (λ p, p <| p_metrics_extension := true |>)
       else skip) ;;
      mret GN_OK
  | (rc, _) => mret rc
  end.

Definition unregister_extension (name : bytes) (registered : IcePlugin → bool)
    (clear : IcePlugin → IcePlugin) : plugin unit :=
  p ← get;
  if registered p && has_unregister_extension (p_api p)
  then emit (PUnregisterExtension name) ;; modify clear else skip.

Definition plugin_unregister : plugin gn_result :=
  unregister_extension kIceMetricsExtensionName p_metrics_extension
    (λ p, p <| p_metrics_extension := false |>) ;;
  unregister_extension kIcePathMtuExtensionName p_path_mtu_extension
    (λ p, p <| p_path_mtu_extension := false |>) ;;
  unregister_extension kIceSignalExtensionName p_signal_extension
    (λ p, p <| p_signal_extension := false |>) ;;
  unregister_extension kIceLinkExtensionName p_link_extension (λ p, p <| p_link_extension := false |>) ;;
  p ← get;
  (match p_link_id p with
   | Some id =>
       if has_unregister_vtable (p_api p)
       then emit (PUnregisterVtable id) ;; modify (λ p, p <| p_link_id := None |>) else skip
   | None => skip
   end) ;;
  on_link shutdown ;;
  mret GN_OK.

(** [delete]: the link goes with the plugin, and its destructor shuts it down. *)
Definition plugin_shutdown : plugin unit := on_link shutdown.
End plugin.

(** The capabilities never learn of the configured MTU: a frame they allow is refused
    when [ice.path_mtu] is smaller. *)
Lemma capabilities_ignore_mtu `{LinkEnv} `{PluginEnv} p conn d :
  p_caps p = capabilities → l_shutdown (p_link p) = false →
  l_mtu (p_link p) < Z.of_nat (length d) ≤ caps_max_payload (p_caps p) →
  result (la_send install_link_extension conn (Some d)) (p_link p) = GN_ERR_PAYLOAD_TOO_LARGE.
Proof.
  intros _ Hs [Hd _]. cbn. unfold send_bytes. rewrite result_bind. change (result get ?l) with l.
  by rewrite Hs, decide_True by lia.
Qed.

(** * The composer surface *)

(** What a composer needs of a carrier: connecting, and subscribing to the data of the
    connection it got. *)
Record ComposerApi := mkComposerApi {
  ca_connect : bytes → link (gn_result * option Z);
  ca_subscribe_data : Z → option Z → link gn_result;
}.

(** The contract: data can be subscribed to on every connection made. *)
Definition delivers (api : ComposerApi) (l : IceLink) : Prop :=
  ∀ uri cb conn, result (ca_connect api uri) l = (GN_OK, Some conn) →
    result (ca_subscribe_data api conn cb) (final (ca_connect api uri) l) = GN_OK.

Section composer.
Context `{LinkLaws}.

(** The methods of [IceLink], and the slots of the [gn.link.ice] table. *)
Definition composer_methods : ComposerApi := mkComposerApi composer_connect composer_subscribe_data.
Definition composer_table : ComposerApi :=
  mkComposerApi (λ uri, la_connect install_link_extension (Some uri))
    (la_subscribe_data install_link_extension).

(** The entry a composer connection leaves. *)
Lemma composer_connect_entry uri l conn :
  registry_ok l → result (composer_connect uri) l = (GN_OK, Some conn) →
  is_composer conn = true ∧ is_Some (composer_sessions (l_composer (final (composer_connect uri) l)) !! conn).
Proof.
  intros Hl. unfold composer_connect. rewrite result_bind, final_get.
  change (result get l) with l. change (final get l) with l.
  destruct (l_shutdown l); [done|]. destruct (uri_peer uri) as [p|]; [|done].
  destruct (parse_peer_pk_hex _ p); [|done]. cbn zeta. rewrite result_bind, final_bind.
  set (l1 := final (set_composer _) l).
  destruct (composer_peer_to_id (l_composer l) !! p) as [id|] eqn:Hp.
  - intros [= ->]. apply (reg_composer l Hl) in Hp as (e & He & _).
    destruct (reg_cids l Hl _ _ He) as (n & _ & Hc). split; [rewrite Hc; apply composer_id_bit | by exists e].
  - rewrite result_bind, final_bind.
    destruct (make_session_run (l_cfg l) p true (CbComposer (Z.lor (next_composer_id (l_composer l)) kComposerIdBit)
      (canonical p)) true l1) as (cs & q & b & es & Hm & _).
    unfold final at 2, result at 2, exec. rewrite Hm. intros [= <-].
    split; [apply composer_id_bit|]. cbn. rewrite lookup_insert_eq. by eexists.
Qed.

(** The id of a connection of the kernel comes from the host. *)
Lemma connect_id uri l conn : result (connect uri) l = (GN_OK, Some conn) → is_composer conn = false.
Proof.
  unfold connect. rewrite result_bind. change (result get l) with l. change (final get l) with l.
  destruct (l_shutdown l); [done|]. destruct (uri_peer uri) as [p|]; [|done].
  destruct (parse_peer_pk_hex _ p) as [pk|]; [|done]. destruct (api_has api_notify_connect l); [|done].
  cbn [negb]. rewrite result_bind. unfold result at 2, final, exec. rewrite notify_connect_run.
  destruct (host_connect (l_connects l) pk (canonical p) true) as [rc oc] eqn:Hh. cbn [fst].
  destruct rc, oc as [c|]; try done. apply host_connect_kernel in Hh.
  rewrite result_bind, result_bind, result_bind, result_bind. by intros [= <-].
Qed.

(** The composer table breaks its contract: a composer that uses the methods of
    the link can subscribe to the data of every connection it makes.  Through the
    [gn.link.ice] table it never can: the table's connect slot makes a connection of
    the kernel, and the subscription is refused. *)
Theorem composer_table_deaf l :
  registry_ok l → delivers composer_methods l
  ∧ ∀ uri cb conn, result (ca_connect composer_table uri) l = (GN_OK, Some conn) →
      result (ca_subscribe_data composer_table conn cb) (final (ca_connect composer_table uri) l)
      = GN_ERR_NOT_FOUND.
Proof.
  intros Hl. split.
  - intros uri cb conn Hc. destruct (composer_connect_entry uri l conn Hl Hc) as [Hb (e & He)].
    cbn. unfold composer_subscribe_data. rewrite result_bind.
    change (result get ?l) with l. rewrite Hb, He. done.
  - intros uri cb conn Hc. cbn in Hc |- *. unfold link_ext_composer_subscribe_data, composer_subscribe_data.
    rewrite result_bind. change (result get ?l) with l.
    by rewrite (connect_id uri l conn Hc).
Qed.
End composer.

Lemma composer_table_deaf_witness :
  delivers (composer_methods (H := LinkRef.env)) LinkRef.up
  ∧ result (ca_connect (composer_table (H := LinkRef.env)) (str "ice://0aff")) LinkRef.up = (GN_OK, Some 1)
  ∧ result (ca_subscribe_data (composer_table (H := LinkRef.env)) 1 (Some 5))
      (final (ca_connect (composer_table (H := LinkRef.env)) (str "ice://0aff")) LinkRef.up) = GN_ERR_NOT_FOUND.
Proof.
  destruct (@composer_table_deaf LinkRef.env LinkRef.laws LinkRef.up) as [Hm Ht].
  { apply (same_registry_ok new_link); [by split_and! | apply new_link_ok]. }
  split_and!; [exact Hm | done | by apply Ht].
Defined.

(** * Registration *)

Section registration.
Context `{LinkEnv} `{PluginEnv}.

(** The extensions with their versions. *)
Definition extensions : list (bytes * Z) :=
  [(kIceLinkExtensionName, GN_EXT_LINK_VERSION); (kIceSignalExtensionName, kIceSignalVersion);
   (kIcePathMtuExtensionName, kIcePathMtuVersion); (kIceMetricsExtensionName, kIceMetricsVersion)].
Definition register_events : list plugin_event :=
  PRegisterVtable kIceScheme :: ((λ x, PRegisterExtension (x.1) (x.2)) <$> extensions).

(** No extension and no vtable is registered. *)
Definition unregistered (p : IcePlugin) : Prop :=
  p_link_id p = None ∧ p_link_extension p = false ∧ p_signal_extension p = false
  ∧ p_path_mtu_extension p = false ∧ p_metrics_extension p = false.

Definition accepted (name : bytes) : bool := bool_decide (host_register_extension name = GN_OK).

Lemma register_extension_run name v f p :
  run (register_extension name v f) p
  = (tt, if accepted name then f p else p, [PRegisterExtension name v]).
Proof.
  unfold register_extension, accepted. rewrite run_bind. by case_decide; case_bool_decide.
Qed.
#[local] Opaque accepted kIceLinkExtensionName kIceSignalExtensionName kIcePathMtuExtensionName
  kIceMetricsExtensionName.

Lemma unregister_extension_run name flag clear p :
  has_unregister_extension (p_api p) = true →
  run (unregister_extension name flag clear) p
  = if flag p then (tt, clear p, [PUnregisterExtension name]) else (tt, p, []).
Proof. intros Ha. unfold unregister_extension. rewrite run_get, Ha. by destruct (flag p). Qed.

Definition all_slots : RegisterApi := mkRegisterApi true true true true.

Lemma plugin_register_run l c id :
  host_register_vtable = (GN_OK, Some id) →
  run plugin_register (mkPlugin all_slots l c None false false false false)
  = (GN_OK, mkPlugin all_slots l c (Some id) (accepted kIceLinkExtensionName)
       (accepted kIceSignalExtensionName) (accepted kIcePathMtuExtensionName)
       (accepted kIceMetricsExtensionName),
     register_events).
Proof.
  intros Hv. unfold plugin_register. rewrite run_get. cbn [p_api all_slots negb has_register_vtable].
  rewrite run_bind, Hv. change (run (emit ?e) ?p) with (tt, p, [e]).
  cbn beta iota. rewrite run_modify, run_bind. cbn [has_register_extension all_slots p_api].
  rewrite run_bind, register_extension_run, run_bind, register_extension_run, run_bind,
    !register_extension_run. cbn.
  by destruct (accepted kIceLinkExtensionName), (accepted kIceSignalExtensionName),
    (accepted kIcePathMtuExtensionName), (accepted kIceMetricsExtensionName).
Qed.

Lemma plugin_unregister_run l c id b1 b2 b3 b4 :
  exec plugin_unregister (mkPlugin all_slots l c (Some id) b1 b2 b3 b4)
  = (mkPlugin all_slots (final shutdown l) c None false false false false,
     (if b4 then [PUnregisterExtension kIceMetricsExtensionName] else [])
     ++ (if b3 then [PUnregisterExtension kIcePathMtuExtensionName] else [])
     ++ (if b2 then [PUnregisterExtension kIceSignalExtensionName] else [])
     ++ (if b1 then [PUnregisterExtension kIceLinkExtensionName] else [])
     ++ PUnregisterVtable id :: (PLink <$> outputs shutdown l)).
Proof.
  unfold plugin_unregister, on_link, final, outputs, exec.
  destruct b1, b2, b3, b4; cbn -[shutdown]; by destruct (run shutdown l) as [[[] l'] o]; cbn; rewrite ?app_nil_r.
Qed.

(** A link that is shut down has nothing more to do. *)
Lemma shutdown_twice l : outputs shutdown (final shutdown l) = [].
Proof.
  assert (l_shutdown (final shutdown l) = true ∧ l_iface_watcher (final shutdown l) = false) as [Hs Hw].
  { destruct (l_shutdown l) eqn:Hs; [|by destruct (shutdown_down l Hs)].
    unfold shutdown. rewrite final_get, final_bind, Hs. by destruct (l_iface_watcher l) eqn:Hw. }
  unfold shutdown at 1. rewrite outputs_get, outputs_bind, Hw, Hs. done.
Qed.

Lemma exec_then {S E A B} (m : eff S E A) (f : A → eff S E B) s a s1 o1 s2 o2 :
  run m s = (a, s1, o1) → exec (f a) s1 = (s2, o2) → exec (m ≫= f) s = (s2, o1 ++ o2).
Proof.
  intros Hm Hf. unfold exec in *. rewrite run_bind, Hm. destruct (run (f a) s1) as [[b s'] o].
  by simplify_eq.
Qed.

(** C32 (registration is undone): a plugin registers the extensions its descriptor
    announces.  When it registers with a host that has all the slots, and then
    unregisters, it takes back exactly the extensions the host accepted, in reverse
    order, then the link's table, and shuts the link down last.  Nothing stays
    registered, and deleting the plugin does nothing more. *)
Theorem unregister_undoes_register p id :
  p_api p = all_slots → unregistered p →
  host_register_vtable = (GN_OK, Some id) →
  let p' := final (plugin_register ;; plugin_unregister) p in
  extensions.*1 = pd_provides plugin_descriptor
  ∧ outputs (plugin_register ;; plugin_unregister) p
    = register_events
      ++ (PUnregisterExtension <$> rev (List.filter accepted (pd_provides plugin_descriptor)))
      ++ PUnregisterVtable id :: (PLink <$> outputs shutdown (p_link p))
  ∧ unregistered p' ∧ outputs plugin_shutdown p' = [].
Proof.
  intros Ha (Hi & E1 & E2 & E3 & E4) Hv p'. split; [done|]. destruct p as [api l c lid e1 e2 e3 e4].
  cbn in Ha, Hi, E1, E2, E3, E4. subst. cbn [p_link]. pose proof (plugin_register_run l c id Hv) as Hr.
  pose proof (plugin_unregister_run l c id (accepted kIceLinkExtensionName) (accepted kIceSignalExtensionName)
    (accepted kIcePathMtuExtensionName) (accepted kIceMetricsExtensionName)) as Hu.
  pose proof (exec_then plugin_register (λ _, plugin_unregister) _ _ _ _ _ _ Hr Hu) as Hx.
  unfold p', outputs at 1, final at 1 2. rewrite Hx. cbn [fst snd].
  split_and!; [|done|].
  - f_equal. cbn [pd_provides plugin_descriptor kDescriptor kProvidesList List.filter].
    by destruct (accepted kIceLinkExtensionName), (accepted kIceSignalExtensionName),
      (accepted kIcePathMtuExtensionName), (accepted kIceMetricsExtensionName).
  - unfold plugin_shutdown. rewrite on_link_outputs. cbn [p_link]. by rewrite shutdown_twice.
Qed.
End registration.

Module PluginRef.
#[local] Instance env : PluginEnv := {|
  GN_TRUST_UNTRUSTED := 0; GN_TRUST_PEER := 1; GN_SEC_PROVIDES_E2E_ENCRYPTION := 4;
  GN_LINK_CAP_DATAGRAM := 2; GN_PLUGIN_KIND_LINK := 1; GN_EXT_LINK_VERSION := 1; GN_SDK_VERSION := (1, 0, 0);
  host_register_vtable := (GN_OK, Some 3);
  host_register_extension name := if decide (name = kIceMetricsExtensionName) then GN_ERR_HOST 2 else GN_OK;
|}.
End PluginRef.

Lemma unregister_undoes_register_witness :
  ∃ p, (plugin_init (H := LinkRef.env) (H0 := PluginRef.env) true (Some (all_slots, LinkRef.api))).1.2 = Some p
  ∧ outputs (plugin_register (H0 := PluginRef.env) ;; plugin_unregister) p
    = register_events (H0 := PluginRef.env)
      ++ [PUnregisterExtension kIcePathMtuExtensionName; PUnregisterExtension kIceSignalExtensionName;
          PUnregisterExtension kIceLinkExtensionName]
      ++ PUnregisterVtable 3 :: (PLink <$> outputs shutdown (p_link p)).
Proof.
  destruct (plugin_init (H := LinkRef.env) (H0 := PluginRef.env) true (Some (all_slots, LinkRef.api))).1.2
    as [p|] eqn:Hp; [|done]. exists p. split; [done|]. vm_compute in Hp. injection Hp as <-.
  destruct (unregister_undoes_register (H0 := PluginRef.env) (mkPlugin all_slots
    (final (set_host_api (H := LinkRef.env) (Some LinkRef.api)) new_link)
    (capabilities (H0 := PluginRef.env)) None false false false false) 3) as (_ & Ho & _);
    [done | by split_and! | done | exact Ho].
Defined.
