(* ===== verification/Watcher.v ===== *)
(** The interface watcher (src/interface_watcher.hpp, src/interface_watcher.cpp):
    netlink messages, the debounce timer and the callback.

    The reader thread posts a job to the link's [io_context] for every relevant
    read; the job re-arms the timer, which aborts the wait that was pending.  Jobs
    and expired waits are in the queue of the [io_context], which outlives the
    watcher.  Sockets are inputs: whether they could be opened and bound, and what
    one [recv] returned. *)

From S2P Require Import Prelude.

Inductive nl_type := NLMSG_DONE | NLMSG_ERROR | RTM_NEWLINK | RTM_DELLINK | RTM_NEWADDR | RTM_DELADDR | RTM_OTHER.

Record InterfaceWatcher := mkWatcher {
  w_running : bool;
  w_started : bool;
  w_sock : bool;                   (* the socket is open *)
  w_jobs : nat;                    (* posted, not run yet *)
  w_armed : bool;                  (* a wait is pending *)
  w_expired : nat;                 (* waits that ended without error, handler not run yet *)
  w_alive : bool;                  (* not destroyed *)
}.
#[global] Instance InterfaceWatcher_eta : Eta InterfaceWatcher := λ w,
  mkWatcher (w_running w) (w_started w) (w_sock w) (w_jobs w) (w_armed w) (w_expired w) (w_alive w).

Inductive watcher_event :=
  | WChange                        (* [on_change_] *)
  | WUseAfterFree.                 (* a queued handler reads a destroyed watcher *)

Abbreviation watcher := (eff InterfaceWatcher watcher_event).

Definition new_watcher : InterfaceWatcher := mkWatcher false false false 0 false 0 true.

(** On Linux. *)
Definition watcher_start (socket_ok bind_ok : bool) : watcher bool :=
  w ← get;
  if w_started w then mret true else
  modify (λ w, w <| w_started := true |>) ;;
  if negb socket_ok then modify (λ w, w <| w_started := false |>) ;; mret false else
  if negb bind_ok then modify (λ w, w <| w_sock := false |> <| w_started := false |>) ;; mret false else
  modify (λ w, w <| w_sock := true |> <| w_running := true |>) ;;
  mret true.

Definition watcher_stop : watcher unit :=
  w ← get;
  if negb (w_started w) then skip else
  modify (λ w, w <| w_running := false |> <| w_sock := false |> <| w_armed := false |>
                 <| w_started := false |>).

(** The destructor. *)
Definition watcher_destroy : watcher unit :=
  watcher_stop ;;
  modify (λ w, w <| w_armed := false |> <| w_alive := false |>).

(** The scan of one read, up to [NLMSG_DONE]. *)
Fixpoint scan (relevant : bool) (msgs : list nl_type) : bool :=
  match msgs with
  | [] | NLMSG_DONE :: _ => relevant
  | NLMSG_ERROR :: msgs => scan relevant msgs
  | (RTM_NEWLINK | RTM_DELLINK | RTM_NEWADDR | RTM_DELADDR) :: msgs => scan true msgs
  | RTM_OTHER :: msgs => scan relevant msgs
  end.

(** One turn of [run_loop] in which [recv] returned [msgs], and the post of
    [schedule_callback]. *)
Definition on_netlink (msgs : list nl_type) : watcher unit :=
  w ← get;
  if negb (w_running w && w_sock w) then skip else
  if scan false msgs then modify (λ w, w <| w_jobs := S (w_jobs w) |>) else skip.

(** The posted job. *)
Definition on_job : watcher unit :=
  w ← get;
  match w_jobs w with
  | O => skip
  | S n =>
      modify (λ w, w <| w_jobs := n |>) ;;
      if negb (w_alive w) then emit WUseAfterFree else
      if negb (w_running w) then skip else
      modify (λ w, w <| w_armed := true |>)
  end.

(** The debounce interval passes. *)
Definition on_expiry : watcher unit :=
  w ← get;
  if w_armed w then modify (λ w, w <| w_armed := false |> <| w_expired := S (w_expired w) |>) else skip.

(** The handler of a wait that expired. *)
Definition on_debounced : watcher unit :=
  w ← get;
  match w_expired w with
  | O => skip
  | S n =>
      modify (λ w, w <| w_expired := n |>) ;;
      if negb (w_alive w) then emit WUseAfterFree else
      if negb (w_running w) then skip else emit WChange
  end.

Inductive watcher_input :=
  | VStart (socket_ok bind_ok : bool) | VStop | VDestroy | VNetlink (msgs : list nl_type)
  | VJob | VExpiry | VDebounced.

Definition watcher_handle (i : watcher_input) : watcher unit :=
  match i with
  | VStart s b => watcher_start s b ;; skip
  | VStop => watcher_stop
  | VDestroy => watcher_destroy
  | VNetlink msgs => on_netlink msgs
  | VJob => on_job
  | VExpiry => on_expiry
  | VDebounced => on_debounced
  end.

Definition watcher_run (ins : list watcher_input) : watcher unit := for_each watcher_handle ins.

(** * Properties *)

Definition is_relevant (t : nl_type) : bool :=
  match t with RTM_NEWLINK | RTM_DELLINK | RTM_NEWADDR | RTM_DELADDR => true | _ => false end.

Lemma scan_true msgs : scan true msgs = true.
Proof. induction msgs as [|[] msgs IH]; cbn; done. Qed.

(** A read matters when a change of links or addresses precedes [NLMSG_DONE]. *)
Lemma scan_spec msgs :
  scan false msgs = true ↔ ∃ l1 t l2, msgs = l1 ++ t :: l2 ∧ is_relevant t = true ∧ NLMSG_DONE ∉ l1.
Proof.
  induction msgs as [|t msgs IH].
  - split; [done|]. intros ([|] & ? & ? & ? & _); discriminate.
  - destruct (is_relevant t) eqn:Ht.
    + split; [|intros _; destruct t; try done; apply scan_true].
      intros _. exists [], t, msgs. split_and!; [done|done|apply not_elem_of_nil].
    + assert (t ≠ NLMSG_DONE → scan false (t :: msgs) = scan false msgs) as Hr by (by destruct t).
      split.
      * intros Hm. assert (t ≠ NLMSG_DONE) as Hd by (by intros ->). rewrite (Hr Hd), IH in Hm.
        destruct Hm as (l1 & t' & l2 & -> & Hrel & Hn). exists (t :: l1), t', l2.
        split_and!; [done|done|]. rewrite not_elem_of_cons. done.
      * intros ([|x l1] & t' & l2 & Heq & Hrel & Hn); injection Heq as -> Heq; [congruence|].
        apply not_elem_of_cons in Hn as [Hx Hn]. rewrite Hr by done. apply IH. by exists l1, t', l2.
Qed.

(** A watcher that runs and has nothing queued. *)
Definition watching (w : InterfaceWatcher) : Prop :=
  w_running w = true ∧ w_sock w = true ∧ w_alive w = true ∧ w_armed w = false ∧ w_expired w = 0%nat.

Lemma reads_run reads w : w_running w = true → w_sock w = true →
  Forall (λ msgs, scan false msgs = true) reads →
  exec (watcher_run (VNetlink <$> reads)) w = (w <| w_jobs := (length reads + w_jobs w)%nat |>, []).
Proof.
  intros Hr Hs Hf. revert w Hr Hs. induction Hf as [|msgs reads Hm _ IH]; intros w Hr Hs; [by destruct w|].
  unfold watcher_run in *. cbn [fmap list_fmap for_each]. rewrite exec_bind.
  assert (run (watcher_handle (VNetlink msgs)) w = (tt, w <| w_jobs := S (w_jobs w) |>, [])) as Hx
    by (unfold watcher_handle, on_netlink; by rewrite run_get, Hr, Hs, Hm).
  rewrite Hx, IH by done. cbn. by rewrite Nat.add_succ_r.
Qed.

Lemma jobs_run n w : w_running w = true → w_alive w = true → w_jobs w = n →
  exec (watcher_run (replicate n VJob)) w
  = (w <| w_jobs := 0%nat |> <| w_armed := w_armed w || bool_decide (n ≠ 0%nat) |>, []).
Proof.
  revert w. induction n as [|n IH]; intros w Hr Ha Hj.
  - destruct w; cbn in *; subst. by rewrite orb_false_r.
  - unfold watcher_run in *. cbn [replicate for_each]. rewrite exec_bind.
    assert (run (watcher_handle VJob) w = (tt, w <| w_jobs := n |> <| w_armed := true |>, [])) as Hx
      by (unfold watcher_handle, on_job; by rewrite run_get, Hj, Ha, Hr).
    rewrite Hx, IH by done. cbn. by rewrite orb_true_r.
Qed.

Lemma outputs_exec {A} (m : watcher A) w w' es : exec m w = (w', es) → outputs m w = es.
Proof. unfold outputs. by intros ->. Qed.
Lemma final_exec {A} (m : watcher A) w w' es : exec m w = (w', es) → final m w = w'.
Proof. unfold final. by intros ->. Qed.

(** However many relevant reads a burst has, it leads to one callback. *)
Theorem watcher_debounces w reads :
  watching w → w_jobs w = 0%nat → reads ≠ [] → Forall (λ msgs, scan false msgs = true) reads →
  outputs (watcher_run ((VNetlink <$> reads) ++ replicate (length reads) VJob
    ++ [VExpiry; VDebounced; VExpiry; VDebounced])) w = [WChange].
Proof.
  intros (Hr & Hs & Ha & Hm & He) Hj Hne Hf. unfold watcher_run.
  rewrite outputs_for_each_app. fold (watcher_run (VNetlink <$> reads)).
  rewrite (outputs_exec _ _ _ _ (reads_run reads w Hr Hs Hf)),
    (final_exec _ _ _ _ (reads_run reads w Hr Hs Hf)), Hj, Nat.add_0_r, outputs_for_each_app.
  set (w1 := w <| w_jobs := length reads |>).
  pose proof (jobs_run (length reads) w1 Hr Ha eq_refl) as Hjobs. fold (watcher_run (replicate (length reads) VJob)).
  rewrite (outputs_exec _ _ _ _ Hjobs), (final_exec _ _ _ _ Hjobs).
  rewrite bool_decide_true by (by destruct reads). destruct w; cbn in *; subst. done.
Qed.

(** A watcher that was stopped calls nobody, whatever is still queued, as long as it
    is neither started again nor destroyed. *)
Definition idle_input (i : watcher_input) : Prop :=
  match i with VStart _ _ | VDestroy => False | _ => True end.

Lemma stopped_step i w : idle_input i → w_running w = false → w_alive w = true →
  outputs (watcher_handle i) w = [] ∧ w_running (final (watcher_handle i) w) = false
  ∧ w_alive (final (watcher_handle i) w) = true.
Proof.
  intros Hi Hr Ha. destruct w as [run st so jobs arm ex al]; cbn in *; subst.
  destruct i; try done; unfold outputs, final, exec; cbn.
  - by destruct st.
  - by destruct jobs.
  - by destruct arm.
  - by destruct ex.
Qed.

Theorem stopped_watcher_silent w ins : Forall idle_input ins →
  w_running w = false → w_alive w = true → outputs (watcher_run ins) w = [].
Proof.
  intros Hi. revert w. induction Hi as [|i ins Hi _ IH]; intros w Hr Ha; [done|].
  unfold watcher_run. rewrite outputs_for_each_cons.
  destruct (stopped_step i w Hi Hr Ha) as (-> & Hr' & Ha'). by apply IH.
Qed.

(** A job that was posted before the watcher was destroyed reads it afterwards. *)
Example watcher_use_after_free :
  outputs (watcher_run [VStart true true; VNetlink [RTM_NEWADDR]; VStop; VDestroy; VJob]) new_watcher
  = [WUseAfterFree].
Proof. done. Qed.
