(* ===== verification/Portmap.v ===== *)
(** The port-mapping client (src/portmap_ext_client.hpp, src/portmap_ext_client.cpp):
    which tables of the [gn.link.portmap] extension it accepts, and what a request
    leaves in the caller's structure.  The extension is a parameter: a table of slots,
    [None] for null. *)

From S2P Require Import Prelude.

(** [gn_portmap_mapping_t], as the bytes of the structure. *)
Record gn_portmap_api := mkPortmapApi {
  pv_size : nat;
  pv_supported_protocols : option Z;
  (* protocol, ports and lifetime; the caller's structure in, result and structure out *)
  pv_request : option (Z → Z → Z → Z → bytes → Z * bytes);
  pv_release : option (Z → Z → Z);
}.

Section portmap.
Context (sizeof_api sizeof_mapping : nat).

(** [IcePortmapClient::query]: [None] when the host has no query slot, refuses or
    returns null. *)
Definition portmap_query (raw : option gn_portmap_api) : option gn_portmap_api :=
  vt ← raw;
  if decide (pv_size vt < sizeof_api)%nat then None else
  match pv_supported_protocols vt, pv_request vt, pv_release vt with
  | Some _, Some _, Some _ => Some vt
  | _, _, _ => None
  end.

Definition supported_protocols (vt : gn_portmap_api) : Z := default 0 (pv_supported_protocols vt).

(** The result, and the caller's structure afterwards ([None]: no structure given). *)
Definition portmap_request (vt : gn_portmap_api) (protocol int_port hint lifetime : Z) (out : option bytes)
    : bool * option bytes :=
  match pv_request vt, out with
  | Some f, Some _ =>
      let '(rc, out') := f protocol int_port hint lifetime (replicate sizeof_mapping 0) in
      (bool_decide (rc = 0), Some out')
  | _, _ => (false, out)
  end.

Definition portmap_release (vt : gn_portmap_api) (protocol int_port : Z) : bool :=
  match pv_release vt with Some f => bool_decide (f protocol int_port = 0) | None => false end.

(** Every slot of an accepted table can be called. *)
Lemma portmap_query_complete raw vt : portmap_query raw = Some vt →
  raw = Some vt ∧ (sizeof_api ≤ pv_size vt)%nat
  ∧ is_Some (pv_supported_protocols vt) ∧ is_Some (pv_request vt) ∧ is_Some (pv_release vt).
Proof.
  unfold portmap_query. destruct raw as [v|]; [|done]. cbn. case_decide; [done|].
  repeat case_match; try done. intros [= <-]. rewrite ?H0, ?H1, ?H2. split_and!; try done; try lia; by eexists.
Qed.

(** A router that refuses without writing leaves the caller with a cleared structure,
    not with the one it had. *)
Theorem portmap_request_clears vt protocol int_port hint lifetime out :
  (∃ f, pv_request vt = Some f ∧ ∀ p i h l m, f p i h l m = (1, m)) →
  portmap_request vt protocol int_port hint lifetime (Some out) = (false, Some (replicate sizeof_mapping 0)).
Proof. intros (f & Hf & Hr). unfold portmap_request. by rewrite Hf, Hr. Qed.
End portmap.
